(* ===== verification/_CoqProject ===== *)
-Q . S2P
Prelude.v
GoError.v
Schema.v
Store.v
Logic.v
GoStrings.v
Strconv.v
Utf8.v
Json.v
JsonDecode.v
Base64.v
Demo.v
Jobs.v
QueueFacts.v
QueueDemo.v
Worker.v
WorkerLife.v
Sql.v
QueriesOrg.v
QueriesAuth.v
QueriesInv.v
QueriesWork.v
Permissions.v
Pagination.v
Tenancy.v
Slug.v
AuditTrail.v
Authz.v
Organizations.v
Validation.v
Scanner.v
Decode.v
Teams.v
Projects.v
Tasks.v
Auth.v
Delivery.v
Invitations.v
ApiKeys.v
Integrity.v
Lifecycle.v
Roster.v
Ownership.v
GoNet.v
Config.v
WorkerMain.v
Periodic.v
Http.v
RateLimit.v
RateFacts.v
RateProps.v
AuthHttp.v
AuditService.v
Services.v
Endpoint.v
TeamsHandler.v
ProjectsHandler.v
TasksHandler.v
ApiKeysHandler.v
AuditHandler.v
InvitationsHandler.v
AuthHandler.v
OrganizationsHandler.v
Middleware.v
Observers.v
QueueDepth.v
Routing.v
Router.v
RouterDemo.v
ApiMain.v
System.v
