(* ===== verification/Prelude.v ===== *)
(** * TeamFlow: a verification development

    TeamFlow ([src/]) is a multi-tenant project-management back end in Go: an HTTP API
    ([cmd/api]) and a job worker ([cmd/worker]) that share a PostgreSQL database and a Redis
    server.  This library models the program from its SQL statements up to its router and its
    two processes, and proves what makes it correct.

    ** How the program is modelled

    Code with effects is a function of the monad [M] of [Store.v]: it maps a [World] (the
    tables, the open transaction, Redis, the mails sent, a count of the effects performed) to
    a result or an error and a new [World].  Whatever the program does not decide (the clock,
    identifiers, random bytes, hashes, and whether a statement, a Redis command or a mail
    fails for reasons of its own) is an [Env] or one of the classes below, indexed by the
    number of the effect; a theorem that quantifies over them holds for every pattern of
    failures.  Redis answers each command of a pipeline for itself: it may refuse one and
    execute the next.  The workers of a pool interleave by a step relation; requests and jobs
    share the database one after the other.  Integers keep their width where it matters ([wrap64],
    [int32] conversions); spans and instants are nanoseconds in [Z]; [float64] is a rational
    with a rounding after each operation; strings are byte sequences.

    ** The parts, bottom up

    - Errors and text: [GoError] ([internal/httpx/errors.go]: error chains and the response an
      error becomes), [GoStrings], [Strconv], [Utf8], [Json], [JsonDecode], [Base64], [Scanner],
      [Decode] (what the program uses of Go's standard library, and [internal/httpx/decode.go]),
      [Validation], [Pagination], [Slug].
    - Database: [Schema] (rows and tables), [Store] (transactions, row-level security,
      [WithTenantTx]), [Logic] (the calculi the proofs use), [Sql] and [QueriesOrg],
      [QueriesAuth], [QueriesInv], [QueriesWork] (every statement of [internal/db/*.sql.go]
      that the code calls, with the constraints of [migrations/]), [Tenancy] (what a statement
      for one organization cannot touch).
    - Services: [Permissions], [AuditTrail], [Organizations] (implements the interface of
      [Authz], against which [Teams], [Projects], [Tasks], [Invitations], [ApiKeys] and
      [AuditService] are proved), [Auth], [Delivery] (the interfaces for mail and queue).
    - Jobs: [Jobs] ([internal/jobs/jobs.go]), [QueueFacts] (its Redis calculus), [Worker] and
      [WorkerLife] ([internal/jobs/worker.go]; the pool as a step relation), [Config],
      [WorkerMain] ([cmd/worker/main.go]), [Periodic] (its two sweeps as chains of jobs),
      [QueueDepth] (the queue's reports).
    - HTTP: [GoNet], [Http], [RateLimit] with [RateFacts] and [RateProps]
      ([internal/ratelimit]), [AuthHttp] ([internal/auth/middleware.go]), [Endpoint] and the
      [*Handler] files (one per [internal/*/handler.go]), [Middleware], [Observers] (access log
      and metrics), [Routing] (the routing library's contract), [Router]
      ([internal/api/router.go] and every [RegisterRoutes]), [ApiMain] ([cmd/api/main.go]).
    - The whole: [Integrity] (what the tables promise about each other, statement by
      statement), [Roster] (the abstract machine of membership), [Lifecycle] (what may become of
      an invitation), [Ownership] (every organization keeps an owner), [Services] (every operation
      of every service keeps all of that), [System] (the two processes as steps over one
      database).
    - [Demo], [QueueDemo] and [RouterDemo] are concrete instances on which the theorems'
      witnesses are evaluated; no theorem about the program depends on them.

    A definition has the name of the function it models, with [_] appended where Rocq or a
    sibling already uses the name; the file header names the source file.  A function whose
    body runs inside a transaction is split into that body ([*_body], [*_tx]) and the rest.

    ** What is proved

    - Membership, by refinement: both processes implement the abstract machine of [Roster]
      ([System.system_implements_roster]): whatever runs, who belongs to which organization in
      which role changes only by founding, inviting, taking an invitation and assigning roles,
      and each change is one its caller was entitled to.
    - The state of the system: from a migrated database, whatever requests and jobs run and
      whatever fails, the tables are well formed ([System.system_well_formed]), every
      organization has its owner ([System.system_owned]) and can be administered
      ([System.system_administrable]), and an active member is never refused for a missing row
      ([System.system_member_resolves]).
    - Authorization, end to end: [Router.api_authorized] (a request on a guarded route is
      refused without effect, or its own credentials are those of a member with the permission
      of that route, and no other organization's rows change), [Router.api_anonymous],
      [Router.tenant_routes_closed] (no route below an organization is left open); below them [AuthHttp.resolve_Ok], [Organizations.Authorize_reference]
      (a refinement of the abstract [authorize_spec]), [ApiKeys.revoked_refused].
    - Sessions: [Auth.session_inv], [Auth.Refresh_rotates], [Auth.Refresh_reuse],
      [Auth.retired_refused], [Auth.Login_Ok], [Auth.Register_atomic], [AuthHttp.bearer_roundtrip].
    - Invitations: what may become of one under any sequence of requests and jobs of the whole
      system ([System.system_invitations]), acceptance and its uniqueness; organizations: the
      creator and the last Owner.  Updates: [Projects.Update_Ok] is the merge of what the client
      set; reads: [AuditService.Audit_.audit_list_Ok] is the exact page.
    - Jobs: whatever crashes and whatever command fails, a job waits, completes, is
      dead-lettered, or Redis refused a command that recorded or promoted it
      ([WorkerMain.worker_keeps_jobs]); that one refusal is enough to lose it
      ([WorkerLife.refused_recording_loses]).  While nothing fails, what every run of a handler
      leads to and how often ([WorkerLife.handle_progress], [WorkerLife.retries_terminate]), bounds
      of the backoff, the round trip of a job through encryption and the queue.
    - Rate limiting: exact bursts, the bound over any window up to rounding, and what clocks
      that disagree do.
    - Processes: what a configuration that loads satisfies, and what a started process checked;
      every response carries the security headers.
    - Behaviour that is probably not meant is proved as well: [WorkerLife.refused_recording_loses],
      [Periodic.redeliver_without_queue], [Worker.late_outcome_lost], [Periodic.periodic_chain],
      [ApiKeys.key_ttl_overflow], [RateProps.clock_skew_mints], [Observers.methods_unbounded].

    ** Parameters

    [Env] (clock, identifiers, entropy, faults, bcrypt, SHA-256, token signing, Unicode tables, the role's exemption from
    row-level security), [AEAD] (AES-GCM), [Platform] (text of instants, float conversion),
    [RedisServer] (the commands of the queue), [JwtParser], [GoNet] and [GoTime] (URL, address
    and date syntax), [Float64], [Chi] and [RouteContext] (matching in one router), [PgRole].
    Their documented behaviour is stated by the classes named [*Laws]; [QueueDemo],
    [RateProps], [AuthHttp] and [RouterDemo] show that it can hold.

    ** Fuel

    Recursion over bytes whose step is not structural takes a natural number.  It is always at
    least the length of the input, and every step consumes a byte (UTF-8 decoding, trimming,
    cutting, escaping, durations, the JSON parser); [JsonDecode.Unmarshal_Marshal] shows that
    the fuel of the JSON parser suffices for every document the program writes.  The unique-slug
    loops run their five attempts, as in the code.

    ** Not modelled

    Connection pools ([database.New], [internal/cache]), listeners, signals and shutdown; log
    lines other than the access log; histogram buckets and the exposition format of the metrics;
    timing (the dummy password comparison of [Login]); the nesting limit of [encoding/json] and
    the canonical text of IP addresses in audit rows; recovery from panics, since no handler of
    the model panics; row locks ([FOR UPDATE] reads like any query) and PostgreSQL's isolation
    beyond one transaction at a time, so nothing is proved about two requests that overlap
    ([System] runs requests and jobs one after the other); the retries of the Redis client
    library.  [internal/db/querier.go] and [db.go] are generated
    interfaces without behaviour; [tests/] is outside the model. *)
From stdpp Require Export base tactics option list gmap sets strings decidable countable numbers.
From Stdlib Require Export ZArith Lia.


(** ** Identifiers, instants and spans

    A [uuid.UUID] is sixteen bytes; it is represented by the number they spell, so that
    [uuid.Nil] is zero.  Instants ([time.Time]) and spans ([time.Duration]) are
    nanosecond counts. *)
Abbreviation uuid := N (only parsing).
Definition uuid_Nil : N := 0%N.

Abbreviation Time := Z (only parsing).
Abbreviation Duration := Z (only parsing).

Definition Millisecond : Z := 1000000.
Definition Second : Z := 1000000000.
Definition Minute : Z := 60 * Second.
Definition Hour : Z := 60 * Minute.

(** [t.After(u)]: strictly later. *)
Definition time_After (t u : Z) : bool := Z.ltb u t.

(** Two's complement wrap-around of Go's [int64], the width of [time.Duration]. *)
Definition wrap64 (z : Z) : Z :=
  let r := Z.modulo z (2 ^ 64) in if Z.ltb r (2 ^ 63) then r else r - 2 ^ 64.

Lemma wrap64_range z : (- 2 ^ 63 <= wrap64 z < 2 ^ 63)%Z.
Proof.
  unfold wrap64. pose proof (Z.mod_pos_bound z (2 ^ 64) eq_refl).
  destruct (Z.ltb_spec (z mod 2 ^ 64) (2 ^ 63)); lia.
Qed.

Lemma wrap64_id z : (- 2 ^ 63 <= z < 2 ^ 63)%Z -> wrap64 z = z.
Proof.
  intros H. unfold wrap64. destruct (Z.le_gt_cases 0 z).
  - rewrite Z.mod_small by lia. destruct (Z.ltb_spec z (2 ^ 63)); lia.
  - replace (z mod 2 ^ 64)%Z with (z + 2 ^ 64)%Z.
    + destruct (Z.ltb_spec (z + 2 ^ 64) (2 ^ 63)); lia.
    + rewrite <- (Z.mod_add z 1) by lia. rewrite Z.mod_small; lia.
Qed.

(** ** Decidable equality as a boolean, for the code's [==] *)
Definition beq {A} `{EqDecision A} (x y : A) : bool := bool_decide (x = y).
Infix "=?=" := beq (at level 70, no associativity).

Lemma beq_true {A} `{EqDecision A} (x y : A) : (x =?= y) = true <-> x = y.
Proof. apply bool_decide_eq_true. Qed.
Lemma beq_false {A} `{EqDecision A} (x y : A) : (x =?= y) = false <-> x <> y.
Proof. apply bool_decide_eq_false. Qed.
Lemma beq_eq {A} `{EqDecision A} (x y : A) : (x =?= y) = true -> x = y.
Proof. apply beq_true. Qed.
Lemma beq_neq {A} `{EqDecision A} (x y : A) : (x =?= y) = false -> x <> y.
Proof. apply beq_false. Qed.
Lemma eq_beq {A} `{EqDecision A} (x y : A) : x = y -> (x =?= y) = true.
Proof. apply beq_true. Qed.
Lemma neq_beq {A} `{EqDecision A} (x y : A) : x <> y -> negb (x =?= y) = true.
Proof. intros Hne. by apply negb_true_iff, beq_false. Qed.
Lemma beq_refl {A} `{EqDecision A} (x : A) : (x =?= x) = true.
Proof. by apply beq_true. Qed.

Lemma beq_spec_dec {A} `{EqDecision A} (x y : A) :
  ((x =?= y) = true /\ x = y) + ((x =?= y) = false /\ x <> y).
Proof. destruct (x =?= y) eqn:E; [left|right]; (split; [done|]); [by apply beq_eq|by apply beq_neq]. Qed.

(** [*p == nil] tests. *)
Definition is_nil {A} (o : option A) : bool := match o with None => true | Some _ => false end.

(** ** Automation

    [bool_hyps] turns the boolean guards of the code into propositions;
    [split_ifs] follows every branch of the goal. *)
Create HintDb teamflow.
Create HintDb teamflow_frame.

Ltac bool_hyps :=
  repeat match goal with
  | H : (_ =?= _) = true |- _ => apply beq_eq in H
  | H : (_ =?= _) = false |- _ => apply beq_neq in H
  | H : (_ && _)%bool = true |- _ => apply andb_true_iff in H; destruct H
  | H : (_ || _)%bool = false |- _ => apply orb_false_iff in H; destruct H
  | H : negb _ = true |- _ => apply negb_true_iff in H
  | H : negb _ = false |- _ => apply negb_false_iff in H
  | H : (_ <? _)%Z = true |- _ => apply Z.ltb_lt in H
  | H : (_ <? _)%Z = false |- _ => apply Z.ltb_ge in H
  | H : (_ <=? _)%Z = true |- _ => apply Z.leb_le in H
  | H : (_ <=? _)%Z = false |- _ => apply Z.leb_gt in H
  | H : bool_decide _ = true |- _ => apply bool_decide_eq_true in H
  | H : bool_decide _ = false |- _ => apply bool_decide_eq_false in H
  end.

Ltac split_ifs :=
  repeat (case_match; bool_hyps; simplify_eq/=).

(** ** Maps: rows of a table that satisfy a predicate, rows that do not *)
Section tables.
Context {K} `{Countable K} {R : Type}.
Implicit Types (t : gmap K R) (P : R -> Prop).

(** The rows for which [P] holds, as a sub-table. *)
Definition rows_where P `{!forall r, Decision (P r)} (t : gmap K R) : gmap K R :=
  filter (fun kr : K * R => P kr.2) t.

Lemma rows_where_lookup P `{!forall r, Decision (P r)} t k r :
  rows_where P t !! k = Some r <-> t !! k = Some r /\ P r.
Proof. unfold rows_where. by rewrite map_lookup_filter_Some. Qed.

(** Inserting or updating a row outside [P] leaves the [P]-rows alone. *)
Lemma rows_where_insert_fresh P `{!forall r, Decision (P r)} t k r :
  t !! k = None -> ~ P r -> rows_where P (<[k:=r]> t) = rows_where P t.
Proof.
  intros Hk Hr. unfold rows_where. rewrite map_filter_insert_False by done.
  by rewrite delete_id.
Qed.
Lemma rows_where_insert_out P `{!forall r, Decision (P r)} t k r r' :
  t !! k = Some r -> ~ P r -> ~ P r' -> rows_where P (<[k:=r']> t) = rows_where P t.
Proof.
  intros Hk Hr Hr'. unfold rows_where.
  rewrite map_filter_insert_False by done. rewrite map_filter_delete_not; [done|].
  intros y Hy. simplify_eq. done.
Qed.
Lemma rows_where_delete_out P `{!forall r, Decision (P r)} t k r :
  t !! k = Some r -> ~ P r -> rows_where P (delete k t) = rows_where P t.
Proof.
  intros Hk Hr. unfold rows_where. apply map_filter_delete_not.
  intros y Hy. simplify_eq. done.
Qed.
(** A bulk update that only touches rows outside [P], and keeps them outside. *)
Lemma rows_where_fmap_out P `{!forall r, Decision (P r)} (f : R -> R) t :
  (forall k r, t !! k = Some r -> P r -> f r = r) ->
  (forall k r, t !! k = Some r -> ~ P r -> ~ P (f r)) ->
  rows_where P (f <$> t) = rows_where P t.
Proof.
  intros Hin Hout. apply map_eq. intros k. apply option_eq. intros r.
  rewrite !rows_where_lookup, lookup_fmap, fmap_Some. split.
  - intros [(r0 & Hr0 & ->) HP]. destruct (decide (P r0)) as [HP0|HP0].
    + by rewrite (Hin _ _ Hr0 HP0).
    + by destruct (Hout _ _ Hr0 HP0).
  - intros [Hr HP]. split; [|done]. exists r. split; [done|]. by rewrite (Hin _ _ Hr HP).
Qed.
(** A bulk delete that only removes rows outside [P]. *)
Lemma rows_where_filter_out P `{!forall r, Decision (P r)} (Q : R -> Prop)
    `{!forall r, Decision (Q r)} t :
  (forall k r, t !! k = Some r -> P r -> Q r) ->
  rows_where P (rows_where Q t) = rows_where P t.
Proof.
  intros HPQ. apply map_eq. intros k. apply option_eq. intros r.
  rewrite !rows_where_lookup. naive_solver.
Qed.
End tables.

(** The rows of a table in the map's own order: what a statement without [ORDER BY]
    scans. *)
Definition rows {K} `{Countable K} {R} (t : gmap K R) : list R := (map_to_list t).*2.

Lemma elem_of_rows {K} `{Countable K} {R} (t : gmap K R) (r : R) :
  r ∈ rows t <-> exists k, t !! k = Some r.
Proof.
  unfold rows. rewrite list_elem_of_fmap. split.
  - intros ([k r'] & -> & Hkr). exists k. by apply elem_of_map_to_list.
  - intros [k Hk]. exists (k, r). split; [done|]. by apply elem_of_map_to_list.
Qed.

(** A scan that keeps some rows sees each row of the table it keeps once. *)
Lemma rows_filter {K} `{Countable K} {R} (P : R -> bool) (t : gmap K R) :
  List.filter P (rows t) ≡ₚ rows (filter (fun kr : K * R => P kr.2 = true) t).
Proof.
  assert (Hl : forall l : list (K * R), List.filter P l.*2 = (filter (fun kr => P kr.2 = true) l).*2).
  { induction l as [|[k r] l IH]; [done|]. rewrite filter_cons. cbn. rewrite IH. by destruct (P r). }
  unfold rows. rewrite Hl. apply Permutation_map, list.NoDup_Permutation; [apply list.NoDup_filter, NoDup_map_to_list|apply NoDup_map_to_list|].
  intros [k r]. rewrite list_elem_of_filter, !elem_of_map_to_list, map_lookup_filter_Some. tauto.
Qed.

(** The first row a scan returns for a condition: [QueryRow] keeps one row. *)
Definition find_row {K} `{Countable K} {R} (P : R -> bool) (t : gmap K R) : option R :=
  List.find P (rows t).

Lemma find_row_Some {K} `{Countable K} {R} (P : R -> bool) (t : gmap K R) r :
  find_row P t = Some r -> P r = true /\ exists k, t !! k = Some r.
Proof.
  intros Hf. apply List.find_some in Hf as [Hin HP]. split; [done|].
  apply elem_of_rows. by apply list_elem_of_In.
Qed.
Lemma find_row_None {K} `{Countable K} {R} (P : R -> bool) (t : gmap K R) :
  find_row P t = None <-> forall k r, t !! k = Some r -> P r = false.
Proof.
  unfold find_row. split.
  - intros Hf k r Hk. apply (List.find_none _ _ Hf). apply list_elem_of_In, elem_of_rows. eauto.
  - intros Hall. destruct (List.find P (rows t)) eqn:Hf; [|done].
    apply find_row_Some in Hf as [HP [k Hk]]. rewrite (Hall _ _ Hk) in HP. done.
Qed.
(** When at most one row satisfies the condition, the scan finds it. *)
Lemma find_row_unique {K} `{Countable K} {R} (P : R -> bool) (t : gmap K R) k r :
  t !! k = Some r -> P r = true ->
  (forall k' r', t !! k' = Some r' -> P r' = true -> r' = r) ->
  find_row P t = Some r.
Proof.
  intros Hk HP Huniq. destruct (find_row P t) as [r'|] eqn:Hf.
  - apply find_row_Some in Hf as [HP' [k' Hk']]. f_equal. eauto.
  - rewrite find_row_None in Hf. rewrite (Hf _ _ Hk) in HP. done.
Qed.

Lemma find_row_ext {K} `{Countable K} {R} (P Q : R -> bool) (t : gmap K R) :
  (forall r, P r = Q r) -> find_row P t = find_row Q t.
Proof. intros HPQ. unfold find_row. induction (rows t) as [|r l IH]; simpl; [done|]. by rewrite HPQ, IH. Qed.

(** [SELECT EXISTS] and [SELECT count( * )]. *)
Definition exists_row {K} `{Countable K} {R} (P : R -> bool) (t : gmap K R) : bool :=
  existsb P (rows t).
Definition count_rows {K} `{Countable K} {R} (P : R -> bool) (t : gmap K R) : Z :=
  Z.of_nat (length (List.filter P (rows t))).

Lemma exists_row_true {K} `{Countable K} {R} (P : R -> bool) (t : gmap K R) :
  exists_row P t = true <-> exists k r, t !! k = Some r /\ P r = true.
Proof.
  unfold exists_row. rewrite existsb_exists. split.
  - intros (r & Hr & HP). apply list_elem_of_In, elem_of_rows in Hr as [k Hk]. eauto.
  - intros (k & r & Hk & HP). exists r. split; [|done].
    apply list_elem_of_In, elem_of_rows. eauto.
Qed.
Lemma exists_row_false {K} `{Countable K} {R} (P : R -> bool) (t : gmap K R) :
  exists_row P t = false <-> forall k r, t !! k = Some r -> P r = false.
Proof.
  rewrite <- not_true_iff_false, exists_row_true. split.
  - intros Hn k r Hk. apply not_true_iff_false. intros HP. apply Hn. eauto.
  - intros Hall (k & r & Hk & HP). rewrite (Hall _ _ Hk) in HP. done.
Qed.

(** Counting and changing one row. *)
Section counting.
Context {K} `{Countable K} {R : Type}.
Implicit Types (t : gmap K R) (P Q : R -> bool).

Lemma count_rows_size P (t : gmap K R) :
  count_rows P t = Z.of_nat (size (filter (fun kr : K * R => P kr.2 = true) t)).
Proof.
  unfold count_rows, rows. f_equal. induction t as [|k r t Hk Hfirst IH] using map_first_key_ind.
  - by rewrite map_to_list_empty, map_filter_empty, map_size_empty.
  - rewrite map_to_list_insert_first_key, fmap_cons by done. cbn [List.filter snd].
    destruct (P r) eqn:E; cbn [length].
    + rewrite map_filter_insert_True by done. rewrite map_size_insert_None; [by rewrite IH|].
      apply map_lookup_filter_None. left. done.
    + rewrite map_filter_insert_False by (simpl; congruence). by rewrite delete_id.
Qed.
(** Two rows or more: one is left when a given row is put aside. *)
Lemma count_rows_two P (t : gmap K R) k :
  (1 < count_rows P t)%Z -> exists k' r, k' <> k /\ t !! k' = Some r /\ P r = true.
Proof.
  rewrite count_rows_size. intros Hn. set (u := filter _ t) in *.
  destruct (decide (delete k u = ∅)) as [He|He].
  - assert (size u <= 1)%nat; [|lia]. destruct (u !! k) as [r|] eqn:Ek.
    + rewrite <- (insert_delete_id u k r Ek), He, insert_empty, map_size_singleton. done.
    + rewrite delete_id in He by done. rewrite He, map_size_empty. lia.
  - apply map_choose in He as (k' & r & Hr). apply lookup_delete_Some in Hr as [Hk Hr].
    apply map_lookup_filter_Some in Hr as [Hr HP]. exists k', r. done.
Qed.
End counting.
