(* ===== verification/GoError.v ===== *)
(** * Errors: Go error chains and the HTTP error mapping

    Models [internal/httpx/errors.go], the error half of [internal/httpx/response.go] and
    the permanent-failure marker of [internal/jobs/jobs.go].  A Go error is a chain: the
    constructors below are the node types the program builds, and [Unwrap] follows the
    chain the way the standard library's [errors.Is] and [errors.As] do. *)
From S2P Require Import Prelude.

(** The sentinel values of [errors.go]. *)
Inductive sentinel :=
  | ErrNotFound | ErrUnauthorized | ErrForbidden | ErrValidation
  | ErrConflict | ErrUnprocessable | ErrRateLimited | ErrInternal.
#[export] Instance sentinel_eq_dec : EqDecision sentinel.
Proof. solve_decision. Defined.

Definition sentinel_text (s : sentinel) : string :=
  match s with
  | ErrNotFound => "resource not found" | ErrUnauthorized => "unauthorized"
  | ErrForbidden => "forbidden" | ErrValidation => "validation failed"
  | ErrConflict => "conflict" | ErrUnprocessable => "unprocessable entity"
  | ErrRateLimited => "rate limited" | ErrInternal => "internal error"
  end.

(** One node per way the program makes an error: a sentinel, pgx's [ErrNoRows], a
    PostgreSQL error with its SQLSTATE and constraint, [errors.New], [fmt.Errorf] with
    [%w], [*httpx.APIError] and [*jobs.permanentError]. *)
Inductive error :=
  | Sentinel (s : sentinel)
  | ErrNoRows
  | PgError (Code ConstraintName : string)
  | ErrorsNew (text : string)
  | Errorf (prefix : string) (cause : error)
  | APIError (Status : Z) (Code Message : string) (Details : list (string * string))
             (err : option error)
  | PermanentError (err : error).

(** [errors.Unwrap] *)
Definition Unwrap (e : error) : option error :=
  match e with
  | Errorf _ c => Some c
  | APIError _ _ _ _ c => c
  | PermanentError c => Some c
  | Sentinel _ | ErrNoRows | PgError _ _ | ErrorsNew _ => None
  end.

(** The chain [e], [Unwrap e], ... that [errors.Is] and [errors.As] walk. *)
Fixpoint chain (e : error) : list error :=
  e :: match e with
       | Errorf _ c => chain c
       | APIError _ _ _ _ (Some c) => chain c
       | PermanentError c => chain c
       | _ => []
       end.

Lemma chain_Unwrap e : chain e = e :: from_option chain [] (Unwrap e).
Proof. destruct e as [| | | | |? ? ? ? []|]; done. Qed.

(** [Error()] *)
Fixpoint Error (e : error) : string :=
  match e with
  | Sentinel s => sentinel_text s
  | ErrNoRows => "no rows in result set"
  | PgError code c => String.append "ERROR: (SQLSTATE " (String.append code ")")
  | ErrorsNew t => t
  | Errorf p c => String.append p (String.append ": " (Error c))
  | APIError _ _ msg _ None => msg
  | APIError _ _ _ _ (Some c) => Error c
  | PermanentError c => Error c
  end.

Definition isSentinel (s : sentinel) (e : error) : bool :=
  existsb (fun x => match x with Sentinel s' => s =?= s' | _ => false end) (chain e).
Definition isNoRows (e : error) : bool :=
  existsb (fun x => match x with ErrNoRows => true | _ => false end) (chain e).
(** [errors.As(err, &pgErr)]: the first PostgreSQL error of the chain. *)
Fixpoint first_some {A B} (f : A -> option B) (l : list A) : option B :=
  match l with [] => None | x :: r => match f x with Some b => Some b | None => first_some f r end end.
Definition asPgError (e : error) : option (string * string) :=
  first_some (fun x => match x with PgError c n => Some (c, n) | _ => None end) (chain e).
Definition asAPIError (e : error) : option error :=
  first_some (fun x => match x with APIError _ _ _ _ _ => Some x | _ => None end) (chain e).

(** [NewAPIError] and [NewValidationError] *)
Definition NewAPIError (status : Z) (code message : string) (cause : option error) : error :=
  APIError status code message [] cause.
Definition NewValidationError (fields : list (string * string)) : error :=
  APIError 400 "VALIDATION_ERROR" "The request is invalid" fields (Some (Sentinel ErrValidation)).

(** [FromError] *)
Definition FromError (err : error) : error :=
  match asAPIError err with
  | Some apiErr => apiErr
  | None =>
      if isSentinel ErrNotFound err then
        NewAPIError 404 "NOT_FOUND" "Resource not found" (Some err)
      else if isSentinel ErrUnauthorized err then
        NewAPIError 401 "UNAUTHORIZED" "Authentication required" (Some err)
      else if isSentinel ErrForbidden err then
        NewAPIError 403 "FORBIDDEN" "You do not have permission to perform this action" (Some err)
      else if isSentinel ErrValidation err then
        NewAPIError 400 "VALIDATION_ERROR" "The request is invalid" (Some err)
      else if isSentinel ErrUnprocessable err then
        NewAPIError 422 "UNPROCESSABLE_ENTITY" "The request could not be processed" (Some err)
      else if isSentinel ErrConflict err then
        NewAPIError 409 "CONFLICT" "The request conflicts with the current state" (Some err)
      else if isSentinel ErrRateLimited err then
        NewAPIError 429 "RATE_LIMITED" "Too many requests" (Some err)
      else NewAPIError 500 "INTERNAL_ERROR" "An internal error occurred" (Some err)
  end.

(** What [WriteError] puts on the wire: the status and the [ErrorBody]. *)
Record ErrorBody := {
  Body_Code : string; Body_Message : string;
  Body_Details : list (string * string); Body_RequestID : string
}.
Definition WriteError (requestID : string) (err : error) : Z * ErrorBody :=
  match FromError err with
  | APIError status code msg details _ =>
      (status, {| Body_Code := code; Body_Message := msg;
                  Body_Details := details; Body_RequestID := requestID |})
  | _ => (500%Z, {| Body_Code := "INTERNAL_ERROR"; Body_Message := "An internal error occurred";
                    Body_Details := []; Body_RequestID := requestID |})
  end.
Definition status_of (e : error) : Z := (WriteError "" e).1.
Definition code_of (e : error) : string := Body_Code (WriteError "" e).2.

(** [jobs.Permanent] and [jobs.IsPermanent] *)
Definition Permanent (err : option error) : option error := PermanentError <$> err.
Definition IsPermanent (err : error) : bool :=
  existsb (fun x => match x with PermanentError _ => true | _ => false end) (chain err).

(** ** Facts *)

(** The error, or one that it wraps, was marked by [Permanent]. *)
Inductive marked : error -> Prop :=
  | marked_here e : marked (PermanentError e)
  | marked_wrapped e c : Unwrap e = Some c -> marked c -> marked e.
Lemma IsPermanent_spec e : IsPermanent e = true <-> marked e.
Proof.
  unfold IsPermanent. split.
  - revert e. fix IH 1. intros [| | | |p c|st co m ds o|c]; cbn; try discriminate.
    + intros Hc. by eapply marked_wrapped; [reflexivity|apply IH].
    + destruct o as [c|]; cbn; [|discriminate]. intros Hc. by eapply marked_wrapped; [reflexivity|apply IH].
    + constructor.
  - induction 1 as [e|e c Hu _ IH]; [done|]. by destruct e; simplify_eq/=.
Qed.

Lemma first_some_None {A B} (f : A -> option B) l :
  first_some f l = None <-> forall x, x ∈ l -> f x = None.
Proof.
  induction l as [|y l IH]; simpl.
  - split; [intros _ x Hx; by apply not_elem_of_nil in Hx | done].
  - destruct (f y) eqn:Hy; split.
    + done.
    + intros Hall. specialize (Hall y ltac:(left)). congruence.
    + intros Hn x [->|Hx]%elem_of_cons; [done|]. by apply IH.
    + intros Hall. apply IH. intros x Hx. apply Hall. by right.
Qed.

(** [FromError] always produces an [APIError], so the last branch of [WriteError] is
    never taken. *)
Lemma FromError_api e : exists st c m d x, FromError e = APIError st c m d x.
Proof.
  unfold FromError. destruct (asAPIError e) as [a|] eqn:Ha.
  - assert (Hin : exists y, y ∈ chain e /\ (fun x => match x with APIError _ _ _ _ _ => Some x | _ => None end) y = Some a).
    { revert Ha. unfold asAPIError. induction (chain e) as [|y l IH]; [done|]. simpl.
      destruct y; intros Ha; simplify_eq;
        try (destruct (IH Ha) as (z & Hz & Hf); exists z; split; [by right|done]).
      eexists. split; [left|done]. }
    destruct Hin as (y & _ & Hy). destruct y; simplify_eq. eauto 6.
  - split_ifs; unfold NewAPIError; eauto 6.
Qed.

(** Wrapping with [fmt.Errorf("...: %w", err)] is invisible to every test the program
    makes on errors. *)
Lemma isNoRows_Errorf p e : isNoRows (Errorf p e) = isNoRows e.
Proof. done. Qed.
Lemma isSentinel_Errorf s p e : isSentinel s (Errorf p e) = isSentinel s e.
Proof. done. Qed.
Lemma asPgError_Errorf p e : asPgError (Errorf p e) = asPgError e.
Proof. done. Qed.
Lemma asAPIError_Errorf p e : asAPIError (Errorf p e) = asAPIError e.
Proof. done. Qed.
#[export] Hint Rewrite isNoRows_Errorf isSentinel_Errorf asPgError_Errorf asAPIError_Errorf : teamflow.

(** Wrapping an error on its way up never changes what the client sees: the status,
    the code, the message and the details that [WriteError] writes are those of the
    wrapped error. *)
Theorem WriteError_wrap (rid prefix : string) (e : error) :
  WriteError rid (Errorf prefix e) = WriteError rid e.
Proof.
  unfold WriteError, FromError. autorewrite with teamflow.
  destruct (asAPIError e); [done|].
  repeat match goal with |- context [if isSentinel ?s e then _ else _] =>
    destruct (isSentinel s e); [done|] end.
  done.
Qed.
