(* ===== verification/Schema.v ===== *)
(** * The relational schema

    Models [internal/db/models.go] (the row types sqlc generates from [migrations/]) and
    the tables they live in.  A table is a finite map from the primary key to its row;
    [role_permissions] has no other columns than its key, so it is a set of pairs.
    [json] is the abstract syntax of a JSON column or document.

    The update functions at the end spell out the [SET] clauses of the UPDATE statements
    of [queries/]; every table with a [trg_*_updated_at] trigger also gets its
    [updated_at] rewritten. *)
From S2P Require Import Prelude.
Local Open Scope string_scope.
Local Open Scope Z_scope.

Inductive json :=
  | JNull | JBool (b : bool) | JNum (n : Z) | JStr (s : string)
  | JArr (l : list json) | JObj (fields : list (string * json)).

Record ActivityLog := {
  ActivityLog_ID : N; ActivityLog_OrganizationID : N; ActivityLog_ActorUserID : option N;
  ActivityLog_Action : string; ActivityLog_ResourceType : string; ActivityLog_ResourceID : N;
  ActivityLog_Metadata : json; ActivityLog_CreatedAt : Z
}.
Record ApiKey := {
  ApiKey_ID : N; ApiKey_OrganizationID : N; ApiKey_CreatedBy : N; ApiKey_Name : string;
  ApiKey_KeyPrefix : string; ApiKey_KeyLastFour : string; ApiKey_KeyHash : string;
  ApiKey_ExpiresAt : Z; ApiKey_RevokedAt : option Z; ApiKey_LastUsedAt : option Z;
  ApiKey_CreatedAt : Z; ApiKey_UpdatedAt : Z
}.
Record AuditLog := {
  AuditLog_ID : N; AuditLog_OrganizationID : option N; AuditLog_ActorUserID : option N;
  AuditLog_Action : string; AuditLog_Outcome : string; AuditLog_TargetType : option string;
  AuditLog_TargetID : option string; AuditLog_IpAddress : option string; AuditLog_UserAgent :
  option string; AuditLog_RequestID : option string; AuditLog_TraceID : option string;
  AuditLog_Metadata : json; AuditLog_CreatedAt : Z
}.
Record Invitation := {
  Invitation_ID : N; Invitation_OrganizationID : N; Invitation_Email : string;
  Invitation_RoleID : N; Invitation_Status : string; Invitation_TokenHash : string;
  Invitation_InvitedBy : N; Invitation_ExpiresAt : Z; Invitation_AcceptedAt : option Z;
  Invitation_AcceptedBy : option N; Invitation_RevokedAt : option Z; Invitation_CreatedAt : Z;
  Invitation_UpdatedAt : Z; Invitation_NotifiedAt : option Z; Invitation_DeliveryAttempts : Z
}.
Record Organization := {
  Organization_ID : N; Organization_Name : string; Organization_Slug : string;
  Organization_Status : string; Organization_CreatedAt : Z; Organization_UpdatedAt : Z
}.
Record OrganizationMembership := {
  OrganizationMembership_ID : N; OrganizationMembership_OrganizationID : N;
  OrganizationMembership_UserID : N; OrganizationMembership_RoleID : N;
  OrganizationMembership_Status : string; OrganizationMembership_JoinedAt : option Z;
  OrganizationMembership_CreatedAt : Z; OrganizationMembership_UpdatedAt : Z
}.
Record Permission := {
  Permission_ID : N; Permission_Key : string; Permission_Description : string;
  Permission_CreatedAt : Z
}.
Record Project := {
  Project_ID : N; Project_OrganizationID : N; Project_TeamID : option N; Project_Name :
  string; Project_Description : option string; Project_Status : string; Project_Priority :
  string; Project_StartDate : option Z; Project_DueDate : option Z; Project_CreatedBy : N;
  Project_CreatedAt : Z; Project_UpdatedAt : Z
}.
Record RefreshToken := {
  RefreshToken_ID : N; RefreshToken_UserID : N; RefreshToken_FamilyID : N;
  RefreshToken_TokenHash : string; RefreshToken_ExpiresAt : Z; RefreshToken_RevokedAt : option
  Z; RefreshToken_ReplacedBy : option N; RefreshToken_UserAgent : option string;
  RefreshToken_IpAddress : option string; RefreshToken_CreatedAt : Z
}.
Record Role := {
  Role_ID : N; Role_OrganizationID : N; Role_Name : string; Role_Description : option string;
  Role_IsSystem : bool; Role_CreatedAt : Z; Role_UpdatedAt : Z
}.
Record Task := {
  Task_ID : N; Task_OrganizationID : N; Task_ProjectID : N; Task_Title : string;
  Task_Description : option string; Task_Status : string; Task_Priority : string;
  Task_AssigneeID : option N; Task_DueDate : option Z; Task_CreatedBy : N; Task_CreatedAt : Z;
  Task_UpdatedAt : Z
}.
Record Team := {
  Team_ID : N; Team_OrganizationID : N; Team_Name : string; Team_Description : option string;
  Team_CreatedBy : N; Team_CreatedAt : Z; Team_UpdatedAt : Z
}.
Record TeamMember := {
  TeamMember_ID : N; TeamMember_OrganizationID : N; TeamMember_TeamID : N; TeamMember_UserID :
  N; TeamMember_CreatedAt : Z
}.
Record User := {
  User_ID : N; User_Email : string; User_PasswordHash : string; User_FirstName : string;
  User_LastName : string; User_AvatarUrl : option string; User_Status : string;
  User_EmailVerifiedAt : option Z; User_LastLoginAt : option Z; User_CreatedAt : Z;
  User_UpdatedAt : Z
}.

Record DB := {
  users : gmap N User;
  organizations : gmap N Organization;
  roles : gmap N Role;
  memberships : gmap N OrganizationMembership;
  permissions : gmap N Permission;
  role_permissions : gset (N * N);
  refresh_tokens : gmap N RefreshToken;
  teams : gmap N Team;
  team_members : gmap N TeamMember;
  projects : gmap N Project;
  tasks : gmap N Task;
  activity_logs : gmap N ActivityLog;
  invitations : gmap N Invitation;
  api_keys : gmap N ApiKey;
  audit_logs : gmap N AuditLog
}.

Definition empty_DB : DB := {|
  users := ∅; organizations := ∅; roles := ∅; memberships := ∅; permissions := ∅;
  role_permissions := ∅; refresh_tokens := ∅; teams := ∅; team_members := ∅; projects := ∅;
  tasks := ∅; activity_logs := ∅; invitations := ∅; api_keys := ∅; audit_logs := ∅
|}.

Definition set_users (t : gmap N User) (d : DB) : DB := {|
  users := t; organizations := d.(organizations); roles := d.(roles); memberships :=
  d.(memberships); permissions := d.(permissions); role_permissions := d.(role_permissions);
  refresh_tokens := d.(refresh_tokens); teams := d.(teams); team_members := d.(team_members);
  projects := d.(projects); tasks := d.(tasks); activity_logs := d.(activity_logs);
  invitations := d.(invitations); api_keys := d.(api_keys); audit_logs := d.(audit_logs)
|}.
Definition set_organizations (t : gmap N Organization) (d : DB) : DB := {|
  users := d.(users); organizations := t; roles := d.(roles); memberships := d.(memberships);
  permissions := d.(permissions); role_permissions := d.(role_permissions); refresh_tokens :=
  d.(refresh_tokens); teams := d.(teams); team_members := d.(team_members); projects :=
  d.(projects); tasks := d.(tasks); activity_logs := d.(activity_logs); invitations :=
  d.(invitations); api_keys := d.(api_keys); audit_logs := d.(audit_logs)
|}.
Definition set_roles (t : gmap N Role) (d : DB) : DB := {|
  users := d.(users); organizations := d.(organizations); roles := t; memberships :=
  d.(memberships); permissions := d.(permissions); role_permissions := d.(role_permissions);
  refresh_tokens := d.(refresh_tokens); teams := d.(teams); team_members := d.(team_members);
  projects := d.(projects); tasks := d.(tasks); activity_logs := d.(activity_logs);
  invitations := d.(invitations); api_keys := d.(api_keys); audit_logs := d.(audit_logs)
|}.
Definition set_memberships (t : gmap N OrganizationMembership) (d : DB) : DB := {|
  users := d.(users); organizations := d.(organizations); roles := d.(roles); memberships :=
  t; permissions := d.(permissions); role_permissions := d.(role_permissions); refresh_tokens
  := d.(refresh_tokens); teams := d.(teams); team_members := d.(team_members); projects :=
  d.(projects); tasks := d.(tasks); activity_logs := d.(activity_logs); invitations :=
  d.(invitations); api_keys := d.(api_keys); audit_logs := d.(audit_logs)
|}.
Definition set_permissions (t : gmap N Permission) (d : DB) : DB := {|
  users := d.(users); organizations := d.(organizations); roles := d.(roles); memberships :=
  d.(memberships); permissions := t; role_permissions := d.(role_permissions); refresh_tokens
  := d.(refresh_tokens); teams := d.(teams); team_members := d.(team_members); projects :=
  d.(projects); tasks := d.(tasks); activity_logs := d.(activity_logs); invitations :=
  d.(invitations); api_keys := d.(api_keys); audit_logs := d.(audit_logs)
|}.
Definition set_role_permissions (t : gset (N * N)) (d : DB) : DB := {|
  users := d.(users); organizations := d.(organizations); roles := d.(roles); memberships :=
  d.(memberships); permissions := d.(permissions); role_permissions := t; refresh_tokens :=
  d.(refresh_tokens); teams := d.(teams); team_members := d.(team_members); projects :=
  d.(projects); tasks := d.(tasks); activity_logs := d.(activity_logs); invitations :=
  d.(invitations); api_keys := d.(api_keys); audit_logs := d.(audit_logs)
|}.
Definition set_refresh_tokens (t : gmap N RefreshToken) (d : DB) : DB := {|
  users := d.(users); organizations := d.(organizations); roles := d.(roles); memberships :=
  d.(memberships); permissions := d.(permissions); role_permissions := d.(role_permissions);
  refresh_tokens := t; teams := d.(teams); team_members := d.(team_members); projects :=
  d.(projects); tasks := d.(tasks); activity_logs := d.(activity_logs); invitations :=
  d.(invitations); api_keys := d.(api_keys); audit_logs := d.(audit_logs)
|}.
Definition set_teams (t : gmap N Team) (d : DB) : DB := {|
  users := d.(users); organizations := d.(organizations); roles := d.(roles); memberships :=
  d.(memberships); permissions := d.(permissions); role_permissions := d.(role_permissions);
  refresh_tokens := d.(refresh_tokens); teams := t; team_members := d.(team_members); projects
  := d.(projects); tasks := d.(tasks); activity_logs := d.(activity_logs); invitations :=
  d.(invitations); api_keys := d.(api_keys); audit_logs := d.(audit_logs)
|}.
Definition set_team_members (t : gmap N TeamMember) (d : DB) : DB := {|
  users := d.(users); organizations := d.(organizations); roles := d.(roles); memberships :=
  d.(memberships); permissions := d.(permissions); role_permissions := d.(role_permissions);
  refresh_tokens := d.(refresh_tokens); teams := d.(teams); team_members := t; projects :=
  d.(projects); tasks := d.(tasks); activity_logs := d.(activity_logs); invitations :=
  d.(invitations); api_keys := d.(api_keys); audit_logs := d.(audit_logs)
|}.
Definition set_projects (t : gmap N Project) (d : DB) : DB := {|
  users := d.(users); organizations := d.(organizations); roles := d.(roles); memberships :=
  d.(memberships); permissions := d.(permissions); role_permissions := d.(role_permissions);
  refresh_tokens := d.(refresh_tokens); teams := d.(teams); team_members := d.(team_members);
  projects := t; tasks := d.(tasks); activity_logs := d.(activity_logs); invitations :=
  d.(invitations); api_keys := d.(api_keys); audit_logs := d.(audit_logs)
|}.
Definition set_tasks (t : gmap N Task) (d : DB) : DB := {|
  users := d.(users); organizations := d.(organizations); roles := d.(roles); memberships :=
  d.(memberships); permissions := d.(permissions); role_permissions := d.(role_permissions);
  refresh_tokens := d.(refresh_tokens); teams := d.(teams); team_members := d.(team_members);
  projects := d.(projects); tasks := t; activity_logs := d.(activity_logs); invitations :=
  d.(invitations); api_keys := d.(api_keys); audit_logs := d.(audit_logs)
|}.
Definition set_activity_logs (t : gmap N ActivityLog) (d : DB) : DB := {|
  users := d.(users); organizations := d.(organizations); roles := d.(roles); memberships :=
  d.(memberships); permissions := d.(permissions); role_permissions := d.(role_permissions);
  refresh_tokens := d.(refresh_tokens); teams := d.(teams); team_members := d.(team_members);
  projects := d.(projects); tasks := d.(tasks); activity_logs := t; invitations :=
  d.(invitations); api_keys := d.(api_keys); audit_logs := d.(audit_logs)
|}.
Definition set_invitations (t : gmap N Invitation) (d : DB) : DB := {|
  users := d.(users); organizations := d.(organizations); roles := d.(roles); memberships :=
  d.(memberships); permissions := d.(permissions); role_permissions := d.(role_permissions);
  refresh_tokens := d.(refresh_tokens); teams := d.(teams); team_members := d.(team_members);
  projects := d.(projects); tasks := d.(tasks); activity_logs := d.(activity_logs);
  invitations := t; api_keys := d.(api_keys); audit_logs := d.(audit_logs)
|}.
Definition set_api_keys (t : gmap N ApiKey) (d : DB) : DB := {|
  users := d.(users); organizations := d.(organizations); roles := d.(roles); memberships :=
  d.(memberships); permissions := d.(permissions); role_permissions := d.(role_permissions);
  refresh_tokens := d.(refresh_tokens); teams := d.(teams); team_members := d.(team_members);
  projects := d.(projects); tasks := d.(tasks); activity_logs := d.(activity_logs);
  invitations := d.(invitations); api_keys := t; audit_logs := d.(audit_logs)
|}.
Definition set_audit_logs (t : gmap N AuditLog) (d : DB) : DB := {|
  users := d.(users); organizations := d.(organizations); roles := d.(roles); memberships :=
  d.(memberships); permissions := d.(permissions); role_permissions := d.(role_permissions);
  refresh_tokens := d.(refresh_tokens); teams := d.(teams); team_members := d.(team_members);
  projects := d.(projects); tasks := d.(tasks); activity_logs := d.(activity_logs);
  invitations := d.(invitations); api_keys := d.(api_keys); audit_logs := t
|}.

(** ** SET clauses *)

Definition User_set_LastLoginAt (now : Z) (r : User) : User := {|
  User_ID := r.(User_ID); User_Email := r.(User_Email); User_PasswordHash :=
  r.(User_PasswordHash); User_FirstName := r.(User_FirstName); User_LastName :=
  r.(User_LastName); User_AvatarUrl := r.(User_AvatarUrl); User_Status := r.(User_Status);
  User_EmailVerifiedAt := r.(User_EmailVerifiedAt); User_LastLoginAt := Some now;
  User_CreatedAt := r.(User_CreatedAt); User_UpdatedAt := now
|}.

Definition Organization_set_Name (now : Z) (name : string) (r : Organization) : Organization
    := {|
  Organization_ID := r.(Organization_ID); Organization_Name := name; Organization_Slug :=
  r.(Organization_Slug); Organization_Status := r.(Organization_Status);
  Organization_CreatedAt := r.(Organization_CreatedAt); Organization_UpdatedAt := now
|}.

Definition Role_set (now : Z) (name : string) (desc : option string) (r : Role) : Role := {|
  Role_ID := r.(Role_ID); Role_OrganizationID := r.(Role_OrganizationID); Role_Name := name;
  Role_Description := desc; Role_IsSystem := r.(Role_IsSystem); Role_CreatedAt :=
  r.(Role_CreatedAt); Role_UpdatedAt := now
|}.

Definition OrganizationMembership_set_RoleID (now : Z) (role : N) (r : OrganizationMembership)
    : OrganizationMembership := {|
  OrganizationMembership_ID := r.(OrganizationMembership_ID);
  OrganizationMembership_OrganizationID := r.(OrganizationMembership_OrganizationID);
  OrganizationMembership_UserID := r.(OrganizationMembership_UserID);
  OrganizationMembership_RoleID := role; OrganizationMembership_Status :=
  r.(OrganizationMembership_Status); OrganizationMembership_JoinedAt :=
  r.(OrganizationMembership_JoinedAt); OrganizationMembership_CreatedAt :=
  r.(OrganizationMembership_CreatedAt); OrganizationMembership_UpdatedAt := now
|}.

Definition RefreshToken_revoke (now : Z) (by_ : option N) (r : RefreshToken) : RefreshToken :=
    {|
  RefreshToken_ID := r.(RefreshToken_ID); RefreshToken_UserID := r.(RefreshToken_UserID);
  RefreshToken_FamilyID := r.(RefreshToken_FamilyID); RefreshToken_TokenHash :=
  r.(RefreshToken_TokenHash); RefreshToken_ExpiresAt := r.(RefreshToken_ExpiresAt);
  RefreshToken_RevokedAt := Some now; RefreshToken_ReplacedBy := by_; RefreshToken_UserAgent
  := r.(RefreshToken_UserAgent); RefreshToken_IpAddress := r.(RefreshToken_IpAddress);
  RefreshToken_CreatedAt := r.(RefreshToken_CreatedAt)
|}.

Definition Team_set (now : Z) (name : string) (desc : option string) (r : Team) : Team := {|
  Team_ID := r.(Team_ID); Team_OrganizationID := r.(Team_OrganizationID); Team_Name := name;
  Team_Description := desc; Team_CreatedBy := r.(Team_CreatedBy); Team_CreatedAt :=
  r.(Team_CreatedAt); Team_UpdatedAt := now
|}.

Definition Project_set (now : Z) (team : option N) (name : string) (desc : option string)
    (status : string) (prio : string) (start : option Z) (due : option Z) (r : Project) :
    Project := {|
  Project_ID := r.(Project_ID); Project_OrganizationID := r.(Project_OrganizationID);
  Project_TeamID := team; Project_Name := name; Project_Description := desc; Project_Status :=
  status; Project_Priority := prio; Project_StartDate := start; Project_DueDate := due;
  Project_CreatedBy := r.(Project_CreatedBy); Project_CreatedAt := r.(Project_CreatedAt);
  Project_UpdatedAt := now
|}.

Definition Project_unset_team (now : Z) (r : Project) : Project := {|
  Project_ID := r.(Project_ID); Project_OrganizationID := r.(Project_OrganizationID);
  Project_TeamID := None; Project_Name := r.(Project_Name); Project_Description :=
  r.(Project_Description); Project_Status := r.(Project_Status); Project_Priority :=
  r.(Project_Priority); Project_StartDate := r.(Project_StartDate); Project_DueDate :=
  r.(Project_DueDate); Project_CreatedBy := r.(Project_CreatedBy); Project_CreatedAt :=
  r.(Project_CreatedAt); Project_UpdatedAt := now
|}.

Definition Task_set (now : Z) (title : string) (desc : option string) (status : string) (prio
    : string) (assignee : option N) (due : option Z) (r : Task) : Task := {|
  Task_ID := r.(Task_ID); Task_OrganizationID := r.(Task_OrganizationID); Task_ProjectID :=
  r.(Task_ProjectID); Task_Title := title; Task_Description := desc; Task_Status := status;
  Task_Priority := prio; Task_AssigneeID := assignee; Task_DueDate := due; Task_CreatedBy :=
  r.(Task_CreatedBy); Task_CreatedAt := r.(Task_CreatedAt); Task_UpdatedAt := now
|}.

Definition Invitation_set_token (now : Z) (h : string) (exp : Z) (r : Invitation) : Invitation
    := {|
  Invitation_ID := r.(Invitation_ID); Invitation_OrganizationID :=
  r.(Invitation_OrganizationID); Invitation_Email := r.(Invitation_Email); Invitation_RoleID
  := r.(Invitation_RoleID); Invitation_Status := r.(Invitation_Status); Invitation_TokenHash
  := h; Invitation_InvitedBy := r.(Invitation_InvitedBy); Invitation_ExpiresAt := exp;
  Invitation_AcceptedAt := r.(Invitation_AcceptedAt); Invitation_AcceptedBy :=
  r.(Invitation_AcceptedBy); Invitation_RevokedAt := r.(Invitation_RevokedAt);
  Invitation_CreatedAt := r.(Invitation_CreatedAt); Invitation_UpdatedAt := now;
  Invitation_NotifiedAt := r.(Invitation_NotifiedAt); Invitation_DeliveryAttempts :=
  r.(Invitation_DeliveryAttempts)
|}.

Definition Invitation_accept (now : Z) (at_ : option Z) (by_ : option N) (r : Invitation) :
    Invitation := {|
  Invitation_ID := r.(Invitation_ID); Invitation_OrganizationID :=
  r.(Invitation_OrganizationID); Invitation_Email := r.(Invitation_Email); Invitation_RoleID
  := r.(Invitation_RoleID); Invitation_Status := "accepted"; Invitation_TokenHash :=
  r.(Invitation_TokenHash); Invitation_InvitedBy := r.(Invitation_InvitedBy);
  Invitation_ExpiresAt := r.(Invitation_ExpiresAt); Invitation_AcceptedAt := at_;
  Invitation_AcceptedBy := by_; Invitation_RevokedAt := r.(Invitation_RevokedAt);
  Invitation_CreatedAt := r.(Invitation_CreatedAt); Invitation_UpdatedAt := now;
  Invitation_NotifiedAt := r.(Invitation_NotifiedAt); Invitation_DeliveryAttempts :=
  r.(Invitation_DeliveryAttempts)
|}.

Definition Invitation_revoke (now : Z) (at_ : option Z) (r : Invitation) : Invitation := {|
  Invitation_ID := r.(Invitation_ID); Invitation_OrganizationID :=
  r.(Invitation_OrganizationID); Invitation_Email := r.(Invitation_Email); Invitation_RoleID
  := r.(Invitation_RoleID); Invitation_Status := "revoked"; Invitation_TokenHash :=
  r.(Invitation_TokenHash); Invitation_InvitedBy := r.(Invitation_InvitedBy);
  Invitation_ExpiresAt := r.(Invitation_ExpiresAt); Invitation_AcceptedAt :=
  r.(Invitation_AcceptedAt); Invitation_AcceptedBy := r.(Invitation_AcceptedBy);
  Invitation_RevokedAt := at_; Invitation_CreatedAt := r.(Invitation_CreatedAt);
  Invitation_UpdatedAt := now; Invitation_NotifiedAt := r.(Invitation_NotifiedAt);
  Invitation_DeliveryAttempts := r.(Invitation_DeliveryAttempts)
|}.

Definition Invitation_expire (now : Z) (r : Invitation) : Invitation := {|
  Invitation_ID := r.(Invitation_ID); Invitation_OrganizationID :=
  r.(Invitation_OrganizationID); Invitation_Email := r.(Invitation_Email); Invitation_RoleID
  := r.(Invitation_RoleID); Invitation_Status := "expired"; Invitation_TokenHash :=
  r.(Invitation_TokenHash); Invitation_InvitedBy := r.(Invitation_InvitedBy);
  Invitation_ExpiresAt := r.(Invitation_ExpiresAt); Invitation_AcceptedAt :=
  r.(Invitation_AcceptedAt); Invitation_AcceptedBy := r.(Invitation_AcceptedBy);
  Invitation_RevokedAt := r.(Invitation_RevokedAt); Invitation_CreatedAt :=
  r.(Invitation_CreatedAt); Invitation_UpdatedAt := now; Invitation_NotifiedAt :=
  r.(Invitation_NotifiedAt); Invitation_DeliveryAttempts := r.(Invitation_DeliveryAttempts)
|}.

Definition Invitation_notify (now : Z) (r : Invitation) : Invitation := {|
  Invitation_ID := r.(Invitation_ID); Invitation_OrganizationID :=
  r.(Invitation_OrganizationID); Invitation_Email := r.(Invitation_Email); Invitation_RoleID
  := r.(Invitation_RoleID); Invitation_Status := r.(Invitation_Status); Invitation_TokenHash
  := r.(Invitation_TokenHash); Invitation_InvitedBy := r.(Invitation_InvitedBy);
  Invitation_ExpiresAt := r.(Invitation_ExpiresAt); Invitation_AcceptedAt :=
  r.(Invitation_AcceptedAt); Invitation_AcceptedBy := r.(Invitation_AcceptedBy);
  Invitation_RevokedAt := r.(Invitation_RevokedAt); Invitation_CreatedAt :=
  r.(Invitation_CreatedAt); Invitation_UpdatedAt := now; Invitation_NotifiedAt := Some now;
  Invitation_DeliveryAttempts := r.(Invitation_DeliveryAttempts)
|}.

Definition Invitation_rotate (now : Z) (h : string) (r : Invitation) : Invitation := {|
  Invitation_ID := r.(Invitation_ID); Invitation_OrganizationID :=
  r.(Invitation_OrganizationID); Invitation_Email := r.(Invitation_Email); Invitation_RoleID
  := r.(Invitation_RoleID); Invitation_Status := r.(Invitation_Status); Invitation_TokenHash
  := h; Invitation_InvitedBy := r.(Invitation_InvitedBy); Invitation_ExpiresAt :=
  r.(Invitation_ExpiresAt); Invitation_AcceptedAt := r.(Invitation_AcceptedAt);
  Invitation_AcceptedBy := r.(Invitation_AcceptedBy); Invitation_RevokedAt :=
  r.(Invitation_RevokedAt); Invitation_CreatedAt := r.(Invitation_CreatedAt);
  Invitation_UpdatedAt := now; Invitation_NotifiedAt := r.(Invitation_NotifiedAt);
  Invitation_DeliveryAttempts := r.(Invitation_DeliveryAttempts) + 1
|}.

Definition ApiKey_revoke (now : Z) (at_ : option Z) (r : ApiKey) : ApiKey := {|
  ApiKey_ID := r.(ApiKey_ID); ApiKey_OrganizationID := r.(ApiKey_OrganizationID);
  ApiKey_CreatedBy := r.(ApiKey_CreatedBy); ApiKey_Name := r.(ApiKey_Name); ApiKey_KeyPrefix
  := r.(ApiKey_KeyPrefix); ApiKey_KeyLastFour := r.(ApiKey_KeyLastFour); ApiKey_KeyHash :=
  r.(ApiKey_KeyHash); ApiKey_ExpiresAt := r.(ApiKey_ExpiresAt); ApiKey_RevokedAt := at_;
  ApiKey_LastUsedAt := r.(ApiKey_LastUsedAt); ApiKey_CreatedAt := r.(ApiKey_CreatedAt);
  ApiKey_UpdatedAt := now
|}.

Definition ApiKey_touch (now : Z) (r : ApiKey) : ApiKey := {|
  ApiKey_ID := r.(ApiKey_ID); ApiKey_OrganizationID := r.(ApiKey_OrganizationID);
  ApiKey_CreatedBy := r.(ApiKey_CreatedBy); ApiKey_Name := r.(ApiKey_Name); ApiKey_KeyPrefix
  := r.(ApiKey_KeyPrefix); ApiKey_KeyLastFour := r.(ApiKey_KeyLastFour); ApiKey_KeyHash :=
  r.(ApiKey_KeyHash); ApiKey_ExpiresAt := r.(ApiKey_ExpiresAt); ApiKey_RevokedAt :=
  r.(ApiKey_RevokedAt); ApiKey_LastUsedAt := Some now; ApiKey_CreatedAt :=
  r.(ApiKey_CreatedAt); ApiKey_UpdatedAt := now
|}.
