(* ===== verification/Store.v ===== *)
(** * The execution environment: database, clock, randomness, transactions

    Models [internal/database/database.go] and the part of pgx and PostgreSQL that the
    services use.  Effects are explicit state passing over a [World]; every effect draws
    its answer from the environment [Env], a function of the number of effects performed
    so far, so that one run is one choice of answers.  In particular [env_fault] lets any
    statement fail for reasons of its own (a lost connection), so theorems that quantify
    over [Env] quantify over every pattern of failures. *)
From S2P Require Import Prelude.
From S2P Require Import GoError.
From S2P Require Import Schema.
Local Open Scope string_scope.

(** ** What the program does not define itself

    The clock, [crypto/rand], [gen_random_uuid()]/[uuid.New()], statement failures; the
    digests, password hashing and token signing of the crypto packages; the case folding
    of PostgreSQL's [citext] and its text collation; the text form of a UUID;
    the Unicode tables and the RFC 5322 address grammar of the standard library; the text
    forms PostgreSQL accepts for an [inet]; whether the database role bypasses
    row-level security. *)
Class Env := {
  env_now : nat -> Z;
  env_uuid : nat -> N;
  env_rand : nat -> nat -> option (list N);
  env_fault : nat -> bool;
  bypass_rls : bool;
  citext_fold : string -> string;
  text_cmp : string -> string -> comparison;
  uuid_String : N -> string;
  uuid_Parse : string -> option N;
  unicode_ToLower : N -> N;
  unicode_IsLetter : N -> bool;
  unicode_IsDigit : N -> bool;
  mail_ParseAddress_ok : string -> bool;
  inet_ok : string -> bool;
  sha256_Sum256 : string -> list N;
  bcrypt_GenerateFromPassword : nat -> string -> option string;
  bcrypt_CompareHashAndPassword : string -> string -> bool;
  jwt_SignedString : string -> list (string * json) -> option string
}.

Definition citext_eq `{Env} (a b : string) : bool := citext_fold a =?= citext_fold b.

(** ** State *)

(** One email handed to the transport ([mailer.Message]). *)
Record Message := {
  Message_To : string; Message_Subject : string; Message_Text : string;
  Message_Link : string; Message_Metadata : list (string * string)
}.

(** The Redis keys of the job queue: the stream with its consumer group (last delivered
    entry and pending entries), the retry sorted set and the dead-letter stream. *)
Record PendingEntry := { pe_consumer : string; pe_delivered : Z; pe_count : Z }.
Record Redis := {
  rd_next : N;
  rd_stream : list (N * option string);
  rd_group : bool;
  rd_last : N;
  rd_pending : list (N * PendingEntry);
  rd_retry : list (string * Z);
  rd_dead : list string
}.
Definition empty_Redis : Redis :=
  {| rd_next := 1; rd_stream := []; rd_group := false; rd_last := 0;
     rd_pending := []; rd_retry := []; rd_dead := [] |}.

(** An open transaction: the time [now()] reports, the value of [app.current_org_id],
    whether a statement failed (PostgreSQL then refuses every further statement), and the
    state a rollback returns to. *)
Record Tx := {
  tx_now : Z; tx_org : option N; tx_aborted : bool; tx_snapshot : DB
}.
Record World := {
  w_db : DB; w_tick : nat; w_tx : option Tx; w_mail : list Message; w_redis : Redis
}.

Definition set_db (d : DB) (w : World) : World :=
  {| w_db := d; w_tick := w_tick w; w_tx := w_tx w; w_mail := w_mail w; w_redis := w_redis w |}.
Definition set_tx (t : option Tx) (w : World) : World :=
  {| w_db := w_db w; w_tick := w_tick w; w_tx := t; w_mail := w_mail w; w_redis := w_redis w |}.
Definition set_mail (l : list Message) (w : World) : World :=
  {| w_db := w_db w; w_tick := w_tick w; w_tx := w_tx w; w_mail := l; w_redis := w_redis w |}.
Definition set_redis (r : Redis) (w : World) : World :=
  {| w_db := w_db w; w_tick := w_tick w; w_tx := w_tx w; w_mail := w_mail w; w_redis := r |}.
Definition next_tick (w : World) : World :=
  {| w_db := w_db w; w_tick := S (w_tick w); w_tx := w_tx w; w_mail := w_mail w;
     w_redis := w_redis w |}.

(** ** The effect monad: Go's [(T, error)] results over a mutable world *)
Inductive result (A : Type) :=
  | Ok (a : A)
  | Err (e : error).
Arguments Ok {A} a.
Arguments Err {A} e.

Definition M (A : Type) : Type := World -> result A * World.

Definition ret {A} (a : A) : M A := fun w => (Ok a, w).
Definition fail {A} (e : error) : M A := fun w => (Err e, w).
Definition bind {A B} (m : M A) (k : A -> M B) : M B := fun w =>
  match m w with
  | (Ok a, w') => k a w'
  | (Err e, w') => (Err e, w')
  end.

Declare Scope go_scope.
Delimit Scope go_scope with go.
Notation "x <- m ;; k" := (bind m (fun x => k))
  (at level 100, m at next level, right associativity) : go_scope.
Notation "m ;;; k" := (bind m (fun _ => k)) (at level 100, right associativity) : go_scope.
Open Scope go_scope.

(** [v, err := m]: the caller looks at the error itself. *)
Definition attempt {A} (m : M A) : M (result A) := fun w => let (r, w') := m w in (Ok r, w').
(** Give back a result obtained with [attempt]. *)
Definition ret_result {A} (r : result A) : M A := match r with Ok a => ret a | Err e => fail e end.
(** [fmt.Errorf("prefix: %w", err)] on the error path. *)
Definition map_err {A} (f : error -> error) (m : M A) : M A := fun w =>
  match m w with (Err e, w') => (Err (f e), w') | r => r end.
Definition wrapf {A} (prefix : string) (m : M A) : M A := map_err (Errorf prefix) m.
(** [defer cleanup]: runs whatever the body's outcome, its own outcome is dropped. *)
Definition defer {A} (cleanup : M unit) (body : M A) : M A := fun w =>
  let (r, w') := body w in (r, (cleanup w').2).
(** [for _, x := range l { f(x) }] with an early return on error. *)
Fixpoint for_each {A} (l : list A) (f : A -> M unit) : M unit :=
  match l with [] => ret tt | x :: r => f x ;;; for_each r f end.
(** A guard: [if b { return err }]. *)
Definition reject_if (b : bool) (e : error) : M unit := if b then fail e else ret tt.

(** ** Answers of the environment *)
Definition timeNow `{Env} : M Z := fun w => (Ok (env_now (w_tick w)), next_tick w).
Definition uuidNew `{Env} : M N := fun w => (Ok (env_uuid (w_tick w)), next_tick w).
Definition randRead `{Env} (n : nat) (errtext : string) : M (list N) := fun w =>
  match env_rand (w_tick w) n with
  | Some b => (Ok b, next_tick w)
  | None => (Err (Errorf errtext (ErrorsNew "entropy source")), next_tick w)
  end.

(** What [crypto/rand] promises: as many bytes as asked for, or an error. *)
Definition rand_ok `{Env} : Prop := forall t n b, env_rand t n = Some b -> length b = n /\ Forall (fun x => (x < 256)%N) b.

(** ** Statements

    A statement sees the tables, the value of [now()], the tenant context and one fresh
    [gen_random_uuid()].  It either returns a value and the new tables or an error. *)
Record StmtCtx := { s_now : Z; s_org : option N; s_uuid : N }.

Definition ErrConn : error := ErrorsNew "connection failure".
(** SQLSTATE 25P02: a statement in a transaction that already failed. *)
Definition ErrAborted : error := PgError "25P02" "".

Definition abort_tx (t : Tx) : Tx :=
  {| tx_now := tx_now t; tx_org := tx_org t; tx_aborted := true; tx_snapshot := tx_snapshot t |}.

(** [ErrNoRows] is raised by the driver's [Scan], so it does not abort a transaction. *)
Definition aborts (e : error) : bool := match e with ErrNoRows => false | _ => true end.

Definition stmt `{Env} {A} (body : StmtCtx -> DB -> result (A * DB)) : M A := fun w =>
  let n := w_tick w in
  let w1 := next_tick w in
  match w_tx w with
  | Some t =>
      if tx_aborted t then (Err ErrAborted, w1)
      else if env_fault n then (Err ErrConn, set_tx (Some (abort_tx t)) w1)
      else match body {| s_now := tx_now t; s_org := tx_org t; s_uuid := env_uuid n |} (w_db w) with
           | Ok (a, d) => (Ok a, set_db d w1)
           | Err e => (Err e, if aborts e then set_tx (Some (abort_tx t)) w1 else w1)
           end
  | None =>
      if env_fault n then (Err ErrConn, w1)
      else match body {| s_now := env_now n; s_org := None; s_uuid := env_uuid n |} (w_db w) with
           | Ok (a, d) => (Ok a, set_db d w1)
           | Err e => (Err e, w1)
           end
  end.

(** A statement that only reads. *)
Definition query `{Env} {A} (f : StmtCtx -> DB -> result A) : M A :=
  stmt (fun c d => match f c d with Ok a => Ok (a, d) | Err e => Err e end).

(** The row-level security policies: a row belongs to the tenant in
    [app.current_org_id], unless the setting is empty or the role bypasses policies. *)
Definition rls_visible `{Env} (c : StmtCtx) (org : N) : bool :=
  bypass_rls || match s_org c with None => true | Some o => o =?= org end.
(** SQLSTATE 42501: a row that violates the policy of its table. *)
Definition ErrRLS : error := PgError "42501" "".

(** [.One] on the first row, or [pgx.ErrNoRows]. *)
Definition one {A} (o : option A) : result A := match o with Some a => Ok a | None => Err ErrNoRows end.

(** Constraint violations: unique (23505), foreign key (23503), check (23514). *)
Definition unique_violation (c : string) : error := PgError "23505" c.
Definition fk_violation (c : string) : error := PgError "23503" c.
Definition check_violation (c : string) : error := PgError "23514" c.

(** Reject a statement when a constraint fails. *)
Definition require {A} (b : bool) (e : error) (k : result A) : result A := if b then k else Err e.
Notation "'check!' b 'else' e ; k" := (require b e k)
  (at level 10, b at level 100, e at level 100, k at level 200) : go_scope.

(** ** Transactions *)

(** [pool.Begin].  The services never open a transaction inside another one; the model
    refuses it. *)
Definition Begin `{Env} : M unit := fun w =>
  let n := w_tick w in
  let w1 := next_tick w in
  match w_tx w with
  | Some _ => (Err (ErrorsNew "nested transaction"), w1)
  | None =>
      if env_fault n then (Err ErrConn, w1)
      else (Ok tt, set_tx (Some {| tx_now := env_now n; tx_org := None; tx_aborted := false;
                                   tx_snapshot := w_db w |}) w1)
  end.

(** [tx.Rollback]: back to the snapshot; nothing once the transaction is closed. *)
Definition Rollback : M unit := fun w =>
  match w_tx w with
  | Some t => (Ok tt, set_tx None (set_db (tx_snapshot t) w))
  | None => (Ok tt, w)
  end.

(** [tx.Commit]: a failed or aborted commit leaves the snapshot. *)
Definition Commit `{Env} : M unit := fun w =>
  let n := w_tick w in
  let w1 := next_tick w in
  match w_tx w with
  | None => (Err (ErrorsNew "tx is closed"), w1)
  | Some t =>
      if tx_aborted t then
        (Err (ErrorsNew "commit unexpectedly resulted in rollback"),
         set_tx None (set_db (tx_snapshot t) w1))
      else if env_fault n then (Err ErrConn, set_tx None (set_db (tx_snapshot t) w1))
      else (Ok tt, set_tx None w1)
  end.

(** [SELECT set_config('app.current_org_id', $1, true)]: local to the transaction. *)
Definition set_config_org `{Env} (orgID : N) : M unit := fun w =>
  let n := w_tick w in
  let w1 := next_tick w in
  match w_tx w with
  | None => if env_fault n then (Err ErrConn, w1) else (Ok tt, w1)
  | Some t =>
      if tx_aborted t then (Err ErrAborted, w1)
      else if env_fault n then (Err ErrConn, set_tx (Some (abort_tx t)) w1)
      else (Ok tt, set_tx (Some {| tx_now := tx_now t; tx_org := Some orgID;
                                   tx_aborted := false; tx_snapshot := tx_snapshot t |}) w1)
  end.

(** [database.WithTenantTx] *)
Definition WithTenantTx `{Env} {A} (orgID : N) (fn : M A) : M A :=
  wrapf "begin tx" Begin ;;;
  defer Rollback
    (wrapf "set tenant context" (set_config_org orgID) ;;;
     a <- fn ;;
     wrapf "commit tx" Commit ;;;
     ret a).
