(* ===== verification/Logic.v ===== *)
(** * Reasoning about effectful code

    Three small calculi over the monad of [Store.v], shared by every component:

    - inversion of successful runs ([bind_Ok], [stmt_Ok], ..., the tactic [go_inv]): if a
      program returned a value, each of its steps did;
    - preservation ([pres R m]): whatever happens, faults included, [m] moves the tables
      along the preorder [R] and leaves the transaction discipline alone;
    - [WithTenantTx]: a transaction either commits or changes nothing. *)
From S2P Require Import Prelude.
From S2P Require Import GoError.
From S2P Require Import Schema.
From S2P Require Import Store.

(** ** Inversion of successful runs *)
Lemma bind_Ok {A B} (m : M A) (k : A -> M B) w b w' :
  bind m k w = (Ok b, w') -> exists a w1, m w = (Ok a, w1) /\ k a w1 = (Ok b, w').
Proof. unfold bind. destruct (m w) as [[a|e] w1] eqn:E; intros; simplify_eq; eauto. Qed.
Lemma bind_run {A B} (m : M A) (k : A -> M B) w a w1 :
  m w = (Ok a, w1) -> bind m k w = k a w1.
Proof. unfold bind. by intros ->. Qed.
Lemma ret_Ok {A} (a b : A) w w' : ret a w = (Ok b, w') -> a = b /\ w = w'.
Proof. unfold ret. intros; by simplify_eq. Qed.
Lemma fail_Ok {A} e (b : A) w w' : fail e w = (Ok b, w') -> False.
Proof. unfold fail. intros; by simplify_eq. Qed.
Lemma map_err_Ok {A} f (m : M A) w a w' : map_err f m w = (Ok a, w') -> m w = (Ok a, w').
Proof. unfold map_err. destruct (m w) as [[]]; intros; by simplify_eq. Qed.
Lemma wrapf_Ok {A} p (m : M A) w a w' : wrapf p m w = (Ok a, w') -> m w = (Ok a, w').
Proof. apply map_err_Ok. Qed.
Lemma attempt_Ok {A} (m : M A) w r w' : attempt m w = (Ok r, w') -> m w = (r, w').
Proof. unfold attempt. destruct (m w) as [r0 w0]. intros; by simplify_eq. Qed.
Lemma reject_if_Ok b e w u w' : reject_if b e w = (Ok u, w') -> b = false /\ w = w'.
Proof. unfold reject_if. destruct b; [done|]. by intros [_ ->]%ret_Ok. Qed.
Lemma ret_result_Ok {A} (r : result A) w a w' :
  ret_result r w = (Ok a, w') -> r = Ok a /\ w = w'.
Proof. destruct r; simpl; [by intros [-> ->]%ret_Ok | done]. Qed.
Lemma defer_run {A} (c : M unit) (m : M A) w : defer c m w = ((m w).1, (c (m w).2).2).
Proof. unfold defer. by destruct (m w). Qed.

Section env.
Context `{Env}.

(** A statement that returned a value ran its body on the current tables; nothing but
    the tables and the effect counter moved. *)
Lemma stmt_Ok {A} (body : StmtCtx -> DB -> result (A * DB)) w a w' :
  stmt body w = (Ok a, w') ->
  exists c d, body c (w_db w) = Ok (a, d) /\ w' = set_db d (next_tick w) /\
    s_uuid c = env_uuid (w_tick w) /\
    match w_tx w with
    | Some t => s_org c = tx_org t /\ s_now c = tx_now t /\ tx_aborted t = false
    | None => s_org c = None /\ s_now c = env_now (w_tick w)
    end.
Proof.
  unfold stmt. destruct (w_tx w) as [t|] eqn:Ht.
  - destruct (tx_aborted t) eqn:Ha; [done|]. destruct (env_fault (w_tick w)); [done|].
    destruct (body _ _) as [[a0 d]|e] eqn:Hb; [|done].
    intros; simplify_eq. eexists _, d. split_and!; done.
  - destruct (env_fault (w_tick w)); [done|].
    destruct (body _ _) as [[a0 d]|e] eqn:Hb; [|done].
    intros; simplify_eq. eexists _, d. split_and!; done.
Qed.

Lemma query_Ok {A} (f : StmtCtx -> DB -> result A) w a w' :
  query f w = (Ok a, w') ->
  w' = next_tick w /\ exists c, f c (w_db w) = Ok a /\
    s_org c = from_option tx_org None (w_tx w).
Proof.
  intros (c & d & Hb & -> & _ & Hc)%stmt_Ok. destruct (f c (w_db w)) eqn:Hf; [|done].
  simplify_eq. split; [by destruct w|]. exists c. split; [done|].
  by destruct (w_tx w); destruct_and?.
Qed.

Lemma timeNow_Ok w t w' : timeNow w = (Ok t, w') -> t = env_now (w_tick w) /\ w' = next_tick w.
Proof. unfold timeNow. intros; by simplify_eq. Qed.
Lemma uuidNew_Ok w u w' : uuidNew w = (Ok u, w') -> u = env_uuid (w_tick w) /\ w' = next_tick w.
Proof. unfold uuidNew. intros; by simplify_eq. Qed.
Lemma randRead_Ok n txt w b w' :
  randRead n txt w = (Ok b, w') -> env_rand (w_tick w) n = Some b /\ w' = next_tick w.
Proof. unfold randRead. destruct (env_rand _ _); intros; by simplify_eq. Qed.

(** ** Preservation *)

(** The open transaction is the same one, possibly aborted meanwhile. *)
Definition same_tx (t t' : option Tx) : Prop :=
  match t, t' with
  | None, None => True
  | Some a, Some b => tx_snapshot a = tx_snapshot b /\ tx_now a = tx_now b
  | _, _ => False
  end.
#[global] Instance same_tx_equiv : Equivalence same_tx.
Proof.
  split.
  - intros []; done.
  - intros [] []; simpl; naive_solver.
  - intros [] [] []; simpl; naive_solver congruence.
Qed.

Definition pres (R : relation DB) {A} (m : M A) : Prop :=
  forall w, same_tx (w_tx w) (w_tx (m w).2) /\ R (w_db w) (w_db (m w).2).

Ltac same := split; (done || reflexivity).

Section rules.
Context (R : relation DB) `{!PreOrder R}.

Lemma pres_ret {A} (a : A) : pres R (ret a).
Proof. intros w. simpl. same. Qed.
Lemma pres_fail {A} e : pres R (@fail A e).
Proof. intros w. simpl. same. Qed.
Lemma pres_bind {A B} (m : M A) (k : A -> M B) :
  pres R m -> (forall a, pres R (k a)) -> pres R (bind m k).
Proof.
  intros Hm Hk w. specialize (Hm w). unfold bind. destruct (m w) as [[a|e] w1]; simpl in *; [|done].
  destruct (Hk a w1). destruct Hm. split; etrans; eauto.
Qed.
(** The continuation may use that the first step succeeded. *)
Lemma pres_bind_Ok {A B} (m : M A) (k : A -> M B) :
  pres R m ->
  (forall w a w1, m w = (Ok a, w1) ->
     same_tx (w_tx w1) (w_tx (k a w1).2) /\ R (w_db w1) (w_db (k a w1).2)) ->
  pres R (bind m k).
Proof.
  intros Hm Hk w. specialize (Hm w). unfold bind.
  destruct (m w) as [[a|e] w1] eqn:E; simpl in *; [|done].
  destruct (Hk _ _ _ E). destruct Hm. split; etrans; eauto.
Qed.
Lemma pres_map_err {A} f (m : M A) : pres R m -> pres R (map_err f m).
Proof. intros Hm w. specialize (Hm w). unfold map_err. by destruct (m w) as [[]]. Qed.
Lemma pres_wrapf {A} p (m : M A) : pres R m -> pres R (wrapf p m).
Proof. apply pres_map_err. Qed.
Lemma pres_attempt {A} (m : M A) : pres R m -> pres R (attempt m).
Proof. intros Hm w. specialize (Hm w). unfold attempt. by destruct (m w). Qed.
Lemma pres_reject_if b e : pres R (reject_if b e).
Proof. unfold reject_if. destruct b; [apply pres_fail | apply pres_ret]. Qed.
Lemma pres_ret_result {A} (r : result A) : pres R (ret_result r).
Proof. destruct r; [apply pres_ret | apply pres_fail]. Qed.
Lemma pres_for_each {A} (l : list A) f : (forall x, x ∈ l -> pres R (f x)) -> pres R (for_each l f).
Proof.
  induction l as [|x l IH]; simpl; intros Hf; [apply pres_ret|].
  apply pres_bind; [apply Hf; left|]. intros _. apply IH. intros y Hy. apply Hf. by right.
Qed.
Lemma pres_timeNow : pres R timeNow.
Proof. intros w. simpl. same. Qed.
Lemma pres_uuidNew : pres R uuidNew.
Proof. intros w. simpl. same. Qed.
Lemma pres_randRead n t : pres R (randRead n t).
Proof. intros w. unfold randRead. destruct (env_rand _ _); simpl; same. Qed.

(** The same at one state: for steps that are safe only after a check. *)
Definition pres_at {A} (m : M A) (w : World) : Prop :=
  same_tx (w_tx w) (w_tx (m w).2) /\ R (w_db w) (w_db (m w).2).
Lemma pres_at_bind {A B} (m : M A) (k : A -> M B) w :
  pres_at m w -> (forall a w1, m w = (Ok a, w1) -> pres_at (k a) w1) -> pres_at (bind m k) w.
Proof.
  unfold pres_at, bind. intros Hm Hk. destruct (m w) as [[a|e] w1] eqn:E; simpl in *; [|done].
  destruct (Hk _ _ eq_refl). destruct Hm. split; etrans; eauto.
Qed.
Lemma pres_at_map_err {A} f (m : M A) w : pres_at m w -> pres_at (map_err f m) w.
Proof. unfold pres_at, map_err. by destruct (m w) as [[]]. Qed.
Lemma pres_at_stmt {A} (body : StmtCtx -> DB -> result (A * DB)) w :
  (forall c a d', body c (w_db w) = Ok (a, d') -> R (w_db w) d') -> pres_at (stmt body) w.
Proof.
  intros Hb. unfold pres_at, stmt. destruct (w_tx w) as [t|] eqn:Ht.
  - destruct (tx_aborted t); [simpl; rewrite Ht; same|].
    destruct (env_fault _); [simpl; same|].
    destruct (body _ _) as [[a d]|e] eqn:E; simpl.
    + rewrite Ht. split; [done | eauto].
    + destruct (aborts e); simpl; rewrite ?Ht; same.
  - destruct (env_fault _); [simpl; rewrite Ht; same|].
    destruct (body _ _) as [[a d]|e] eqn:E; simpl; rewrite Ht; (split; [done|]; (eauto || reflexivity)).
Qed.
Lemma pres_stmt {A} (body : StmtCtx -> DB -> result (A * DB)) :
  (forall c d a d', body c d = Ok (a, d') -> R d d') -> pres R (stmt body).
Proof. intros Hb w. apply pres_at_stmt. eauto. Qed.
Lemma pres_query {A} (f : StmtCtx -> DB -> result A) : pres R (query f).
Proof. apply pres_stmt. intros c d a d'. destruct (f c d); intros; simplify_eq. reflexivity. Qed.
Lemma pres_set_config o : pres R (set_config_org o).
Proof.
  intros w. unfold set_config_org. destruct (w_tx w) as [t|] eqn:Ht.
  - destruct (tx_aborted t); [simpl; rewrite Ht; same|].
    destruct (env_fault _); simpl; same.
  - destruct (env_fault _); simpl; rewrite Ht; same.
Qed.

(** Code that may close the transaction it runs in: what it leaves behind is related
    to the snapshot in either case. *)
Definition scoped {A} (m : M A) : Prop := forall w,
  match w_tx w with
  | None => w_tx (m w).2 = None /\ R (w_db w) (w_db (m w).2)
  | Some t => R (tx_snapshot t) (w_db w) ->
      R (tx_snapshot t) (w_db (m w).2) /\
      match w_tx (m w).2 with None => True | Some t' => tx_snapshot t' = tx_snapshot t end
  end.
Lemma pres_scoped {A} (m : M A) : pres R m -> scoped m.
Proof.
  intros Hm w. destruct (Hm w) as [Htx HR]. unfold same_tx in Htx.
  destruct (w_tx w); destruct (w_tx (m w).2); try done.
  intros Hs. destruct Htx. split; [etrans; eauto | done].
Qed.
Lemma scoped_Commit : scoped Commit.
Proof.
  intros w. unfold Commit. destruct (w_tx w) as [t|] eqn:Ht.
  - intros Hs. destruct (tx_aborted t); [by split|]. destruct (env_fault _); by split.
  - simpl. rewrite Ht. by split.
Qed.
Lemma scoped_bind {A B} (m : M A) (k : A -> M B) :
  scoped m -> (forall a, scoped (k a)) -> scoped (bind m k).
Proof.
  intros Hm Hk w. specialize (Hm w). unfold bind.
  destruct (m w) as [[a|e] w1] eqn:E; simpl in *; [|done].
  specialize (Hk a w1). destruct (w_tx w) as [t|].
  - intros Hs. destruct (Hm Hs) as [H1 H2]. destruct (w_tx w1) as [t1|].
    + rewrite H2 in Hk. destruct (Hk H1) as [? Hk2]. split; [done|].
      by destruct (w_tx (k a w1).2).
    + destruct Hk as [Hk1 Hk2]. rewrite Hk1. split; [etrans; eauto | done].
  - destruct Hm as [H1 H2]. rewrite H1 in Hk. destruct Hk. split; [done | etrans; eauto].
Qed.
Lemma scoped_map_err {A} f (m : M A) : scoped m -> scoped (map_err f m).
Proof. intros Hm w. specialize (Hm w). unfold map_err. by destruct (m w) as [[]]. Qed.

(** [tx := Begin; defer Rollback; body]: uncommitted work disappears. *)
Lemma pres_tx {A} (f : error -> error) (m : M A) :
  scoped m -> pres R (map_err f Begin ;;; defer Rollback m).
Proof.
  intros Hm w. unfold bind, map_err, Begin. destruct (w_tx w) as [t|] eqn:Ht.
  { simpl. rewrite Ht. same. }
  destruct (env_fault (w_tick w)); [simpl; rewrite Ht; same|].
  rewrite defer_run. set (w1 := set_tx _ _). specialize (Hm w1). simpl in Hm.
  destruct (Hm ltac:(reflexivity)) as [HR Htx]. unfold Rollback.
  destruct (w_tx (m w1).2) as [t|] eqn:E; simpl.
  - rewrite Htx. same.
  - rewrite E. done.
Qed.

Lemma pres_WithTenantTx {A} o (fn : M A) : pres R fn -> pres R (WithTenantTx o fn).
Proof.
  intros Hf. unfold WithTenantTx. apply pres_tx.
  apply scoped_bind; [apply pres_scoped, pres_wrapf, pres_set_config|]. intros _.
  apply scoped_bind; [by apply pres_scoped|]. intros a.
  apply scoped_bind; [apply scoped_map_err, scoped_Commit|]. intros _.
  apply pres_scoped, pres_ret.
Qed.
End rules.

(** ** Transactions, functionally *)

(** A tenant transaction that returned a value ran its body in the tenant's context on
    the tables it found, and its tables are the body's. *)
Lemma WithTenantTx_Ok {A} o (fn : M A) w a w' :
  WithTenantTx o fn w = (Ok a, w') ->
  exists w1 w2 t, fn w1 = (Ok a, w2) /\ w_db w1 = w_db w /\ w_tx w1 = Some t /\
    tx_org t = Some o /\ w_db w' = w_db w2 /\ w_tx w' = None /\ w_tx w = None /\
    tx_now t = env_now (w_tick w) /\ tx_snapshot t = w_db w /\
    w_mail w1 = w_mail w /\ w_redis w1 = w_redis w /\
    w_mail w' = w_mail w2 /\ w_redis w' = w_redis w2 /\ w_tick w1 = S (S (w_tick w)).
Proof.
  unfold WithTenantTx. intros ([] & w0 & Hb%wrapf_Ok & Hd)%bind_Ok.
  unfold Begin in Hb. destruct (w_tx w) eqn:Ht; [done|].
  destruct (env_fault (w_tick w)) eqn:Hf; [done|]. simplify_eq.
  rewrite defer_run in Hd. destruct (bind _ _ _) as [r w3] eqn:E in Hd. simpl in Hd. simplify_eq.
  apply bind_Ok in E as ([] & w1 & Hs%wrapf_Ok & E).
  unfold set_config_org in Hs. simpl in Hs. destruct (env_fault (S (w_tick w))); [done|].
  simplify_eq.
  apply bind_Ok in E as (a' & w2 & Hfn & E). apply bind_Ok in E as ([] & w4 & Hc%wrapf_Ok & E).
  apply ret_Ok in E as [-> <-]. unfold Commit in Hc. destruct (w_tx w2) as [t2|] eqn:Ht2; [|done].
  destruct (tx_aborted t2); [done|]. destruct (env_fault (w_tick w2)); [done|]. simplify_eq.
  eexists _, w2, _. split; [exact Hfn|]. simpl. split_and!; done.
Qed.

(** A transaction that reports an error leaves the tables as they were, provided its
    body keeps the transaction open, as all code built from statements does. *)
Lemma WithTenantTx_Err {A} o (fn : M A) w e w' :
  pres (fun _ _ => True) fn ->
  WithTenantTx o fn w = (Err e, w') -> w_db w' = w_db w.
Proof.
  intros Hp. unfold WithTenantTx, bind at 1.
  destruct (wrapf "begin tx" Begin w) as [[[]|e0] w0] eqn:Hb.
  - apply wrapf_Ok in Hb. unfold Begin in Hb. destruct (w_tx w) eqn:Ht; [done|].
    destruct (env_fault (w_tick w)) eqn:Hf; [done|]. simplify_eq.
    rewrite defer_run. destruct (bind _ _ _) as [r w3] eqn:E. simpl. intros; simplify_eq.
    unfold Rollback. unfold bind at 1 in E.
    destruct (wrapf _ (set_config_org o) _) as [[[]|e1] w1] eqn:Hs in E.
    + apply wrapf_Ok in Hs. unfold set_config_org in Hs. simpl in Hs.
      destruct (env_fault (S (w_tick w))); [done|]. simplify_eq.
      set (w1 := set_tx _ _) in E. destruct (Hp w1) as [Htx _]. simpl in Htx.
      unfold bind at 1 in E. destruct (fn w1) as [[a2|e2] w2]; simpl in *.
      * destruct (w_tx w2) as [t2|] eqn:Ht2; [|done]. destruct Htx as [Htx _].
        unfold bind, wrapf, map_err, Commit in E. rewrite Ht2 in E.
        destruct (tx_aborted t2); [by simplify_eq/=|].
        destruct (env_fault (w_tick w2)); by simplify_eq/=.
      * simplify_eq. destruct (w_tx w3) as [t2|]; [|done]. simpl. by destruct Htx.
    + simplify_eq. unfold wrapf, map_err, set_config_org in Hs. simpl in Hs.
      destruct (env_fault (S (w_tick w))); by simplify_eq/=.
  - intros; simplify_eq. unfold wrapf, map_err, Begin in Hb. destruct (w_tx w); [by simplify_eq/=|].
    destruct (env_fault (w_tick w)); by simplify_eq/=.
Qed.
End env.

#[export] Hint Resolve pres_ret pres_fail pres_map_err pres_wrapf pres_attempt pres_reject_if
  pres_ret_result pres_timeNow pres_uuidNew pres_randRead pres_query pres_set_config
  pres_WithTenantTx : teamflow_frame.
#[export] Instance any_pre : PreOrder (fun _ _ : DB => True).
Proof. split; done. Qed.
#[export] Hint Extern 1 (PreOrder _) => typeclasses eauto : teamflow_frame.
(** The reading statements are definitions over [query]. *)
#[export] Hint Extern 3 (pres _ _) => (apply pres_query; typeclasses eauto) : teamflow_frame.

(** Walk through a program and discharge every step with the frame lemmas. *)
Ltac pres_step :=
  match goal with
  | |- pres _ (bind _ _) => apply pres_bind; [typeclasses eauto | | intros ?]
  | |- pres _ (for_each _ _) => apply pres_for_each; [typeclasses eauto | intros ? ?]
  | |- pres _ (WithTenantTx _ _) => apply pres_WithTenantTx; [typeclasses eauto |]
  | |- pres _ (wrapf _ _) => apply pres_wrapf
  | |- pres _ (map_err _ _) => apply pres_map_err
  | |- pres _ (attempt _) => apply pres_attempt
  | |- pres _ (match ?x with _ => _ end) => destruct x
  | |- pres _ (let _ := _ in _) => cbv zeta
  end.
Ltac pres_auto := repeat pres_step; eauto 3 with teamflow_frame.

(** Open every step of a successful run. *)
Ltac go_inv1 :=
  match goal with
  | H : bind _ _ _ = (Ok _, _) |- _ =>
      let x := fresh "x" in let w := fresh "w" in let E := fresh "E" in
      apply bind_Ok in H as (x & w & E & H); cbn beta in H
  | H : ret _ _ = (Ok _, _) |- _ => apply ret_Ok in H as [? ?]; simplify_eq
  | H : fail _ _ = (Ok _, _) |- _ => by apply fail_Ok in H
  | H : wrapf _ _ _ = (Ok _, _) |- _ => apply wrapf_Ok in H
  | H : map_err _ _ _ = (Ok _, _) |- _ => apply map_err_Ok in H
  | H : attempt _ _ = (Ok _, _) |- _ => apply attempt_Ok in H
  | H : reject_if _ _ _ = (Ok _, _) |- _ => apply reject_if_Ok in H as [? ?]; simplify_eq
  | H : ret_result _ _ = (Ok _, _) |- _ => apply ret_result_Ok in H as [? ?]; simplify_eq
  | H : timeNow _ = (Ok _, _) |- _ => apply timeNow_Ok in H as [? ?]; simplify_eq
  | H : uuidNew _ = (Ok _, _) |- _ => apply uuidNew_Ok in H as [? ?]; simplify_eq
  | H : randRead _ _ _ = (Ok _, _) |- _ => apply randRead_Ok in H as [? ?]; simplify_eq
  | x : unit |- _ => destruct x
  end.
Ltac go_inv := repeat go_inv1.

(** Open a successful statement: what it read and what it wrote. *)
Lemma require_Ok {A} b e (k : result A) a : require b e k = Ok a -> b = true /\ k = Ok a.
Proof. unfold require. by destruct b. Qed.
Lemma one_Ok {A} (o : option A) a : one o = Ok a -> o = Some a.
Proof. destruct o; simpl; congruence. Qed.

(** ** Running forward when no statement fails *)
Section forward.
Context `{Env} (Hnf : forall n, env_fault n = false).

(** Inside a healthy transaction. *)
Definition live (o : N) (w : World) : Prop :=
  exists t, w_tx w = Some t /\ tx_org t = Some o /\ tx_aborted t = false.
Definition enter_tx (o : N) (w : World) : World :=
  {| w_db := w_db w; w_tick := S (S (w_tick w));
     w_tx := Some {| tx_now := env_now (w_tick w); tx_org := Some o; tx_aborted := false;
                     tx_snapshot := w_db w |};
     w_mail := w_mail w; w_redis := w_redis w |}.
Lemma live_enter o w : live o (enter_tx o w).
Proof. eexists. split_and!; done. Qed.
Lemma live_next o w : live o w -> live o (next_tick w).
Proof. intros (t & Ht & Ho & Ha). exists t. by split_and!. Qed.

Lemma query_live {A} (f : StmtCtx -> DB -> result A) o w r :
  live o w -> (forall c, s_org c = Some o -> f c (w_db w) = r) ->
  (forall e, r = Err e -> e = ErrNoRows) ->
  query f w = (r, next_tick w).
Proof.
  intros (t & Ht & Ho & Ha) Hf Hr. unfold query, stmt. rewrite Ht, Ha, Hnf.
  rewrite (Hf {| s_now := tx_now t; s_org := tx_org t; s_uuid := env_uuid (w_tick w) |}) by done.
  destruct r as [a|e]; [by destruct w|]. by rewrite (Hr e eq_refl).
Qed.
Lemma WithTenantTx_run {A} o (fn : M A) w r w2 :
  w_tx w = None -> fn (enter_tx o w) = (r, w2) -> live o w2 ->
  WithTenantTx o fn w =
    match r with
    | Ok a => (Ok a, set_tx None (next_tick w2))
    | Err e => (Err e, match w_tx w2 with
                       | Some t => set_tx None (set_db (tx_snapshot t) w2)
                       | None => w2
                       end)
    end.
Proof.
  intros Hw Hfn (t2 & Ht2 & Ho2 & Ha2). unfold WithTenantTx, bind at 1, wrapf, map_err, Begin.
  rewrite Hw, Hnf. unfold defer, bind at 1 2, set_config_org. simpl. rewrite Hnf.
  unfold bind at 1.
  match goal with |- context [fn ?x] => change x with (enter_tx o w) end. rewrite Hfn.
  destruct r as [a|e]; simpl.
  - unfold bind, Commit. rewrite Ht2, Ha2, Hnf. simpl. done.
  - unfold Rollback. by rewrite Ht2.
Qed.
End forward.

(** ** Plain transactions

    [commits m]: inside an open transaction, [m] returns a value only by committing, and an
    error leaves either the transaction open (for the deferred rollback) or the snapshot in
    place. *)
Section plain_tx.
Context `{Env}.
Definition commits {A} (m : M A) : Prop := forall w t, w_tx w = Some t ->
  match m w with
  | (Ok _, w') => w_tx w' = None
  | (Err _, w') => match w_tx w' with
                   | Some t' => tx_snapshot t' = tx_snapshot t
                   | None => w_db w' = tx_snapshot t
                   end
  end.
Lemma commits_Commit {A} p (a : A) : commits (wrapf p Commit ;;; ret a).
Proof.
  intros w t Ht. unfold bind, wrapf, map_err, Commit. rewrite Ht.
  destruct (tx_aborted t); [done|]. by destruct (env_fault _).
Qed.
Lemma commits_fail {A} e : commits (@fail A e).
Proof. intros w t Ht. simpl. by rewrite Ht. Qed.
Lemma commits_bind {A B} (m : M A) (k : A -> M B) :
  pres (fun _ _ => True) m -> (forall a, commits (k a)) -> commits (bind m k).
Proof.
  intros Hm Hk w t Ht. destruct (Hm w) as [Htx _]. rewrite Ht in Htx. unfold bind.
  destruct (m w) as [[a|e] w1]; simpl in Htx; (destruct (w_tx w1) as [t1|] eqn:E1; [|done]).
  - specialize (Hk a w1 t1 E1). destruct Htx as [Hs _]. rewrite <- Hs in Hk. exact Hk.
  - by destruct Htx.
Qed.
Definition in_plain_tx {A} (p : string) (m : M A) : M A := wrapf p Begin ;;; defer Rollback m.
Definition begin_tx (w : World) : World :=
  set_tx (Some {| tx_now := env_now (w_tick w); tx_org := None; tx_aborted := false;
                  tx_snapshot := w_db w |}) (next_tick w).
(** An error means nothing happened; a value means the body committed. *)
Lemma plain_tx_Err {A} p (m : M A) w e w' :
  commits m -> in_plain_tx p m w = (Err e, w') -> w_db w' = w_db w /\ w_tx w' = w_tx w.
Proof.
  intros Hc. unfold in_plain_tx, bind, wrapf, map_err, Begin. destruct (w_tx w) as [t|] eqn:Ht.
  { intros; simplify_eq/=. done. }
  destruct (env_fault _); [by intros; simplify_eq/=|]. rewrite defer_run. fold (begin_tx w).
  specialize (Hc (begin_tx w) _ eq_refl). destruct (m (begin_tx w)) as [[a|e0] w1]; intros; simplify_eq/=.
  unfold Rollback. destruct (w_tx w1) eqn:E1; simpl; [by rewrite Hc|]. by rewrite E1.
Qed.
Lemma plain_tx_Ok {A} p (m : M A) w a w' :
  commits m -> in_plain_tx p m w = (Ok a, w') ->
  w_tx w = None /\ m (begin_tx w) = (Ok a, w') /\ w_tx w' = None.
Proof.
  intros Hc. unfold in_plain_tx, bind, wrapf, map_err, Begin. destruct (w_tx w) as [t|] eqn:Ht.
  { intros; simplify_eq/=. }
  destruct (env_fault _); [by intros; simplify_eq/=|]. rewrite defer_run. fold (begin_tx w).
  specialize (Hc (begin_tx w) _ eq_refl). destruct (m (begin_tx w)) as [[a0|e0] w1]; intros; simplify_eq/=.
  unfold Rollback. rewrite Hc. simpl. done.
Qed.
End plain_tx.
Ltac commits_auto :=
  repeat match goal with
  | |- commits (wrapf _ Commit ;;; ret _) => apply commits_Commit
  | |- commits (fail _) => apply commits_fail
  | |- commits (bind _ _) => apply commits_bind; [| intros ?]
  | |- commits (match ?x with _ => _ end) => destruct x
  | |- commits (let _ := _ in _) => cbv zeta
  end.
Lemma Commit_Ok `{Env} w u w' : Commit w = (Ok u, w') -> w_db w' = w_db w /\ w_tx w' = None.
Proof.
  unfold Commit. destruct (w_tx w) as [t|]; [|done]. destruct (tx_aborted t); [done|].
  destruct (env_fault _); [done|]. intros; by simplify_eq.
Qed.

Lemma wrapf_snd {A} p (m : M A) w : (wrapf p m w).2 = (m w).2.
Proof. unfold wrapf, map_err. by destruct (m w) as [[]]. Qed.
Lemma pres_run `{Env} {A} R (m : M A) w r w' : pres R m -> m w = (r, w') -> R (w_db w) (w_db w').
Proof. intros Hm E. destruct (Hm w) as [_ Hr]. by rewrite E in Hr. Qed.

(** ** What holds of a transaction that committed

    A relation that the states of the body may break holds of the whole transaction when it
    holds of every run of the body that returned a value: the others leave the tables as they
    were. *)
Section committed.
Context `{Env} (R : relation DB) `{!PreOrder R}.
Lemma committed_at {A} o (fn : M A) w : pres (fun _ _ => True) fn ->
  (forall w1 a w2, w_db w1 = w_db w -> fn w1 = (Ok a, w2) -> R (w_db w) (w_db w2)) -> pres_at R (WithTenantTx o fn) w.
Proof.
  intros Hp Hfn. split; [by apply (pres_WithTenantTx (fun _ _ => True) o fn Hp w)|].
  destruct (WithTenantTx o fn w) as [[a|e] w'] eqn:E; simpl.
  - apply WithTenantTx_Ok in E as (w1 & w2 & t & E & Hd & _ & _ & -> & _). by eapply Hfn.
  - apply WithTenantTx_Err in E; [|done]. by rewrite E.
Qed.
Lemma pres_committed {A} o (fn : M A) : pres (fun _ _ => True) fn ->
  (forall w a w', fn w = (Ok a, w') -> R (w_db w) (w_db w')) -> pres R (WithTenantTx o fn).
Proof. intros Hp Hfn w. apply committed_at; [done|]. intros w1 a w2 <-. apply Hfn. Qed.
Lemma pres_plain_committed {A} p (m : M A) : commits m ->
  (forall w a w', m w = (Ok a, w') -> R (w_db w) (w_db w')) -> pres R (in_plain_tx p m).
Proof.
  intros Hc Hm w. destruct (in_plain_tx p m w) as [[a|e] w'] eqn:E.
  - apply plain_tx_Ok in E as (Hw & E & Hw'); [|done]. simpl. rewrite Hw, Hw'. split; [done|].
    exact (Hm _ _ _ E).
  - apply plain_tx_Err in E as [Hd Ht]; [|done]. simpl. rewrite Hd, Ht. by split.
Qed.
End committed.
