(* ===== verification/GoStrings.v ===== *)
(** * Go strings

    The part of [strings], [unicode/utf8], [encoding/hex] and [encoding/base64] the
    program uses.  A Go string is a byte sequence; ranging over it decodes UTF-8, and a
    byte that is not part of a valid encoding reads as U+FFFD. *)
From S2P Require Import Prelude.
From S2P Require Import GoError.
From S2P Require Import Schema.
From S2P Require Import Store.
Local Open Scope N_scope.

Definition bytes (s : string) : list N := map Ascii.N_of_ascii (String.list_ascii_of_string s).
Definition of_bytes (l : list N) : string := String.string_of_list_ascii (map Ascii.ascii_of_N l).
(** [len(s)] *)
Definition len (s : string) : Z := Z.of_nat (String.length s).

(** ** UTF-8 *)
Definition RuneError : N := 65533.
Definition cont (b : N) : bool := (128 <=? b) && (b <=? 191).
Definition between (lo hi b : N) : bool := (lo <=? b) && (b <=? hi).

(** The next rune and the bytes after it. *)
Definition decode_rune (b0 : N) (l : list N) : N * list N :=
  if b0 <? 128 then (b0, l) else
  match l with
  | b1 :: l1 =>
      if between 194 223 b0 && cont b1 then ((b0 - 192) * 64 + (b1 - 128), l1) else
      match l1 with
      | b2 :: l2 =>
          if between 224 239 b0 && cont b2 &&
             between (if b0 =? 224 then 160 else 128) (if b0 =? 237 then 159 else 191) b1
          then ((b0 - 224) * 4096 + (b1 - 128) * 64 + (b2 - 128), l2) else
          match l2 with
          | b3 :: l3 =>
              if between 240 244 b0 && cont b2 && cont b3 &&
                 between (if b0 =? 240 then 144 else 128) (if b0 =? 244 then 143 else 191) b1
              then ((b0 - 240) * 262144 + (b1 - 128) * 4096 + (b2 - 128) * 64 + (b3 - 128), l3)
              else (RuneError, l)
          | [] => (RuneError, l)
          end
      | [] => (RuneError, l)
      end
  | [] => (RuneError, l)
  end.
Fixpoint runes_fuel (n : nat) (l : list N) : list N :=
  match n, l with
  | S n, b :: r => let (c, r') := decode_rune b r in c :: runes_fuel n r'
  | _, _ => []
  end.
(** [for _, r := range s].  A rune takes at least one byte, so the length is enough fuel. *)
Definition runes (s : string) : list N := runes_fuel (length (bytes s)) (bytes s).

Definition encode_rune (c : N) : list N :=
  if c <? 128 then [c]
  else if c <? 2048 then [192 + c / 64; 128 + c mod 64]
  else if c <? 65536 then [224 + c / 4096; 128 + (c / 64) mod 64; 128 + c mod 64]
  else [240 + c / 262144; 128 + (c / 4096) mod 64; 128 + (c / 64) mod 64; 128 + c mod 64].

(** ** strings.TrimSpace and strings.ToLower *)

(** The encodings of the code points [unicode.IsSpace] accepts. *)
Definition space_encodings : list (list N) :=
  [[9]; [10]; [11]; [12]; [13]; [32]; [194; 133]; [194; 160]; [225; 154; 128]] ++
  map (fun k => [226; 128; 128 + k]) [0; 1; 2; 3; 4; 5; 6; 7; 8; 9; 10; 40; 41; 47] ++
  [[226; 129; 159]; [227; 128; 128]].
Fixpoint strip_prefix (p l : list N) : option (list N) :=
  match p, l with
  | [], _ => Some l
  | a :: p', b :: l' => if a =? b then strip_prefix p' l' else None
  | _ :: _, [] => None
  end.
Fixpoint strip_all (n : nat) (ps : list (list N)) (l : list N) : list N :=
  match n with
  | O => l
  | S n => match first_some (fun p => strip_prefix p l) ps with
           | Some l' => strip_all n ps l'
           | None => l
           end
  end.
Definition trim_left (l : list N) : list N := strip_all (length l) space_encodings l.
Definition trim_right (l : list N) : list N :=
  rev (strip_all (length l) (map (@rev N) space_encodings) (rev l)).
Definition TrimSpace (s : string) : string := of_bytes (trim_right (trim_left (bytes s))).

Definition ascii_lower (b : N) : N := if between 65 90 b then b + 32 else b.
Definition is_ascii (s : string) : bool := forallb (fun b => b <? 128) (bytes s).
Definition ToLower `{Env} (s : string) : string :=
  if is_ascii s then of_bytes (map ascii_lower (bytes s))
  else of_bytes (concat (map encode_rune (map unicode_ToLower (runes s)))).

(** [strings.TrimRight(s, "/")] and [strings.HasPrefix] *)
Fixpoint drop_while (p : N -> bool) (l : list N) : list N :=
  match l with b :: r => if p b then drop_while p r else l | [] => [] end.
Definition TrimRight (c : N) (s : string) : string :=
  of_bytes (rev (drop_while (N.eqb c) (rev (bytes s)))).
(** [strings.Cut]: the text before the first separator, and what follows it. *)
Fixpoint cut_at (sep l : list N) (n : nat) : list N * option (list N) :=
  match strip_prefix sep l, l, n with
  | Some r, _, _ => ([], Some r)
  | None, b :: r, S n => let (u, v) := cut_at sep r n in (b :: u, v)
  | None, _, _ => (l, None)
  end.
Definition cut (sep s : string) : string * option string :=
  let (u, v) := cut_at (bytes sep) (bytes s) (String.length s) in (of_bytes u, of_bytes <$> v).
Definition HasPrefix (s p : string) : bool := negb (is_nil (strip_prefix (bytes p) (bytes s))).

(** [strings.Contains] *)
Fixpoint contains (p l : list N) : bool :=
  negb (is_nil (strip_prefix p l)) || match l with [] => false | _ :: r => contains p r end.
Definition Contains (s p : string) : bool := contains (bytes p) (bytes s).

(** ** encoding/hex and encoding/base64.RawURLEncoding *)
Definition hex_digit (n : N) : N := if n <? 10 then 48 + n else 87 + n.
Definition hex_EncodeToString (l : list N) : string :=
  of_bytes (concat (map (fun b => [hex_digit (b / 16); hex_digit (b mod 16)]) l)).

Definition base64url_char (n : N) : N :=
  if n <? 26 then 65 + n else if n <? 52 then 71 + n else if n <? 62 then n - 4
  else if n =? 62 then 45 else 95.
Fixpoint base64url (l : list N) : list N :=
  match l with
  | a :: b :: c :: r =>
      base64url_char (a / 4) :: base64url_char ((a mod 4) * 16 + b / 16) ::
      base64url_char ((b mod 16) * 4 + c / 64) :: base64url_char (c mod 64) :: base64url r
  | [a; b] => [base64url_char (a / 4); base64url_char ((a mod 4) * 16 + b / 16);
               base64url_char ((b mod 16) * 4)]
  | [a] => [base64url_char (a / 4); base64url_char ((a mod 4) * 16)]
  | [] => []
  end.
Definition RawURLEncoding (l : list N) : string := of_bytes (base64url l).

(** ** Facts *)
Lemma bytes_of_bytes l : Forall (fun b => b < 256) l -> bytes (of_bytes l) = l.
Proof.
  unfold bytes, of_bytes. rewrite String.list_ascii_of_string_of_list_ascii, List.map_map.
  intros Hl. rewrite <- (List.map_id l) at 2. apply List.map_ext_in. intros b Hb.
  apply Ascii.N_ascii_embedding. by apply (proj1 (List.Forall_forall _ _) Hl).
Qed.
Lemma of_bytes_bytes s : of_bytes (bytes s) = s.
Proof.
  unfold bytes, of_bytes. rewrite List.map_map. rewrite <- (String.string_of_list_ascii_of_string s) at 2.
  f_equal. rewrite <- (List.map_id (String.list_ascii_of_string s)) at 2. apply List.map_ext.
  intros a. apply Ascii.ascii_N_embedding.
Qed.
Lemma bytes_range s : Forall (fun b => b < 256) (bytes s).
Proof. unfold bytes. apply Forall_fmap, Forall_true. intros a. apply Ascii.N_ascii_bounded. Qed.
Lemma bytes_append s t : bytes (s +:+ t) = (bytes s ++ bytes t)%list.
Proof. induction s as [|c s IH]; simpl; [done|]. unfold bytes in *. simpl. by rewrite IH. Qed.
Lemma length_bytes s : length (bytes s) = String.length s.
Proof. unfold bytes. rewrite length_map. induction s; cbn; [done|]. by f_equal. Qed.
Lemma length_of_bytes l : String.length (of_bytes l) = length l.
Proof. unfold of_bytes. induction l; simpl; congruence. Qed.

Lemma of_bytes_app a b : of_bytes (a ++ b) = of_bytes a +:+ of_bytes b.
Proof. unfold of_bytes. induction a as [|x a IH]; simpl; [done|]. by rewrite IH. Qed.

(** Three bytes become four characters. *)
Lemma length_base64url_32 l : length l = 32%nat -> length (base64url l) = 43%nat.
Proof.
  intros Hl. do 32 (destruct l as [|? l]; [discriminate Hl|]).
  destruct l; [reflexivity|discriminate Hl].
Qed.

Definition base64url_alphabet (b : N) : bool :=
  between 65 90 b || between 97 122 b || between 48 57 b || (b =? 45) || (b =? 95).
Lemma base64url_char_ok n : n < 64 -> base64url_alphabet (base64url_char n) = true.
Proof.
  intros Hn. assert (Hall : forallb (fun k => base64url_alphabet (base64url_char (N.of_nat k)))
                              (List.seq 0 64) = true) by reflexivity.
  rewrite forallb_forall in Hall. specialize (Hall (N.to_nat n)).
  rewrite N2Nat.id in Hall. apply Hall. apply in_seq. lia.
Qed.

(** Every character of an encoding is in the URL-safe alphabet. *)
Lemma base64url_alphabet_ok l :
  Forall (fun b => b < 256) l -> Forall (fun b => base64url_alphabet b = true) (base64url l).
Proof.
  assert (Hd4 : forall a, a < 256 -> a / 4 < 64) by (intros; apply N.Div0.div_lt_upper_bound; lia).
  assert (Hm4 : forall a, a mod 4 < 4) by (intros; by apply N.mod_lt).
  assert (Hm16 : forall a, a mod 16 < 16) by (intros; by apply N.mod_lt).
  assert (Hm64 : forall a, a mod 64 < 64) by (intros; by apply N.mod_lt).
  assert (Hd16 : forall a, a < 256 -> a / 16 < 16) by (intros; apply N.Div0.div_lt_upper_bound; lia).
  assert (Hd64 : forall a, a < 256 -> a / 64 < 4) by (intros; apply N.Div0.div_lt_upper_bound; lia).
  assert (Hgo : forall n l, (length l <= n)%nat -> Forall (fun b => b < 256) l ->
            Forall (fun b => base64url_alphabet b = true) (base64url l)).
  { induction n as [|n IH]; intros [|a [|b [|c r]]] Hlen Hl; simpl in *; try lia; try constructor;
      repeat match goal with
      | H : Forall _ (_ :: _) |- _ => inversion H; clear H; subst
      | |- Forall _ (_ :: _) => constructor
      | |- Forall _ [] => constructor
      end;
      try (apply base64url_char_ok;
           repeat match goal with
           | |- context [?a mod 4] => pose proof (Hm4 a); generalize dependent (a mod 4); intros
           | |- context [?a mod 16] => pose proof (Hm16 a); generalize dependent (a mod 16); intros
           | |- context [?a mod 64] => pose proof (Hm64 a); generalize dependent (a mod 64); intros
           | |- context [?a / 16] => pose proof (Hd16 a ltac:(done)); generalize dependent (a / 16); intros
           | |- context [?a / 64] => pose proof (Hd64 a ltac:(done)); generalize dependent (a / 64); intros
           end; auto; lia).
    apply IH; [lia|done]. }
  eauto.
Qed.

(** A string of spaces trims to nothing. *)
Lemma strip_all_spaces n m : (n <= m)%nat -> strip_all m space_encodings (repeat 32 n) = [].
Proof.
  revert n. induction m as [|m IH]; intros n Hn.
  - assert (n = 0%nat) as -> by lia. done.
  - destruct n as [|n]; [done|]. cbn -[space_encodings].
    replace (first_some _ space_encodings) with (Some (repeat 32 n)) by reflexivity. apply IH. lia.
Qed.
Lemma TrimSpace_spaces s : Forall (fun b => b = 32) (bytes s) -> TrimSpace s = EmptyString.
Proof.
  intros Hs. assert (Hr : bytes s = repeat 32 (length (bytes s))).
  { induction Hs as [|b l -> _ IH]; simpl; congruence. }
  unfold TrimSpace, trim_left. rewrite Hr, repeat_length, strip_all_spaces by done. done.
Qed.
