(* ===== verification/Strconv.v ===== *)
(** * Parsing numbers, booleans and durations

    The cases of [strconv.ParseInt] (base 10), [strconv.Atoi], [strconv.ParseBool] and
    [time.ParseDuration] the program uses on query parameters and on its environment. *)
From S2P Require Import Prelude.
From S2P Require Import GoStrings.
From stdpp Require pretty.
Local Open Scope Z_scope.

(** ** strconv.ParseInt(s, 10, bits) *)
Fixpoint digits_value (acc : Z) (l : list N) : option Z :=
  match l with
  | [] => Some acc
  | b :: r => if between 48 57 b then digits_value (acc * 10 + (Z.of_N b - 48)) r else None
  end.
Definition signed_value (bits : Z) (neg : bool) (l : list N) : option Z :=
  match l with
  | [] => None
  | _ => match digits_value 0 l with
         | Some n => let v := if neg then - n else n in
                     if (Z.leb (- 2 ^ (bits - 1)) v && Z.ltb v (2 ^ (bits - 1)))%bool then Some v else None
         | None => None
         end
  end.
Definition ParseInt (bits : Z) (s : string) : option Z :=
  match bytes s with
  | 45%N :: r => signed_value bits true r
  | 43%N :: r => signed_value bits false r
  | l => signed_value bits false l
  end.
(** [int] is 64 bits wide. *)
Definition Atoi (s : string) : option Z := ParseInt 64 s.

(** ** strconv.ParseBool *)
Definition ParseBool (s : string) : option bool :=
  if existsb (beq s) ["1"; "t"; "T"; "TRUE"; "true"; "True"]%string then Some true
  else if existsb (beq s) ["0"; "f"; "F"; "FALSE"; "false"; "False"]%string then Some false
  else None.

(** ** time.ParseDuration

    A sequence of numbers with units.  The fraction of a unit is computed exactly, where
    Go goes through [float64]; both drop what is below a nanosecond. *)
Definition Microsecond : Z := 1000.
Definition units : list (list N * Z) :=
  [(bytes "ns", 1); (bytes "us", Microsecond); ([194; 181] ++ bytes "s", Microsecond)%N;
   ([206; 188] ++ bytes "s", Microsecond)%N; (bytes "ms", Millisecond); (bytes "s", Second);
   (bytes "m", Minute); (bytes "h", Hour)].
Definition unit_of (u : list N) : option Z :=
  match List.find (fun kv => kv.1 =?= u) units with Some kv => Some kv.2 | None => None end.
Definition dec_digit (b : N) : bool := between 48 57 b.
(** [leadingInt]: fails when the value passes 2^63. *)
Fixpoint leadingInt (x : Z) (l : list N) : option (Z * list N) :=
  match l with
  | b :: r =>
      if dec_digit b then
        let y := x * 10 + (Z.of_N b - 48) in
        if (Z.ltb (2 ^ 63 / 10) x || Z.ltb (2 ^ 63) y)%bool then None else leadingInt y r
      else Some (x, l)
  | [] => Some (x, [])
  end.
(** [leadingFraction]: value and scale; digits past the capacity are dropped. *)
Fixpoint leadingFraction (x scale : Z) (overflow : bool) (l : list N) : Z * Z * list N :=
  match l with
  | b :: r =>
      if dec_digit b then
        let y := x * 10 + (Z.of_N b - 48) in
        if (overflow || Z.ltb ((2 ^ 63 - 1) / 10) x || Z.ltb (2 ^ 63) y)%bool
        then leadingFraction x scale true r else leadingFraction y (scale * 10) false r
      else (x, scale, l)
  | [] => (x, scale, [])
  end.
Fixpoint take_unit (l : list N) : list N * list N :=
  match l with
  | b :: r => if ((b =? 46)%N || dec_digit b)%bool then ([], l) else let (u, r') := take_unit r in (b :: u, r')
  | [] => ([], [])
  end.
(** One number with its unit. *)
Definition parse_term (l : list N) : option (Z * list N) :=
  match l with
  | b :: _ =>
      if negb ((b =? 46)%N || dec_digit b) then None else
      '(v, l1) ← leadingInt 0 l;
      let pre := negb (Nat.eqb (length l1) (length l)) in
      let '(f, scale, l2, post) :=
        match l1 with
        | 46%N :: r => let '(f, scale, r') := leadingFraction 0 1 false r in
                       (f, scale, r', negb (Nat.eqb (length r') (length r)))
        | _ => (0, 1, l1, false)
        end in
      if negb (pre || post) then None else
      let (u, l3) := take_unit l2 in
      unit ← (match u with [] => None | _ => unit_of u end);
      if Z.ltb (2 ^ 63 / unit) v then None else
      let v' := v * unit + f * unit / scale in
      if (Z.ltb 0 f && Z.ltb (2 ^ 63) v')%bool then None else Some (v', l3)
  | [] => None
  end.
(** Every term takes at least a byte; the sum is a [uint64]. *)
Fixpoint parse_terms (n : nat) (d : Z) (l : list N) : option Z :=
  match n, l with
  | _, [] => Some d
  | O, _ => None
  | S n, _ =>
      '(v, r) ← parse_term l;
      let d' := (d + v) mod 2 ^ 64 in
      if Z.ltb (2 ^ 63) d' then None else parse_terms n d' r
  end.
Definition ParseDuration (s : string) : option Z :=
  let (neg, l) := match bytes s with 45%N :: r => (true, r) | 43%N :: r => (false, r) | l => (false, l) end in
  match l with
  | [] => None
  | [48%N] => Some 0
  | _ =>
      d ← parse_terms (length l) 0 l;
      if neg then Some (- d) else if Z.ltb (2 ^ 63 - 1) d then None else Some d
  end.

(** ** time.Duration.String

    A number with at most three, six or nine decimals in the largest unit that keeps the
    leading digit non-zero, or hours, minutes and seconds. *)
Local Open Scope string_scope.
Local Open Scope Z_scope.
Definition decimals (prec : nat) (v : Z) : string :=
  let fix digits n v := match n with O => [] | S n => Z.to_N (48 + v / 10 ^ Z.of_nat n mod 10) :: digits n v end in
  let fix strip l := match l with 48%N :: r => strip r | _ => l end in
  let frac := rev (strip (rev (digits prec (v mod 10 ^ Z.of_nat prec)))) in
  pretty.pretty (v / 10 ^ Z.of_nat prec) +:+ match frac with [] => "" | _ => "." +:+ of_bytes frac end.
Definition Duration_String (d : Z) : string :=
  let u := Z.abs d in
  let body :=
    if Z.eqb u 0 then "0s"
    else if Z.ltb u Microsecond then pretty.pretty u +:+ "ns"
    else if Z.ltb u Millisecond then decimals 3 u +:+ of_bytes [194; 181]%N +:+ "s"
    else if Z.ltb u Second then decimals 6 u +:+ "ms"
    else
      (if Z.ltb u Hour then "" else pretty.pretty (u / Hour) +:+ "h") +:+
      (if Z.ltb u Minute then "" else pretty.pretty (u / Minute mod 60) +:+ "m") +:+
      decimals 9 (u mod Minute) +:+ "s" in
  (if Z.ltb d 0 then "-" else "") +:+ body.

(** ** Facts *)
Lemma ParseInt_range bits s n : ParseInt bits s = Some n -> - 2 ^ (bits - 1) <= n < 2 ^ (bits - 1).
Proof. unfold ParseInt, signed_value. intros H. split_ifs; lia. Qed.
Lemma Atoi_range s n : Atoi s = Some n -> - 2 ^ 63 <= n < 2 ^ 63.
Proof. apply (ParseInt_range 64). Qed.

Lemma parse_terms_range n d l t : 0 <= d <= 2 ^ 63 -> parse_terms n d l = Some t -> 0 <= t <= 2 ^ 63.
Proof.
  revert d l. induction n as [|n IH]; intros d [|b l] Hd; cbn [parse_terms]; try (intros [= <-]; lia).
  destruct (parse_term (b :: l)) as [[v r]|]; cbn [mbind option_bind]; [|done].
  pose proof (Z.mod_pos_bound (d + v) (2 ^ 64) eq_refl).
  destruct (Z.ltb_spec (2 ^ 63) ((d + v) mod 2 ^ 64)); [done|]. apply IH. lia.
Qed.
Lemma ParseDuration_range s d : ParseDuration s = Some d -> - 2 ^ 63 <= d < 2 ^ 63.
Proof.
  unfold ParseDuration. match goal with |- (let (_, _) := ?x in _) = _ -> _ => destruct x as [neg l] end. intros Hd.
  assert (Hz : Some 0 = Some d -> - 2 ^ 63 <= d < 2 ^ 63) by (intros [= <-]; lia).
  assert (Hp : forall o : option Z, (forall t, o = Some t -> 0 <= t <= 2 ^ 63) ->
    (d ← o; if neg then Some (- d) else if Z.ltb (2 ^ 63 - 1) d then None else Some d) = Some d ->
    - 2 ^ 63 <= d < 2 ^ 63).
  { intros [t|] Ho; cbn [mbind option_bind]; [|done]. specialize (Ho t eq_refl).
    destruct neg; [intros [= <-]; lia|]. destruct (Z.ltb_spec (2 ^ 63 - 1) t); [done|]. intros [= <-]. lia. }
  assert (Ht : forall n l t, parse_terms n 0 l = Some t -> 0 <= t <= 2 ^ 63).
  { intros n l' t. apply parse_terms_range. lia. }
  destruct l as [|b l]; [done|]. repeat case_match; first [by apply Hz|by eapply Hp; eauto|done].
Qed.

Example duration_mixed : ParseDuration "1h30m" = Some (90 * Minute).
Proof. reflexivity. Qed.
Example duration_fraction : ParseDuration "-1.5s" = Some (- (1500 * Millisecond)).
Proof. reflexivity. Qed.
Example duration_unitless : ParseDuration "15" = None.
Proof. reflexivity. Qed.
Example duration_micro : ParseDuration "2us" = Some 2000.
Proof. reflexivity. Qed.
Example int_overflow : Atoi "9223372036854775808" = None.
Proof. reflexivity. Qed.
Example duration_text : map Duration_String [90 * Minute; 1500 * Millisecond; 1500; 720 * Hour; - 7]
  = ["1h30m0s"; "1.5s"; "1.5" +:+ of_bytes [194; 181]%N +:+ "s"; "720h0m0s"; "-7ns"]%string.
Proof. vm_compute. reflexivity. Qed.
