(* ===== verification/Utf8.v ===== *)
(** * UTF-8: decoding inverts encoding

    The facts about [decode_rune] and [encode_rune] ([GoStrings.v]) that the JSON round
    trip rests on: a scalar value decodes from its own encoding, whatever follows, and
    whatever [decode_rune] returns is a scalar value. *)
From S2P Require Import Prelude.
From S2P Require Import GoStrings.
Local Open Scope N_scope.
#[local] Ltac Zify.zify_post_hook ::= Z.to_euclidean_division_equations.

(** A Unicode scalar value: a code point that is not a surrogate. *)
Definition scalar (c : N) : Prop := c < 55296 \/ 57344 <= c < 1114112.

Ltac N_bools :=
  repeat match goal with
  | H : (_ <? _) = true |- _ => apply N.ltb_lt in H
  | H : (_ <? _) = false |- _ => apply N.ltb_ge in H
  | H : (_ <=? _) = true |- _ => apply N.leb_le in H
  | H : (_ <=? _) = false |- _ => apply N.leb_gt in H
  | H : (_ =? _) = true |- _ => apply N.eqb_eq in H
  | H : (_ =? _) = false |- _ => apply N.eqb_neq in H
  | H : (_ && _)%bool = true |- _ => apply andb_true_iff in H; destruct H
  | H : (_ || _)%bool = false |- _ => apply orb_false_iff in H; destruct H
  | H : between _ _ _ = true |- _ => unfold between in H
  | H : cont _ = true |- _ => unfold cont in H
  end.

Lemma between_true lo hi b : lo <= b <= hi -> between lo hi b = true.
Proof. intros. unfold between. apply andb_true_iff; rewrite !N.leb_le. lia. Qed.
Lemma between_false lo hi b : b < lo \/ hi < b -> between lo hi b = false.
Proof. intros. unfold between. apply andb_false_iff. rewrite !N.leb_gt. lia. Qed.
Lemma cont_true b : 128 <= b <= 191 -> cont b = true.
Proof. apply between_true. Qed.
Lemma ltb_false a b : b <= a -> (a <? b) = false.
Proof. apply N.ltb_ge. Qed.
Lemma mod64 n : n mod 64 < 64.
Proof. by apply N.mod_lt. Qed.
Lemma cont_digit n : cont (128 + n mod 64) = true.
Proof. apply cont_true. pose proof (mod64 n). lia. Qed.

(** The digits of a code point in base 64. *)
Lemma two_digits c : c / 64 * 64 + c mod 64 = c.
Proof. pose proof (N.Div0.div_mod c 64). lia. Qed.
Lemma three_digits c : c / 4096 * 4096 + (c / 64) mod 64 * 64 + c mod 64 = c.
Proof.
  pose proof (two_digits c). pose proof (two_digits (c / 64)) as Hd.
  rewrite N.Div0.div_div in Hd. change (64 * 64) with 4096 in Hd. lia.
Qed.
Lemma four_digits c :
  c / 262144 * 262144 + (c / 4096) mod 64 * 4096 + (c / 64) mod 64 * 64 + c mod 64 = c.
Proof.
  pose proof (three_digits c). pose proof (two_digits (c / 4096)) as Hd.
  rewrite N.Div0.div_div in Hd. change (4096 * 64) with 262144 in Hd. lia.
Qed.

Lemma decode_encode_2 c l : 128 <= c < 2048 ->
  decode_rune (192 + c / 64) ((128 + c mod 64) :: l) = (c, l).
Proof.
  intros Hc. pose proof (two_digits c). pose proof (mod64 c).
  unfold decode_rune. rewrite ltb_false, between_true, cont_digit by lia. simpl.
  f_equal. lia.
Qed.
Lemma decode_encode_3 c l : scalar c -> 2048 <= c < 65536 ->
  decode_rune (224 + c / 4096) ((128 + (c / 64) mod 64) :: (128 + c mod 64) :: l) = (c, l).
Proof.
  intros Hs Hc. pose proof (three_digits c). pose proof (mod64 c).
  pose proof (mod64 (c / 64)). unfold scalar in Hs.
  unfold decode_rune. rewrite ltb_false by lia.
  rewrite (between_false 194 223), (between_true 224 239), !cont_digit by lia.
  rewrite between_true.
  - simpl. f_equal. lia.
  - split; case_match; N_bools; lia.
Qed.
Lemma decode_encode_4 c l : 65536 <= c < 1114112 ->
  decode_rune (240 + c / 262144)
    ((128 + (c / 4096) mod 64) :: (128 + (c / 64) mod 64) :: (128 + c mod 64) :: l) = (c, l).
Proof.
  intros Hc. pose proof (four_digits c). pose proof (mod64 c).
  pose proof (mod64 (c / 64)). pose proof (mod64 (c / 4096)).
  unfold decode_rune. rewrite ltb_false by lia.
  rewrite (between_false 194 223), (between_false 224 239), (between_true 240 244), !cont_digit by lia.
  cbn [andb].
  rewrite between_true.
  - simpl. f_equal. lia.
  - split; case_match; N_bools; lia.
Qed.

(** The first byte of an encoding and the rest. *)
Lemma decode_encode c l : scalar c ->
  exists b r, encode_rune c = b :: r /\ decode_rune b (r ++ l) = (c, l).
Proof.
  intros Hs. unfold encode_rune. split_ifs; N_bools.
  - exists c, []. split; [done|]. simpl. unfold decode_rune.
    by replace (c <? 128) with true by (symmetry; by apply N.ltb_lt).
  - eexists _, _. split; [done|]. apply decode_encode_2. lia.
  - eexists _, _. split; [done|]. apply decode_encode_3; [done|lia].
  - eexists _, _. split; [done|]. apply decode_encode_4. unfold scalar in Hs. lia.
Qed.

(** What decoding returns: a scalar value and a tail of the input. *)
Lemma decode_rune_scalar b l c r : decode_rune b l = (c, r) -> scalar c.
Proof.
  unfold decode_rune, RuneError, scalar. intros E.
  split_ifs; N_bools; try lia.
Qed.
Lemma decode_rune_length b l c r : decode_rune b l = (c, r) -> (length r <= length l)%nat.
Proof. unfold decode_rune. intros E. split_ifs; lia. Qed.
Lemma decode_rune_suffix b l c r : decode_rune b l = (c, r) -> exists k, r = drop k l.
Proof.
  unfold decode_rune. intros E.
  split_ifs; first [by exists 0%nat|by exists 1%nat|by exists 2%nat|by exists 3%nat].
Qed.
Lemma decode_rune_ascii b l : b < 128 -> decode_rune b l = (b, l).
Proof. intros Hb. unfold decode_rune. by apply N.ltb_lt in Hb as ->. Qed.

(** [encode_rune] yields bytes, and starts like its argument is ASCII or not. *)
Lemma encode_rune_bytes c : scalar c -> Forall (fun b => b < 256) (encode_rune c).
Proof.
  intros Hs. pose proof (four_digits c). pose proof (three_digits c). pose proof (two_digits c).
  pose proof (mod64 c). pose proof (mod64 (c / 64)). pose proof (mod64 (c / 4096)).
  unfold scalar in Hs. unfold encode_rune. split_ifs; N_bools; repeat constructor; lia.
Qed.
Lemma encode_rune_high c b r : 128 <= c -> encode_rune c = b :: r -> 128 <= b.
Proof. intros Hc. unfold encode_rune. intros E. split_ifs; N_bools; lia. Qed.
