(* ===== verification/Json.v ===== *)
(** * encoding/json: marshalling

    [json.Marshal] of the documents the program builds, with HTML escaping on and map keys
    in the order the document lists them.  Its length bounds the audit metadata and its
    text is what the job queue stores. *)
From S2P Require Import Prelude.
From S2P Require Import Schema.
From S2P Require Import Store.
From S2P Require Import GoStrings.
From stdpp Require Import pretty.
Local Open Scope N_scope.

Definition ch (s : string) : list N := bytes s.

(** One ASCII byte of a string literal. *)
Definition escape_ascii (b : N) : list N :=
  if b =? 34 then ch "\" ++ [34] else if b =? 92 then ch "\\"
  else if b =? 8 then ch "\b" else if b =? 12 then ch "\f" else if b =? 10 then ch "\n"
  else if b =? 13 then ch "\r" else if b =? 9 then ch "\t"
  else if (b <? 32) || (b =? 60) || (b =? 62) || (b =? 38)
  then ch "\u00" ++ [hex_digit (b / 16); hex_digit (b mod 16)] else [b].
Fixpoint escape_fuel (n : nat) (l : list N) : list N :=
  match n, l with
  | S n, b :: r =>
      let (c, r') := decode_rune b r in
      (if b <? 128 then escape_ascii b
       else if (c =? RuneError) && (Nat.eqb (length r') (length r)) then ch "\ufffd"
       else if (c =? 8232) || (c =? 8233) then ch "\u202" ++ [hex_digit (c mod 16)]
       else encode_rune c) ++ escape_fuel n r'
  | _, _ => []
  end.
Definition marshal_string (s : string) : list N :=
  [34] ++ escape_fuel (length (bytes s)) (bytes s) ++ [34].

Definition commas (ls : list (list N)) : list N :=
  match ls with [] => [] | l :: r => l ++ concat (map (fun x => ch "," ++ x) r) end.
Fixpoint marshal (j : json) : list N :=
  match j with
  | JNull => ch "null"
  | JBool b => if b then ch "true" else ch "false"
  | JNum n => ch (pretty n)
  | JStr s => marshal_string s
  | JArr l => ch "[" ++ commas (map marshal l) ++ ch "]"
  | JObj fs => ch "{" ++ commas (map (fun kv => marshal_string kv.1 ++ ch ":" ++ marshal kv.2) fs)
               ++ ch "}"
  end.
Definition Marshal (j : json) : string := of_bytes (marshal j).
