(* ===== verification/JsonDecode.v ===== *)
(** * encoding/json: unmarshalling

    The decoder the job queue and the request handlers rely on: RFC 8259 text, with
    [json.Unmarshal]'s treatment of strings (escapes, surrogate pairs, invalid UTF-8 read
    as U+FFFD).  Numbers with a fraction or an exponent, which no document of the program
    holds and no Go integer field accepts, are refused.

    The round trip: a document that was marshalled decodes to itself, up to strings that
    were not valid UTF-8. *)
From stdpp Require Import pretty.
From S2P Require Import Prelude.
From S2P Require Import Schema.
From S2P Require Import GoStrings.
From S2P Require Import Utf8.
From S2P Require Import Json.
Local Open Scope N_scope.
#[local] Ltac Zify.zify_post_hook ::= Z.to_euclidean_division_equations.

(** ** Strings *)
Definition hex_value (b : N) : option N :=
  if between 48 57 b then Some (b - 48) else if between 97 102 b then Some (b - 87)
  else if between 65 70 b then Some (b - 55) else None.
(** [getu4]: the four digits after a [\u]. *)
Definition getu4 (l : list N) : option (N * list N) :=
  match l with
  | a :: b :: c :: d :: r =>
      a ← hex_value a; b ← hex_value b; c ← hex_value c; d ← hex_value d;
      Some (a * 4096 + b * 256 + c * 16 + d, r)
  | _ => None
  end.
(** A surrogate is combined with the [\u] escape that follows, or reads as U+FFFD. *)
Definition combine_surrogate (c : N) (l : list N) : N * list N :=
  if between 55296 57343 c then
    match l with
    | 92 :: 117 :: r =>
        match getu4 r with
        | Some (c2, r') =>
            if between 55296 56319 c && between 56320 57343 c2
            then (65536 + (c - 55296) * 1024 + (c2 - 56320), r') else (RuneError, l)
        | None => (RuneError, l)
        end
    | _ => (RuneError, l)
    end
  else (c, l).
Definition simple_escape (e : N) : option N :=
  if (e =? 34) || (e =? 92) || (e =? 47) then Some e
  else if e =? 98 then Some 8 else if e =? 102 then Some 12 else if e =? 110 then Some 10
  else if e =? 114 then Some 13 else if e =? 116 then Some 9 else None.
Definition prepend (p : list N) (r : option (list N * list N)) : option (list N * list N) :=
  '(s, l) ← r; Some (p ++ s, l).
(** The text after an opening quote: the bytes of the string, and what follows the
    closing quote.  Every step consumes a byte. *)
Fixpoint parse_string (n : nat) (l : list N) : option (list N * list N) :=
  match n with
  | O => None
  | S n =>
      match l with
      | [] => None
      | 34 :: r => Some ([], r)
      | 92 :: 117 :: r =>
          '(c, r1) ← getu4 r;
          let (c', r2) := combine_surrogate c r1 in prepend (encode_rune c') (parse_string n r2)
      | 92 :: e :: r => b ← simple_escape e; prepend [b] (parse_string n r)
      | b :: r =>
          if (b <? 32) || (b =? 92) then None else
          let (c, r') := decode_rune b r in prepend (encode_rune c) (parse_string n r')
      end
  end.

(** ** Values *)
Definition json_space (b : N) : bool := (b =? 32) || (b =? 9) || (b =? 10) || (b =? 13).
Definition skip_ws (l : list N) : list N := drop_while json_space l.
Definition is_digit (b : N) : bool := between 48 57 b.
Fixpoint take_digits (acc : Z) (l : list N) : Z * list N :=
  match l with
  | b :: r => if is_digit b then take_digits (acc * 10 + (Z.of_N b - 48)) r else (acc, l)
  | [] => (acc, [])
  end.
(** The digits of a number: no leading zero, no fraction, no exponent. *)
Definition parse_nat (l : list N) : option (Z * list N) :=
  match l with
  | b :: r =>
      if negb (is_digit b) then None else
      let (z, r') := if b =? 48 then (0%Z, r) else take_digits 0 l in
      match r' with
      | x :: _ => if (x =? 46) || (x =? 101) || (x =? 69) then None else Some (z, r')
      | [] => Some (z, r')
      end
  | [] => None
  end.
Definition parse_number (l : list N) : option (Z * list N) :=
  match l with
  | 45 :: r => '(z, r') ← parse_nat r; Some ((- z)%Z, r')
  | _ => parse_nat l
  end.
Definition literal (text : string) (v : json) (l : list N) : option (json * list N) :=
  r ← strip_prefix (ch text) l; Some (v, r).

(** Values, the rest of an array after an element's opening, and the rest of an object.
    [n] bounds the nesting depth plus the number of elements on the way; the length of the
    text is enough. *)
Fixpoint parse_value (n : nat) (l : list N) : option (json * list N) :=
  match n with
  | O => None
  | S n =>
      match skip_ws l with
      | [] => None
      | 34 :: r => '(s, r') ← parse_string (S (length r)) r; Some (JStr (of_bytes s), r')
      | 91 :: r =>
          match skip_ws r with
          | 93 :: r' => Some (JArr [], r')
          | _ => '(vs, r') ← parse_elements n r; Some (JArr vs, r')
          end
      | 123 :: r =>
          match skip_ws r with
          | 125 :: r' => Some (JObj [], r')
          | _ => '(fs, r') ← parse_fields n r; Some (JObj fs, r')
          end
      | 110 :: r => literal "ull" JNull r
      | 116 :: r => literal "rue" (JBool true) r
      | 102 :: r => literal "alse" (JBool false) r
      | l' => '(z, r') ← parse_number l'; Some (JNum z, r')
      end
  end
with parse_elements (n : nat) (l : list N) : option (list json * list N) :=
  match n with
  | O => None
  | S n =>
      '(v, r) ← parse_value n l;
      match skip_ws r with
      | 44 :: r' => '(vs, r'') ← parse_elements n r'; Some (v :: vs, r'')
      | 93 :: r' => Some ([v], r')
      | _ => None
      end
  end
with parse_fields (n : nat) (l : list N) : option (list (string * json) * list N) :=
  match n with
  | O => None
  | S n =>
      match skip_ws l with
      | 34 :: r =>
          '(k, r1) ← parse_string (S (length r)) r;
          match skip_ws r1 with
          | 58 :: r2 =>
              '(v, r3) ← parse_value n r2;
              match skip_ws r3 with
              | 44 :: r4 => '(fs, r5) ← parse_fields n r4; Some ((of_bytes k, v) :: fs, r5)
              | 125 :: r4 => Some ([(of_bytes k, v)], r4)
              | _ => None
              end
          | _ => None
          end
      | _ => None
      end
  end.

(** [json.Unmarshal] into a generic value: one value and nothing after it. *)
Definition Unmarshal (s : string) : option json :=
  '(v, r) ← parse_value (S (S (length (bytes s)))) (bytes s);
  match skip_ws r with [] => Some v | _ => None end.

(** ** Strings: what was escaped decodes

    [utf8_clean] is the string with every byte that is not part of an encoding replaced
    by U+FFFD; it is what a Go string becomes on its way through JSON. *)
Definition utf8_clean (s : string) : string := of_bytes (concat (map encode_rune (runes s))).

Lemma parse_string_other n b r : b <> 34 -> b <> 92 ->
  parse_string (S n) (b :: r) =
    if (b <? 32) || (b =? 92) then None else
    let (c, r') := decode_rune b r in prepend (encode_rune c) (parse_string n r').
Proof.
  intros H34 H92. destruct b as [|p]; [done|].
  do 7 (destruct p as [p|p|]; try done).
Qed.
(** One ASCII byte, in whichever of its forms. *)
Lemma parse_ascii n b t : b < 128 ->
  parse_string (S n) (escape_ascii b ++ t) = prepend [b] (parse_string n t).
Proof.
  intros Hb. destruct b as [|p]; [reflexivity|].
  do 7 (destruct p as [p|p|]; try reflexivity; try (exfalso; lia)).
Qed.
Lemma decode_rune_high b l c r : 128 <= b -> decode_rune b l = (c, r) -> 128 <= c.
Proof. intros Hb. unfold decode_rune, RuneError. intros E. split_ifs; N_bools; lia. Qed.
Lemma parse_plain n c t : scalar c -> 128 <= c ->
  parse_string (S n) (encode_rune c ++ t) = prepend (encode_rune c) (parse_string n t).
Proof.
  intros Hs Hc. destruct (decode_encode c t Hs) as (b & r & E & Hd).
  pose proof (encode_rune_high _ _ _ Hc E). rewrite E. cbn [app].
  rewrite parse_string_other by lia. rewrite Hd, E.
  replace ((b <? 32) || (b =? 92)) with false; [done|].
  symmetry. apply orb_false_iff. rewrite N.ltb_ge, N.eqb_neq. lia.
Qed.

(** The escape of one rune. *)
Definition escape_step (b c : N) (same_length : bool) : list N :=
  if b <? 128 then escape_ascii b
  else if (c =? RuneError) && same_length then ch "\ufffd"
  else if (c =? 8232) || (c =? 8233) then ch "\u202" ++ [hex_digit (c mod 16)]
  else encode_rune c.
Lemma escape_step_parse b r c r' f n t : decode_rune b r = (c, r') ->
  parse_string (S n) (escape_step b c f ++ t) = prepend (encode_rune c) (parse_string n t).
Proof.
  intros Hd. unfold escape_step. destruct (b <? 128) eqn:Hb; N_bools.
  { rewrite decode_rune_ascii in Hd by done. simplify_eq. rewrite parse_ascii by done.
    unfold encode_rune. by apply N.ltb_lt in Hb as ->. }
  pose proof (decode_rune_high _ _ _ _ Hb Hd). pose proof (decode_rune_scalar _ _ _ _ Hd).
  destruct ((c =? RuneError) && f) eqn:?; N_bools; [by subst c|].
  destruct ((c =? 8232) || (c =? 8233)) eqn:E; [|by apply parse_plain].
  apply orb_true_iff in E as [->%N.eqb_eq| ->%N.eqb_eq]; reflexivity.
Qed.
Lemma escape_step_nonempty b c f : (0 < length (escape_step b c f))%nat.
Proof.
  unfold escape_step, escape_ascii, encode_rune. repeat case_match; simpl; lia.
Qed.

Lemma parse_escape n l m rest : (length l <= n)%nat -> (length (escape_fuel n l) < m)%nat ->
  parse_string m (escape_fuel n l ++ 34 :: rest) =
    Some (concat (map encode_rune (runes_fuel n l)), rest).
Proof.
  revert l m. induction n as [|n IH]; intros [|b r] m Hl Hm; cbn [length] in Hl; try lia;
    [by destruct m; simpl in *; [lia|]..|].
  cbn [escape_fuel runes_fuel] in *. destruct (decode_rune b r) as [c r'] eqn:Hd.
  fold (escape_step b c (Nat.eqb (length r') (length r))) in *.
  pose proof (escape_step_nonempty b c (Nat.eqb (length r') (length r))).
  rewrite length_app in Hm. destruct m as [|m]; [lia|]. rewrite <- app_assoc.
  rewrite (escape_step_parse _ _ _ _ _ _ _ Hd).
  apply decode_rune_length in Hd. rewrite IH by lia. done.
Qed.
Lemma parse_marshal_string s rest :
  exists r, marshal_string s ++ rest = 34 :: r /\
    parse_string (S (length r)) r = Some (bytes (utf8_clean s), rest).
Proof.
  unfold marshal_string. set (l := bytes s). exists (escape_fuel (length l) l ++ 34 :: rest).
  split; [cbn [app]; by rewrite <- !app_assoc|].
  rewrite parse_escape; [|done|rewrite length_app; lia]. f_equal. f_equal.
  unfold utf8_clean, runes. rewrite bytes_of_bytes; [done|]. apply Forall_concat, Forall_fmap.
  fold l. generalize (length l). clearbody l. intros n. revert l.
  induction n as [|n IH]; intros [|b r]; [constructor..|]. cbn.
  destruct (decode_rune b r) as [c r'] eqn:Hd. constructor; [|apply IH].
  by apply encode_rune_bytes, (decode_rune_scalar b r c r').
Qed.

(** ** Numbers *)
Definition digits_fold (ds : list N) (acc : Z) : Z :=
  fold_left (fun a b => (a * 10 + (Z.of_N b - 48))%Z) ds acc.
Lemma take_digits_app ds acc rest : Forall (fun b => is_digit b = true) ds ->
  take_digits acc (ds ++ rest) = take_digits (digits_fold ds acc) rest.
Proof.
  intros Hd. revert acc. induction Hd as [|b ds Hb _ IH]; intros acc; [done|].
  cbn [app take_digits]. rewrite Hb. apply IH.
Qed.
(** What may follow a number. *)
Definition number_end (l : list N) : Prop :=
  match l with [] => True | b :: _ => is_digit b = false /\ b <> 46 /\ b <> 101 /\ b <> 69 end.
Lemma take_digits_end acc l : number_end l -> take_digits acc l = (acc, l).
Proof. destruct l as [|b l]; [done|]. intros [Hb _]. simpl. by rewrite Hb. Qed.

Lemma bytes_String a s : bytes (String a s) = Ascii.N_of_ascii a :: bytes s.
Proof. done. Qed.
Lemma pretty_N_char_byte d : d < 10 -> Ascii.N_of_ascii (pretty_N_char d) = 48 + d.
Proof.
  intros Hd. destruct d as [|p]; [done|]. do 4 (destruct p as [p|p|]; try done; try (exfalso; lia)).
Qed.
(** The decimal digits of a positive number. *)
Lemma pretty_digits x : 0 < x -> exists b ds,
  (forall s, bytes (pretty_N_go x s) = (b :: ds) ++ bytes s) /\ 49 <= b <= 57 /\
  Forall (fun b => is_digit b = true) (b :: ds) /\ digits_fold (b :: ds) 0 = Z.of_N x.
Proof.
  induction (N.lt_wf_0 x) as [x _ IH]. intros Hx.
  assert (Hm : x mod 10 < 10) by (by apply N.mod_lt).
  pose proof (N.Div0.div_mod x 10) as Hdm.
  assert (Hdig : is_digit (48 + x mod 10) = true) by (apply between_true; lia).
  destruct (decide (x / 10 = 0)) as [H0|H0].
  - exists (48 + x mod 10), []. split_and!.
    + intros s. rewrite pretty_N_go_step, H0, pretty_N_go_0 by done.
      by rewrite bytes_String, pretty_N_char_byte.
    + lia.
    + lia.
    + by constructor.
    + cbn. lia.
  - destruct (IH (x / 10)) as (b & ds & Hs & Hb & Hf & Hv); [by apply N.div_lt|lia|].
    exists b, (ds ++ [48 + x mod 10]). split_and!; [|lia|lia| |].
    + intros s. rewrite pretty_N_go_step, Hs, bytes_String, pretty_N_char_byte by done.
      cbn [app]. by rewrite <- app_assoc.
    + rewrite app_comm_cons. apply Forall_app. split; [done|by constructor].
    + unfold digits_fold in *. rewrite app_comm_cons, fold_left_app, Hv. cbn. lia.
Qed.
Lemma parse_nat_pretty x rest : number_end rest ->
  exists b l, bytes (pretty x) ++ rest = b :: l /\ is_digit b = true /\
    parse_nat (b :: l) = Some (Z.of_N x, rest).
Proof.
  intros Hr. unfold pretty, pretty_N. case_decide as Hx.
  - subst. exists 48, rest. split; [done|]. split; [done|]. cbn.
    destruct rest as [|y rest]; [done|]. destruct Hr as (_ & H1 & H2 & H3).
    by repeat match goal with |- context [y =? ?k] => replace (y =? k) with false by (symmetry; by apply N.eqb_neq) end.
  - destruct (pretty_digits x) as (b & ds & Hs & Hb & Hf & Hv); [lia|].
    exists b, (ds ++ rest). rewrite Hs. cbn [app]. split; [by rewrite app_nil_r|].
    pose proof (Forall_cons_1 _ _ _ Hf) as [Hbd _]. split; [done|].
    unfold parse_nat. rewrite Hbd. cbn [negb]. replace (b =? 48) with false by (symmetry; apply N.eqb_neq; lia).
    change (b :: ds ++ rest) with ((b :: ds) ++ rest). rewrite take_digits_app, Hv, take_digits_end by done.
    destruct rest as [|y rest]; [done|]. destruct Hr as (_ & H1 & H2 & H3).
    by repeat match goal with |- context [y =? ?k] => replace (y =? k) with false by (symmetry; by apply N.eqb_neq) end.
Qed.
(** The first byte of a number, and its value. *)
Lemma parse_number_pretty z rest : number_end rest ->
  exists b l, bytes (pretty z) ++ rest = b :: l /\ (is_digit b = true \/ b = 45) /\
    parse_number (b :: l) = Some (z, rest).
Proof.
  intros Hr.
  assert (Hpos : forall p, exists b l, bytes (pretty (N.pos p)) ++ rest = b :: l /\
     is_digit b = true /\ parse_number (b :: l) = Some (Z.pos p, rest)).
  { intros p. destruct (parse_nat_pretty (N.pos p) rest Hr) as (b & l & E & Hb & Hp).
    exists b, l. split; [done|]. split; [done|]. etransitivity; [|exact Hp].
    destruct b as [|q]; [done|]. do 6 (destruct q as [q|q|]; try done). }
  destruct z as [|p|p].
  - exists 48, rest. split; [done|]. split; [by left|].
    destruct (parse_nat_pretty 0 rest Hr) as (b & l & E & _ & Hp). change (48 :: rest = b :: l) in E. simplify_eq. exact Hp.
  - destruct (Hpos p) as (b & l & E & Hb & Hp). exists b, l. auto.
  - destruct (parse_nat_pretty (N.pos p) rest Hr) as (b & l & E & Hb & Hp).
    exists 45, (b :: l). split; [|split; [by right|]].
    + change (bytes (pretty (Z.neg p))) with (45 :: bytes (pretty (N.pos p))). cbn [app]. by rewrite <- E.
    + cbn [parse_number]. by rewrite Hp.
Qed.

(** ** Values *)

(** What a document becomes on its way through its text. *)
Fixpoint clean_json (j : json) : json :=
  match j with
  | JStr s => JStr (utf8_clean s)
  | JArr l => JArr (map clean_json l)
  | JObj fs => JObj (map (fun kv => (utf8_clean kv.1, clean_json kv.2)) fs)
  | j => j
  end.

(** Induction over documents, through arrays and objects. *)
Section json_rules.
Context (P : json -> Prop).
Context (Hnull : P JNull) (Hbool : forall b, P (JBool b)) (Hnum : forall z, P (JNum z)).
Context (Hstr : forall s, P (JStr s)).
Context (Harr : forall l, Forall P l -> P (JArr l)).
Context (Hobj : forall fs, Forall (fun kv : string * json => P kv.2) fs -> P (JObj fs)).
Fixpoint json_nested (j : json) : P j :=
  match j with
  | JNull => Hnull | JBool b => Hbool b | JNum z => Hnum z | JStr s => Hstr s
  | JArr l => Harr l ((fix go l : Forall P l :=
      match l with [] => Forall_nil_2 _ | x :: r => Forall_cons_2 _ x r (json_nested x) (go r) end) l)
  | JObj fs => Hobj fs ((fix go fs : Forall (fun kv : string * json => P kv.2) fs :=
      match fs with
      | [] => Forall_nil_2 _ | x :: r => Forall_cons_2 _ x r (json_nested x.2) (go r)
      end) fs)
  end.
End json_rules.

(** The fuel a document needs. *)
Definition need_list (ns : list nat) : nat := fold_right (fun n k => S (Nat.max n k)) O ns.
Fixpoint need (j : json) : nat :=
  match j with
  | JArr l => S (need_list (map need l))
  | JObj fs => S (need_list (map (fun kv => need kv.2) fs))
  | _ => 1
  end.

Definition marshal_field (kv : string * json) : list N := marshal_string kv.1 ++ ch ":" ++ marshal kv.2.
Lemma commas_cons x y l : commas (x :: y :: l) = x ++ 44 :: commas (y :: l).
Proof. reflexivity. Qed.
(** The first byte of a document: never white space, and it tells the documents apart. *)
Lemma number_head (z : Z) : exists b l, bytes (pretty z) = b :: l /\ (is_digit b = true \/ b = 45).
Proof.
  destruct (parse_number_pretty z [] I) as (b & l & E & Hb & _). rewrite app_nil_r in E. eauto.
Qed.
Lemma marshal_head j : exists b l, marshal j = b :: l /\ json_space b = false /\ b <> 93 /\ b <> 125.
Proof.
  destruct j as [|[]|z|s|l|fs]; try (eexists _, _; split; [reflexivity|done]).
  destruct (number_head z) as (b & l & E & Hb). exists b, l. split; [done|].
  assert (Hr : 45 <= b <= 57) by (destruct Hb as [Hb| ->]; [unfold is_digit in Hb; N_bools; lia|lia]).
  unfold json_space. rewrite !orb_false_iff, !N.eqb_neq. lia.
Qed.
Lemma skip_ws_head b l : json_space b = false -> skip_ws (b :: l) = b :: l.
Proof. intros Hb. unfold skip_ws. simpl. by rewrite Hb. Qed.
Lemma skip_ws_marshal j rest : skip_ws (marshal j ++ rest) = marshal j ++ rest.
Proof. destruct (marshal_head j) as (b & l & E & Hs & _). rewrite E. by apply skip_ws_head. Qed.

(** What follows a value inside a document. *)
Definition value_end (l : list N) : Prop :=
  match l with [] => True | b :: _ => b = 44 \/ b = 93 \/ b = 125 end.
Lemma value_number_end l : value_end l -> number_end l.
Proof. destruct l as [|b l]; [done|]. by intros [-> |[-> | ->]]. Qed.

Definition parses (j : json) : Prop := forall n rest, (need j <= n)%nat -> value_end rest ->
  parse_value n (marshal j ++ rest) = Some (clean_json j, rest).

Lemma elements_parse l : l <> [] -> Forall parses l -> forall n rest,
  (need_list (map need l) <= n)%nat ->
  parse_elements n (commas (map marshal l) ++ 93 :: rest) = Some (map clean_json l, rest).
Proof.
  intros Hne Hl. induction Hl as [|x l Hx Hl IH]; [done|]. intros n rest Hn. cbn [need_list map fold_right] in Hn.
  destruct n as [|n]; [lia|]. destruct l as [|y l].
  - cbn [map commas concat app parse_elements]. rewrite app_nil_r, Hx; [|lia|by right; left]. done.
  - cbn [map]. rewrite commas_cons. rewrite <- app_assoc. cbn [app parse_elements].
    rewrite Hx; [|lia|by left]. cbn. change (marshal y :: map marshal l) with (map marshal (y :: l)).
    rewrite IH; [done|done|]. cbn [need_list map fold_right] in *. lia.
Qed.
Lemma fields_parse fs : fs <> [] -> Forall (fun kv : string * json => parses kv.2) fs -> forall n rest,
  (need_list (map (fun kv => need kv.2) fs) <= n)%nat ->
  parse_fields n (commas (map marshal_field fs) ++ 125 :: rest) =
    Some (map (fun kv => (utf8_clean kv.1, clean_json kv.2)) fs, rest).
Proof.
  intros Hne Hl. induction Hl as [|[k x] l Hx Hl IH]; [done|]. intros n rest Hn.
  cbn [need_list map fold_right snd] in *. destruct n as [|n]; [lia|].
  assert (Hfield : forall t, value_end t ->
    parse_fields (S n) (marshal_field (k, x) ++ t) =
      match skip_ws t with
      | 44 :: r4 => '(fs, r5) ← parse_fields n r4; Some ((utf8_clean k, clean_json x) :: fs, r5)
      | 125 :: r4 => Some ([(utf8_clean k, clean_json x)], r4)
      | _ => None
      end).
  { intros t Ht. unfold marshal_field. cbn [fst snd]. rewrite <- !app_assoc.
    destruct (parse_marshal_string k (58 :: marshal x ++ t)) as (r & E & Hr).
    change (ch ":" ++ marshal x ++ t) with (58 :: marshal x ++ t). rewrite E.
    cbn [parse_fields]. rewrite skip_ws_head by done. rewrite Hr. cbn [mbind option_bind].
    rewrite skip_ws_head by done. rewrite Hx by (done || lia). cbn [mbind option_bind].
    assert (Hb : of_bytes (bytes (utf8_clean k)) = utf8_clean k) by apply of_bytes_bytes.
    by rewrite Hb. }
  destruct l as [|y l].
  - cbn [map commas concat app]. rewrite app_nil_r, Hfield by (by right; right). done.
  - cbn [map]. rewrite commas_cons, <- app_assoc. cbn [app]. rewrite Hfield by (by left).
    rewrite skip_ws_head by done. change (marshal_field y :: map marshal_field l) with (map marshal_field (y :: l)).
    rewrite IH; [done|done|]. cbn [need_list map fold_right] in *. lia.
Qed.

Lemma value_parse j : parses j.
Proof.
  induction j as [|b|z|s|l IH|fs IH] using json_nested; intros n rest Hn Hr;
    (destruct n as [|n]; [simpl in Hn; lia|]).
  - reflexivity.
  - by destruct b.
  - destruct (parse_number_pretty z rest (value_number_end _ Hr)) as (b & r & E & Hb & Hp).
    cbn [marshal]. change (ch (pretty z)) with (bytes (pretty z)). rewrite E.
    assert (Hd : 45 <= b <= 57) by (destruct Hb as [Hb| ->]; [unfold is_digit in Hb; N_bools; lia|lia]).
    cbn [parse_value]. rewrite skip_ws_head by (unfold json_space; rewrite !orb_false_iff, !N.eqb_neq; lia).
    transitivity ('(z, r') ← parse_number (b :: r); Some (JNum z, r')); [|by rewrite Hp].
    destruct b as [|p]; [done|]. do 7 (destruct p as [p|p|]; try reflexivity; try (exfalso; lia)).
  - destruct (parse_marshal_string s rest) as (r & E & Hp). cbn [marshal parse_value].
    rewrite E, skip_ws_head by done. rewrite Hp. cbn. by rewrite of_bytes_bytes.
  - cbn [marshal]. rewrite <- !app_assoc. change (ch "[" ++ ?x) with (91 :: x).
    change (ch "]" ++ rest) with (93 :: rest). cbn [parse_value]. rewrite skip_ws_head by done.
    cbn [need] in Hn. destruct l as [|x l]; [reflexivity|].
    rewrite elements_parse; [|done|done|lia]. destruct (marshal_head x) as (b & t & E & Hs & H93 & _).
    assert (Hc : exists t', commas (map marshal (x :: l)) ++ 93 :: rest = b :: t').
    { cbn [map commas]. rewrite E. eexists. by rewrite <- app_assoc. }
    destruct Hc as [t' ->]. rewrite skip_ws_head by done.
    destruct b as [|p]; [done|]. do 7 (destruct p as [p|p|]; try done).
  - cbn [marshal]. rewrite <- !app_assoc. change (ch "{" ++ ?x) with (123 :: x).
    change (ch "}" ++ rest) with (125 :: rest). cbn [parse_value]. rewrite skip_ws_head by done.
    cbn [need] in Hn. destruct fs as [|kv fs]; [reflexivity|].
    change (map _ (kv :: fs)) with (map marshal_field (kv :: fs)).
    rewrite fields_parse; [|done|done|lia].
    assert (Hc : exists t', commas (map marshal_field (kv :: fs)) ++ 125 :: rest = 34 :: t').
    { cbn [map commas]. unfold marshal_field at 1, marshal_string. eexists. rewrite <- !app_assoc. reflexivity. }
    destruct Hc as [t' ->]. by rewrite skip_ws_head.
Qed.

(** ** The length of the text is enough fuel *)
Fixpoint total (ls : list (list N)) : nat := match ls with [] => O | l :: r => length l + total r end.
Lemma commas_length (ls : list (list N)) :
  length (commas ls) = (total ls + (length ls - 1))%nat.
Proof.
  destruct ls as [|x ls]; [done|]. cbn [commas map total length]. rewrite length_app.
  enough (length (concat (map (fun y => ch "," ++ y) ls)) = (total ls + length ls)%nat) by lia.
  induction ls as [|y ls IH]; [done|]. cbn [map concat total length]. rewrite length_app, IH.
  cbn. lia.
Qed.
Lemma need_list_bound {A} (f : A -> nat) (g : A -> list N) l :
  Forall (fun x => f x <= S (length (g x)) /\ 0 < length (g x))%nat l ->
  (need_list (map f l) <= length (commas (map g l)) + 2)%nat /\ (l = [] -> need_list (map f l) = 0)%nat.
Proof.
  intros Hl. split; [|by intros ->]. rewrite commas_length.
  induction Hl as [|x l [Hx Hp] _ IH]; [simpl; lia|].
  cbn [need_list map fold_right total length] in *. rewrite !length_map in *.
  destruct l; cbn [need_list map fold_right total length] in *; lia.
Qed.
Lemma marshal_nonempty j : (0 < length (marshal j))%nat.
Proof. destruct (marshal_head j) as (b & l & -> & _). simpl. lia. Qed.
Lemma need_bound j : (need j <= S (length (marshal j)))%nat.
Proof.
  induction j as [|b|z|s|l IH|fs IH] using json_nested; cbn [need]; try lia.
  - cbn [marshal]. rewrite !length_app. cbn [ch length].
    destruct (need_list_bound need marshal l) as [Hb _].
    { revert IH. apply Forall_impl. intros x Hx. split; [done|apply marshal_nonempty]. }
    cbn in *. lia.
  - cbn [marshal]. rewrite !length_app.
    destruct (need_list_bound (fun kv : string * json => need kv.2) marshal_field fs) as [Hb _].
    { revert IH. apply Forall_impl. intros x Hx. unfold marshal_field.
      rewrite !length_app. pose proof (marshal_nonempty x.2). lia. }
    unfold marshal_field in Hb. cbn in *. lia.
Qed.

(** ** Documents are bytes *)
Lemma escape_step_bytes b r c r' f : b < 256 -> decode_rune b r = (c, r') ->
  Forall (fun x => x < 256) (escape_step b c f).
Proof.
  intros Hb Hd. pose proof (decode_rune_scalar _ _ _ _ Hd). unfold escape_step, escape_ascii, ch.
  repeat case_match; N_bools; repeat (apply Forall_app; split); try apply bytes_range;
    try (by apply encode_rune_bytes); repeat constructor; unfold hex_digit; try case_match; N_bools; lia.
Qed.
Lemma escape_bytes n l : Forall (fun x => x < 256) l -> Forall (fun x => x < 256) (escape_fuel n l).
Proof.
  revert l. induction n as [|n IH]; intros [|b r] Hl; try constructor.
  apply Forall_cons_1 in Hl as [Hb Hr]. cbn [escape_fuel]. destruct (decode_rune b r) as [c r'] eqn:Hd.
  fold (escape_step b c (Nat.eqb (length r') (length r))). apply Forall_app. split.
  - by apply (escape_step_bytes b r c r').
  - apply IH. destruct (decode_rune_suffix _ _ _ _ Hd) as [k ->]. by apply Forall_drop.
Qed.
Lemma commas_bytes ls : Forall (Forall (fun x => x < 256)) ls -> Forall (fun x => x < 256) (commas ls).
Proof.
  intros Hl. destruct Hl as [|x ls Hx Hl]; [constructor|]. cbn. apply Forall_app. split; [done|].
  apply Forall_concat, Forall_fmap. revert Hl. apply Forall_impl. intros y Hy.
  constructor; [lia|done].
Qed.
Lemma marshal_string_bytes s : Forall (fun x => x < 256) (marshal_string s).
Proof.
  unfold marshal_string. repeat (apply Forall_app; split); try (repeat constructor; lia).
  apply escape_bytes, bytes_range.
Qed.
Lemma marshal_bytes j : Forall (fun x => x < 256) (marshal j).
Proof.
  induction j as [|b|z|s|l IH|fs IH] using json_nested; cbn [marshal].
  - apply bytes_range.
  - destruct b; apply bytes_range.
  - apply bytes_range.
  - apply marshal_string_bytes.
  - repeat (apply Forall_app; split); try apply bytes_range. apply commas_bytes, Forall_fmap. exact IH.
  - repeat (apply Forall_app; split); try apply bytes_range. apply commas_bytes, Forall_fmap.
    revert IH. apply Forall_impl. intros kv Hkv.
    apply Forall_app. split; [apply marshal_string_bytes|].
    apply Forall_app. split; [apply bytes_range|done].
Qed.

(** [json.Unmarshal] inverts [json.Marshal]: every document comes back, with its strings
    made valid UTF-8. *)
Theorem Unmarshal_Marshal j : Unmarshal (Marshal j) = Some (clean_json j).
Proof.
  unfold Unmarshal, Marshal. rewrite bytes_of_bytes by apply marshal_bytes.
  pose proof (value_parse j (S (S (length (marshal j)))) []) as Hv. rewrite app_nil_r in Hv.
  rewrite Hv; [done| |done]. pose proof (need_bound j). lia.
Qed.

(** On documents whose strings are valid UTF-8 the round trip is exact. *)
Definition utf8_valid (s : string) : Prop := utf8_clean s = s.
Lemma ascii_clean s : is_ascii s = true -> utf8_clean s = s.
Proof.
  unfold is_ascii, utf8_clean, runes. intros Hs. rewrite <- (of_bytes_bytes s) at 3. f_equal.
  induction (bytes s) as [|b r IH]; [done|]. cbn [forallb length runes_fuel] in *.
  apply andb_true_iff in Hs as [Hb Hr]. rewrite decode_rune_ascii by (by apply N.ltb_lt).
  cbn [map concat]. rewrite IH by done. unfold encode_rune. by rewrite Hb.
Qed.
Lemma runes_scalar n l : Forall scalar (runes_fuel n l).
Proof.
  revert l. induction n as [|n IH]; intros [|b l]; [constructor..|]. cbn [runes_fuel].
  destruct (decode_rune b l) as [c r] eqn:E. constructor; [by eapply decode_rune_scalar|apply IH].
Qed.
Lemma runes_encoded cs n : Forall scalar cs -> (length (concat (map encode_rune cs)) <= n)%nat ->
  runes_fuel n (concat (map encode_rune cs)) = cs.
Proof.
  intros Hs. revert n. induction Hs as [|c cs Hc _ IH]; intros n; [by destruct n|]. cbn [map concat].
  destruct (decode_encode c (concat (map encode_rune cs)) Hc) as (b & r & -> & Hd). simpl. intros Hn.
  destruct n as [|n]; [lia|]. cbn [runes_fuel]. rewrite Hd, IH; [done|]. rewrite length_app in Hn. lia.
Qed.
(** What came through JSON once comes through unchanged. *)
Lemma utf8_clean_idem s : utf8_clean (utf8_clean s) = utf8_clean s.
Proof.
  unfold utf8_clean at 1. do 3 f_equal. unfold runes at 1. unfold utf8_clean.
  assert (Hs : Forall scalar (runes s)) by apply runes_scalar.
  rewrite bytes_of_bytes; [by rewrite runes_encoded|].
  apply Forall_concat, Forall_fmap. revert Hs. apply Forall_impl. apply encode_rune_bytes.
Qed.
