(* ===== verification/Base64.v ===== *)
(** * encoding/base64: decoding

    [base64.RawURLEncoding.DecodeString], which the job queue uses to read a stored
    payload, and the round trip with [RawURLEncoding] ([GoStrings.v]). *)
From S2P Require Import Prelude.
From S2P Require Import GoStrings.
From S2P Require Import Utf8.
Local Open Scope N_scope.
#[local] Ltac Zify.zify_post_hook ::= Z.to_euclidean_division_equations.

Definition base64url_value (c : N) : option N :=
  if between 65 90 c then Some (c - 65) else if between 97 122 c then Some (c - 71)
  else if between 48 57 c then Some (c + 4)
  else if c =? 45 then Some 62 else if c =? 95 then Some 63 else None.

(** Four digits make three bytes; a last group has two or three digits, whose spare bits
    are ignored. *)
Fixpoint base64_groups (l : list N) : option (list N) :=
  match l with
  | a :: b :: c :: d :: r =>
      rs ← base64_groups r;
      Some (a * 4 + b / 16 :: (b mod 16) * 16 + c / 4 :: (c mod 4) * 64 + d :: rs)
  | [a; b; c] => Some [a * 4 + b / 16; (b mod 16) * 16 + c / 4]
  | [a; b] => Some [a * 4 + b / 16]
  | [_] => None
  | [] => Some []
  end.

(** Line breaks are skipped, any other byte outside the alphabet is an error. *)
Definition DecodeString (s : string) : option (list N) :=
  ds ← mapM base64url_value (List.filter (fun b => negb ((b =? 10) || (b =? 13))) (bytes s));
  base64_groups ds.

Lemma base64url_value_char n : n < 64 -> base64url_value (base64url_char n) = Some n.
Proof.
  intros Hn.
  assert (Hall : forallb (fun k => bool_decide (base64url_value (base64url_char (N.of_nat k)) = Some (N.of_nat k)))
                   (List.seq 0 64) = true) by reflexivity.
  rewrite forallb_forall in Hall. specialize (Hall (N.to_nat n)).
  rewrite N2Nat.id in Hall. apply (bool_decide_eq_true_1 _), Hall, in_seq. lia.
Qed.

(** Induction over a list three elements at a time. *)
Lemma list_ind3 {A} (P : list A -> Prop) :
  P [] -> (forall a, P [a]) -> (forall a b, P [a; b]) ->
  (forall a b c l, P l -> P (a :: b :: c :: l)) -> forall l, P l.
Proof.
  intros H0 H1 H2 H3. fix IH 1. intros [|a [|b [|c l]]]; [done..|]. apply H3, IH.
Qed.

(** The digits of an encoding. *)
Lemma base64_digits l : Forall (fun b => b < 256) l ->
  exists ds, mapM base64url_value (base64url l) = Some ds /\ base64_groups ds = Some l.
Proof.
  induction l as [|a|a b|a b c l IH] using list_ind3; intros Hl.
  - by exists [].
  - apply Forall_cons_1 in Hl as [Ha _]. simpl. rewrite !base64url_value_char by lia. simpl.
    eexists. split; [done|]. simpl. f_equal. f_equal. lia.
  - apply Forall_cons_1 in Hl as [Ha [Hb _]%Forall_cons_1]. simpl.
    rewrite !base64url_value_char by lia. simpl. eexists. split; [done|].
    simpl. repeat f_equal; lia.
  - apply Forall_cons_1 in Hl as [Ha [Hb [Hc Hl]%Forall_cons_1]%Forall_cons_1].
    destruct (IH Hl) as (ds & Hd & Hg). simpl. rewrite !base64url_value_char by lia. simpl.
    rewrite Hd. simpl. eexists. split; [done|]. simpl. rewrite Hg. simpl. repeat f_equal; lia.
Qed.

Lemma base64url_char_bytes n : n < 64 -> 32 < base64url_char n < 256.
Proof. intros Hn. unfold base64url_char. repeat case_match; N_bools; lia. Qed.
Lemma base64url_bytes l : Forall (fun b => b < 256) l -> Forall (fun b => 32 < b < 256) (base64url l).
Proof.
  induction l as [|a|a b|a b c l IH] using list_ind3; intros Hl;
    repeat (apply Forall_cons_1 in Hl as [? Hl]); simpl;
    repeat (apply Forall_cons_2; [apply base64url_char_bytes; lia|]); [constructor..|].
  by apply IH.
Qed.

Lemma DecodeString_RawURLEncoding l : Forall (fun b => b < 256) l ->
  DecodeString (RawURLEncoding l) = Some l.
Proof.
  intros Hl. unfold DecodeString, RawURLEncoding. pose proof (base64url_bytes l Hl) as Hb.
  rewrite bytes_of_bytes by (revert Hb; apply Forall_impl; lia).
  rewrite forallb_filter_id.
  - destruct (base64_digits l Hl) as (ds & -> & Hg). done.
  - apply forallb_forall. intros b Hin. rewrite List.Forall_forall in Hb.
    apply Hb in Hin. apply negb_true_iff, orb_false_iff. rewrite !N.eqb_neq. lia.
Qed.
