(* ===== verification/Demo.v ===== *)
(** * A concrete environment and a small database

    One instance of everything the model leaves open, and one populated state, on which
    the theorems' witnesses are evaluated.  Nothing else depends on it. *)
From S2P Require Import Prelude.
From S2P Require Import GoError.
From S2P Require Import Schema.
From S2P Require Import Store.
From S2P Require Import GoStrings.
From S2P Require Import Strconv.
From stdpp Require Import pretty.
Local Open Scope string_scope.

Definition demo : Env := {|
  env_now n := (1000000 + Z.of_nat n)%Z;
  env_uuid n := (1000 + N.of_nat n)%N;
  env_rand n k := Some (repeat (N.of_nat n mod 256)%N k);
  env_fault _ := false;
  bypass_rls := false;
  citext_fold s := of_bytes (map ascii_lower (bytes s));
  text_cmp := String.compare;
  uuid_String n := "00000000-0000-4000-8000-" +:+ pretty n;
  uuid_Parse _ := None;
  unicode_ToLower n := n;
  unicode_IsLetter b := (GoStrings.between 65 90 b || GoStrings.between 97 122 b)%bool;
  unicode_IsDigit b := GoStrings.between 48 57 b;
  mail_ParseAddress_ok s := existsb (N.eqb 64) (bytes s);
  inet_ok _ := true;
  sha256_Sum256 s := bytes s;
  bcrypt_GenerateFromPassword _ p := Some ("bcrypt:" +:+ p);
  bcrypt_CompareHashAndPassword h p := String.eqb h ("bcrypt:" +:+ p);
  jwt_SignedString _ _ := Some "jwt"
|}.
(** The same, with identifiers that parse and tokens that carry their claims. *)
Definition toy_token (sub jti : string) : string :=
  of_bytes (repeat 97%N (String.length sub)) +:+ "." +:+ sub +:+ jti.
Definition toy_sign (claims : list (string * json)) : option string :=
  match claims with
  | [_; _; (_, JStr sub); _; _; _; (_, JStr jti)] => Some (toy_token sub jti)
  | _ => None
  end.
Definition demo_web : Env := {|
  env_now := @env_now demo; env_uuid := @env_uuid demo; env_rand := @env_rand demo; env_fault := @env_fault demo;
  bypass_rls := false; citext_fold := @citext_fold demo; text_cmp := @text_cmp demo;
  uuid_String := @uuid_String demo;
  uuid_Parse s := match snd (cut "8000-" s) with Some d => Z.to_N <$> ParseInt 64 d | None => None end;
  unicode_ToLower := @unicode_ToLower demo; unicode_IsLetter := @unicode_IsLetter demo;
  unicode_IsDigit := @unicode_IsDigit demo; mail_ParseAddress_ok := @mail_ParseAddress_ok demo;
  inet_ok := @inet_ok demo; sha256_Sum256 := @sha256_Sum256 demo;
  bcrypt_GenerateFromPassword := @bcrypt_GenerateFromPassword demo;
  bcrypt_CompareHashAndPassword := @bcrypt_CompareHashAndPassword demo;
  jwt_SignedString _ := toy_sign
|}.
Definition demo_world (d : DB) : World :=
  {| w_db := d; w_tick := 0; w_tx := None; w_mail := []; w_redis := empty_Redis |}.

Definition demo_user (id : N) (email : string) : User :=
  {| User_ID := id; User_Email := email; User_PasswordHash := "bcrypt:passw0rd";
     User_FirstName := "F"; User_LastName := "L"; User_AvatarUrl := None; User_Status := "active";
     User_EmailVerifiedAt := None; User_LastLoginAt := None; User_CreatedAt := 0; User_UpdatedAt := 0 |}.
Definition demo_org (id : N) (slug : string) : Organization :=
  {| Organization_ID := id; Organization_Name := slug; Organization_Slug := slug;
     Organization_Status := "active"; Organization_CreatedAt := 0; Organization_UpdatedAt := 0 |}.
Definition demo_role (id org : N) (name : string) : Role :=
  {| Role_ID := id; Role_OrganizationID := org; Role_Name := name; Role_Description := None;
     Role_IsSystem := true; Role_CreatedAt := 0; Role_UpdatedAt := 0 |}.
Definition demo_membership (id org user role : N) : OrganizationMembership :=
  {| OrganizationMembership_ID := id; OrganizationMembership_OrganizationID := org;
     OrganizationMembership_UserID := user; OrganizationMembership_RoleID := role;
     OrganizationMembership_Status := "active"; OrganizationMembership_JoinedAt := None;
     OrganizationMembership_CreatedAt := 0; OrganizationMembership_UpdatedAt := 0 |}.
Definition demo_permission (id : N) (key : string) : Permission :=
  {| Permission_ID := id; Permission_Key := key; Permission_Description := ""; Permission_CreatedAt := 0 |}.

(** Organization 1 with two owners (users 1 and 2) and a viewer (user 3); organization 2
    with one owner (user 4). *)
Definition demo_DB : DB := {|
  users := {[1%N := demo_user 1 "ann@x.io"; 2%N := demo_user 2 "bob@x.io";
             3%N := demo_user 3 "cy@x.io"; 4%N := demo_user 4 "dee@y.io"]};
  organizations := {[1%N := demo_org 1 "acme"; 2%N := demo_org 2 "other"]};
  roles := {[10%N := demo_role 10 1 "Owner"; 11%N := demo_role 11 1 "Viewer";
             20%N := demo_role 20 2 "Owner"]};
  memberships := {[31%N := demo_membership 31 1 1 10; 32%N := demo_membership 32 1 2 10;
                   33%N := demo_membership 33 1 3 11; 34%N := demo_membership 34 2 4 20]};
  permissions := {[50%N := demo_permission 50 "members.manage"; 51%N := demo_permission 51 "members.read";
                   52%N := demo_permission 52 "api_keys.manage"; 53%N := demo_permission 53 "tasks.read"]};
  role_permissions := {[(10%N, 50%N); (10%N, 51%N); (10%N, 52%N); (11%N, 51%N); (20%N, 50%N)]};
  refresh_tokens := ∅; teams := ∅; team_members := ∅; projects := ∅; tasks := ∅;
  activity_logs := ∅; invitations := ∅; api_keys := ∅; audit_logs := ∅
|}.
