(* ===== verification/Jobs.v ===== *)
(** * The job queue

    Models [internal/jobs/jobs.go]: a queue on Redis streams whose entries are encrypted
    jobs, with retries, exponential backoff and a dead-letter stream.  Redis, the AES-GCM
    cipher, the text form of instants and the platform's float conversion are parameters;
    what the queue relies on is stated as laws.  Every command takes the context of its
    caller and may fail before or after it took effect, and the server may answer any command
    with an error instead of executing it.  A fault is what is left after the client's own
    retries; that such a retry executes a command twice is not modelled. *)
From S2P Require Import Prelude.
From S2P Require Import GoError.
From S2P Require Import Schema.
From S2P Require Import Store.
From S2P Require Import Logic.
From S2P Require Import GoStrings.
From S2P Require Import Utf8.
From S2P Require Import Json.
From S2P Require Import JsonDecode.
From S2P Require Import Base64.
Local Open Scope string_scope.

(** ** Parameters *)

(** AES-GCM under a 32-byte key ([crypto/aes], [crypto/cipher]). *)
Class AEAD := {
  aead_NonceSize : nat;
  aead_Seal : list N -> list N -> list N -> list N;
  aead_Open : list N -> list N -> list N -> option (list N)
}.
Class AEADLaws `{AEAD} : Prop := {
  Open_Seal key nonce m : Forall (fun b => (b < 256)%N) m ->
    aead_Open key nonce (aead_Seal key nonce m) = Some m;
  Seal_bytes key nonce m : Forall (fun b => (b < 256)%N) m ->
    Forall (fun b => (b < 256)%N) (aead_Seal key nonce m)
}.

(** [time.Time]'s text form (RFC 3339 with nanoseconds), the conversion of a [float64]
    outside the range of [int64] (which the language leaves to the platform), [fmt]'s
    [%q] and [rand.Int(rand.Reader, max)]. *)
Class Platform := {
  time_MarshalText : Z -> option string;
  time_UnmarshalText : string -> option Z;
  float64_to_int64_overflow : Z -> Z;
  strconv_Quote : string -> string;
  rand_Int : nat -> Z -> option Z
}.
Class PlatformLaws `{Platform} : Prop := {
  time_text t s : time_MarshalText t = Some s -> is_ascii s = true /\ time_UnmarshalText s = Some t;
  rand_Int_range n max x : (0 < max)%Z -> rand_Int n max = Some x -> (0 <= x < max)%Z
}.

(** The Redis commands of the queue, on the four keys it uses.  A reply is a value, the
    nil reply or an error reply; [redis_fault n] is the transport error the [n]-th effect
    meets, if any, and [redis_refused n] the error (out of memory, read-only replica, still
    loading) with which the server answers the command sent at the [n]-th effect instead of
    executing it, if any.  The writing commands below are what they do when executed. *)
Inductive reply (A : Type) := Reply (a : A) | Nil | ErrorReply (text : string).
Arguments Reply {A} a.
Arguments Nil {A}.
Arguments ErrorReply {A} text.

Class RedisServer := {
  redis_fault : nat -> option error;
  redis_refused : nat -> option string;
  XGROUP_CREATE : Redis -> reply unit * Redis;
  XADD : string -> Redis -> Redis;
  XADD_dead : string -> Redis -> Redis;
  XREADGROUP : string -> Z -> Redis -> reply (list (N * option string)) * Redis;
  XAUTOCLAIM : string -> Z -> Z -> Redis -> reply (list (N * option string)) * Redis;
  XACK : N -> Redis -> Redis;
  XDEL : N -> Redis -> Redis;
  ZADD : Z -> string -> Redis -> Redis;
  ZREM : string -> Redis -> Redis;
  ZRANGEBYSCORE : Z -> Z -> Redis -> list string
}.

(** What a command leaves alone. *)
Definition same_jobs (r r' : Redis) : Prop :=
  rd_stream r' = rd_stream r /\ rd_retry r' = rd_retry r /\ rd_dead r' = rd_dead r /\
  rd_next r' = rd_next r.
Definition members (r : Redis) : list string := (rd_retry r).*1.

(** Entry ids grow; reading and claiming return entries of the stream; trimming the
    dead-letter stream keeps the newest entries. *)
Class RedisLaws `{RedisServer} : Prop := {
  XGROUP_CREATE_jobs r : same_jobs r (XGROUP_CREATE r).2;
  XADD_entry p r : exists id, (rd_next r <= id < rd_next (XADD p r))%N /\
    rd_stream (XADD p r) = (rd_stream r ++ [(id, Some p)])%list /\
    rd_retry (XADD p r) = rd_retry r /\ rd_dead (XADD p r) = rd_dead r;
  XADD_dead_entry p r : p ∈ rd_dead (XADD_dead p r) /\
    rd_stream (XADD_dead p r) = rd_stream r /\ rd_retry (XADD_dead p r) = rd_retry r /\
    rd_next (XADD_dead p r) = rd_next r;
  XREADGROUP_jobs c n r : same_jobs r (XREADGROUP c n r).2;
  XREADGROUP_entries c n r l : (XREADGROUP c n r).1 = Reply l -> l ⊆ rd_stream r;
  XAUTOCLAIM_jobs c i n r : same_jobs r (XAUTOCLAIM c i n r).2;
  XAUTOCLAIM_entries c i n r l : (XAUTOCLAIM c i n r).1 = Reply l -> l ⊆ rd_stream r;
  XACK_jobs id r : same_jobs r (XACK id r);
  XDEL_entry id r : rd_stream (XDEL id r) = filter (fun e => e.1 <> id) (rd_stream r) /\
    rd_retry (XDEL id r) = rd_retry r /\ rd_dead (XDEL id r) = rd_dead r /\
    rd_next (XDEL id r) = rd_next r;
  ZADD_member s m r : (forall x, x ∈ members (ZADD s m r) <-> x = m \/ x ∈ members r) /\
    rd_stream (ZADD s m r) = rd_stream r /\ rd_dead (ZADD s m r) = rd_dead r /\
    rd_next (ZADD s m r) = rd_next r;
  ZADD_score s m r : (m, s) ∈ rd_retry (ZADD s m r);
  ZREM_member m r : (forall x, x ∈ members (ZREM m r) <-> x <> m /\ x ∈ members r) /\
    rd_stream (ZREM m r) = rd_stream r /\ rd_dead (ZREM m r) = rd_dead r /\
    rd_next (ZREM m r) = rd_next r;
  ZRANGEBYSCORE_members t n r : ZRANGEBYSCORE t n r ⊆ members r
}.

(** ** Jobs *)
Definition deadStreamMaxLen : Z := 10000.
Definition maxErrorLength : Z := 500.

(** [Payload] is raw JSON; the program only stores documents it marshalled itself. *)
Record Job := {
  Job_ID : string; Job_Type : string; Job_Payload : option json; Job_Attempts : Z;
  Job_MaxAttempts : Z; Job_EnqueuedAt : Z; Job_LastError : string
}.
Definition empty_Job : Job :=
  {| Job_ID := ""; Job_Type := ""; Job_Payload := None; Job_Attempts := 0;
     Job_MaxAttempts := 0; Job_EnqueuedAt := 0; Job_LastError := "" |}.
Record Delivery := { Delivery_ID : N; Delivery_Job : Job }.

Record Options := {
  Opt_EncryptionKey : string; Opt_MaxAttempts : Z; Opt_RetryBaseDelay : Z; Opt_RetryMaxDelay : Z
}.
Record Queue := { q_key : list N; q_maxAttempts : Z; q_baseDelay : Z; q_maxDelay : Z }.

Definition job_set_Attempts (n : Z) (j : Job) : Job :=
  {| Job_ID := Job_ID j; Job_Type := Job_Type j; Job_Payload := Job_Payload j; Job_Attempts := n;
     Job_MaxAttempts := Job_MaxAttempts j; Job_EnqueuedAt := Job_EnqueuedAt j;
     Job_LastError := Job_LastError j |}.
Definition job_set_ID (s : string) (j : Job) : Job :=
  {| Job_ID := s; Job_Type := Job_Type j; Job_Payload := Job_Payload j; Job_Attempts := Job_Attempts j;
     Job_MaxAttempts := Job_MaxAttempts j; Job_EnqueuedAt := Job_EnqueuedAt j;
     Job_LastError := Job_LastError j |}.
Definition job_set_Type (s : string) (j : Job) : Job :=
  {| Job_ID := Job_ID j; Job_Type := s; Job_Payload := Job_Payload j; Job_Attempts := Job_Attempts j;
     Job_MaxAttempts := Job_MaxAttempts j; Job_EnqueuedAt := Job_EnqueuedAt j;
     Job_LastError := Job_LastError j |}.
Definition job_set_Payload (p : json) (j : Job) : Job :=
  {| Job_ID := Job_ID j; Job_Type := Job_Type j; Job_Payload := Some p; Job_Attempts := Job_Attempts j;
     Job_MaxAttempts := Job_MaxAttempts j; Job_EnqueuedAt := Job_EnqueuedAt j;
     Job_LastError := Job_LastError j |}.
Definition job_set_MaxAttempts (n : Z) (j : Job) : Job :=
  {| Job_ID := Job_ID j; Job_Type := Job_Type j; Job_Payload := Job_Payload j;
     Job_Attempts := Job_Attempts j; Job_MaxAttempts := n; Job_EnqueuedAt := Job_EnqueuedAt j;
     Job_LastError := Job_LastError j |}.
Definition job_set_EnqueuedAt (t : Z) (j : Job) : Job :=
  {| Job_ID := Job_ID j; Job_Type := Job_Type j; Job_Payload := Job_Payload j;
     Job_Attempts := Job_Attempts j; Job_MaxAttempts := Job_MaxAttempts j; Job_EnqueuedAt := t;
     Job_LastError := Job_LastError j |}.
Definition job_set_LastError (s : string) (j : Job) : Job :=
  {| Job_ID := Job_ID j; Job_Type := Job_Type j; Job_Payload := Job_Payload j;
     Job_Attempts := Job_Attempts j; Job_MaxAttempts := Job_MaxAttempts j;
     Job_EnqueuedAt := Job_EnqueuedAt j; Job_LastError := s |}.

(** [truncate]: the first [n] bytes. *)
Definition truncate (s : string) (n : Z) : string :=
  if Z.leb (len s) n then s else String.substring 0 (Z.to_nat n) s.

Section codec.
Context `{Env} `{AEAD} `{Platform}.

(** [newAEAD] and [NewQueue] *)
Definition newAEAD (keyMaterial : string) : result (list N) :=
  if keyMaterial =?= "" then Err (ErrorsNew "jobs: an encryption key is required for job payloads")
  else Ok (sha256_Sum256 ("teamflow/jobs/v1" +:+ String (Ascii.ascii_of_nat 0) keyMaterial)).
Definition NewQueue (rdb_present : bool) (opts : Options) : result Queue :=
  if negb rdb_present then Err (ErrorsNew "jobs: redis client is required") else
  match newAEAD (Opt_EncryptionKey opts) with
  | Err e => Err e
  | Ok key =>
      let base := if Z.leb (Opt_RetryBaseDelay opts) 0 then (30 * Second)%Z else Opt_RetryBaseDelay opts in
      Ok {| q_key := key;
            q_maxAttempts := if Z.ltb (Opt_MaxAttempts opts) 1 then 1 else Opt_MaxAttempts opts;
            q_baseDelay := base;
            q_maxDelay := if Z.ltb (Opt_RetryMaxDelay opts) base then base else Opt_RetryMaxDelay opts |}
  end.

(** *** The stored form *)

(** [json.Marshal] of a [Job], by its field tags. *)
Definition job_json (j : Job) : option json :=
  t ← time_MarshalText (Job_EnqueuedAt j);
  Some (JObj ([("id", JStr (Job_ID j)); ("type", JStr (Job_Type j))] ++
              match Job_Payload j with Some p => [("payload", p)] | None => [] end ++
              [("attempts", JNum (Job_Attempts j)); ("max_attempts", JNum (Job_MaxAttempts j));
               ("enqueued_at", JStr t)] ++
              (if Job_LastError j =?= "" then [] else [("last_error", JStr (Job_LastError j))]))%list).

(** [json.Unmarshal] into a [Job]: names match up to case, unknown names are ignored, a
    later field overrides an earlier one, [null] leaves a field as it is (a raw message
    keeps it), and a value of the wrong type or an integer outside [int64] is an error. *)
Definition int64_range (z : Z) : bool := (Z.leb (- 2 ^ 63) z && Z.ltb z (2 ^ 63))%bool.
Definition job_names : list string :=
  ["id"; "type"; "enqueued_at"; "last_error"; "attempts"; "max_attempts"].
Definition job_field (j : Job) (kv : string * json) : option Job :=
  let name := of_bytes (map ascii_lower (bytes kv.1)) in
  if name =?= "payload" then Some (job_set_Payload kv.2 j) else
  match kv.2 with
  | JNull => Some j
  | JStr s =>
      if name =?= "id" then Some (job_set_ID s j)
      else if name =?= "type" then Some (job_set_Type s j)
      else if name =?= "enqueued_at" then t ← time_UnmarshalText s; Some (job_set_EnqueuedAt t j)
      else if name =?= "last_error" then Some (job_set_LastError s j)
      else if existsb (beq name) job_names then None else Some j
  | JNum z =>
      if name =?= "attempts" then if int64_range z then Some (job_set_Attempts z j) else None
      else if name =?= "max_attempts" then if int64_range z then Some (job_set_MaxAttempts z j) else None
      else if existsb (beq name) job_names then None else Some j
  | _ => if existsb (beq name) job_names then None else Some j
  end.
Definition job_of_json (v : json) : option Job :=
  match v with
  | JObj fs => fold_left (fun oj kv => j ← oj; job_field j kv) fs (Some empty_Job)
  | JNull => Some empty_Job
  | _ => None
  end.

(** [seal] and [open] *)
Definition seal (q : Queue) (job : Job) : M string :=
  match job_json job with
  | None => fail (Errorf "jobs: encode job" (ErrorsNew "Time.MarshalJSON: year outside of range [0,9999]"))
  | Some doc =>
      nonce <- randRead aead_NonceSize "jobs: generate nonce" ;;
      ret (RawURLEncoding (nonce ++ aead_Seal (q_key q) nonce (bytes (Marshal doc)))%list)
  end.
Definition open (q : Queue) (sealed : string) : result Job :=
  match DecodeString sealed with
  | None => Err (Errorf "jobs: decode payload" (ErrorsNew "illegal base64 data"))
  | Some blob =>
      if Nat.ltb (length blob) aead_NonceSize then Err (ErrorsNew "jobs: payload is truncated") else
      match aead_Open (q_key q) (take aead_NonceSize blob) (drop aead_NonceSize blob) with
      | None => Err (ErrorsNew "jobs: payload failed authentication")
      | Some raw =>
          match v ← Unmarshal (of_bytes raw); job_of_json v with
          | None => Err (Errorf "jobs: decode job" (ErrorsNew "invalid job document"))
          | Some job => Ok job
          end
      end
  end.

(** ** The round trip of a stored job *)
Definition job_ints (j : Job) : Prop :=
  int64_range (Job_Attempts j) = true /\ int64_range (Job_MaxAttempts j) = true.
(** A job after one round trip: its strings made valid UTF-8. *)
Definition clean_job (j : Job) : Job :=
  {| Job_ID := utf8_clean (Job_ID j); Job_Type := utf8_clean (Job_Type j);
     Job_Payload := clean_json <$> Job_Payload j; Job_Attempts := Job_Attempts j;
     Job_MaxAttempts := Job_MaxAttempts j; Job_EnqueuedAt := Job_EnqueuedAt j;
     Job_LastError := utf8_clean (Job_LastError j) |}.

Lemma job_of_job_json `{!PlatformLaws} j doc : job_ints j -> job_json j = Some doc ->
  job_of_json (clean_json doc) = Some (clean_job j).
Proof.
  intros [Ha Hm] Hd. unfold job_json in Hd. destruct (time_MarshalText (Job_EnqueuedAt j)) as [t|] eqn:Ht; [|done].
  simplify_eq/=. destruct (time_text _ _ Ht) as [Hasc Hun].
  assert (Htime : forall j', job_field j' ("enqueued_at", JStr (utf8_clean t)) =
    Some (job_set_EnqueuedAt (Job_EnqueuedAt j) j')).
  { intros j'. rewrite ascii_clean by done.
    transitivity (t0 ← time_UnmarshalText t; Some (job_set_EnqueuedAt t0 j')); [reflexivity|by rewrite Hun]. }
  assert (Hatt : forall j', job_field j' ("attempts", JNum (Job_Attempts j)) =
    Some (job_set_Attempts (Job_Attempts j) j')).
  { intros j'. transitivity (if int64_range (Job_Attempts j) then Some (job_set_Attempts (Job_Attempts j) j') else None);
      [reflexivity|by rewrite Ha]. }
  assert (Hmax : forall j', job_field j' ("max_attempts", JNum (Job_MaxAttempts j)) =
    Some (job_set_MaxAttempts (Job_MaxAttempts j) j')).
  { intros j'. transitivity (if int64_range (Job_MaxAttempts j) then Some (job_set_MaxAttempts (Job_MaxAttempts j) j') else None);
      [reflexivity|by rewrite Hm]. }
  assert (Htype : forall j' x, job_field j' (utf8_clean "type", JStr x) = Some (job_set_Type x j')) by reflexivity.
  assert (Hpay : forall j' x, job_field j' (utf8_clean "payload", x) = Some (job_set_Payload x j')) by reflexivity.
  assert (Hlast : forall j' x, job_field j' (utf8_clean "last_error", JStr x) = Some (job_set_LastError x j'))
    by reflexivity.
  unfold job_of_json. cbn [clean_json]. destruct (Job_Payload j) as [p|] eqn:Hp;
    destruct (beq_spec_dec (Job_LastError j) "") as [[-> He]|[-> He]];
    cbn [map app fst snd clean_json fold_left];
    change (utf8_clean "attempts") with "attempts"; change (utf8_clean "max_attempts") with "max_attempts";
    change (utf8_clean "enqueued_at") with "enqueued_at"; cbn [mbind option_bind];
    repeat (rewrite ?Htype, ?Hpay, ?Hatt, ?Hmax, ?Htime, ?Hlast; cbn [mbind option_bind]);
    unfold clean_job; rewrite Hp, ?He; reflexivity.
Qed.

(** [open] inverts [seal] under the same key: whatever nonce was drawn, the job comes back,
    with its attempt counters, payload and type. *)
Lemma open_seal `{!AEADLaws} `{!PlatformLaws} q j w s w' : rand_ok -> job_ints j ->
  seal q j w = (Ok s, w') -> open q s = Ok (clean_job j).
Proof.
  intros Hr Hi Hs. unfold seal in Hs. destruct (job_json j) as [doc|] eqn:Hd; [|done].
  apply bind_Ok in Hs as (nonce & w1 & Hn & Hs). apply randRead_Ok in Hn as [Hn ->].
  apply ret_Ok in Hs as [<- <-]. destruct (Hr _ _ _ Hn) as [Hl Hb]. unfold open.
  rewrite DecodeString_RawURLEncoding by (apply Forall_app; split; [done|apply Seal_bytes, bytes_range]).
  rewrite length_app, Hl, take_app_length', drop_app_length' by done.
  replace (Nat.ltb _ _) with false by (symmetry; apply Nat.ltb_ge; lia).
  rewrite Open_Seal by apply bytes_range. rewrite of_bytes_bytes, Unmarshal_Marshal. cbn.
  by rewrite (job_of_job_json j doc).
Qed.
End codec.

(** ** Contexts and commands *)

(** A context: the error [ctx.Err()] reports at each effect. *)
Definition Ctx : Type := nat -> option error.
Definition Background : Ctx := fun _ => None.
Definition DeadlineExceeded : error := ErrorsNew "context deadline exceeded".
Definition WithDeadline `{Env} (d : Z) : Ctx := fun n =>
  if Z.leb d (env_now n) then Some DeadlineExceeded else None.

Definition UnixMilli (t : Z) : Z := t / Millisecond.

Section queue.
Context `{Env} `{AEAD} `{Platform} `{RedisServer}.

Definition ctx_check (c : Ctx) : M unit := fun w =>
  match c (w_tick w) with Some e => (Err e, next_tick w) | None => (Ok tt, w) end.
(** A command reaches the server unless the transport fails first; there it is executed, or
    refused with an error reply.  The reply may still be lost. *)
Definition transmit {A} (f : Redis -> reply A * Redis) : M (reply A) := fun w =>
  match redis_fault (w_tick w) with
  | Some e => (Err e, next_tick w)
  | None =>
      match redis_refused (w_tick w) with
      | Some t => (Ok (ErrorReply t), next_tick w)
      | None => let (a, r) := f (w_redis w) in (Ok a, set_redis r (next_tick w))
      end
  end.
Definition received : M unit := fun w =>
  match redis_fault (w_tick w) with
  | Some e => (Err e, next_tick w)
  | None => (Ok tt, next_tick w)
  end.
(** [Cmd.Result]: the value of a reply. *)
Definition value {A} (r : reply A) : M A :=
  match r with
  | Reply a => ret a
  | Nil => fail (ErrorsNew "redis: nil")
  | ErrorReply t => fail (ErrorsNew t)
  end.
Definition wrote (f : Redis -> Redis) : Redis -> reply unit * Redis := fun r => (Reply tt, f r).
Definition shows {A} (f : Redis -> A) : Redis -> reply A * Redis := fun r => (Reply (f r), r).
Definition command {A} (c : Ctx) (f : Redis -> reply A * Redis) : M (reply A) :=
  ctx_check c ;;; r <- transmit f ;; received ;;; ret r.
Definition run_command {A} (c : Ctx) (f : Redis -> reply A * Redis) : M A :=
  r <- command c f ;; value r.
(** [pipe.Exec]: every command is sent, in order and not as one transaction, and has a reply
    of its own; a refused command does not keep the next ones from being executed.  The result
    is the first error. *)
Fixpoint exec (fs : list (Redis -> Redis)) : M unit :=
  match fs with
  | [] => received
  | f :: fs =>
      r <- transmit (wrote f) ;;
      rest <- attempt (exec fs) ;;
      value r ;;; ret_result rest
  end.
Definition pipeline (c : Ctx) (fs : list (Redis -> Redis)) : M unit := ctx_check c ;;; exec fs.

(** ** Enqueueing *)
Definition enqueue (q : Queue) (c : Ctx) (jobType : string) (payload : option json) (delay : Z) : M Job :=
  reject_if (jobType =?= "") (ErrorsNew "jobs: a job type is required") ;;;
  id <- uuidNew ;;
  now <- timeNow ;;
  let job := {| Job_ID := uuid_String id; Job_Type := jobType; Job_Payload := payload;
                Job_Attempts := 0; Job_MaxAttempts := q_maxAttempts q; Job_EnqueuedAt := now;
                Job_LastError := "" |} in
  sealed <- seal q job ;;
  if Z.ltb 0 delay then
    now' <- timeNow ;;
    wrapf "jobs: schedule job" (run_command c (wrote (ZADD (UnixMilli (now' + delay)) sealed))) ;;;
    ret job
  else
    wrapf "jobs: enqueue" (run_command c (wrote (XADD sealed))) ;;;
    ret job.
Definition Enqueue (q : Queue) (c : Ctx) (jobType : string) (payload : option json) : M Job :=
  enqueue q c jobType payload 0.
Definition EnqueueIn (q : Queue) (c : Ctx) (delay : Z) (jobType : string) (payload : option json) : M Job :=
  enqueue q c jobType payload (if Z.ltb delay 0 then 0 else delay).

(** ** Claiming *)
Definition isBusyGroup (err : error) : bool := Contains (Error err) "BUSYGROUP".
Definition EnsureGroup (c : Ctx) : M unit :=
  r <- attempt (run_command c XGROUP_CREATE) ;;
  match r with
  | Ok _ => ret tt
  | Err e => if isBusyGroup e then ret tt else fail (Errorf "jobs: create consumer group" e)
  end.

(** The deliveries of a reply: an entry without the payload field is skipped, one that
    cannot be opened is delivered as an empty job. *)
Definition delivery (q : Queue) (entry : N * option string) : option Delivery :=
  match entry.2 with
  | None => None
  | Some sealed =>
      Some {| Delivery_ID := entry.1;
              Delivery_Job := match open q sealed with
                              | Ok job => job
                              | Err e => job_set_LastError (Error e) empty_Job
                              end |}
  end.
Definition claimed (q : Queue) (r : reply (list (N * option string))) : M (list Delivery) :=
  match r with
  | Nil => ret []
  | ErrorReply t => fail (ErrorsNew t)
  | Reply messages => ret (omap (delivery q) messages)
  end.
Definition Read (q : Queue) (c : Ctx) (consumer : string) (count : Z) : M (list Delivery) :=
  r <- command c (XREADGROUP consumer count) ;; claimed q r.
Definition RecoverStale (q : Queue) (c : Ctx) (consumer : string) (minIdle count : Z) : M (list Delivery) :=
  r <- command c (XAUTOCLAIM consumer minIdle count) ;; claimed q r.

(** ** Outcomes *)
Definition Ack (c : Ctx) (d : Delivery) : M unit :=
  wrapf "jobs: acknowledge job" (pipeline c [XACK (Delivery_ID d); XDEL (Delivery_ID d)]).

(** [float64(z)]: 53 bits, ties to even. *)
Definition float64_of_int (z : Z) : Z :=
  if Z.ltb (Z.abs z) (2 ^ 53) then z else
  let e := (Z.log2 (Z.abs z) - 52)%Z in
  let m := (Z.abs z / 2 ^ e)%Z in
  let r := (Z.abs z mod 2 ^ e)%Z in
  let m' := if (Z.ltb (2 ^ e) (2 * r) || (Z.eqb (2 ^ e) (2 * r) && Z.odd m))%bool then (m + 1)%Z else m in
  (Z.sgn z * (m' * 2 ^ e))%Z.
(** [time.Duration(f)] of an integral float. *)
Definition int64_of_float (f : Z) : Z :=
  if int64_range f then f else float64_to_int64_overflow f.

Definition backoff (q : Queue) (attempt : Z) : M Z :=
  let attempt := if Z.ltb attempt 1 then 1%Z else attempt in
  let shift := Z.min (attempt - 1) 32 in
  let delay := int64_of_float (float64_of_int (q_baseDelay q) * 2 ^ shift) in
  let delay := if (Z.ltb (q_maxDelay q) delay || Z.leb delay 0)%bool then q_maxDelay q else delay in
  let jitterMax := (delay / 2)%Z in
  if Z.leb jitterMax 0 then ret delay else
  fun w => match rand_Int (w_tick w) jitterMax with
           | None => (Ok delay, next_tick w)
           | Some jitter => (Ok (wrap64 (delay + jitter)), next_tick w)
           end.

Definition failed_job (job : Job) (cause : error) : Job :=
  job_set_LastError (truncate (Error cause) maxErrorLength)
    (job_set_Attempts (wrap64 (Job_Attempts job + 1)) job).
(** The attempt budget of a job that just failed is used up. *)
Definition exhausted (job : Job) (cause : error) : bool :=
  IsPermanent cause || Z.leb (Job_MaxAttempts job) 0 || Z.leb (Job_MaxAttempts job) (Job_Attempts job).
Definition Fail_ (q : Queue) (c : Ctx) (d : Delivery) (cause : error) : M unit :=
  let job := failed_job (Delivery_Job d) cause in
  sealed <- seal q job ;;
  first <- (if exhausted job cause then ret (XADD_dead sealed)
            else now <- timeNow ;; b <- backoff q (Job_Attempts job) ;;
                 ret (ZADD (UnixMilli (now + b)) sealed)) ;;
  wrapf "jobs: record job failure"
    (pipeline c [first; XACK (Delivery_ID d); XDEL (Delivery_ID d)]).

(** ** Promotion *)
Definition PromoteDue (q : Queue) (c : Ctx) (limit : Z) : M Z :=
  let limit := if Z.leb limit 0 then 100%Z else limit in
  now <- timeNow ;;
  due <- wrapf "jobs: read retry schedule" (run_command c (shows (ZRANGEBYSCORE (UnixMilli now) limit))) ;;
  if match due with [] => true | _ => false end then ret 0%Z else
  wrapf "jobs: promote retries"
    (pipeline c (concat (map (fun sealed => [XADD sealed; ZREM sealed]) due))) ;;;
  ret (Z.of_nat (length due)).
End queue.
