(* ===== verification/QueueFacts.v ===== *)
(** * What the queue's operations do to Redis

    A calculus for the Redis half of the state, as [Logic.v] is for the tables: [rpres R m]
    says that whatever fails, [m] moves Redis along the preorder [R].  The relation of
    interest is [safe]: entries keep their identity, no stored payload is lost, and every
    payload that is added opens to a job with attempts left.  Reading, claiming and enqueueing
    are safe whatever fails.  Acknowledging, recording a failure and promoting remove an entry:
    [Ack_run], [Fail_run] and [PromoteDue_run] say what such a run leaves, with each command of
    the pipeline executed or not, and, unless the server refused one of them ([refusals]),
    that what it removed it had put elsewhere first. *)
From S2P Require Import Prelude.
From S2P Require Import GoError.
From S2P Require Import Schema.
From S2P Require Import Store.
From S2P Require Import Logic.
From S2P Require Import GoStrings.
From S2P Require Import Utf8.
From S2P Require Import JsonDecode.
From S2P Require Import Base64.
From S2P Require Import Jobs.
Local Open Scope string_scope.

Create HintDb teamflow_redis.

(** ** The calculus *)
Definition rpres (R : relation Redis) {A} (m : M A) : Prop := forall w, R (w_redis w) (w_redis (m w).2).

Section rules.
Context `{Env} (R : relation Redis) `{!PreOrder R}.
Lemma rpres_ret {A} (a : A) : rpres R (ret a).
Proof. intros w. simpl. reflexivity. Qed.
Lemma rpres_fail {A} e : rpres R (@fail A e).
Proof. intros w. simpl. reflexivity. Qed.
Lemma rpres_bind {A B} (m : M A) (k : A -> M B) :
  rpres R m -> (forall a, rpres R (k a)) -> rpres R (bind m k).
Proof.
  intros Hm Hk w. specialize (Hm w). unfold bind. destruct (m w) as [[a|e] w1]; simpl in *; [|done].
  etrans; [done|apply Hk].
Qed.
Lemma rpres_map_err {A} f (m : M A) : rpres R m -> rpres R (map_err f m).
Proof. intros Hm w. specialize (Hm w). unfold map_err. by destruct (m w) as [[]]. Qed.
Lemma rpres_wrapf {A} p (m : M A) : rpres R m -> rpres R (wrapf p m).
Proof. apply rpres_map_err. Qed.
Lemma rpres_attempt {A} (m : M A) : rpres R m -> rpres R (attempt m).
Proof. intros Hm w. specialize (Hm w). unfold attempt. by destruct (m w). Qed.
Lemma rpres_reject_if b e : rpres R (reject_if b e).
Proof. destruct b; [apply rpres_fail|apply rpres_ret]. Qed.
Lemma rpres_for_each {A} (l : list A) (f : A -> M unit) :
  (forall x, rpres R (f x)) -> rpres R (for_each l f).
Proof. intros Hf. induction l; simpl; [apply rpres_ret|]. apply rpres_bind; auto. Qed.
Lemma rpres_timeNow : rpres R timeNow.
Proof. intros w. simpl. reflexivity. Qed.
Lemma rpres_uuidNew : rpres R uuidNew.
Proof. intros w. simpl. reflexivity. Qed.
Lemma rpres_randRead n t : rpres R (randRead n t).
Proof. intros w. unfold randRead. destruct (env_rand _ _); simpl; reflexivity. Qed.
End rules.
#[export] Hint Resolve rpres_ret rpres_fail rpres_bind rpres_map_err rpres_wrapf rpres_attempt
  rpres_reject_if rpres_for_each rpres_timeNow rpres_uuidNew rpres_randRead : teamflow_redis.

#[export] Hint Extern 1 (PreOrder _) => typeclasses eauto : teamflow_redis.
(** Follows the structure of a program, step by step. *)
Ltac rpres_step :=
  match goal with
  | |- rpres _ (bind _ _) => apply rpres_bind; [typeclasses eauto| |intros]
  | |- rpres _ (wrapf _ _) => apply rpres_wrapf
  | |- rpres _ (map_err _ _) => apply rpres_map_err
  | |- rpres _ (attempt _) => apply rpres_attempt
  | |- rpres _ (match ?x with _ => _ end) => destruct x
  | |- rpres _ (let _ := _ in _) => cbv zeta
  end.
Ltac rpres_auto := repeat rpres_step; eauto 3 with teamflow_redis.

(** *** Time only moves forward *)
Definition ticks {A} (m : M A) : Prop := forall w, w_tick w <= w_tick (m w).2.
Section ticks.
Context `{Env} `{AEAD} `{Platform} `{RedisServer}.
Lemma ticks_ret {A} (a : A) : ticks (ret a).
Proof. by intros w. Qed.
Lemma ticks_fail {A} e : ticks (@fail A e).
Proof. by intros w. Qed.
Lemma ticks_bind {A B} (m : M A) (k : A -> M B) : ticks m -> (forall a, ticks (k a)) -> ticks (bind m k).
Proof.
  intros Hm Hk w. specialize (Hm w). unfold bind. destruct (m w) as [[a|e] w1]; simpl in *; [|done].
  etrans; [done|apply Hk].
Qed.
Lemma ticks_map_err {A} f (m : M A) : ticks m -> ticks (map_err f m).
Proof. intros Hm w. specialize (Hm w). unfold map_err. by destruct (m w) as [[]]. Qed.
Lemma ticks_attempt {A} (m : M A) : ticks m -> ticks (attempt m).
Proof. intros Hm w. specialize (Hm w). unfold attempt. by destruct (m w). Qed.
Lemma ticks_timeNow : ticks timeNow.
Proof. intros w. simpl. lia. Qed.
Lemma ticks_seal q j : ticks (seal q j).
Proof.
  unfold seal. destruct (job_json j); [|by intros w]. apply ticks_bind; [|intros a w; done].
  intros w. unfold randRead. destruct (env_rand _ _); simpl; lia.
Qed.
Lemma ticks_backoff q n : ticks (backoff q n).
Proof. unfold backoff. case_match; [apply ticks_ret|]. intros w. destruct (rand_Int _ _); simpl; lia. Qed.
Lemma ticks_ctx_check c : ticks (ctx_check c).
Proof. intros w. unfold ctx_check. destruct (c _); simpl; lia. Qed.
Lemma ticks_received : ticks received.
Proof. intros w. unfold received. destruct (redis_fault _); simpl; lia. Qed.
Lemma ticks_transmit {A} (f : Redis -> reply A * Redis) : ticks (transmit f).
Proof.
  intros w. unfold transmit. destruct (redis_fault _); [simpl; lia|]. destruct (redis_refused _); [simpl; lia|].
  destruct (f _); simpl; lia.
Qed.
Lemma ticks_value {A} (r : reply A) : ticks (value r).
Proof. destruct r; by intros w. Qed.
Lemma ticks_exec fs : ticks (exec fs).
Proof.
  induction fs as [|f fs IH]; [apply ticks_received|]. cbn [exec]. apply ticks_bind; [apply ticks_transmit|intros r].
  apply ticks_bind; [by apply ticks_attempt|intros rest]. apply ticks_bind; [apply ticks_value|intros []].
  destruct rest; by intros w.
Qed.
Lemma ticks_run_command {A} c (f : Redis -> reply A * Redis) : ticks (run_command c f).
Proof.
  unfold run_command, command. repeat (apply ticks_bind; [|intros ?]); eauto using ticks_ctx_check, ticks_transmit, ticks_received, ticks_value, ticks_ret.
Qed.
Lemma ticks_pipeline c fs : ticks (pipeline c fs).
Proof. apply ticks_bind; [apply ticks_ctx_check|intros _; apply ticks_exec]. Qed.
End ticks.
#[export] Hint Resolve ticks_ret ticks_fail ticks_bind ticks_map_err ticks_attempt ticks_timeNow ticks_seal ticks_backoff
  ticks_ctx_check ticks_received ticks_transmit ticks_value ticks_run_command ticks_pipeline : teamflow_redis.

Section commands.
Context `{Env} `{AEAD} `{Platform} `{RedisServer}.
Context (R : relation Redis) `{!PreOrder R}.
Lemma rpres_ctx_check c : rpres R (ctx_check c).
Proof. intros w. unfold ctx_check. destruct (c _); simpl; reflexivity. Qed.
Lemma rpres_received : rpres R received.
Proof. intros w. unfold received. destruct (redis_fault _); simpl; reflexivity. Qed.
Lemma rpres_value {A} (r : reply A) : rpres R (value r).
Proof. destruct r; intros w; simpl; reflexivity. Qed.
Lemma rpres_transmit {A} (f : Redis -> reply A * Redis) : (forall r, R r (f r).2) -> rpres R (transmit f).
Proof.
  intros Hf w. unfold transmit. destruct (redis_fault _); [simpl; reflexivity|]. destruct (redis_refused _); [simpl; reflexivity|].
  specialize (Hf (w_redis w)). by destruct (f (w_redis w)).
Qed.
Lemma rpres_command {A} c (f : Redis -> reply A * Redis) : (forall r, R r (f r).2) -> rpres R (command c f).
Proof.
  intros Hf. unfold command. apply rpres_bind; [apply _|apply rpres_ctx_check|intros _].
  apply rpres_bind; [apply _|by apply rpres_transmit|intros a].
  apply rpres_bind; [apply _|apply rpres_received|intros _]. apply rpres_ret. apply _.
Qed.
Lemma rpres_run_command {A} c (f : Redis -> reply A * Redis) : (forall r, R r (f r).2) -> rpres R (run_command c f).
Proof. intros Hf. apply rpres_bind; [apply _|by apply rpres_command|intros r; apply rpres_value]. Qed.
Lemma rpres_seal q j : rpres R (seal q j).
Proof. unfold seal. rpres_auto. Qed.
Lemma rpres_backoff q n : rpres R (backoff q n).
Proof.
  unfold backoff. case_match; [rpres_auto|]. intros w. destruct (rand_Int _ _); simpl; reflexivity.
Qed.
End commands.
#[export] Hint Resolve rpres_seal rpres_backoff rpres_ctx_check rpres_received : teamflow_redis.

(** ** Commands and their replies *)
Section replies.
Context `{Env} `{RedisServer}.
Lemma value_Ok {A} (r : reply A) w a w' : value r w = (Ok a, w') -> r = Reply a /\ w = w'.
Proof. destruct r; unfold value; [|done|done]. intros [-> ->]%ret_Ok. done. Qed.
(** A reply that arrived is the answer of a command that was executed, or a refusal. *)
Lemma command_reply {A} c (f : Redis -> reply A * Redis) w r w' : command c f w = (Ok r, w') ->
  r = (f (w_redis w)).1 /\ w_redis w' = (f (w_redis w)).2 \/ (exists t, r = ErrorReply t) /\ w_redis w' = w_redis w.
Proof.
  unfold command. intros E. apply bind_Ok in E as ([] & w1 & E1 & E). apply bind_Ok in E as (a & w2 & Es & E).
  apply bind_Ok in E as ([] & w3 & Er & E). apply ret_Ok in E as [<- <-].
  unfold ctx_check in E1. destruct (c (w_tick w)); simplify_eq.
  unfold received in Er. destruct (redis_fault (w_tick w2)); [done|]. injection Er as <-.
  unfold transmit in Es. destruct (redis_fault _); [done|]. destruct (redis_refused _) as [t|].
  - injection Es as <- <-. right. split; [by exists t|done].
  - destruct (f (w_redis w1)) eqn:Ef. injection Es as <- <-. by left.
Qed.
Lemma run_command_Ok {A} c (f : Redis -> reply A * Redis) w a w' : run_command c f w = (Ok a, w') ->
  (f (w_redis w)).1 = Reply a /\ w_redis w' = (f (w_redis w)).2.
Proof.
  unfold run_command. intros (r & w1 & Ec & [-> <-]%value_Ok)%bind_Ok.
  by apply command_reply in Ec as [[<- Hr]|[[t Ht] _]].
Qed.
(** A context that has ended lets nothing through. *)
Lemma pipeline_ended c fs w e : c (w_tick w) = Some e ->
  pipeline c fs w = (Err e, next_tick w).
Proof. intros Hc. unfold pipeline, bind, ctx_check. by rewrite Hc. Qed.
End replies.

(** ** Refusals

    Between two states of a run, the server answered some command with an error. *)
Definition refusals `{RedisServer} (w w' : World) : bool :=
  existsb (fun n => negb (is_nil (redis_refused n))) (seq (w_tick w) (w_tick w' - w_tick w)).
Section refusals.
Context `{Env} `{RedisServer}.
Lemma refusals_false w w' : refusals w w' = false <-> forall n, w_tick w <= n < w_tick w' -> redis_refused n = None.
Proof.
  unfold refusals. split.
  - intros Hf n Hn. destruct (redis_refused n) as [t|] eqn:E; [|done]. exfalso.
    assert (Hin : In n (seq (w_tick w) (w_tick w' - w_tick w))) by (apply in_seq; lia).
    assert (Ht : existsb (fun n => negb (is_nil (redis_refused n))) (seq (w_tick w) (w_tick w' - w_tick w)) = true)
      by (apply existsb_exists; exists n; split; [done|by rewrite E]). congruence.
  - intros Hn. destruct (existsb _ _) eqn:E; [|done]. apply existsb_exists in E as (n & Hin & Hr). apply in_seq in Hin.
    by rewrite Hn in Hr by lia.
Qed.
Lemma refusals_mono w w1 w2 w' : w_tick w <= w_tick w1 -> w_tick w2 <= w_tick w' ->
  refusals w w' = false -> refusals w1 w2 = false.
Proof. rewrite !refusals_false. intros Hl Hr Hn n Hb. apply Hn. lia. Qed.
End refusals.

(** ** Pipelines: whatever fails, some of the commands ran, in their order; all but a prefix
    only if one was refused *)
Definition run_commands (fs : list (Redis -> Redis)) (r : Redis) : Redis := fold_left (fun r f => f r) fs r.

Section pipelines.
Context `{Env} `{AEAD} `{Platform} `{RedisServer}.

Lemma exec_cons f fs w : exec (f :: fs) w =
  match redis_fault (w_tick w) with
  | Some e => (Err e, next_tick w)
  | None =>
      match redis_refused (w_tick w) with
      | Some t => (Err (ErrorsNew t), (exec fs (next_tick w)).2)
      | None => exec fs (set_redis (f (w_redis w)) (next_tick w))
      end
  end.
Proof.
  cbn [exec]. unfold bind, attempt, transmit. destruct (redis_fault _); [done|].
  destruct (redis_refused _); cbn [wrote]; [by destruct (exec fs _)|]. by destruct (exec fs _) as [[] w1].
Qed.
Lemma exec_runs fs w : exists l, l `sublist_of` fs /\
  w_redis (exec fs w).2 = run_commands l (w_redis w) /\ ((exec fs w).1 = Ok tt -> l = fs) /\
  (refusals w (exec fs w).2 = false -> exists k, l = take k fs).
Proof.
  revert w. induction fs as [|f fs IH]; intros w.
  { exists []. cbn [exec]. unfold received. destruct (redis_fault _); (split_and!; [done|done|done|by exists 0%nat]). }
  pose proof (ticks_exec fs) as Ht. rewrite exec_cons. destruct (redis_fault (w_tick w)) as [e|]; cbn [fst snd].
  { exists []. split_and!; [apply sublist_nil_l|done|done|by exists 0%nat]. }
  destruct (redis_refused (w_tick w)) as [t|] eqn:Er; cbn [fst snd].
  - destruct (IH (next_tick w)) as (l & Hl & Hw & _). specialize (Ht (next_tick w)).
    exists l. split_and!; [by constructor|done|done|].
    rewrite refusals_false. intros Hn. rewrite Hn in Er; [done|]. cbn in Ht. lia.
  - set (w0 := set_redis _ _) in *. destruct (IH w0) as (l & Hl & Hw & Hok & Hk). specialize (Ht w0).
    exists (f :: l). split_and!; [by constructor|done|intros Hx; f_equal; by apply Hok|].
    intros Hn. destruct Hk as [k ->]; [|by exists (S k)]. eapply refusals_mono; [| |exact Hn]; cbn; lia.
Qed.
Lemma pipeline_runs c fs w : exists l, l `sublist_of` fs /\
  w_redis (pipeline c fs w).2 = run_commands l (w_redis w) /\ ((pipeline c fs w).1 = Ok tt -> l = fs) /\
  (refusals w (pipeline c fs w).2 = false -> exists k, l = take k fs).
Proof.
  unfold pipeline, bind, ctx_check. destruct (c (w_tick w)) as [e|]; cbn [fst snd]; [|apply exec_runs].
  exists []. split_and!; [apply sublist_nil_l|done|done|by exists 0%nat].
Qed.
Lemma sublist_two {A} (a b : A) l : l `sublist_of` [a; b] -> l = [] \/ l = [a] \/ l = [b] \/ l = [a; b].
Proof.
  intros [[->%sublist_nil_r|(l' & -> & ->%sublist_nil_r)]%sublist_cons_r|(l' & -> & Hl)]%sublist_cons_r; [auto..|].
  apply sublist_cons_r in Hl as [->%sublist_nil_r|(l'' & -> & ->%sublist_nil_r)]; auto.
Qed.
End pipelines.

(** ** Payloads *)

(** A payload waits in the stream or in the retry set. *)
Definition stored (r : Redis) (s : string) : Prop := (exists id, (id, Some s) ∈ rd_stream r) \/ s ∈ members r.
Definition more (r r' : Redis) : Prop := forall s, stored r s -> stored r' s.
(** Ids are given out once. *)
Definition ids_ok (r : Redis) : Prop :=
  (forall e, e ∈ rd_stream r -> (e.1 < rd_next r)%N) /\
  (forall e e', e ∈ rd_stream r -> e' ∈ rd_stream r -> e.1 = e'.1 -> e = e').
(** Entries keep their identity: an entry with an id that was given out is an old one. *)
Definition evo (r r' : Redis) : Prop :=
  (rd_next r <= rd_next r')%N /\
  (forall e, e ∈ rd_stream r' -> e ∈ rd_stream r \/ (rd_next r <= e.1 < rd_next r')%N) /\
  (ids_ok r -> ids_ok r').
(** A job that may still be attempted. *)
Definition budget (j : Job) : Prop := (0 <= Job_Attempts j < Job_MaxAttempts j)%Z.

Section safe.
Context `{Env} `{AEAD} `{Platform} (q : Queue).
Definition within_budget (s : string) : Prop := forall j, open q s = Ok j -> budget j.
Definition only_budget (r r' : Redis) : Prop := forall s, stored r' s -> stored r s \/ within_budget s.
Definition safe (r r' : Redis) : Prop := evo r r' /\ more r r' /\ only_budget r r'.

#[global] Instance evo_pre : PreOrder evo.
Proof.
  split.
  - intros r. split_and!; [lia|auto|auto].
  - intros r1 r2 r3 (Hn1 & He1 & Hi1) (Hn2 & He2 & Hi2). split_and!; [lia| |auto]. intros e He.
    destruct (He2 e He) as [He'|]; [|right; lia]. destruct (He1 e He'); [by left|right; lia].
Qed.
Lemma same_stream_evo r r' : rd_stream r' = rd_stream r -> rd_next r' = rd_next r -> evo r r'.
Proof. intros Hs Hn. unfold evo, ids_ok. rewrite Hs, Hn. split_and!; [lia|auto|auto]. Qed.
Lemma filter_stream_evo (P : N * option string -> Prop) `{!forall e, Decision (P e)} r r' :
  rd_stream r' = filter P (rd_stream r) -> rd_next r' = rd_next r -> evo r r'.
Proof.
  intros Hs Hn. unfold evo, ids_ok. rewrite Hs, Hn. setoid_rewrite list_elem_of_filter.
  split_and!; [lia|intros e [_ He]; by left|]. intros [Hb Hu]. split; [intros e [_ He]; auto|].
  intros e e' [_ He] [_ He']. auto.
Qed.
#[global] Instance safe_pre : PreOrder safe.
Proof.
  split.
  - intros r. split_and!; [reflexivity|by intros s|]. intros s. auto.
  - intros r1 r2 r3 (E1 & M1 & B1) (E2 & M2 & B2). split_and!.
    + by etrans.
    + intros s Hs. auto.
    + intros s Hs. destruct (B2 s Hs); auto.
Qed.
Lemma same_jobs_safe r r' : same_jobs r r' -> safe r r'.
Proof.
  intros (Hs & Hr & Hd & Hn).
  assert (Hst : forall s, stored r' s <-> stored r s) by (intros s; unfold stored, members; by rewrite Hs, Hr).
  split_and!.
  - by apply same_stream_evo.
  - intros s. by rewrite Hst.
  - intros s. rewrite Hst. auto.
Qed.
End safe.

Section commands_safe.
Context `{Env} `{AEAD} `{Platform} `{RedisLaws} (q : Queue).

Lemma stored_XADD p r s : stored (XADD p r) s <-> s = p \/ stored r s.
Proof.
  destruct (XADD_entry p r) as (id & _ & Hs & Hr & _). unfold stored, members. rewrite Hs, Hr.
  setoid_rewrite elem_of_app. setoid_rewrite list_elem_of_singleton. naive_solver.
Qed.
Lemma stored_ZADD t p r s : stored (ZADD t p r) s <-> s = p \/ stored r s.
Proof. destruct (ZADD_member t p r) as (Hm & Hs & _). unfold stored. rewrite Hs, Hm. naive_solver. Qed.
Lemma stored_ZREM p r s : stored (ZREM p r) s <-> (exists id, (id, Some s) ∈ rd_stream r) \/ (s <> p /\ s ∈ members r).
Proof. destruct (ZREM_member p r) as (Hm & Hs & _). unfold stored. rewrite Hs, Hm. naive_solver. Qed.
Lemma stored_XDEL id r s : stored (XDEL id r) s <->
  (exists k, (k, Some s) ∈ rd_stream r /\ k <> id) \/ s ∈ members r.
Proof.
  destruct (XDEL_entry id r) as (Hs & Hr & _). unfold stored, members. rewrite Hs, Hr.
  setoid_rewrite list_elem_of_filter. simpl. naive_solver.
Qed.

Lemma XADD_evo p r : evo r (XADD p r).
Proof.
  destruct (XADD_entry p r) as (id & Hid & Hs & _). unfold evo, ids_ok. rewrite Hs.
  setoid_rewrite elem_of_app. setoid_rewrite list_elem_of_singleton. split_and!; [lia| |].
  - intros e [He| ->]; [by left|right; simpl; lia].
  - intros [Hb Hu]. split; [intros e [He%Hb| ->]; simpl; lia|].
    intros e e' [He| ->] [He'| ->] Heq; [auto| | |done];
      [apply Hb in He|apply Hb in He']; simpl in Heq; lia.
Qed.
Lemma XADD_dead_evo p r : evo r (XADD_dead p r).
Proof. destruct (XADD_dead_entry p r) as (_ & Hs & _ & Hn). by apply same_stream_evo. Qed.
Lemma ZADD_evo t p r : evo r (ZADD t p r).
Proof. destruct (ZADD_member t p r) as (_ & Hs & _ & Hn). by apply same_stream_evo. Qed.
Lemma ZREM_evo p r : evo r (ZREM p r).
Proof. destruct (ZREM_member p r) as (_ & Hs & _ & Hn). by apply same_stream_evo. Qed.
Lemma XDEL_evo id r : evo r (XDEL id r).
Proof. destruct (XDEL_entry id r) as (Hs & _ & _ & Hn). by eapply filter_stream_evo. Qed.
Lemma XACK_evo id r : evo r (XACK id r).
Proof. destruct (XACK_jobs id r) as (Hs & _ & _ & Hn). by apply same_stream_evo. Qed.

Lemma XADD_safe p r : within_budget q p -> safe q r (XADD p r).
Proof.
  intros Hb. split_and!; [apply XADD_evo|intros s Hs; apply stored_XADD; by right|].
  intros s [->|Hs]%stored_XADD; auto.
Qed.
Lemma ZADD_safe t p r : within_budget q p -> safe q r (ZADD t p r).
Proof.
  intros Hb. split_and!; [apply ZADD_evo|intros s Hs; apply stored_ZADD; by right|].
  intros s [->|Hs]%stored_ZADD; auto.
Qed.
End commands_safe.

Section operations.
Context `{Env} `{AEADLaws} `{PlatformLaws} `{RedisLaws} (q : Queue).

(** What [NewQueue] makes sure of. *)
Definition queue_ok : Prop :=
  (1 <= q_maxAttempts q < 2 ^ 63)%Z /\ (0 < q_baseDelay q <= q_maxDelay q)%Z /\ (q_maxDelay q < 2 ^ 63)%Z.

Lemma rpres_bind_Ok (R : relation Redis) `{!PreOrder R} {A B} (m : M A) (k : A -> M B) :
  rpres R m ->
  (forall w a w1, m w = (Ok a, w1) -> R (w_redis w1) (w_redis (k a w1).2)) ->
  rpres R (bind m k).
Proof.
  intros Hm Hk w. specialize (Hm w). unfold bind. destruct (m w) as [[a|e] w1] eqn:E; simpl in *; [|done].
  etrans; [done|by eapply Hk].
Qed.
Lemma rpres_run (R : relation Redis) {A} (m : M A) w a w1 : rpres R m -> m w = (a, w1) -> R (w_redis w) (w_redis w1).
Proof. intros Hm E. specialize (Hm w). by rewrite E in Hm. Qed.

Lemma enqueue_safe c t p d : rand_ok -> queue_ok -> rpres (safe q) (enqueue q c t p d).
Proof.
  intros Hr Hq. unfold enqueue. do 3 (apply rpres_bind; [apply _|eauto with teamflow_redis|intros ?]).
  cbv zeta. apply rpres_bind_Ok; [apply _|eauto with teamflow_redis|].
  intros w sealed w1 Hs.
  assert (Hb : within_budget q sealed).
  { apply open_seal in Hs; [|done|].
    - intros j Hj. rewrite Hj in Hs. simplify_eq/=. destruct Hq. unfold budget. simpl. lia.
    - destruct Hq as [Hq _]. split; [done|]. unfold int64_range. simpl.
      apply andb_true_iff. rewrite Z.leb_le, Z.ltb_lt. lia. }
  revert w1 Hs. intros w1 _.
  enough (Hg : forall m : M Job, rpres (safe q) m -> safe q (w_redis w1) (w_redis (m w1).2)).
  { apply Hg. destruct (Z.ltb 0 d); rpres_auto; apply rpres_run_command; [apply _| |apply _|]; intros r; simpl;
      [by apply ZADD_safe|by apply XADD_safe]. }
  intros m Hm. apply Hm.
Qed.
Lemma command_same {A} c (f : Redis -> reply A * Redis) :
  (forall r, same_jobs r (f r).2) -> rpres (safe q) (command c f).
Proof. intros Hf. apply rpres_command; [apply _|]. intros r. apply same_jobs_safe, Hf. Qed.
Lemma claimed_safe r : rpres (safe q) (claimed q r).
Proof. unfold claimed. rpres_auto. Qed.
Lemma Read_safe c consumer n : rpres (safe q) (Read q c consumer n).
Proof.
  unfold Read. apply rpres_bind; [apply _|apply command_same, XREADGROUP_jobs|apply claimed_safe].
Qed.
Lemma RecoverStale_safe c consumer i n : rpres (safe q) (RecoverStale q c consumer i n).
Proof.
  unfold RecoverStale. apply rpres_bind; [apply _|apply command_same, XAUTOCLAIM_jobs|apply claimed_safe].
Qed.
Lemma EnsureGroup_safe c : rpres (safe q) (EnsureGroup c).
Proof.
  unfold EnsureGroup, run_command. rpres_auto; [apply command_same, XGROUP_CREATE_jobs|apply rpres_value, _].
Qed.

(** Promotion moves payloads from the retry set to the stream. *)
Lemma promote_commands due : forall k r, (forall s, s ∈ due -> stored r s) ->
  safe q r (run_commands (take k (concat (map (fun s => [XADD s; ZREM s]) due))) r).
Proof.
  induction due as [|s due IH]; intros k r Hd; [cbn [map concat]; rewrite take_nil; simpl; reflexivity|].
  assert (Hadd : safe q r (XADD s r)).
  { split_and!; [apply XADD_evo|intros x Hx; apply stored_XADD; by right|].
    intros x [->|Hx]%stored_XADD; left; [apply Hd; left|done]. }
  destruct k as [|[|k]]; [reflexivity|exact Hadd|].
  cbn [map concat app take run_commands fold_left].
  assert (Hrem : safe q (XADD s r) (ZREM s (XADD s r))).
  { destruct (XADD_entry s r) as (id & _ & Hs & _).
    split_and!; [apply ZREM_evo| |]; intros x Hx.
    - apply stored_ZREM. destruct (decide (x = s)) as [->|Hne].
      + left. exists id. rewrite Hs. apply elem_of_app. right. by left.
      + destruct Hx as [Hx|Hx]; [by left|by right].
    - apply stored_ZREM in Hx. left. destruct Hx as [Hx|[_ Hx]]; [by left|by right]. }
  etrans; [exact Hadd|]. etrans; [exact Hrem|]. apply IH.
  intros x Hx. apply Hrem, Hadd, Hd. by right.
Qed.
(** With refusals, only payloads that were due can get lost. *)
Lemma promote_some (due : list string) l : Forall (fun f => exists s, s ∈ due /\ (f = XADD s \/ f = ZREM s)) l -> forall r,
  evo r (run_commands l r) /\ (forall s, stored (run_commands l r) s -> stored r s \/ s ∈ due) /\
  (forall s, stored r s -> stored (run_commands l r) s \/ s ∈ due).
Proof.
  induction 1 as [|f l (s & Hs & Hf) _ IH]; intros r; [split_and!; [reflexivity|auto|auto]|].
  destruct (IH (f r)) as (He & Hb & Hk). cbn [run_commands fold_left]. fold (run_commands l (f r)).
  destruct Hf as [->| ->]; split_and!.
  - etrans; [apply XADD_evo|done].
  - intros x [[->|Hx]%stored_XADD|Hx]%Hb; auto.
  - intros x Hx. apply Hk, stored_XADD. by right.
  - etrans; [apply ZREM_evo|done].
  - intros x [[Hx|[_ Hx]]%stored_ZREM|Hx]%Hb; [left; by left|left; by right|by right].
  - intros x Hx. destruct (decide (x = s)) as [->|Hne]; [by right|]. apply Hk, stored_ZREM. destruct Hx; [by left|by right].
Qed.
Lemma promote_members (due : list string) l : l `sublist_of` concat (map (fun s => [XADD s; ZREM s]) due) ->
  Forall (fun f => exists s, s ∈ due /\ (f = XADD s \/ f = ZREM s)) l.
Proof.
  intros Hl. apply List.Forall_forall. intros f Hf%list_elem_of_In. apply (elem_of_sublist _ _ _ Hf) in Hl.
  apply list_elem_of_In, in_concat in Hl as (fs & Hfs & Hin). apply in_map_iff in Hfs as (s & <- & Hs).
  exists s. split; [by apply list_elem_of_In|]. destruct Hin as [<-|[<-|[]]]; auto.
Qed.

Lemma run_then_ret {A B} (m : M A) (b : B) w : ((m ;;; ret b) w).2 = (m w).2.
Proof. unfold bind. by destruct (m w) as [[]]. Qed.
(** The payloads [PromoteDue] finds due. *)
Definition due_now (limit : Z) (w : World) : list string :=
  ZRANGEBYSCORE (UnixMilli (env_now (w_tick w))) (if Z.leb limit 0 then 100 else limit)%Z (w_redis w).
(** Promotion keeps what is stored, but for the due payloads when a command of it is refused. *)
Lemma PromoteDue_run c limit w : let r := w_redis w in let w' := (PromoteDue q c limit w).2 in
  evo r (w_redis w') /\ (forall s, stored (w_redis w') s -> stored r s) /\
  (forall s, stored r s -> stored (w_redis w') s \/ (refusals w w' = true /\ s ∈ due_now limit w)).
Proof.
  cbv zeta. destruct (PromoteDue q c limit w) as [res w'] eqn:E. cbn [snd]. unfold PromoteDue in E. unfold due_now.
  cbv zeta in E. set (lim := if Z.leb limit 0 then _ else _) in *.
  unfold bind at 1, timeNow in E. set (w0 := next_tick w) in *.
  set (get := wrapf "jobs: read retry schedule" _) in E. unfold bind at 1 in E.
  assert (Hget : rpres eq get) by (apply rpres_wrapf, rpres_run_command; [apply _|done]).
  assert (Htick : ticks get) by (unfold get; eauto with teamflow_redis).
  specialize (Hget w0). specialize (Htick w0).
  assert (Hval : forall due, (get w0).1 = Ok due -> due = ZRANGEBYSCORE (UnixMilli (env_now (w_tick w))) lim (w_redis w)).
  { intros due Hd. destruct (get w0) as [x w1] eqn:Eg. cbn in Hd. subst x. unfold get in Eg.
    apply wrapf_Ok, run_command_Ok in Eg as [Eg _]. cbn in Eg. by injection Eg as <-. }
  destruct (get w0) as [[due|e] w1]; cbn [fst snd] in *; cycle 1.
  { injection E as _ <-. rewrite <- Hget. split_and!; [reflexivity|auto|auto]. }
  specialize (Hval due eq_refl). cbn [w_redis w0 next_tick] in Hget.
  assert (Hdue : forall s, s ∈ due -> stored (w_redis w) s).
  { intros s. rewrite Hval. intros Hs. right. by apply ZRANGEBYSCORE_members in Hs. }
  rewrite <- Hval. clear Hval. destruct due as [|first rest].
  { injection E as _ <-. cbn [snd]. rewrite <- Hget. split_and!; [reflexivity|auto|auto]. }
  set (due := first :: rest) in *. clearbody due.
  destruct (pipeline_runs c (concat (map (fun s => [XADD s; ZREM s]) due)) w1) as (l & Hl & Hw & _ & Hk).
  match type of E with ?m w1 = _ => assert (Hw' : w' = (m w1).2) by (by rewrite E) end.
  rewrite run_then_ret, wrapf_snd in Hw'. rewrite <- Hw' in *. rewrite Hw, <- Hget.
  destruct (promote_some due l (promote_members due l Hl) (w_redis w)) as (He & Hb & Hkeep).
  split_and!; [done|intros x [Hx|Hx]%Hb; auto|].
  intros x Hx. destruct (refusals w w') eqn:Er; [destruct (Hkeep x Hx); auto|left].
  destruct Hk as [k ->]; [|by apply promote_commands].
  eapply refusals_mono; [| |exact Er]; [cbn in Htick |- *; lia|done].
Qed.
(** ** Finishing a delivery *)
(** Only the entry of the delivery may go. *)
Definition only_loses (id : N) (r r' : Redis) : Prop :=
  evo r r' /\ forall s, stored r s -> stored r' s \/ (id, Some s) ∈ rd_stream r.

Lemma finish_commands id r l : l `sublist_of` [XACK id; XDEL id] -> let r' := run_commands l r in
  only_loses id r r' /\ (forall s, stored r' s -> stored r s) /\ rd_dead r' = rd_dead r /\
  rd_retry r' = rd_retry r.
Proof.
  assert (Ha : forall r, let r' := XACK id r in only_loses id r r' /\ (forall s, stored r' s -> stored r s) /\
    rd_dead r' = rd_dead r /\ rd_retry r' = rd_retry r).
  { intros r0. destruct (XACK_jobs id r0) as (Hs & Hr & Hd & Hn).
    assert (Hst : forall s, stored (XACK id r0) s <-> stored r0 s) by (intros s; unfold stored, members; by rewrite Hs, Hr).
    split_and!; [split; [apply XACK_evo|]|intros s; apply Hst|done|done]. intros s Hx. left. by apply Hst. }
  assert (Hd : forall r, let r' := XDEL id r in only_loses id r r' /\ (forall s, stored r' s -> stored r s) /\
    rd_dead r' = rd_dead r /\ rd_retry r' = rd_retry r).
  { intros r0. destruct (XDEL_entry id r0) as (_ & Hr & Hd & _).
    split_and!; [split; [apply XDEL_evo|]| |done|done].
    - intros s [[n Hx]|Hx]; [destruct (decide (n = id)) as [->|Hne]; [by right|left; apply stored_XDEL; eauto]|].
      left. apply stored_XDEL. by right.
    - intros s [(n & Hx & _)|Hx]%stored_XDEL; [left; eauto|by right]. }
  intros [-> | [-> | [-> | ->]]]%sublist_two; cbn [run_commands fold_left]; [|apply Ha|apply Hd|].
  { split_and!; [split; [reflexivity|auto]|auto|done|done]. }
  destruct (Ha r) as ([He1 Hl1] & Hb1 & Hd1 & Hr1), (Hd (XACK id r)) as ([He2 Hl2] & Hb2 & Hd2 & Hr2).
  destruct (XACK_jobs id r) as (Hs & _). split_and!; [split; [by etrans|]|auto|congruence|congruence].
  intros s Hx. destruct (Hl1 s Hx) as [Hx1|]; [|by right]. rewrite <- Hs. by apply Hl2.
Qed.
Lemma Ack_run c d w : let r := w_redis w in let r' := w_redis (Ack c d w).2 in
  only_loses (Delivery_ID d) r r' /\ (forall s, stored r' s -> stored r s) /\ rd_retry r' = rd_retry r.
Proof.
  cbv zeta. unfold Ack. rewrite wrapf_snd.
  destruct (pipeline_runs c [XACK (Delivery_ID d); XDEL (Delivery_ID d)] w) as (l & Hl & -> & _).
  destruct (finish_commands (Delivery_ID d) (w_redis w) l Hl) as (? & ? & _ & ?). by split_and!.
Qed.

(** Recording the failed job: into the dead-letter stream or into the retry set. *)
Definition records (job : Job) (cause : error) (since : nat) (sealed : string) (f : Redis -> Redis) : Prop :=
  f = XADD_dead sealed /\ exhausted job cause = true \/
  exists n b, f = ZADD (UnixMilli (env_now n + b)) sealed /\ exhausted job cause = false /\ since <= n /\
    exists v, (backoff q (Job_Attempts job) v).1 = Ok b.
(** What [Fail] sends: nothing; or, unless that very command is refused, the recording of the
    failed job, and then some of the acknowledgement. *)
Lemma Fail_commands c d cause w : rand_ok -> job_ints (Delivery_Job d) ->
  let job := failed_job (Delivery_Job d) cause in
  let w' := (Fail_ q c d cause w).2 in let ok := (Fail_ q c d cause w).1 = Ok tt in
  (w_redis w' = w_redis w /\ ~ ok) \/
  exists sealed f l, open q sealed = Ok (clean_job job) /\ records job cause (w_tick w) sealed f /\
    l `sublist_of` [XACK (Delivery_ID d); XDEL (Delivery_ID d)] /\
    (ok -> l = [XACK (Delivery_ID d); XDEL (Delivery_ID d)]) /\
    (w_redis w' = run_commands l (f (w_redis w)) \/
     w_redis w' = run_commands l (w_redis w) /\ refusals w w' = true /\ ~ ok).
Proof.
  intros Hr Hi. cbv zeta. destruct (Fail_ q c d cause w) as [res w'] eqn:Er.
  cbn [fst snd]. unfold Fail_ in Er. set (job := failed_job _ _) in *.
  assert (Hj : job_ints job).
  { destruct Hi as [_ Hm]. split; [|done]. cbn. unfold int64_range. pose proof (wrap64_range (Job_Attempts (Delivery_Job d) + 1)).
    apply andb_true_iff. rewrite Z.leb_le, Z.ltb_lt. lia. }
  pose proof (rpres_seal eq q job w) as Hseal. pose proof (ticks_seal q job w) as Ht1. unfold bind at 1 in Er.
  destruct (seal q job w) as [[sealed|e] w1] eqn:Es; cbn [snd] in *; [|left; split; congruence].
  apply open_seal in Es; [|done|done].
  set (first := if exhausted job cause then _ else _) in Er.
  assert (Hfirst : w_redis (first w1).2 = w_redis w1 /\ w_tick w1 <= w_tick (first w1).2 /\
    forall f, (first w1).1 = Ok f -> records job cause (w_tick w) sealed f).
  { subst first. unfold records. destruct (exhausted job cause);
      [cbn; split_and!; [done|done|intros f Hf; simplify_eq; by left]|].
    unfold bind, timeNow. cbn [fst snd]. pose proof (rpres_backoff eq q (Job_Attempts job) (next_tick w1)) as Hb.
    pose proof (ticks_backoff q (Job_Attempts job) (next_tick w1)) as Htb.
    destruct (backoff q _ _) as [[b|e] w2] eqn:Eb; cbn in *; (split_and!; [done|lia|]); [|done].
    intros f [= <-]. right. exists (w_tick w1), b. split_and!; [done|done|done|]. exists (next_tick w1). by rewrite Eb. }
  clearbody first. destruct Hfirst as (Hw2 & Ht2 & Hf). unfold bind in Er.
  destruct (first w1) as [[f|e] w2]; cbn [fst snd] in *; [|left; split; congruence].
  specialize (Hf f eq_refl).
  destruct (pipeline_runs c [f; XACK (Delivery_ID d); XDEL (Delivery_ID d)] w2) as (l & Hl & Hk & Hok & Hpre).
  pose proof (wrapf_snd "jobs: record job failure" (pipeline c [f; XACK (Delivery_ID d); XDEL (Delivery_ID d)]) w2) as Hsnd.
  rewrite Er in Hsnd. cbn in Hsnd. rewrite <- Hsnd in Hk, Hpre.
  assert (Hres : res = Ok tt -> l = [f; XACK (Delivery_ID d); XDEL (Delivery_ID d)]).
  { intros ->. apply wrapf_Ok in Er. apply Hok. by rewrite Er. }
  assert (Hsame : w_redis w2 = w_redis w) by congruence. rewrite Hsame in Hk.
  assert (Hlen : res = Ok tt -> length l = 3) by (intros Hx; by rewrite Hres).
  destruct (refusals w w') eqn:Eref.
  - apply sublist_cons_r in Hl as [Hl|(l' & -> & Hl)]; right.
    + exists sealed, f, l. pose proof (sublist_length _ _ Hl) as Hle. simpl in Hle.
      split_and!; [done|done|done|intros Hx; apply Hlen in Hx; lia|].
      right. split_and!; [done|done|intros Hx; apply Hlen in Hx; lia].
    + exists sealed, f, l'. split_and!; [done|done|done| |by left]. intros Hx. apply Hres in Hx. by injection Hx.
  - destruct Hpre as [[|k] ->]; [eapply refusals_mono; [| |exact Eref]; lia| |].
    { left. split; [done|]. intros Hx. by apply Hlen in Hx. }
    right. exists sealed, f, (take k [XACK (Delivery_ID d); XDEL (Delivery_ID d)]).
    split_and!; [done|done|apply sublist_take| |by left]. intros Hx. apply Hres in Hx. by injection Hx.
Qed.
(** Recording a failure did nothing; or put the failed job, with one more attempt, into the
    retry set or the dead-letter stream before the entry could go; or that was refused. *)
Lemma Fail_run c d cause w : rand_ok -> job_ints (Delivery_Job d) ->
  let w' := (Fail_ q c d cause w).2 in let r := w_redis w in let r' := w_redis w' in
  let job := failed_job (Delivery_Job d) cause in
  only_loses (Delivery_ID d) r r' /\
  (r' = r \/
   (exists sealed, open q sealed = Ok (clean_job job) /\
    if exhausted job cause then sealed ∈ rd_dead r' /\ forall s, stored r' s -> stored r s
    else stored r' sealed /\ forall s, stored r' s -> s = sealed \/ stored r s) \/
   refusals w w' = true /\ forall s, stored r' s -> stored r s).
Proof.
  intros Hr Hi. cbv zeta.
  destruct (Fail_commands c d cause w Hr Hi) as [[-> _]|(sealed & f & l & Ho & Hf & Hl & _ & [->|(-> & Href & _)])].
  { split; [split; [reflexivity|auto]|by left]. }
  2: { destruct (finish_commands (Delivery_ID d) (w_redis w) l Hl) as (Hlose & Hback & _). split; [done|right; by right]. }
  destruct (finish_commands (Delivery_ID d) (f (w_redis w)) l Hl) as ([Hev Hkeep] & Hback & Hdead & Hmem).
  destruct Hf as [[-> Hex]|(n & b & -> & Hex & _)]; rewrite Hex.
  - destruct (XADD_dead_entry sealed (w_redis w)) as (Hin & Hs & Hrt & Hn).
    assert (Hst : forall s, stored (XADD_dead sealed (w_redis w)) s <-> stored (w_redis w) s)
      by (intros s; unfold stored, members; by rewrite Hs, Hrt).
    split; [split|right; left; exists sealed; split_and!; [done|by rewrite Hdead|]].
    + etrans; [apply XADD_dead_evo|exact Hev].
    + intros s Hx. destruct (Hkeep s (proj2 (Hst s) Hx)) as [Hx'|Hx']; [by left|right; by rewrite <- Hs].
    + intros s Hx. by apply (proj1 (Hst s)), Hback.
  - set (t := UnixMilli _) in *. destruct (ZADD_member t sealed (w_redis w)) as (Hm & Hs & _).
    split; [split|right; left; exists sealed; split_and!; [done| |]].
    + etrans; [apply ZADD_evo|exact Hev].
    + intros s Hx. destruct (Hkeep s) as [Hx'|Hx']; [apply stored_ZADD; by right|by left|right; by rewrite <- Hs].
    + right. unfold members. rewrite Hmem. apply Hm. by left.
    + intros s Hx. by apply (proj1 (stored_ZADD t sealed (w_redis w) s)), Hback.
Qed.
End operations.
