(* ===== verification/QueueDemo.v ===== *)
(** * A concrete queue backend

    One instance of everything the queue leaves open (cipher, instants, Redis), with the
    proofs of the laws, on which the witnesses of the queue's theorems are evaluated.
    Nothing else depends on it. *)
From S2P Require Import Prelude.
From S2P Require Import GoError.
From S2P Require Import Schema.
From S2P Require Import Store.
From S2P Require Import GoStrings.
From S2P Require Import Utf8.
From S2P Require Import JsonDecode.
From S2P Require Import Demo.
From S2P Require Import Jobs.
From stdpp Require Import pretty.
Local Open Scope string_scope.

Definition demo_aead : AEAD :=
  {| aead_NonceSize := 12; aead_Seal _ _ m := m; aead_Open _ _ m := Some m |}.
#[export] Instance demo_aead_laws : @AEADLaws demo_aead.
Proof. split; done. Qed.

Definition parse_text (s : string) : option Z := fst <$> parse_number (bytes s).
Definition demo_platform : Platform := {|
  time_MarshalText t := Some (pretty t); time_UnmarshalText := parse_text;
  float64_to_int64_overflow _ := (- 2 ^ 63)%Z; strconv_Quote s := s; rand_Int _ _ := Some 0%Z
|}.
Lemma pretty_ascii (t : Z) : is_ascii (pretty t) = true.
Proof.
  assert (Hp : forall p, forallb (fun b => b <? 128)%N (bytes (pretty (N.pos p))) = true).
  { intros p. destruct (pretty_digits (N.pos p)) as (b & ds & Hs & _ & Hf & _); [done|].
    change (pretty (N.pos p)) with (pretty_N_go (N.pos p) EmptyString). rewrite Hs, app_nil_r.
    apply forallb_forall. intros x Hx%list_elem_of_In. rewrite Forall_forall in Hf.
    apply Hf in Hx. unfold is_digit in Hx. N_bools. apply N.ltb_lt. lia. }
  destruct t as [|p|p]; [done|apply Hp|]. unfold is_ascii.
  change (bytes (pretty (Z.neg p))) with (45%N :: bytes (pretty (N.pos p))). cbn [forallb].
  by rewrite Hp.
Qed.
#[export] Instance demo_platform_laws : @PlatformLaws demo_platform.
Proof.
  split; cbn.
  - intros t s [= <-]. split; [apply pretty_ascii|]. unfold parse_text.
    destruct (parse_number_pretty t [] I) as (b & l & E & _ & Hp). rewrite app_nil_r in E.
    by rewrite E, Hp.
  - intros n max x Hmax [= <-]. lia.
Qed.

Definition redis_with (next : N) (stream : list (N * option string)) (last : N)
    (pending : list (N * PendingEntry)) (retry : list (string * Z)) (dead : list string) (group : bool) : Redis :=
  {| rd_next := next; rd_stream := stream; rd_group := group; rd_last := last;
     rd_pending := pending; rd_retry := retry; rd_dead := dead |}.
Definition demo_redis : RedisServer := {|
  redis_fault _ := None; redis_refused _ := None;
  XGROUP_CREATE r := if rd_group r then (ErrorReply "BUSYGROUP Consumer Group name already exists", r)
    else (Reply tt, redis_with (rd_next r) (rd_stream r) (rd_last r) (rd_pending r) (rd_retry r) (rd_dead r) true);
  XADD p r := redis_with (rd_next r + 1) (rd_stream r ++ [(rd_next r, Some p)])%list (rd_last r) (rd_pending r)
    (rd_retry r) (rd_dead r) (rd_group r);
  XADD_dead p r := redis_with (rd_next r) (rd_stream r) (rd_last r) (rd_pending r) (rd_retry r)
    (drop (length (rd_dead r) + 1 - Z.to_nat deadStreamMaxLen) (rd_dead r) ++ [p])%list (rd_group r);
  XREADGROUP c n r :=
    let l := take (Z.to_nat n) (filter (fun e => (rd_last r < e.1)%N) (rd_stream r)) in
    (if l is [] then Nil else Reply l,
     redis_with (rd_next r) (rd_stream r) (default (rd_last r) (fst <$> last l))
       (rd_pending r ++ map (fun e => (e.1, {| pe_consumer := c; pe_delivered := 0; pe_count := 1 |})) l)
       (rd_retry r) (rd_dead r) (rd_group r));
  XAUTOCLAIM c idle n r :=
    (Reply (take (Z.to_nat n) (filter (fun e => e.1 ∈ (rd_pending r).*1) (rd_stream r))), r);
  XACK id r := redis_with (rd_next r) (rd_stream r) (rd_last r) (filter (fun e => e.1 <> id) (rd_pending r))
    (rd_retry r) (rd_dead r) (rd_group r);
  XDEL id r := redis_with (rd_next r) (filter (fun e => e.1 <> id) (rd_stream r)) (rd_last r) (rd_pending r)
    (rd_retry r) (rd_dead r) (rd_group r);
  ZADD s m r := redis_with (rd_next r) (rd_stream r) (rd_last r) (rd_pending r)
    ((m, s) :: filter (fun e => e.1 <> m) (rd_retry r)) (rd_dead r) (rd_group r);
  ZREM m r := redis_with (rd_next r) (rd_stream r) (rd_last r) (rd_pending r)
    (filter (fun e => e.1 <> m) (rd_retry r)) (rd_dead r) (rd_group r);
  ZRANGEBYSCORE t n r := take (Z.to_nat n) (filter (fun e => (e.2 <= t)%Z) (rd_retry r)).*1
|}.
Lemma take_subset {A} n (l : list A) : take n l ⊆ l.
Proof. intros x Hx. rewrite <- (take_drop n l). apply elem_of_app. by left. Qed.
Lemma filter_subset {A} (P : A -> Prop) `{!forall x, Decision (P x)} (l : list A) : filter P l ⊆ l.
Proof. intros x Hx. by apply list_elem_of_filter in Hx as [_ ?]. Qed.
Lemma keys_without {B} m (l : list (string * B)) x :
  x ∈ (filter (fun e : string * B => e.1 <> m) l).*1 <-> x <> m /\ x ∈ l.*1.
Proof.
  rewrite !list_elem_of_fmap. setoid_rewrite list_elem_of_filter. split.
  - intros (y & -> & Hy & Hin). eauto.
  - intros (Hne & y & -> & Hin). eauto.
Qed.
#[export] Instance demo_redis_laws : @RedisLaws demo_redis.
Proof.
  split; cbn; unfold same_jobs, members; cbn.
  - intros r. by destruct (rd_group r).
  - intros p r. exists (rd_next r). split_and!; [lia|lia|done..].
  - intros p r. split_and!; [|done..]. apply elem_of_app. right. by left.
  - done.
  - intros c n r l. destruct (take _ _) as [|e l'] eqn:El; [done|]. intros [= <-]. rewrite <- El.
    etrans; [apply take_subset|apply filter_subset].
  - done.
  - intros c i n r l [= <-]. etrans; [apply take_subset|apply filter_subset].
  - done.
  - done.
  - intros s m r. split; [|done]. intros x. rewrite elem_of_cons, keys_without.
    destruct (decide (x = m)); naive_solver.
  - intros s m r. left.
  - intros m r. split; [|done]. intros x. apply keys_without.
  - intros t n r. etrans; [apply take_subset|]. intros x. rewrite !list_elem_of_fmap.
    intros (y & -> & Hy). apply filter_subset in Hy. eauto.
Qed.
