(* ===== verification/Worker.v ===== *)
(** * The worker pool

    Models [internal/jobs/worker.go]: dispatching a delivery to the handler of its type and
    recording the outcome, one round of a consumer, one round of the maintenance loop, and
    the context a run gives its jobs.  The pool as a whole is a step relation over Redis,
    the deliveries its consumers hold, the jobs that were completed or dead-lettered, and
    those for which the server refused a command of the recording. *)
From S2P Require Import Prelude.
From S2P Require Import GoError.
From S2P Require Import Schema.
From S2P Require Import Store.
From S2P Require Import Logic.
From S2P Require Import GoStrings.
From S2P Require Import Utf8.
From S2P Require Import JsonDecode.
From S2P Require Import Jobs.
From S2P Require Import QueueFacts.
From S2P Require Import Demo.
From S2P Require Import QueueDemo.
Local Open Scope string_scope.

Definition Handler : Type := Ctx -> Job -> M unit.
Definition defaultPromoteInterval : Z := 5 * Second.
Record WorkerOptions := {
  Concurrency : Z; BlockTimeout : Z; StaleAfter : Z; ShutdownTimeout : Z;
  ConsumerName : string; PromoteInterval : Z
}.
Record Worker := { wk_queue : Queue; wk_handlers : gmap string Handler; wk_opts : WorkerOptions }.

Definition or_default (d v : Z) : Z := if Z.leb v 0 then d else v.
(** [NewWorker]; [hostname_pid] is what [defaultConsumerName] reads from the system. *)
Definition NewWorker (q : Queue) (o : WorkerOptions) (hostname_pid : string) : Worker := {|
  wk_queue := q; wk_handlers := ∅;
  wk_opts := {|
    Concurrency := if Z.ltb (Concurrency o) 1 then 1 else Concurrency o;
    BlockTimeout := or_default (2 * Second) (BlockTimeout o);
    StaleAfter := or_default (5 * Minute) (StaleAfter o);
    ShutdownTimeout := or_default (15 * Second) (ShutdownTimeout o);
    ConsumerName := if ConsumerName o =?= "" then hostname_pid else ConsumerName o;
    PromoteInterval := or_default defaultPromoteInterval (PromoteInterval o)
  |}
|}.
Definition Register (jobType : string) (h : Handler) (wk : Worker) : Worker :=
  {| wk_queue := wk_queue wk; wk_handlers := <[jobType := h]> (wk_handlers wk); wk_opts := wk_opts wk |}.

(** The map lookup of the dispatch. *)
Definition handler_for (wk : Worker) (jobType : string) : option Handler := wk_handlers wk !! jobType.

Section worker.
Context `{Env} `{AEAD} `{Platform} `{RedisServer} (wk : Worker).
Let q := wk_queue wk.

(** ** Dispatch *)
Definition unreadable_error : error := PermanentError (ErrorsNew "job payload is unreadable").
Definition no_handler_error (jobType : string) : error :=
  PermanentError (ErrorsNew ("no handler for " +:+ strconv_Quote jobType)).

(** [handle]: errors of the queue itself are logged and dropped, the entry then stays
    pending. *)
Definition handle (ctx : Ctx) (d : Delivery) : M unit :=
  let job := Delivery_Job d in
  if Job_Type job =?= "" then attempt (Fail_ q ctx d unreadable_error) ;;; ret tt else
  match handler_for wk (Job_Type job) with
  | None => attempt (Fail_ q ctx d (no_handler_error (Job_Type job))) ;;; ret tt
  | Some handler =>
      r <- attempt (handler ctx job) ;;
      match r with
      | Err e => attempt (Fail_ q ctx d e) ;;; ret tt
      | Ok _ => attempt (Ack ctx d) ;;; ret tt
      end
  end.
Definition handle_all (ctx : Ctx) (ds : list Delivery) : M unit := for_each ds (handle ctx).

(** [isRedisUnavailable]: by the text of the error. *)
Definition unavailable_markers : list string :=
  ["connection refused"; "connection reset"; "i/o timeout"; "no such host"; "broken pipe"; "eof";
   "context deadline exceeded"].
Definition isRedisUnavailable (e : error) : bool :=
  existsb (Contains (ToLower (Error e))) unavailable_markers.

(** ** The loops

    One round of [consume]: [Err] ends the consumer, [Ok] is the next iteration. *)
Definition consume (loopCtx jobCtx : Ctx) (consumer : string) : M unit :=
  ctx_check loopCtx ;;;
  r <- attempt (Read q loopCtx consumer 1) ;;
  match r with
  | Err e =>
      ctx_check loopCtx ;;;
      (if isRedisUnavailable e then ctx_check loopCtx else fail (Errorf "read jobs" e))
  | Ok deliveries => handle_all jobCtx deliveries
  end.
(** One tick of [maintain]: promotion, then reclaiming, whose failure ends the tick. *)
Definition maintain (loopCtx jobCtx : Ctx) : M unit :=
  attempt (PromoteDue q loopCtx 100) ;;;
  r <- attempt (RecoverStale q loopCtx "reclaimer" (StaleAfter (wk_opts wk)) 50) ;;
  match r with
  | Err _ => ret tt
  | Ok recovered => handle_all jobCtx recovered
  end.
(** The start of [Run]: the consumer group, and the context every job of this run gets. *)
Definition Run_start (ctx : Ctx) : M Ctx :=
  EnsureGroup ctx ;;;
  now <- timeNow ;;
  ret (WithDeadline (now + ShutdownTimeout (wk_opts wk))).
End worker.

(** ** The pool as a step relation

    Between two steps a consumer may crash, which drops the deliveries it held; the entries
    stay in the stream.  [p_done] collects the ids of the jobs whose handler succeeded,
    [p_dead] those of the jobs seen in the dead-letter stream, so that the trimming of that
    stream does not hide them, and [p_lost] those of the jobs whose failure was recorded, or
    that were promoted, by a pipeline in which Redis refused a command. *)
Record Pool := {
  p_world : World; p_held : list Delivery; p_done : list string; p_dead : list string; p_lost : list string
}.

Section pool.
Context `{Env} `{AEADLaws} `{PlatformLaws} `{RedisLaws} (wk : Worker).
Let q := wk_queue wk.

Definition opened_id (s : string) : option string :=
  match open q s with Ok j => Some (Job_ID j) | Err _ => None end.
Definition dead_ids (r : Redis) : list string := omap opened_id (rd_dead r).
(** The handler of a delivery succeeds. *)
Definition completes (ctx : Ctx) (d : Delivery) (w : World) : bool :=
  if Job_Type (Delivery_Job d) =?= "" then false else
  match handler_for wk (Job_Type (Delivery_Job d)) with
  | None => false
  | Some h => match (h ctx (Delivery_Job d) w).1 with Ok _ => true | Err _ => false end
  end.
Definition held_of (r : result (list Delivery)) : list Delivery := match r with Ok ds => ds | Err _ => [] end.
(** The world in which the outcome of a delivery is recorded, and whether Redis refuses a
    command of that recording. *)
Definition dispatched (ctx : Ctx) (d : Delivery) (w : World) : World :=
  if Job_Type (Delivery_Job d) =?= "" then w else
  match handler_for wk (Job_Type (Delivery_Job d)) with
  | None => w
  | Some h => (h ctx (Delivery_Job d) w).2
  end.
Definition recording_refused (ctx : Ctx) (d : Delivery) (w : World) : bool :=
  refusals (dispatched ctx d w) (handle wk ctx d w).2.
Definition pool_after (w : World) (held : list Delivery) (done lost : list string) (p : Pool) : Pool :=
  {| p_world := w; p_held := held; p_done := done; p_dead := p_dead p ++ dead_ids (w_redis w); p_lost := lost |}.

(** [may] are the job types that are enqueued from outside the handlers: by the API, or by a
    worker that starts. *)
Inductive pool_step (may : string -> Prop) : Pool -> Pool -> Prop :=
  | step_enqueue p c t payload d : may t ->
      pool_step may p (pool_after (enqueue q c t payload d (p_world p)).2 (p_held p) (p_done p) (p_lost p) p)
  | step_read p c consumer n :
      pool_step may p (pool_after (Read q c consumer n (p_world p)).2
        (p_held p ++ held_of (Read q c consumer n (p_world p)).1) (p_done p) (p_lost p) p)
  | step_recover p c consumer i n :
      pool_step may p (pool_after (RecoverStale q c consumer i n (p_world p)).2
        (p_held p ++ held_of (RecoverStale q c consumer i n (p_world p)).1) (p_done p) (p_lost p) p)
  | step_promote p c limit :
      pool_step may p (pool_after (PromoteDue q c limit (p_world p)).2 (p_held p) (p_done p)
        (if refusals (p_world p) (PromoteDue q c limit (p_world p)).2
         then omap opened_id (due_now limit (p_world p)) ++ p_lost p else p_lost p) p)
  | step_handle p c d held : d ∈ p_held p -> held ⊆ p_held p ->
      pool_step may p (pool_after (handle wk c d (p_world p)).2 held
        (if completes c d (p_world p) then Job_ID (Delivery_Job d) :: p_done p else p_done p)
        (if recording_refused c d (p_world p) then Job_ID (Delivery_Job d) :: p_lost p else p_lost p) p)
  | step_crash p held : held ⊆ p_held p -> pool_step may p (pool_after (p_world p) held (p_done p) (p_lost p) p)
  | step_elsewhere p w : w_redis w = w_redis (p_world p) ->
      pool_step may p (pool_after w (p_held p) (p_done p) (p_lost p) p).

(** ** The invariant *)

(** A delivery in a consumer's hands is the one its entry gives, as long as the entry is
    there. *)
Definition held_ok (r : Redis) (d : Delivery) : Prop :=
  (Delivery_ID d < rd_next r)%N /\ job_ints (Delivery_Job d) /\
  (forall s, (Delivery_ID d, Some s) ∈ rd_stream r -> delivery q (Delivery_ID d, Some s) = Some d) /\
  (budget (Delivery_Job d) \/ (Job_MaxAttempts (Delivery_Job d) <= 0)%Z).
Definition redis_ok (r : Redis) : Prop :=
  ids_ok r /\ (forall s, stored r s -> within_budget q s).
Definition pool_inv (p : Pool) : Prop :=
  redis_ok (w_redis (p_world p)) /\ Forall (held_ok (w_redis (p_world p))) (p_held p).

(** A job is accounted for: it waits, or its handler succeeded, or it was dead-lettered, or
    Redis refused a command when it was to be recorded or promoted. *)
Definition accounted (p : Pool) (id : string) : Prop :=
  (exists s, stored (w_redis (p_world p)) s /\ opened_id s = Some id) \/
  id ∈ p_done p \/ id ∈ p_dead p \/ id ∈ p_lost p.

(** What is asked of the handlers: they may enqueue, and otherwise leave the queue alone. *)
Definition handlers_ok : Prop :=
  forall t h c j, handler_for wk t = Some h -> rpres (safe q) (h c j).

Lemma job_field_ints j kv j' : job_ints j -> job_field j kv = Some j' -> job_ints j'.
Proof.
  intros [Ha Hm] Hf. unfold job_field in Hf. unfold job_ints.
  repeat case_match; simplify_eq/=; try done; by destruct (time_UnmarshalText _); simplify_eq/=.
Qed.
Lemma job_of_json_ints v j : job_of_json v = Some j -> job_ints j.
Proof.
  unfold job_of_json. destruct v as [| | | | |fs]; try done; [by intros; simplify_eq|].
  enough (Hg : forall oj, (forall j0, oj = Some j0 -> job_ints j0) ->
    fold_left (fun oj kv => j0 ← oj; job_field j0 kv) fs oj = Some j -> job_ints j)
    by (apply Hg; by intros j0 [= <-]).
  induction fs as [|kv fs IH]; intros oj Ho; cbn [fold_left]; [auto|].
  apply IH. intros j0. destruct oj as [j1|]; [|done]. cbn. apply job_field_ints. by apply Ho.
Qed.
Lemma open_ints s j : open q s = Ok j -> job_ints j.
Proof.
  unfold open. repeat case_match; try done. intros. simplify_eq.
  match goal with H : mbind _ _ = Some _ |- _ => destruct (Unmarshal _) as [v|]; [|done]; cbn in H end.
  by eapply job_of_json_ints.
Qed.
Lemma delivery_ok r id s d : redis_ok r -> (id, Some s) ∈ rd_stream r ->
  delivery q (id, Some s) = Some d -> held_ok r d.
Proof.
  intros ([Hid Huniq] & Hb) Hin Hd. pose proof Hd as Hd'. unfold delivery in Hd. cbn in Hd. simplify_eq.
  split_and!; cbn.
  - by apply (Hid _ Hin).
  - destruct (open q s) as [j|e] eqn:Ho; [by eapply open_ints|done].
  - intros s' Hs'. pose proof (Huniq _ _ Hin Hs' eq_refl). by simplify_eq.
  - destruct (open q s) as [j|e] eqn:Ho; [|by right]. left. apply (Hb s); [left; eauto|done].
Qed.
Lemma held_evo r r' d : evo r r' -> held_ok r d -> held_ok r' d.
Proof.
  intros (Hn & He & _) (Hid & Hi & Hs & Hb). split_and!; [lia|done| |done].
  intros s Hin. destruct (He _ Hin) as [Hold|Hnew]; [by apply Hs|cbn in Hnew; lia].
Qed.

(** The entry a delivery came from holds the job of the delivery. *)
Lemma held_entry_job r d s id : held_ok r d -> (Delivery_ID d, Some s) ∈ rd_stream r ->
  opened_id s = Some id -> id = Job_ID (Delivery_Job d) /\ open q s = Ok (Delivery_Job d).
Proof.
  intros (_ & _ & Hs & _) Hin Ho. pose proof (Hs s Hin) as Hd. unfold delivery in Hd. cbn in Hd.
  unfold opened_id in Ho. destruct (open q s) as [j|]; [|done]. simplify_eq. by rewrite <- Hd.
Qed.

Lemma failed_budget job cause : job_ints job -> budget job \/ (Job_MaxAttempts job <= 0)%Z ->
  exhausted (failed_job job cause) cause = false -> budget (clean_job (failed_job job cause)).
Proof.
  intros [Ha Hm] Hb He. unfold exhausted in He. bool_hyps. unfold int64_range in *. cbn in *. bool_hyps.
  destruct Hb as [[Hl Hu]|Hb]; [|lia]. rewrite wrap64_id in * by lia. unfold budget. cbn. rewrite wrap64_id by lia. lia.
Qed.

(** Recording a failure loses no job, unless Redis refuses a command of it. *)
Lemma Fail_settles c d cause w : rand_ok -> redis_ok (w_redis w) -> held_ok (w_redis w) d ->
  let w' := (Fail_ q c d cause w).2 in let r := w_redis w in let r' := w_redis w' in
  evo r r' /\ (forall s, stored r' s -> within_budget q s) /\
  forall s id, stored r s -> opened_id s = Some id -> utf8_valid id ->
    (exists s', stored r' s' /\ opened_id s' = Some id) \/ id ∈ dead_ids r' \/
    (refusals w w' = true /\ id = Job_ID (Delivery_Job d)).
Proof.
  intros Hr Hok Hd. cbv zeta. pose proof Hd as (_ & Hi & _ & Hb).
  destruct (Fail_run q c d cause w Hr Hi) as [[Hev Hl] Hx].
  set (w' := (Fail_ _ _ _ _ _).2) in *. clearbody w'. set (r' := w_redis w') in *.
  set (job := failed_job _ _) in *.
  assert (Hold : forall s id, stored (w_redis w) s -> opened_id s = Some id ->
    (exists s', stored r' s' /\ opened_id s' = Some id) \/ id = Job_ID (Delivery_Job d)).
  { intros s id Hs Hid. destruct (Hl s Hs) as [Hs'|Hin]; [left; eauto|right]. by apply (held_entry_job _ _ _ _ Hd Hin Hid). }
  split_and!; [done| |].
  - intros s Hs. destruct Hx as [Hsame|[(sealed & Ho & Hx)|[_ Hx]]]; [rewrite Hsame in Hs; by apply Hok| |by apply Hok, Hx].
    destruct (exhausted job cause) eqn:He; destruct Hx as [_ Hx]; [by apply Hok, Hx|].
    destruct (Hx s Hs) as [->|Hs']; [|by apply Hok]. intros j Hj. rewrite Ho in Hj. simplify_eq. by apply failed_budget.
  - intros s id Hs Hid Hv. destruct (Hold s id Hs Hid) as [Hst| ->]; [by left|].
    destruct Hx as [Hsame|[(sealed & Ho & Hx)|[Href _]]].
    + left. exists s. by rewrite Hsame.
    + assert (Hsid : opened_id sealed = Some (Job_ID (Delivery_Job d))).
      { unfold opened_id. rewrite Ho. f_equal. exact Hv. }
      destruct (exhausted job cause); destruct Hx as [Hx _].
      * right. left. unfold dead_ids. apply list_elem_of_omap. by exists sealed.
      * left. by exists sealed.
    + right. by right.
Qed.
Lemma Ack_settles c d w : redis_ok (w_redis w) -> held_ok (w_redis w) d ->
  let r := w_redis w in let r' := w_redis (Ack c d w).2 in
  evo r r' /\ (forall s, stored r' s -> within_budget q s) /\
  forall s id, stored r s -> opened_id s = Some id ->
    (exists s', stored r' s' /\ opened_id s' = Some id) \/ id = Job_ID (Delivery_Job d).
Proof.
  intros Hok Hd. cbv zeta. destruct (Ack_run c d w) as ([Hev Hl] & Hb & _).
  split_and!; [done|intros s Hs; by apply Hok, Hb|].
  intros s id Hs Hid. destruct (Hl s Hs) as [Hs'|Hin]; [left; eauto|right].
  by apply (held_entry_job _ _ _ _ Hd Hin Hid).
Qed.
Lemma safe_ok r r' : safe q r r' -> redis_ok r -> redis_ok r'.
Proof.
  intros ((Hn & He & Hi) & Hm & Hb) [Hids Hst]. split; [by apply Hi|].
  intros s Hs. destruct (Hb s Hs); auto.
Qed.
Lemma settled_ok r r' : evo r r' -> (forall s, stored r' s -> within_budget q s) -> redis_ok r -> redis_ok r'.
Proof. intros (_ & _ & Hi) Hb [Hids _]. split; auto. Qed.

Lemma bind_attempt {A B} (m : M A) (k : result A -> M B) w : (r <- attempt m ;; k r) w = k (m w).1 (m w).2.
Proof. unfold bind, attempt. by destruct (m w). Qed.
Lemma attempt_world {A} (m : M A) w : ((attempt m ;;; ret tt) w).2 = (m w).2.
Proof. unfold bind, attempt. by destruct (m w). Qed.

(** Handling a delivery loses no job: the job completed, or it is dead-lettered, or it
    waits for another attempt, unless Redis refuses a command of the recording. *)
Lemma handle_settles c d w : rand_ok -> handlers_ok -> redis_ok (w_redis w) -> held_ok (w_redis w) d ->
  let r := w_redis w in let r' := w_redis (handle wk c d w).2 in
  evo r r' /\ redis_ok r' /\
  forall s id, stored r s -> opened_id s = Some id -> utf8_valid id ->
    (exists s', stored r' s' /\ opened_id s' = Some id) \/ id ∈ dead_ids r' \/
    (completes c d w = true /\ id = Job_ID (Delivery_Job d)) \/
    (recording_refused c d w = true /\ id = Job_ID (Delivery_Job d)).
Proof.
  intros Hr Hh Hok Hd. cbv zeta.
  assert (Hfail : forall cause w1, safe q (w_redis w) (w_redis w1) ->
    let w' := ((attempt (Fail_ q c d cause) ;;; ret tt) w1).2 in let r' := w_redis w' in
    evo (w_redis w) r' /\ redis_ok r' /\
    forall s id, stored (w_redis w) s -> opened_id s = Some id -> utf8_valid id ->
      (exists s', stored r' s' /\ opened_id s' = Some id) \/ id ∈ dead_ids r' \/
      (refusals w1 w' = true /\ id = Job_ID (Delivery_Job d))).
  { intros cause w1 Hs. cbv zeta. rewrite attempt_world.
    destruct (Fail_settles c d cause w1 Hr) as (Hev & Hb & Hkeep);
      [by eapply safe_ok|by eapply held_evo; [apply Hs|]|].
    destruct Hs as (Hev0 & Hm & Hb0). split_and!.
    - by etrans.
    - eapply settled_ok; [exact Hev|done|]. by eapply safe_ok; [split_and!|].
    - intros s id Hst. apply Hkeep. by apply Hm. }
  unfold recording_refused, dispatched, completes, handle.
  destruct (Job_Type (Delivery_Job d) =?= "") eqn:Ht.
  { destruct (Hfail unreadable_error w) as (He & Hok' & Hk); [reflexivity|]. split_and!; [done|done|].
    intros s id H1' H2' H3'. destruct (Hk s id H1' H2' H3') as [|[|]]; auto. }
  destruct (handler_for wk (Job_Type (Delivery_Job d))) as [h|] eqn:Eh; cycle 1.
  { destruct (Hfail (no_handler_error (Job_Type (Delivery_Job d))) w) as (He & Hok' & Hk); [reflexivity|].
    split_and!; [done|done|]. intros s id H1' H2' H3'. destruct (Hk s id H1' H2' H3') as [|[|]]; auto. }
  pose proof (Hh _ _ c (Delivery_Job d) Eh w) as Hs.
  rewrite bind_attempt. destruct (h c (Delivery_Job d) w) as [[[]|e] w1]; cbn [fst snd] in *; cycle 1.
  { destruct (Hfail e w1 Hs) as (He & Hok' & Hk). split_and!; [done|done|].
    intros s id H1' H2' H3'. destruct (Hk s id H1' H2' H3') as [|[|]]; auto. }
  rewrite attempt_world. destruct (Ack_settles c d w1) as (Hev & Hb & Hkeep);
    [by eapply safe_ok|by eapply held_evo; [apply Hs|]|].
  split_and!.
  - etrans; [apply Hs|done].
  - eapply settled_ok; [exact Hev|done|]. by eapply safe_ok.
  - intros s id Hst Hid _. destruct Hs as (_ & Hm & _). destruct (Hkeep s id (Hm s Hst) Hid); auto.
Qed.

(** ** Claimed deliveries *)
Lemma claimed_held c (f : Redis -> reply (list (N * option string)) * Redis) w ds w' :
  (forall r, same_jobs r (f r).2) -> (forall r l, (f r).1 = Reply l -> l ⊆ rd_stream r) ->
  redis_ok (w_redis w) -> (r <- command c f ;; claimed q r) w = (Ok ds, w') ->
  Forall (held_ok (w_redis w')) ds.
Proof.
  intros Hsame Hin Hok E. apply bind_Ok in E as (r & w1 & Ec & E).
  apply command_reply in Ec as [[-> Hw1]|[[t ->] _]]; [|done].
  specialize (Hsame (w_redis w)). pose proof (safe_ok _ _ (same_jobs_safe q _ _ Hsame) Hok) as Hok1.
  destruct Hsame as (Hst & _). rewrite <- Hw1 in *.
  unfold claimed in E. destruct ((f (w_redis w)).1) as [l| |t] eqn:Ef; [| |done]; apply ret_Ok in E as [<- <-]; [|constructor].
  apply List.Forall_forall. intros d Hd%list_elem_of_In. apply list_elem_of_omap in Hd as ([id o] & He & Hd).
  destruct o as [s|]; [|done]. apply (delivery_ok _ id s); [done| |done].
  rewrite Hst. by apply (Hin _ _ Ef).
Qed.

(** ** Every step keeps the invariant and loses no job *)
Definition pool_good (p p' : Pool) : Prop :=
  pool_inv p' /\ forall id, utf8_valid id -> accounted p id -> accounted p' id.

Lemma settled_kept p w held done lost id : p_lost p ⊆ lost -> p_done p ⊆ done ->
  id ∈ p_done p \/ id ∈ p_dead p \/ id ∈ p_lost p -> accounted (pool_after w held done lost p) id.
Proof.
  intros Hl Hd [Hi|[Hi|Hi]]; right; [left; by apply Hd|right; left; cbn; apply elem_of_app; by left|right; right; by apply Hl].
Qed.
Lemma safe_good p w new : safe q (w_redis (p_world p)) (w_redis w) -> Forall (held_ok (w_redis w)) new ->
  pool_inv p -> pool_good p (pool_after w (p_held p ++ new) (p_done p) (p_lost p) p).
Proof.
  intros Hs Hnew [Hok Hh]. split; [split|]; cbn.
  - by eapply safe_ok.
  - apply Forall_app. split; [|done]. revert Hh. apply Forall_impl. intros d. by apply held_evo, Hs.
  - intros id _ [(s & Hst & Hid)|Hrest]; [left; exists s; split; [by apply Hs|done]|by apply settled_kept].
Qed.
Lemma safe_good_same p w : safe q (w_redis (p_world p)) (w_redis w) -> pool_inv p ->
  pool_good p (pool_after w (p_held p) (p_done p) (p_lost p) p).
Proof.
  intros Hs Hp. pose proof (safe_good p w [] Hs) as Hg. rewrite app_nil_r in Hg. apply Hg; [constructor|done].
Qed.
Lemma shrink_ok r held held' : held' ⊆ held -> Forall (held_ok r) held -> Forall (held_ok r) held'.
Proof.
  intros Hs. rewrite !List.Forall_forall. intros Hh d Hd%list_elem_of_In. apply Hh, list_elem_of_In. auto.
Qed.
Lemma promote_good p c limit : pool_inv p ->
  pool_good p (pool_after (PromoteDue q c limit (p_world p)).2 (p_held p) (p_done p)
    (if refusals (p_world p) (PromoteDue q c limit (p_world p)).2
     then omap opened_id (due_now limit (p_world p)) ++ p_lost p else p_lost p) p).
Proof.
  intros [Hok Hheld]. destruct (PromoteDue_run q c limit (p_world p)) as (Hev & Hb & Hk).
  set (w' := (PromoteDue q c limit (p_world p)).2) in *. split; [split|]; cbn.
  - eapply settled_ok; [exact Hev|intros s Hs; by apply Hok, Hb|done].
  - revert Hheld. apply Forall_impl. intros d. by apply held_evo.
  - intros id _ [(s & Hst & Hid)|Hrest].
    + destruct (Hk s Hst) as [Hs|[Hr Hdue]]; [left; by exists s|]. right. right. right. cbn. rewrite Hr.
      apply elem_of_app. left. apply list_elem_of_omap. by exists s.
    + apply settled_kept; [|done|done]. destruct (refusals _ _); [|done]. intros x Hx. apply elem_of_app. by right.
Qed.

Lemma pool_step_good may p p' : rand_ok -> queue_ok q -> handlers_ok -> pool_step may p p' -> pool_inv p -> pool_good p p'.
Proof.
  intros Hr Hq Hh Hs Hp. destruct Hs as [p c t pl d _|p c consumer n|p c consumer i n|p c limit|p c d held Hd Hsub|p held Hsub|p w Hw].
  - apply safe_good_same; [|done]. by apply enqueue_safe.
  - apply safe_good; [apply Read_safe| |done]. destruct (Read q c consumer n (p_world p)) as [[ds|e] w'] eqn:E; [|constructor].
    eapply claimed_held; [apply XREADGROUP_jobs|apply XREADGROUP_entries|apply Hp|exact E].
  - apply safe_good; [apply RecoverStale_safe| |done].
    destruct (RecoverStale q c consumer i n (p_world p)) as [[ds|e] w'] eqn:E; [|constructor].
    eapply claimed_held; [apply XAUTOCLAIM_jobs|apply XAUTOCLAIM_entries|apply Hp|exact E].
  - by apply promote_good.
  - destruct Hp as [Hok Hheld]. pose proof (proj1 (List.Forall_forall _ _) Hheld d (proj1 (list_elem_of_In _ _) Hd)) as Hdok.
    destruct (handle_settles c d (p_world p) Hr Hh Hok Hdok) as (Hev & Hok' & Hk). split; [split|]; cbn.
    + done.
    + apply (shrink_ok _ (p_held p)); [done|]. revert Hheld. apply Forall_impl. intros x. by apply held_evo.
    + intros id Hv [(s & Hst & Hid)|Hrest].
      * destruct (Hk s id Hst Hid Hv) as [Hk'|[Hk'|[[Hc ->]|[Hc ->]]]]; [by left|right; right; left|right; left|right; right; right]; cbn.
        -- apply elem_of_app. by right.
        -- rewrite Hc. by left.
        -- rewrite Hc. by left.
      * apply settled_kept; [| |done]; [destruct (recording_refused _ _ _)|destruct (completes _ _ _)]; intros x Hx; (done || by right).
  - destruct Hp as [Hok Hheld]. split; [split|]; cbn; [done|by eapply shrink_ok|].
    intros id _ [Hst|Hrest]; [by left|by apply settled_kept].
  - apply safe_good_same; [|done]. rewrite Hw. reflexivity.
Qed.
Lemma pool_steps may p p' : rand_ok -> queue_ok q -> handlers_ok -> rtc (pool_step may) p p' -> pool_inv p ->
  pool_good p p'.
Proof.
  intros Hr Hq Hh Hs. induction Hs as [p|p p1 p2 Hst _ IH]; intros Hp; [by split|].
  destruct (pool_step_good _ _ _ Hr Hq Hh Hst Hp) as [Hp1 Ha1]. destruct (IH Hp1) as [Hp2 Ha2].
  split; [done|auto].
Qed.
Lemma empty_inv p : w_redis (p_world p) = empty_Redis -> p_held p = [] -> pool_inv p.
Proof.
  intros He Hd. split; rewrite He; [|by rewrite Hd]. split.
  { split; [intros e Hin|intros e e' Hin]; cbn in Hin; by apply not_elem_of_nil in Hin. }
  intros x [[id Hx]|Hx]; cbn in Hx; by apply not_elem_of_nil in Hx.
Qed.
End pool.

(** No job is lost unless Redis refuses a command: whatever commands fail or lose their reply,
    whatever consumers crash and however their steps interleave, a job that waits in the queue
    stays there until its handler succeeded or it was put in the dead-letter stream, or until
    Redis answers a command of its recording or promotion with an error. *)
Theorem queue_accounts `{Env} `{AEADLaws} `{PlatformLaws} `{RedisLaws} (wk : Worker) p p' id :
  rand_ok -> queue_ok (wk_queue wk) -> handlers_ok wk -> pool_inv wk p -> rtc (pool_step wk (fun _ => True)) p p' ->
  utf8_valid id -> accounted wk p id -> accounted wk p' id.
Proof. intros Hr Hq Hh Hp Hs Hv. by apply (pool_steps wk (fun _ => True) p p'). Qed.

(** Attempts are bounded: in every state the pool can reach from an empty queue, a job
    that waits in the stream or in the retry set has been attempted fewer times than its
    maximum, so a job that keeps failing is dead-lettered after its last attempt. *)
Theorem attempts_bounded `{Env} `{AEADLaws} `{PlatformLaws} `{RedisLaws} (wk : Worker) p p' s j :
  rand_ok -> queue_ok (wk_queue wk) -> handlers_ok wk ->
  w_redis (p_world p) = empty_Redis -> p_held p = [] -> rtc (pool_step wk (fun _ => True)) p p' ->
  stored (w_redis (p_world p')) s -> open (wk_queue wk) s = Ok j ->
  (0 <= Job_Attempts j < Job_MaxAttempts j)%Z.
Proof.
  intros Hr Hq Hh He Hd Hs. destruct (pool_steps wk _ p p' Hr Hq Hh Hs) as [[[_ Hb] _] _].
  - by apply empty_inv.
  - intros Hst Ho. by apply (Hb s).
Qed.

(** ** Recording outcomes *)

(** Where a recorded failure leaves the job: in the dead-letter stream, or in the retry set,
    due one backoff after the clock was read. *)
Definition recorded (q : Queue) (job : Job) (cause : error) (since : nat) (sealed : string) (r' : Redis)
    `{Env} `{Platform} : Prop :=
  if exhausted job cause then sealed ∈ rd_dead r'
  else exists n b v, since <= n /\ (sealed, UnixMilli (env_now n + b)) ∈ rd_retry r' /\ (backoff q (Job_Attempts job) v).1 = Ok b.
(** A recorded failure: when [Fail] succeeds, the entry is gone from the stream, and the
    job, with one more attempt and the error's text, is in the dead-letter stream if the
    failure is permanent or the budget is used up, and otherwise in the retry set. *)
Theorem Fail_recorded `{Env} `{AEADLaws} `{PlatformLaws} `{RedisLaws} q c d cause w w' :
  rand_ok -> job_ints (Delivery_Job d) -> Fail_ q c d cause w = (Ok tt, w') ->
  let job := failed_job (Delivery_Job d) cause in
  (forall s, (Delivery_ID d, s) ∉ rd_stream (w_redis w')) /\
  exists sealed, open q sealed = Ok (clean_job job) /\ recorded q job cause (w_tick w) sealed (w_redis w').
Proof.
  intros Hr Hi E. cbv zeta. pose proof (Fail_commands q c d cause w Hr Hi) as Hc. rewrite E in Hc. cbn [fst snd] in Hc.
  destruct Hc as [[_ []]|(sealed & f & l & Ho & Hf & _ & Hl & [Hw|(_ & _ & [])])]; [done| |done].
  rewrite (Hl eq_refl) in Hw. cbn [run_commands fold_left] in Hw. rewrite Hw. set (id := Delivery_ID d) in *.
  destruct (XDEL_entry id (XACK id (f (w_redis w)))) as (Hs & Hrt & Hd & _).
  destruct (XACK_jobs id (f (w_redis w))) as (_ & Hrt' & Hd' & _). split.
  - intros s. rewrite Hs, list_elem_of_filter. intros [Hne _]. by apply Hne.
  - exists sealed. split; [done|]. unfold recorded. rewrite Hd, Hd', Hrt, Hrt'.
    destruct Hf as [[-> ->]|(n & b & -> & -> & Hn & v & Hv)]; [apply XADD_dead_entry|].
    exists n, b, v. split_and!; [done|apply ZADD_score|done].
Qed.

(** Once its context has ended, [Fail] and [Ack] change nothing in Redis. *)
Lemma Fail_ended `{Env} `{AEAD} `{Platform} `{RedisServer} q c d cause w :
  (forall n, w_tick w <= n -> exists e, c n = Some e) -> w_redis (Fail_ q c d cause w).2 = w_redis w.
Proof.
  intros Hc. unfold Fail_. set (job := failed_job _ _). unfold bind at 1.
  pose proof (rpres_seal eq q job w) as Hs. pose proof (ticks_seal q job w) as Ht.
  destruct (seal q job w) as [[sealed|e] w1]; cbn [snd] in *; [|done]. rewrite Hs.
  set (first := if exhausted job cause then _ else _).
  assert (Hf : w_redis w1 = w_redis (first w1).2 /\ w_tick w1 <= w_tick (first w1).2).
  { subst first. destruct (exhausted job cause); [split; reflexivity|].
    unfold bind, timeNow. cbn [fst snd]. pose proof (rpres_backoff eq q (Job_Attempts job) (next_tick w1)) as Hb.
    assert (Htb : w_tick (next_tick w1) <= w_tick (backoff q (Job_Attempts job) (next_tick w1)).2).
    { unfold backoff. case_match; [done|]. destruct (rand_Int _ _); cbn; lia. }
    destruct (backoff q _ _) as [[b|e] w2]; cbn in *; (split; [done|lia]). }
  clearbody first. unfold bind. destruct (first w1) as [[f|e] w2]; cbn [fst snd] in *; [|symmetry; apply Hf].
  destruct Hf as [Hf1 Hf2]. rewrite wrapf_snd. destruct (Hc (w_tick w2)) as [e He]; [lia|].
  by rewrite (pipeline_ended _ _ _ e He).
Qed.
Lemma Ack_ended `{RedisServer} c d w : (exists e, c (w_tick w) = Some e) -> w_redis (Ack c d w).2 = w_redis w.
Proof. intros [e He]. unfold Ack. by rewrite wrapf_snd, (pipeline_ended _ _ _ e He). Qed.

(** C34. A worker stops recording outcomes [ShutdownTimeout] after it started, although nobody
    asked it to shut down: the context that [Run] gives its jobs carries that deadline from
    the start.  From then on, whatever a handler did, the job is neither acknowledged nor
    retried nor dead-lettered, and stays pending. *)
Theorem late_outcome_lost `{Env} `{AEAD} `{Platform} `{RedisServer} (wk : Worker) w0 ctx w1 d h w :
  Run_start wk Background w0 = (Ok ctx, w1) ->
  (forall k n, k < w_tick w1 -> w_tick w <= n -> (env_now k + ShutdownTimeout (wk_opts wk) <= env_now n)%Z) ->
  handler_for wk (Job_Type (Delivery_Job d)) = Some h -> Job_Type (Delivery_Job d) <> "" ->
  ticks (h ctx (Delivery_Job d)) ->
  w_redis (handle wk ctx d w).2 = w_redis (h ctx (Delivery_Job d) w).2.
Proof.
  intros Hrun Hlate Hh Ht Hmono. unfold Run_start in Hrun.
  apply bind_Ok in Hrun as ([] & w2 & _ & Hrun). apply bind_Ok in Hrun as (now & w3 & Hn & Hrun).
  apply ret_Ok in Hrun as [<- <-]. apply timeNow_Ok in Hn as [-> ->].
  set (ctx := WithDeadline _) in *.
  assert (Hended : forall n, w_tick w <= n -> exists e, ctx n = Some e).
  { intros n Hn. exists DeadlineExceeded. unfold ctx, WithDeadline.
    specialize (Hlate (w_tick w2) n ltac:(cbn; lia) Hn). by apply Z.leb_le in Hlate as ->. }
  clearbody ctx. unfold handle. rewrite (proj2 (beq_false _ _) Ht), Hh, bind_attempt.
  specialize (Hmono w). destruct (h ctx (Delivery_Job d) w) as [[[]|e] w2']; cbn [fst snd] in *; rewrite attempt_world.
  - apply Ack_ended, Hended. lia.
  - apply Fail_ended. intros n Hn. apply Hended. lia.
Qed.

(** The range of a retry delay. *)
Lemma backoff_range `{Env} `{PlatformLaws} q n w : queue_ok q -> (q_maxDelay q <= 2 ^ 62)%Z ->
  exists d, (backoff q n w).1 = Ok d /\ (0 < d <= q_maxDelay q + q_maxDelay q / 2)%Z /\
    let full := (q_baseDelay q * 2 ^ Z.min (Z.max n 1 - 1) 32)%Z in
    ((q_baseDelay q < 2 ^ 53)%Z -> (full < 2 ^ 63)%Z -> (Z.min full (q_maxDelay q) <= d)%Z).
Proof.
  intros (_ & Hb & _) Hm. unfold backoff. cbv zeta.
  replace (if Z.ltb n 1 then 1%Z else n) with (Z.max n 1) by (destruct (Z.ltb_spec n 1); lia).
  set (shift := Z.min (Z.max n 1 - 1) 32). set (full := (q_baseDelay q * 2 ^ shift)%Z).
  set (raw := int64_of_float _).
  assert (Hraw : (q_baseDelay q < 2 ^ 53)%Z -> (full < 2 ^ 63)%Z -> raw = full).
  { intros H53 H63. unfold raw, int64_of_float, float64_of_int, int64_range.
    assert (0 <= full)%Z by (unfold full; nia).
    replace (Z.ltb (Z.abs (q_baseDelay q)) (2 ^ 53)) with true by (symmetry; apply Z.ltb_lt; lia).
    fold full. replace (Z.leb (- 2 ^ 63) full && Z.ltb full (2 ^ 63))%bool with true; [done|].
    symmetry. apply andb_true_iff. rewrite Z.leb_le, Z.ltb_lt. lia. }
  clearbody raw. set (delay := if (_ || _)%bool then _ else raw).
  assert (Hd : (0 < delay <= q_maxDelay q)%Z).
  { subst delay. destruct (Z.ltb_spec (q_maxDelay q) raw); simpl; [lia|]. destruct (Z.leb_spec raw 0); lia. }
  assert (Hlow : (q_baseDelay q < 2 ^ 53)%Z -> (full < 2 ^ 63)%Z -> (Z.min full (q_maxDelay q) <= delay)%Z).
  { intros H53 H63. subst delay. rewrite (Hraw H53 H63).
    destruct (Z.ltb_spec (q_maxDelay q) full); simpl; [lia|].
    assert (0 < 2 ^ shift)%Z by (apply Z.pow_pos_nonneg; unfold shift; lia).
    assert (0 < full)%Z by (unfold full; nia). destruct (Z.leb_spec full 0); lia. }
  clearbody delay. assert (Hh : (delay / 2 <= q_maxDelay q / 2)%Z) by (apply Z.div_le_mono; lia).
  assert (0 <= q_maxDelay q / 2)%Z by (apply Z.div_pos; lia).
  destruct (Z.leb_spec (delay / 2) 0); [exists delay; split_and!; [done|lia|lia|auto]|].
  destruct (rand_Int (w_tick w) (delay / 2)) as [x|] eqn:Ex; cbn [fst].
  - apply rand_Int_range in Ex; [|done]. assert (q_maxDelay q / 2 <= 2 ^ 61)%Z by (apply Z.div_le_upper_bound; lia).
    exists (delay + x)%Z. rewrite wrap64_id by lia. split_and!; [done|lia|lia|]. intros H53 H63.
    specialize (Hlow H53 H63). lia.
  - exists delay. split_and!; [done|lia|lia|auto].
Qed.
(** C33. The delay before a retry: [backoff] always returns a positive delay of at most one and a
    half times the configured maximum; as long as the doubled base delay is exact and fits
    in 64 bits, it is at least the smaller of that and the maximum. *)
Theorem backoff_bounds `{Env} `{PlatformLaws} q n w : queue_ok q -> (q_maxDelay q <= 2 ^ 62)%Z ->
  exists d, (backoff q n w).1 = Ok d /\ (0 < d <= q_maxDelay q + q_maxDelay q / 2)%Z /\
    let full := (q_baseDelay q * 2 ^ Z.min (Z.max n 1 - 1) 32)%Z in
    ((q_baseDelay q < 2 ^ 53)%Z -> (full < 2 ^ 63)%Z -> (Z.min full (q_maxDelay q) <= d)%Z).
Proof. apply backoff_range. Qed.

(** ** Witnesses *)
#[local] Existing Instances demo demo_aead demo_platform demo_redis.
Definition demo_queue : Queue :=
  {| q_key := [1%N]; q_maxAttempts := 2; q_baseDelay := 30 * Second; q_maxDelay := Hour |}.
Definition demo_options : WorkerOptions :=
  {| Concurrency := 1; BlockTimeout := 0; StaleAfter := 0; ShutdownTimeout := 1000;
     ConsumerName := "w"; PromoteInterval := 0 |}.
Definition demo_worker : Worker :=
  Register "bad" (fun _ _ => fail (ErrorsNew "boom")) (Register "ok" (fun _ _ => ret tt)
    (NewWorker demo_queue demo_options "host-1")).
Lemma demo_rand_ok : @rand_ok demo.
Proof.
  intros t n b [= <-]. split; [apply repeat_length|]. apply List.Forall_forall. intros x Hx.
  apply repeat_spec in Hx as ->. by apply N.mod_lt.
Qed.
Lemma demo_queue_ok : queue_ok demo_queue.
Proof. unfold queue_ok, demo_queue, Hour, Minute, Second. cbn. lia. Qed.
Lemma demo_handlers_ok : handlers_ok demo_worker.
Proof.
  intros t h c j Hh. unfold handler_for, demo_worker, Register, NewWorker in Hh. cbn [wk_handlers] in Hh.
  apply lookup_insert_Some in Hh as [[_ <-]|[_ Hh]]; [intros w; reflexivity|].
  apply lookup_insert_Some in Hh as [[_ <-]|[_ Hh]]; [intros w; reflexivity|].
  by rewrite lookup_empty in Hh.
Qed.
Definition demo_pool0 : Pool :=
  {| p_world := demo_world demo_DB; p_held := []; p_done := []; p_dead := []; p_lost := [] |}.
(** A job is enqueued, read and handled. *)
Definition demo_id : string := "00000000-0000-4000-8000-1000".
Definition demo_step (m : M unit) (held : list Delivery) (p : Pool) : Pool :=
  pool_after demo_worker (m (p_world p)).2 held (p_done p) (p_lost p) p.
Definition demo_enqueue : M Job := enqueue demo_queue Background "bad" None 0.
Definition demo_read : M (list Delivery) := Read demo_queue Background "w-0" 1.
Definition demo_pool1 : Pool :=
  pool_after demo_worker (demo_enqueue (p_world demo_pool0)).2 [] [] [] demo_pool0.
Definition demo_held : list Delivery := held_of (demo_read (p_world demo_pool1)).1.

Lemma demo_pool1_inv : pool_inv demo_worker demo_pool1.
Proof.
  refine (proj1 (pool_steps demo_worker (fun _ => True) demo_pool0 demo_pool1 demo_rand_ok demo_queue_ok demo_handlers_ok _ _)).
  - eapply rtc_once. exact (step_enqueue demo_worker (fun _ => True) demo_pool0 Background "bad" None 0 I).
  - by apply empty_inv.
Qed.
(** The job fails once: it is read, handled by the failing handler, and still accounted
    for. *)
Definition demo_pool2 : Pool :=
  pool_after demo_worker (demo_read (p_world demo_pool1)).2 demo_held [] [] demo_pool1.
Definition demo_delivery : Delivery :=
  {| Delivery_ID := 1; Delivery_Job := {| Job_ID := demo_id; Job_Type := "bad"; Job_Payload := None;
       Job_Attempts := 0; Job_MaxAttempts := 2; Job_EnqueuedAt := 1000001; Job_LastError := "" |} |}.
Definition demo_pool3 : Pool :=
  pool_after demo_worker
    (handle demo_worker Background demo_delivery (p_world demo_pool2)).2
    [] [] [] demo_pool2.
Lemma demo_run : rtc (pool_step demo_worker (fun _ => True)) demo_pool1 demo_pool3.
Proof.
  eapply rtc_l; [exact (step_read demo_worker _ demo_pool1 Background "w-0" 1)|].
  eapply rtc_once. change demo_pool3 with (pool_after demo_worker
    (handle demo_worker Background demo_delivery (p_world demo_pool2)).2
    [] (if completes demo_worker Background demo_delivery (p_world demo_pool2)
        then Job_ID (Delivery_Job demo_delivery) :: p_done demo_pool2 else p_done demo_pool2)
    (if recording_refused demo_worker Background demo_delivery (p_world demo_pool2)
        then Job_ID (Delivery_Job demo_delivery) :: p_lost demo_pool2 else p_lost demo_pool2) demo_pool2).
  apply (step_handle demo_worker _ demo_pool2 Background demo_delivery []).
  - vm_compute. left.
  - intros x Hx. by apply not_elem_of_nil in Hx.
Qed.
Lemma queue_accounts_witness : accounted demo_worker demo_pool3 demo_id.
Proof.
  apply (queue_accounts demo_worker demo_pool1 demo_pool3 demo_id).
  - exact demo_rand_ok.
  - exact demo_queue_ok.
  - exact demo_handlers_ok.
  - exact demo_pool1_inv.
  - exact demo_run.
  - vm_compute. reflexivity.
  - left. eexists. split; [left; exists 1%N; vm_compute; left|vm_compute; reflexivity].
Defined.
Lemma attempts_bounded_witness :
  exists s j, stored (w_redis (p_world demo_pool3)) s /\ open demo_queue s = Ok j /\
    (0 <= Job_Attempts j < Job_MaxAttempts j)%Z.
Proof.
  eexists _, _. split; [right; vm_compute; left|]. split; [vm_compute; reflexivity|].
  eapply (attempts_bounded demo_worker demo_pool0 demo_pool3 _ _ demo_rand_ok demo_queue_ok demo_handlers_ok);
    [reflexivity|reflexivity| |right; vm_compute; left|vm_compute; reflexivity].
  eapply rtc_l; [exact (step_enqueue demo_worker (fun _ => True) demo_pool0 Background "bad" None 0 I)|]. exact demo_run.
Defined.
(** An environment whose clock has advanced by a second at the hundredth effect. *)
Definition demo_late : Env := {|
  env_now n := if (n <? 100)%nat then Z.of_nat n else (Second + Z.of_nat n)%Z;
  env_uuid := @env_uuid demo; env_rand := @env_rand demo; env_fault := @env_fault demo;
  bypass_rls := false; citext_fold := @citext_fold demo; text_cmp := @text_cmp demo;
  uuid_String := @uuid_String demo; uuid_Parse := @uuid_Parse demo; unicode_ToLower := @unicode_ToLower demo;
  unicode_IsLetter := @unicode_IsLetter demo; unicode_IsDigit := @unicode_IsDigit demo;
  mail_ParseAddress_ok := @mail_ParseAddress_ok demo; inet_ok := @inet_ok demo;
  sha256_Sum256 := @sha256_Sum256 demo;
  bcrypt_GenerateFromPassword := @bcrypt_GenerateFromPassword demo;
  bcrypt_CompareHashAndPassword := @bcrypt_CompareHashAndPassword demo;
  jwt_SignedString := @jwt_SignedString demo
|}.
Definition at_tick (n : nat) (w : World) : World :=
  {| w_db := w_db w; w_tick := n; w_tx := w_tx w; w_mail := w_mail w; w_redis := w_redis w |}.
Lemma late_outcome_lost_witness :
  exists ctx w1, @Run_start demo_late demo_redis demo_worker Background (demo_world demo_DB) = (Ok ctx, w1) /\
  let d := {| Delivery_ID := 1; Delivery_Job := {| Job_ID := demo_id; Job_Type := "ok"; Job_Payload := None;
       Job_Attempts := 0; Job_MaxAttempts := 2; Job_EnqueuedAt := 1000001; Job_LastError := "" |} |} in
  let w := at_tick 100 (p_world demo_pool2) in
  w_redis (@handle demo_late demo_aead demo_platform demo_redis demo_worker ctx d w).2 = w_redis w.
Proof.
  destruct (@Run_start demo_late demo_redis demo_worker Background (demo_world demo_DB)) as [[ctx|e] w1] eqn:E.
  - exists ctx, w1. split; [reflexivity|]. cbv zeta.
    refine (late_outcome_lost demo_worker _ ctx w1 _ (fun _ _ => ret tt) _ E _ _ _ _).
    + assert (Ht : w_tick w1 = 3%nat) by (change w1 with (Ok ctx, w1).2; rewrite <- E; reflexivity).
      rewrite Ht. cbn [w_tick at_tick]. intros k n Hk Hn. cbn [env_now demo_late].
      destruct (Nat.ltb_spec k 100); [|lia]. destruct (Nat.ltb_spec n 100); [lia|].
      change (ShutdownTimeout _) with 1000%Z. unfold Second. lia.
    + reflexivity.
    + discriminate.
    + intros w. reflexivity.
  - pose proof (f_equal fst E) as E1. discriminate E1.
Defined.
Lemma backoff_bounds_witness :
  exists d, (backoff demo_queue 3 (demo_world demo_DB)).1 = Ok d /\ (120 * Second <= d <= 5400 * Second)%Z.
Proof.
  destruct (backoff_bounds demo_queue 3 (demo_world demo_DB) demo_queue_ok) as (d & E & Hd & Hl).
  - vm_compute. discriminate.
  - exists d. split; [exact E|]. split.
    + apply Hl; vm_compute; reflexivity.
    + etrans; [apply Hd|]. vm_compute. discriminate.
Defined.
