(* ===== verification/WorkerLife.v ===== *)
(** * Progress of the job queue

    What the pool does when nothing outside it fails: every delivery it handles leaves the
    stream, and a failed one is scheduled once more or dead-lettered, as its handler's own
    error and its counter say; and what bounds the life of a job that keeps failing: each job
    that the retry set received for it has one attempt more.  And what it takes to lose a job:
    one command of the recording that the server refuses. *)
From S2P Require Import Prelude.
From S2P Require Import GoError.
From S2P Require Import Schema.
From S2P Require Import Store.
From S2P Require Import Logic.
From S2P Require Import GoStrings.
From S2P Require Import Utf8.
From S2P Require Import Json.
From S2P Require Import JsonDecode.
From S2P Require Import Jobs.
From S2P Require Import QueueFacts.
From S2P Require Import Worker.
From S2P Require Import Demo.
From S2P Require Import QueueDemo.
Local Open Scope string_scope.

(** Nothing outside the program fails: the context is live, Redis answers and refuses no
    command, the entropy source delivers. *)
Definition up `{Env} `{RedisServer} (c : Ctx) : Prop :=
  (forall n, c n = None) /\ (forall n, redis_fault n = None) /\ (forall n, redis_refused n = None) /\
  (forall n k, exists b, env_rand n k = Some b).

Section progress.
Context `{Env} `{AEADLaws} `{PlatformLaws} `{RedisLaws}.

Lemma pipeline_up c fs w : up c -> (pipeline c fs w).1 = Ok tt.
Proof.
  intros (Hc & Hf & Hn & _). unfold pipeline, bind, ctx_check. rewrite Hc. revert w.
  induction fs as [|f fs IH]; intros w; [cbn; unfold received; by rewrite Hf|]. by rewrite exec_cons, Hf, Hn.
Qed.
Lemma seal_up q c j w : up c -> is_Some (time_MarshalText (Job_EnqueuedAt j)) -> exists s w', seal q j w = (Ok s, w').
Proof.
  intros (_ & _ & _ & Hr) [t Ht]. unfold seal, job_json. rewrite Ht. cbn [mbind option_bind]. unfold bind, randRead.
  destruct (Hr (w_tick w) aead_NonceSize) as [b ->]. by eexists _, _.
Qed.
Lemma backoff_up q n w : exists b w', backoff q n w = (Ok b, w').
Proof. unfold backoff. case_match; [by eexists _, _|]. destruct (rand_Int _ _); by eexists _, _. Qed.
Lemma Fail_up q c d cause w : up c -> is_Some (time_MarshalText (Job_EnqueuedAt (Delivery_Job d))) ->
  exists w', Fail_ q c d cause w = (Ok tt, w').
Proof.
  intros Hup Ht. unfold Fail_. unfold bind at 1.
  destruct (seal_up q c (failed_job (Delivery_Job d) cause) w Hup Ht) as (s & w1 & ->).
  unfold bind at 1. set (first := if exhausted _ _ then _ else _).
  assert (Hfirst : exists f w2, first w1 = (Ok f, w2)).
  { subst first. destruct (exhausted _ _); [by eexists _, _|]. unfold bind, timeNow.
    destruct (backoff_up q (Job_Attempts (failed_job (Delivery_Job d) cause)) (next_tick w1)) as (b & w2 & ->). by eexists _, _. }
  destruct Hfirst as (f & w2 & ->). unfold wrapf, map_err. pose proof (pipeline_up c [f; XACK (Delivery_ID d); XDEL (Delivery_ID d)] w2 Hup) as Hp.
  destruct (pipeline c _ w2) as [r w3]. cbn in Hp. subst r. by eexists.
Qed.
Lemma Ack_up c d w : up c -> let r' := w_redis (Ack c d w).2 in
  (forall s, (Delivery_ID d, s) ∉ rd_stream r') /\ rd_retry r' = rd_retry (w_redis w) /\ rd_dead r' = rd_dead (w_redis w).
Proof.
  intros Hup. unfold Ack. rewrite wrapf_snd.
  destruct (pipeline_runs c [XACK (Delivery_ID d); XDEL (Delivery_ID d)] w) as (l & Hl & -> & Hk & _).
  specialize (Hk (pipeline_up c _ w Hup)) as ->.
  destruct (finish_commands (Delivery_ID d) (w_redis w) _ Hl) as (_ & _ & Hd & Hr). split_and!; [|done|done].
  cbn [run_commands fold_left]. destruct (XDEL_entry (Delivery_ID d) (XACK (Delivery_ID d) (w_redis w))) as (-> & _).
  intros s. rewrite list_elem_of_filter. by intros [Hne _].
Qed.

(** ** What becomes of a delivery *)

(** [j'] is [j] after one more attempt, which failed with [text]: a job read back from the
    queue has its texts made valid UTF-8. *)
Definition attempted_again (j : Job) (text : string) (j' : Job) : Prop :=
  Job_ID j' = utf8_clean (Job_ID j) /\ Job_Type j' = utf8_clean (Job_Type j) /\
  Job_Payload j' = clean_json <$> Job_Payload j /\ Job_EnqueuedAt j' = Job_EnqueuedAt j /\
  Job_MaxAttempts j' = Job_MaxAttempts j /\ Job_Attempts j' = (Job_Attempts j + 1)%Z /\
  Job_LastError j' = utf8_clean (String.substring 0 500 text).
(** Such a job lies in the dead-letter stream; or waits in the retry set, due a positive and
    bounded time after the clock was read at or after [since]. *)
Definition dead_lettered (q : Queue) (j : Job) (text : string) (r' : Redis) : Prop :=
  exists sealed j', sealed ∈ rd_dead r' /\ open q sealed = Ok j' /\ attempted_again j text j'.
Definition waits (q : Queue) (j : Job) (text : string) (since : nat) (r' : Redis) : Prop :=
  exists sealed j' n b, (sealed, UnixMilli (env_now n + b)) ∈ rd_retry r' /\ since <= n /\
    (0 < b <= q_maxDelay q + q_maxDelay q / 2)%Z /\ open q sealed = Ok j' /\ attempted_again j text j'.
(** The failure is final. *)
Definition final (j : Job) (e : error) : Prop := marked e \/ (Job_MaxAttempts j <= Job_Attempts j + 1)%Z.

Lemma substring_all s n : String.length s <= n -> String.substring 0 n s = s.
Proof.
  revert n. induction s as [|a s IH]; intros [|n] Hn; simpl in *; [done|done|lia|]. f_equal. apply IH. lia.
Qed.
Lemma truncate_substring s : truncate s maxErrorLength = String.substring 0 500 s.
Proof.
  unfold truncate, maxErrorLength, len. destruct (Z.leb_spec (Z.of_nat (String.length s)) 500); [|done].
  symmetry. apply substring_all. lia.
Qed.
Definition counting (j : Job) : Prop := job_ints j /\ (0 <= Job_Attempts j < 2 ^ 63 - 1)%Z.
Lemma failed_attempted j e : counting j -> attempted_again j (Error e) (clean_job (failed_job j e)).
Proof.
  intros [_ Ha]. unfold attempted_again. cbn. rewrite wrap64_id by lia. rewrite truncate_substring. by split_and!.
Qed.
Lemma exhausted_final j e : counting j -> exhausted (failed_job j e) e = true <-> final j e.
Proof.
  intros [_ Ha]. unfold exhausted, final. rewrite <- IsPermanent_spec. cbn. rewrite wrap64_id by lia.
  rewrite !orb_true_iff, !Z.leb_le. split; [intros [[|]|]; [by left|right; lia|right; lia]|intros [|]; [by left; left|by right]].
Qed.
(** [Fail] while nothing outside fails. *)
Lemma Fail_settled q c d e w : rand_ok -> up c -> queue_ok q -> (q_maxDelay q <= 2 ^ 62)%Z -> counting (Delivery_Job d) ->
  is_Some (time_MarshalText (Job_EnqueuedAt (Delivery_Job d))) ->
  let r' := w_redis (Fail_ q c d e w).2 in
  (forall s, (Delivery_ID d, s) ∉ rd_stream r') /\
  (final (Delivery_Job d) e -> dead_lettered q (Delivery_Job d) (Error e) r') /\
  (~ final (Delivery_Job d) e -> waits q (Delivery_Job d) (Error e) (w_tick w) r').
Proof.
  intros Hr Hup Hq Hmax Hc Ht. cbv zeta. destruct (Fail_up q c d e w Hup Ht) as [w' E]. rewrite E. cbn [snd].
  destruct (Fail_recorded q c d e w w' Hr (proj1 Hc) E) as (Hs & sealed & Ho & Hx). split; [done|].
  unfold recorded in Hx. rewrite <- (exhausted_final _ _ Hc). pose proof (failed_attempted _ e Hc) as Hf.
  destruct (exhausted _ _); [split; [intros _|intros Hn; by destruct Hn]|split; [done|intros _]].
  - by exists sealed, (clean_job (failed_job (Delivery_Job d) e)).
  - destruct Hx as (n & b & v & Hn' & Hin & Hb).
    destruct (backoff_range q (Job_Attempts (failed_job (Delivery_Job d) e)) v Hq Hmax) as (b' & Hb' & Hrange & _).
    rewrite Hb in Hb'. injection Hb' as <-. by exists sealed, (clean_job (failed_job (Delivery_Job d) e)), n, b.
Qed.

(** A final failure that was recorded takes the entry and adds nothing that waits. *)
Lemma Fail_final q c d e w w' : rand_ok -> counting (Delivery_Job d) -> final (Delivery_Job d) e ->
  Fail_ q c d e w = (Ok tt, w') ->
  rd_stream (w_redis w') = filter (fun x => x.1 <> Delivery_ID d) (rd_stream (w_redis w)) /\
  rd_retry (w_redis w') = rd_retry (w_redis w).
Proof.
  intros Hr Hc Hf%exhausted_final E; [|done]. pose proof (Fail_commands q c d e w Hr (proj1 Hc)) as Hk. rewrite E in Hk.
  cbn [fst snd] in Hk. destruct Hk as [[_ []]|(s & f & l & _ & Hrec & _ & Hl & [Hw|(_ & _ & [])])]; [done| |done].
  rewrite (Hl eq_refl) in Hw. cbn [run_commands fold_left] in Hw. rewrite Hw.
  destruct Hrec as [[-> _]|(n & b & _ & Hx & _)]; [|congruence].
  destruct (XADD_dead_entry s (w_redis w)) as (_ & Hs1 & Hr1 & _).
  destruct (XACK_jobs (Delivery_ID d) (XADD_dead s (w_redis w))) as (Hs2 & Hr2 & _).
  destruct (XDEL_entry (Delivery_ID d) (XACK (Delivery_ID d) (XADD_dead s (w_redis w)))) as (Hs3 & Hr3 & _).
  split; [by rewrite Hs3, Hs2, Hs1|congruence].
Qed.

(** C20. A delivery that is handled while nothing outside fails is settled, by its own outcome.
    Its entry leaves the stream.  An unreadable job and one whose type has no handler are
    dead-lettered.  If the handler returns an error, the job, with exactly one more attempt and
    the first 500 bytes of that error, is dead-lettered when that error was marked permanent or
    no attempt is left, and otherwise waits in the retry set for a positive delay of at most
    one and a half times the configured maximum.  If the handler succeeds, nothing is added to
    the retry set or the dead-letter stream. *)
Theorem handle_progress wk c d w : rand_ok -> up c -> queue_ok (wk_queue wk) -> (q_maxDelay (wk_queue wk) <= 2 ^ 62)%Z ->
  counting (Delivery_Job d) -> is_Some (time_MarshalText (Job_EnqueuedAt (Delivery_Job d))) ->
  let j := Delivery_Job d in let q := wk_queue wk in let r' := w_redis (handle wk c d w).2 in
  (forall s, (Delivery_ID d, s) ∉ rd_stream r') /\
  (Job_Type j = "" -> dead_lettered q j "job payload is unreadable" r') /\
  (Job_Type j <> "" -> handler_for wk (Job_Type j) = None ->
     dead_lettered q j ("no handler for " +:+ strconv_Quote (Job_Type j)) r') /\
  (forall h, Job_Type j <> "" -> handler_for wk (Job_Type j) = Some h ->
     match h c j w with
     | (Err e, w1) => (final j e -> dead_lettered q j (Error e) r') /\ (~ final j e -> waits q j (Error e) (w_tick w1) r')
     | (Ok _, w1) => rd_retry r' = rd_retry (w_redis w1) /\ rd_dead r' = rd_dead (w_redis w1)
     end).
Proof.
  intros Hr Hup Hq Hmax Hc Ht j q r'.
  assert (Hend : forall e v, let r' := w_redis ((attempt (Fail_ q c d e) ;;; ret tt) v).2 in
    (forall s, (Delivery_ID d, s) ∉ rd_stream r') /\ (final j e -> dead_lettered q j (Error e) r') /\
    (~ final j e -> waits q j (Error e) (w_tick v) r')).
  { intros e v. cbv zeta. rewrite attempt_world. by apply Fail_settled. }
  assert (Hperm : forall e, final j (PermanentError e)) by (intros e; left; constructor).
  subst r'. unfold handle. fold j q.
  destruct (beq_spec_dec (Job_Type j) "") as [[-> Hty]|[-> Hty]].
  { destruct (Hend unreadable_error w) as (Hs & Hd & _).
    split_and!; [done|intros _; exact (Hd (Hperm _))|done|done]. }
  destruct (handler_for wk (Job_Type j)) as [h|] eqn:Eh; cycle 1.
  { destruct (Hend (no_handler_error (Job_Type j)) w) as (Hs & Hd & _).
    split_and!; [done|done|intros _ _; exact (Hd (Hperm _))|done]. }
  rewrite bind_attempt. destruct (h c j w) as [[[]|e] w1] eqn:Ew; cbn [fst snd].
  - rewrite attempt_world. destruct (Ack_up c d w1 Hup) as (Hs & Hret & Hdd).
    split_and!; [done|done|done|]. intros h' _ [= <-]. rewrite Ew. by split.
  - destruct (Hend e w1) as (Hs & Hd & Hw). split_and!; [done|done|done|]. intros h' _ [= <-]. rewrite Ew. by split.
Qed.

(** ** A refused recording

    The same server, except that it refuses the command sent at the [k]-th effect. *)
Definition refusing (k : nat) (text : string) (S : RedisServer) : RedisServer := {|
  redis_fault := @redis_fault S;
  redis_refused n := if (n =? k)%nat then Some text else @redis_refused S n;
  XGROUP_CREATE := @XGROUP_CREATE S; XADD := @XADD S; XADD_dead := @XADD_dead S; XREADGROUP := @XREADGROUP S;
  XAUTOCLAIM := @XAUTOCLAIM S; XACK := @XACK S; XDEL := @XDEL S; ZADD := @ZADD S; ZREM := @ZREM S;
  ZRANGEBYSCORE := @ZRANGEBYSCORE S
|}.
(** C21. [Fail] loses jobs when Redis refuses a write: its pipeline is no transaction, so whatever
    the delivery and the failure, there is a command (the one that records the failed job) such
    that, if the server answers just that one with an error, [Fail] reports the error, which the
    worker logs, but the entry is acknowledged and deleted, and neither the retry set nor the
    dead-letter stream has got the job. *)
Theorem refused_recording_loses q c d e w : up c -> is_Some (time_MarshalText (Job_EnqueuedAt (Delivery_Job d))) ->
  exists k, forall text, let (res, w') := @Fail_ _ _ _ (refusing k text _) q c d e w in
    res = Err (Errorf "jobs: record job failure" (ErrorsNew text)) /\
    rd_stream (w_redis w') = filter (fun x => x.1 <> Delivery_ID d) (rd_stream (w_redis w)) /\
    rd_retry (w_redis w') = rd_retry (w_redis w) /\ rd_dead (w_redis w') = rd_dead (w_redis w).
Proof.
  intros Hup Ht. pose proof Hup as (Hc & Hf & Hn & _).
  destruct (seal_up q c (failed_job (Delivery_Job d) e) w Hup Ht) as (s & w1 & Es).
  pose proof (rpres_seal eq q (failed_job (Delivery_Job d) e) w) as Hw1. rewrite Es in Hw1. cbn in Hw1.
  set (job := failed_job (Delivery_Job d) e) in *.
  assert (Hfirst : exists w2, w_redis w2 = w_redis w1 /\ forall S : RedisServer, exists f,
    (if exhausted job e then ret (@XADD_dead S s) else
     now <- timeNow ;; b <- backoff q (Job_Attempts job) ;; ret (@ZADD S (UnixMilli (now + b)) s)) w1 = (Ok f, w2)).
  { destruct (exhausted job e); [exists w1; split; [done|intros S; by eexists]|].
    destruct (backoff_up q (Job_Attempts job) (next_tick w1)) as (b & w2 & Eb). exists w2. split.
    - pose proof (rpres_backoff eq q (Job_Attempts job) (next_tick w1)) as Hb. rewrite Eb in Hb. cbn in Hb. congruence.
    - intros S. eexists. unfold bind, timeNow. by rewrite Eb. }
  destruct Hfirst as (w2 & Hw2 & Hfirst).
  destruct (XACK_jobs (Delivery_ID d) (w_redis w2)) as (Ha1 & Ha2 & Ha3 & _).
  destruct (XDEL_entry (Delivery_ID d) (XACK (Delivery_ID d) (w_redis w2))) as (Hd1 & Hd2 & Hd3 & _).
  exists (w_tick w2). intros text.
  set (S' := refusing (w_tick w2) text _). destruct (Hfirst S') as [f Ef].
  assert (Hr : forall n, n <> w_tick w2 -> @redis_refused S' n = None).
  { intros n Hne. cbn. apply Nat.eqb_neq in Hne. by rewrite Hne. }
  unfold Fail_. fold job. unfold bind at 1. rewrite Es. unfold bind at 1. rewrite Ef.
  unfold wrapf, map_err, pipeline. unfold bind, ctx_check. rewrite Hc.
  assert (Hfa : forall n, @redis_fault S' n = None) by exact Hf.
  rewrite (@exec_cons S'), Hfa. replace (@redis_refused S' (w_tick w2)) with (Some text)
    by (cbn; by rewrite Nat.eqb_refl).
  rewrite !(@exec_cons S'), !Hfa, !Hr by (cbn; lia). cbn [exec]. unfold received. rewrite !Hfa. cbn.
  assert (Hsame : w_redis w2 = w_redis w) by congruence. rewrite Hsame in *. split_and!; [done| | |].
  - etrans; [exact Hd1|]. by rewrite Ha1.
  - exact (eq_trans Hd2 Ha2).
  - exact (eq_trans Hd3 Ha3).
Qed.

(** ** Retries *)

(** [j'] is what a later attempt finds of [j] after [Fail]: the job some payload opens to that
    [Fail] put into the retry set, whether or not it could report that. *)
Definition retried (q : Queue) (j j' : Job) : Prop := exists c d cause w sealed,
  Delivery_Job d = j /\ sealed ∉ members (w_redis w) /\
  sealed ∈ members (w_redis (Fail_ q c d cause w).2) /\ open q sealed = Ok j'.
Definition attemptable (j : Job) : Prop := job_ints j /\ (budget j \/ (Job_MaxAttempts j <= 0)%Z).
Lemma retried_step q j j' : rand_ok -> attemptable j -> retried q j j' ->
  attemptable j' /\ budget j /\ Job_MaxAttempts j' = Job_MaxAttempts j /\ Job_Attempts j' = (Job_Attempts j + 1)%Z /\ budget j'.
Proof.
  intros Hr [Hi Hb] (c & d & cause & w & sealed & <- & Hout & Hin & Ho).
  assert (Hj : j' = clean_job (failed_job (Delivery_Job d) cause) /\
    exhausted (failed_job (Delivery_Job d) cause) cause = false).
  { destruct (Fail_commands q c d cause w Hr Hi) as [[Hw _]|(x & f & l & Hx & Hf & Hl & _ & [Hw|(Hw & _)])];
      rewrite Hw in Hin; [done| |]; unfold members in *;
      rewrite (proj2 (proj2 (proj2 (finish_commands _ _ l Hl)))) in Hin; [|done].
    destruct Hf as [[-> _]|(n & b & -> & Hex & _)].
    - destruct (XADD_dead_entry x (w_redis w)) as (_ & _ & Hrt & _). by rewrite Hrt in Hin.
    - destruct (ZADD_member (UnixMilli (env_now n + b)) x (w_redis w)) as [Hm _].
      apply Hm in Hin as [->|]; [|done]. split; [congruence|done]. }
  destruct Hj as [-> He].
  assert (Hbj : budget (Delivery_Job d)). { destruct Hb as [|Hm]; [done|]. unfold exhausted in He. bool_hyps. cbn in *. lia. }
  pose proof (failed_budget _ cause Hi Hb He) as Hb'. unfold budget in Hbj.
  assert (Hw : Job_Attempts (clean_job (failed_job (Delivery_Job d) cause)) = (Job_Attempts (Delivery_Job d) + 1)%Z).
  { cbn. apply wrap64_id. destruct Hi as [_ Hm]. unfold int64_range in Hm. bool_hyps. lia. }
  split_and!; try done. split; [|by left]. split; [|apply Hi]. rewrite Hw. destruct Hi as [Ha Hm].
  unfold int64_range in *. bool_hyps. apply andb_true_iff. rewrite Z.leb_le, Z.ltb_lt. lia.
Qed.
(** C19. A job that keeps failing stops: the relation between a job and what [Fail] leaves of it
    in the retry set is well founded, and after [n] such retries the job carries exactly [n]
    more attempts, which are still fewer than its maximum; so a chain of recorded retries is
    shorter than the attempts that were left.  (An attempt that is never recorded, because its
    consumer died, is not counted.) *)
Theorem retries_terminate q j : rand_ok -> attemptable j ->
  Acc (flip (retried q)) j /\
  forall n j', nsteps (retried q) n j j' -> n <> 0%nat ->
    Job_Attempts j' = (Job_Attempts j + Z.of_nat n)%Z /\ (Job_Attempts j + Z.of_nat n < Job_MaxAttempts j)%Z.
Proof.
  intros Hrand Hj. split.
  - remember (Z.to_nat (Job_MaxAttempts j - Job_Attempts j)) as k eqn:Hk. revert j Hj Hk.
    induction k as [k IH] using lt_wf_ind. intros j Hj ->. constructor. intros j' Hr.
    destruct (retried_step q j j' Hrand Hj Hr) as (Hj' & Hb & Hm & Ha & Hb'). unfold budget in *.
    eapply IH; [|done|reflexivity]. rewrite Hm, Ha. lia.
  - intros n. revert j Hj. induction n as [|n IH]; intros j Hj j' Hs Hn; [done|].
    inversion Hs as [|? ? j1 ? Hr Hrest]; subst. destruct (retried_step q j j1 Hrand Hj Hr) as (Hj1 & Hb & Hm & Ha & Hb1).
    destruct n as [|n]; [inversion Hrest; subst; unfold budget in *; lia|].
    specialize (IH j1 Hj1 j' Hrest ltac:(done)). lia.
Qed.
End progress.

(** ** Witnesses: the job of [Worker.v] whose handler fails *)
#[local] Existing Instances demo demo_aead demo_platform demo_redis.
Lemma demo_up : up Background.
Proof. split_and!; [by intros|by intros|by intros|]. intros n k. by eexists. Qed.
Lemma demo_ints : job_ints (Delivery_Job demo_delivery).
Proof. split; vm_compute; reflexivity. Qed.
Lemma demo_counting : counting (Delivery_Job demo_delivery).
Proof. split; [exact demo_ints|vm_compute; split; [discriminate|reflexivity]]. Qed.
Lemma refused_recording_loses_witness : exists k,
  let (res, w') := @Fail_ _ _ _ (refusing k "OOM" demo_redis) demo_queue Background demo_delivery (ErrorsNew "boom") (p_world demo_pool2) in
  res = Err (Errorf "jobs: record job failure" (ErrorsNew "OOM")) /\ rd_stream (w_redis w') = [] /\ rd_retry (w_redis w') = [].
Proof.
  destruct (refused_recording_loses demo_queue Background demo_delivery (ErrorsNew "boom") (p_world demo_pool2) demo_up)
    as [k Hk]; [eexists; vm_compute; reflexivity|].
  exists k. specialize (Hk "OOM"). destruct (Fail_ _ _ _ _ _) as [res w']. destruct Hk as (-> & -> & -> & _).
  split_and!; [reflexivity|vm_compute; reflexivity|vm_compute; reflexivity].
Defined.
Lemma handle_progress_witness : exists w1,
  waits demo_queue (Delivery_Job demo_delivery) "boom" w1
    (w_redis (handle demo_worker Background demo_delivery (p_world demo_pool2)).2).
Proof.
  destruct (handle_progress demo_worker Background demo_delivery (p_world demo_pool2) demo_rand_ok demo_up demo_queue_ok)
    as (_ & _ & _ & Hh).
  - vm_compute. discriminate.
  - exact demo_counting.
  - eexists. vm_compute. reflexivity.
  - destruct (Hh (fun _ _ => fail (ErrorsNew "boom"))) as [_ Hw]; [discriminate|reflexivity|].
    eexists. apply Hw. intros [Hm|Hm].
    + apply IsPermanent_spec in Hm. discriminate.
    + vm_compute in Hm. by apply Hm.
Defined.
Definition demo_failed : Redis := w_redis (Fail_ demo_queue Background demo_delivery (ErrorsNew "boom") (p_world demo_pool2)).2.
Lemma demo_retried : exists j', retried demo_queue (Delivery_Job demo_delivery) j'.
Proof.
  destruct (members demo_failed) as [|sealed l] eqn:Em; [vm_compute in Em; discriminate|].
  destruct (open demo_queue sealed) as [j'|e] eqn:Eo; cycle 1.
  { exfalso. vm_compute in Em. injection Em as <- _. vm_compute in Eo. discriminate. }
  exists j', Background, demo_delivery, (ErrorsNew "boom"), (p_world demo_pool2), sealed.
  split_and!; [reflexivity| | |exact Eo].
  - vm_compute. intros Hin. inversion Hin.
  - change (sealed ∈ members demo_failed). rewrite Em. left.
Qed.
Lemma retries_terminate_witness : exists j', Job_Attempts j' = 1%Z /\ (0 + 1 < 2)%Z.
Proof.
  destruct demo_retried as [j' Hr]. exists j'.
  refine (proj2 (retries_terminate demo_queue (Delivery_Job demo_delivery) demo_rand_ok _) 1%nat j' _ ltac:(discriminate)).
  - split; [exact demo_ints|]. left. split; vm_compute; [discriminate|reflexivity].
  - eapply nsteps_l; [exact Hr|apply nsteps_O].
Defined.
