(* ===== verification/Sql.v ===== *)
(** * SQL building blocks

    What the statements of [queries/] and the constraints of [migrations/] are made of:
    selection by key, CHECK conditions on text, ORDER BY with NULLS and direction, LIMIT
    and OFFSET. *)
From S2P Require Import Prelude.
From S2P Require Import GoError.
From S2P Require Import Schema.
From S2P Require Import Store.
From stdpp Require Import sorting.

(** [WHERE id = $1 AND ...] *)
Definition sel {R} (t : gmap N R) (id : N) (P : R -> bool) : option R :=
  match t !! id with Some r => if P r then Some r else None | None => None end.

Lemma sel_Some {R} (t : gmap N R) id P r : sel t id P = Some r <-> t !! id = Some r /\ P r = true.
Proof.
  unfold sel. destruct (t !! id) as [r'|]; [|split; intros; destruct_and?; congruence].
  destruct (P r') eqn:E; split; intros; destruct_and?; simplify_eq; auto; congruence.
Qed.

(** [length(btrim(x)) > 0]: [btrim] strips spaces only. *)
Definition btrim_nonempty (s : string) : bool :=
  existsb (fun a => negb (N.eqb (Ascii.N_of_ascii a) 32)) (String.list_ascii_of_string s).
(** [length(x)]: characters of a UTF-8 text, that is bytes that are not continuations. *)
Definition char_length (s : string) : Z :=
  Z.of_nat (length (List.filter (fun a => negb (N.eqb (N.land (Ascii.N_of_ascii a) 192) 128))
                      (String.list_ascii_of_string s))).
(** [x IN (...)] *)
Definition is_one_of (s : string) (l : list string) : bool := existsb (String.eqb s) l.

Lemma is_one_of_true s l : is_one_of s l = true <-> s ∈ l.
Proof.
  unfold is_one_of. rewrite existsb_exists. split.
  - intros (x & Hx & ->%String.eqb_eq). by apply list_elem_of_In.
  - intros Hs. exists s. split; [by apply list_elem_of_In | by apply String.eqb_refl].
Qed.

(** ** ORDER BY *)
Definition cmp_on {R K} (key : R -> K) (cmp : K -> K -> comparison) (a b : R) : comparison :=
  cmp (key a) (key b).
Definition desc {R} (cmp : R -> R -> comparison) (a b : R) : comparison := CompOpp (cmp a b).
(** Nullable keys: NULLs sort after every value. *)
Definition nulls_last {K} (cmp : K -> K -> comparison) (a b : option K) : comparison :=
  match a, b with
  | Some x, Some y => cmp x y | Some _, None => Lt | None, Some _ => Gt | None, None => Eq
  end.
(** [CASE WHEN b THEN key END]: a constant NULL when the guard fails. *)
Definition when {R} (b : bool) (cmp : R -> R -> comparison) (x y : R) : comparison :=
  if b then cmp x y else Eq.
Fixpoint lex {R} (l : list (R -> R -> comparison)) (a b : R) : comparison :=
  match l with [] => Eq | c :: r => match c a b with Eq => lex r a b | o => o end end.

Definition before {R} (l : list (R -> R -> comparison)) (a b : R) : Prop := lex l a b <> Gt.
#[export] Instance before_dec {R} (l : list (R -> R -> comparison)) a b : Decision (before l a b).
Proof. unfold before. destruct (lex l a b); (left; congruence) || (right; congruence). Defined.
Definition order_by {R} (l : list (R -> R -> comparison)) (rs : list R) : list R :=
  merge_sort (before l) rs.

Lemma order_by_perm {R} l (rs : list R) : order_by l rs ≡ₚ rs.
Proof. apply merge_sort_Permutation. Qed.

(** [LIMIT l OFFSET o] *)
Definition limit_offset {R} (l o : Z) (rs : list R) : list R :=
  take (Z.to_nat l) (drop (Z.to_nat o) rs).
