(* ===== verification/QueriesOrg.v ===== *)
(** * Statements on users, organizations, roles and memberships

    Models [internal/db/users.sql.go], [organizations.sql.go], [roles.sql.go],
    [memberships.sql.go] and [memberships_extra.sql.go], with the constraints of
    [migrations/000002]..[000011] and the row-level security policies of [000008] and
    [000011]. *)
From S2P Require Import Prelude.
From S2P Require Import GoError.
From S2P Require Import Schema.
From S2P Require Import Store.
From S2P Require Import Sql.
Local Open Scope string_scope.

Section queries.
Context `{Env}.

(** ** users *)
Definition GetUserByID (id : N) : M User := query (fun _ d => one (users d !! id)).
Definition GetUserByEmail (email : string) : M User :=
  query (fun _ d => one (find_row (fun u => citext_eq (User_Email u) email) (users d))).

Definition CreateUser (email passwordHash firstName lastName status : string) : M User :=
  stmt (fun c d =>
    let u := {| User_ID := s_uuid c; User_Email := email; User_PasswordHash := passwordHash;
                User_FirstName := firstName; User_LastName := lastName; User_AvatarUrl := None;
                User_Status := status; User_EmailVerifiedAt := None; User_LastLoginAt := None;
                User_CreatedAt := s_now c; User_UpdatedAt := s_now c |} in
    check! btrim_nonempty firstName else check_violation "users_first_name_check";
    check! btrim_nonempty lastName else check_violation "users_last_name_check";
    check! is_one_of status ["active"; "suspended"; "pending"; "deleted"]
      else check_violation "users_status_check";
    check! is_nil (users d !! s_uuid c) else unique_violation "users_pkey";
    check! negb (exists_row (fun x => citext_eq (User_Email x) email) (users d))
      else unique_violation "users_email_key";
    Ok (u, set_users (<[s_uuid c := u]> (users d)) d)).

Definition UpdateUserLastLogin (id : N) : M unit :=
  stmt (fun c d => Ok (tt, set_users (alter (User_set_LastLoginAt (s_now c)) id (users d)) d)).

(** ** organizations *)
Definition CreateOrganization (name slug status : string) : M Organization :=
  stmt (fun c d =>
    let o := {| Organization_ID := s_uuid c; Organization_Name := name;
                Organization_Slug := slug; Organization_Status := status;
                Organization_CreatedAt := s_now c; Organization_UpdatedAt := s_now c |} in
    check! rls_visible c (s_uuid c) else ErrRLS;
    check! btrim_nonempty name else check_violation "organizations_name_check";
    check! is_one_of status ["active"; "suspended"; "deleted"]
      else check_violation "organizations_status_check";
    check! is_nil (organizations d !! s_uuid c) else unique_violation "organizations_pkey";
    check! negb (exists_row (fun x => citext_eq (Organization_Slug x) slug) (organizations d))
      else unique_violation "organizations_slug_key";
    Ok (o, set_organizations (<[s_uuid c := o]> (organizations d)) d)).

Definition GetOrganizationByID (id : N) : M Organization :=
  query (fun c d => one (sel (organizations d) id
    (fun o => ((Organization_ID o =?= id) && rls_visible c (Organization_ID o))%bool))).

Definition OrganizationSlugExists (slug : string) : M bool :=
  query (fun c d => Ok (exists_row
    (fun o => (rls_visible c (Organization_ID o) && citext_eq (Organization_Slug o) slug)%bool)
    (organizations d))).

Definition ListActiveOrganizationIDs (rowLimit : Z) : M (list N) :=
  query (fun c d => Ok (map Organization_ID (limit_offset rowLimit 0
    (order_by [cmp_on Organization_CreatedAt Z.compare]
       (List.filter (fun o => (rls_visible c (Organization_ID o) &&
                               (Organization_Status o =?= "active"))%bool)
          (rows (organizations d))))))).

(** ** roles and permissions *)
Definition CreateRole (orgID : N) (name : string) (description : option string)
    (isSystem : bool) : M Role :=
  stmt (fun c d =>
    let r := {| Role_ID := s_uuid c; Role_OrganizationID := orgID; Role_Name := name;
                Role_Description := description; Role_IsSystem := isSystem;
                Role_CreatedAt := s_now c; Role_UpdatedAt := s_now c |} in
    check! rls_visible c orgID else ErrRLS;
    check! btrim_nonempty name else check_violation "roles_name_check";
    check! is_nil (roles d !! s_uuid c) else unique_violation "roles_pkey";
    check! negb (exists_row (fun x => ((Role_OrganizationID x =?= orgID) &&
                                       (Role_Name x =?= name))%bool) (roles d))
      else unique_violation "roles_organization_id_name_key";
    check! negb (is_nil (organizations d !! orgID)) else fk_violation "roles_organization_id_fkey";
    Ok (r, set_roles (<[s_uuid c := r]> (roles d)) d)).

Definition in_org (c : StmtCtx) (rowOrg orgID : N) : bool :=
  (rls_visible c rowOrg && (rowOrg =?= orgID))%bool.

Definition GetRoleByID (id orgID : N) : M Role :=
  query (fun c d => one (sel (roles d) id (fun r => in_org c (Role_OrganizationID r) orgID))).

Definition ListRolesByOrganization (orgID : N) : M (list Role) :=
  query (fun c d => Ok (order_by [cmp_on Role_Name text_cmp]
    (List.filter (fun r => in_org c (Role_OrganizationID r) orgID) (rows (roles d))))).

Definition UpdateRole (id orgID : N) (name : string) (description : option string) : M Role :=
  stmt (fun c d =>
    match sel (roles d) id (fun r => ((Role_ID r =?= id) &&
             in_org c (Role_OrganizationID r) orgID && negb (Role_IsSystem r))%bool) with
    | None => Err ErrNoRows
    | Some r =>
        let r' := Role_set (s_now c) name description r in
        check! btrim_nonempty name else check_violation "roles_name_check";
        check! negb (exists_row (fun x => ((Role_OrganizationID x =?= orgID) &&
                       (Role_Name x =?= name) && negb (Role_ID x =?= Role_ID r))%bool) (roles d))
          else unique_violation "roles_organization_id_name_key";
        Ok (r', set_roles (<[id := r']> (roles d)) d)
    end).

(** Deleting a role cascades to its grants and to every invitation for it (the foreign key
    is the pair of the role and its organization); a membership that references it blocks
    the statement. *)
Definition invitation_for_role (id orgID : N) (i : Invitation) : Prop :=
  Invitation_RoleID i = id /\ Invitation_OrganizationID i = orgID.
#[global] Instance invitation_for_role_dec id orgID i : Decision (invitation_for_role id orgID i).
Proof. unfold invitation_for_role. apply _. Defined.
Definition DeleteRole (id orgID : N) : M unit :=
  stmt (fun c d =>
    match sel (roles d) id (fun r => (in_org c (Role_OrganizationID r) orgID &&
                                      negb (Role_IsSystem r))%bool) with
    | None => Ok (tt, d)
    | Some r =>
        check! negb (exists_row (fun m => OrganizationMembership_RoleID m =?= id) (memberships d))
          else fk_violation "organization_memberships_role_id_fkey";
        Ok (tt, set_roles (delete id (roles d))
                  (set_role_permissions (filter (fun rp : N * N => rp.1 <> id) (role_permissions d))
                  (set_invitations (rows_where (fun i => ~ invitation_for_role id orgID i) (invitations d)) d)))
    end).

Definition CountMembershipsByRole (roleID orgID : N) : M Z :=
  query (fun c d => Ok (count_rows (fun m =>
    ((OrganizationMembership_RoleID m =?= roleID) &&
     in_org c (OrganizationMembership_OrganizationID m) orgID)%bool) (memberships d))).

Definition GetPermissionByKey (key : string) : M Permission :=
  query (fun _ d => one (find_row (fun p => Permission_Key p =?= key) (permissions d))).

(** The policy of [role_permissions]: the grant's role is one the statement may see. *)
Definition grant_visible (c : StmtCtx) (d : DB) (roleID : N) : bool :=
  match roles d !! roleID with
  | Some r => rls_visible c (Role_OrganizationID r)
  | None => (bypass_rls || is_nil (s_org c))%bool
  end.

Definition HasRolePermission (roleID : N) (key : string) : M bool :=
  query (fun c d => Ok (grant_visible c d roleID &&
    exists_row (fun p => ((Permission_Key p =?= key) &&
       bool_decide ((roleID, Permission_ID p) ∈ role_permissions d))%bool) (permissions d))%bool).

Definition ListPermissionKeysByRole (roleID : N) : M (list string) :=
  query (fun c d => Ok (order_by [text_cmp]
    (if grant_visible c d roleID then
       map Permission_Key (List.filter (fun p =>
         bool_decide ((roleID, Permission_ID p) ∈ role_permissions d)) (rows (permissions d)))
     else []))).

Definition SetRolePermissions (roleID : N) : M unit :=
  stmt (fun c d => Ok (tt, if grant_visible c d roleID then
    set_role_permissions (filter (fun rp : N * N => rp.1 <> roleID) (role_permissions d)) d else d)).

Definition AddRolePermission (roleID permissionID : N) : M unit :=
  stmt (fun c d =>
    check! grant_visible c d roleID else ErrRLS;
    check! negb (is_nil (roles d !! roleID)) else fk_violation "role_permissions_role_id_fkey";
    check! negb (is_nil (permissions d !! permissionID))
      else fk_violation "role_permissions_permission_id_fkey";
    Ok (tt, set_role_permissions ({[(roleID, permissionID)]} ∪ role_permissions d) d)).

(** ** organization_memberships *)
Definition CreateMembership (orgID userID roleID : N) (status : string) (joinedAt : option Z)
    : M OrganizationMembership :=
  stmt (fun c d =>
    let m := {| OrganizationMembership_ID := s_uuid c;
                OrganizationMembership_OrganizationID := orgID;
                OrganizationMembership_UserID := userID; OrganizationMembership_RoleID := roleID;
                OrganizationMembership_Status := status; OrganizationMembership_JoinedAt := joinedAt;
                OrganizationMembership_CreatedAt := s_now c;
                OrganizationMembership_UpdatedAt := s_now c |} in
    check! rls_visible c orgID else ErrRLS;
    check! is_one_of status ["active"; "invited"; "suspended"; "removed"]
      else check_violation "organization_memberships_status_check";
    check! is_nil (memberships d !! s_uuid c)
      else unique_violation "organization_memberships_pkey";
    check! negb (exists_row (fun x => ((OrganizationMembership_OrganizationID x =?= orgID) &&
                    (OrganizationMembership_UserID x =?= userID))%bool) (memberships d))
      else unique_violation "organization_memberships_organization_id_user_id_key";
    check! negb (is_nil (organizations d !! orgID))
      else fk_violation "organization_memberships_organization_id_fkey";
    check! negb (is_nil (users d !! userID))
      else fk_violation "organization_memberships_user_id_fkey";
    check! negb (is_nil (roles d !! roleID))
      else fk_violation "organization_memberships_role_id_fkey";
    Ok (m, set_memberships (<[s_uuid c := m]> (memberships d)) d)).

Definition member_of (c : StmtCtx) (orgID userID : N) (m : OrganizationMembership) : bool :=
  (in_org c (OrganizationMembership_OrganizationID m) orgID &&
   (OrganizationMembership_UserID m =?= userID))%bool.

Definition GetMembership (orgID userID : N) : M OrganizationMembership :=
  query (fun c d => one (find_row (member_of c orgID userID) (memberships d))).

Definition GetMembershipByID (id orgID : N) : M OrganizationMembership :=
  query (fun c d => one (sel (memberships d) id
    (fun m => in_org c (OrganizationMembership_OrganizationID m) orgID))).

Definition UpdateMembershipRole (id orgID roleID : N) : M OrganizationMembership :=
  stmt (fun c d =>
    match sel (memberships d) id (fun m =>
            (in_org c (OrganizationMembership_OrganizationID m) orgID &&
             (OrganizationMembership_Status m =?= "active"))%bool) with
    | None => Err ErrNoRows
    | Some m =>
        let m' := OrganizationMembership_set_RoleID (s_now c) roleID m in
        check! negb (is_nil (roles d !! roleID))
          else fk_violation "organization_memberships_role_id_fkey";
        Ok (m', set_memberships (<[id := m']> (memberships d)) d)
    end).

(** [CountActiveOwners]: memberships joined with their role. *)
Definition active_owner (c : StmtCtx) (d : DB) (orgID : N) (m : OrganizationMembership) : bool :=
  (in_org c (OrganizationMembership_OrganizationID m) orgID &&
   (OrganizationMembership_Status m =?= "active") &&
   match roles d !! OrganizationMembership_RoleID m with
   | Some r => rls_visible c (Role_OrganizationID r) && (Role_Name r =?= "Owner")
   | None => false
   end)%bool.
Definition CountActiveOwners (orgID : N) : M Z :=
  query (fun c d => Ok (count_rows (active_owner c d orgID) (memberships d))).

(** Rows of the two joined listings. *)
Record ListMembershipsByUserRow := {
  LMU_membership : OrganizationMembership; LMU_organization : Organization; LMU_role : Role
}.
Definition ListMembershipsByUser (userID : N) : M (list ListMembershipsByUserRow) :=
  query (fun c d => Ok (order_by [cmp_on (fun r => Organization_Name (LMU_organization r)) text_cmp]
    (omap (fun m =>
       if (rls_visible c (OrganizationMembership_OrganizationID m) &&
           (OrganizationMembership_UserID m =?= userID) &&
           (OrganizationMembership_Status m =?= "active"))%bool then
         match sel (organizations d) (OrganizationMembership_OrganizationID m)
                 (fun o => rls_visible c (Organization_ID o)),
               sel (roles d) (OrganizationMembership_RoleID m)
                 (fun r => rls_visible c (Role_OrganizationID r)) with
         | Some o, Some r => Some {| LMU_membership := m; LMU_organization := o; LMU_role := r |}
         | _, _ => None
         end
       else None) (rows (memberships d))))).

Record ListMembersByOrganizationRow := {
  LMO_membership : OrganizationMembership; LMO_user : User; LMO_role : Role
}.
Definition ListMembersByOrganization (orgID : N) : M (list ListMembersByOrganizationRow) :=
  query (fun c d => Ok (order_by
    [cmp_on (fun r => citext_fold (User_Email (LMO_user r))) text_cmp]
    (omap (fun m =>
       if in_org c (OrganizationMembership_OrganizationID m) orgID then
         match users d !! OrganizationMembership_UserID m,
               sel (roles d) (OrganizationMembership_RoleID m)
                 (fun r => rls_visible c (Role_OrganizationID r)) with
         | Some u, Some r => Some {| LMO_membership := m; LMO_user := u; LMO_role := r |}
         | _, _ => None
         end
       else None) (rows (memberships d))))).

(** [GetActiveMembershipByEmail], of [invitations.sql.go]. *)
Definition GetActiveMembershipByEmail (orgID : N) (email : string) : M OrganizationMembership :=
  query (fun c d => one (find_row (fun m =>
    (in_org c (OrganizationMembership_OrganizationID m) orgID &&
     (OrganizationMembership_Status m =?= "active") &&
     match users d !! OrganizationMembership_UserID m with
     | Some u => citext_eq (User_Email u) email
     | None => false
     end)%bool) (memberships d))).

End queries.
