(* ===== verification/QueriesAuth.v ===== *)
(** * Statements on refresh tokens, the audit log and the activity log

    Models [internal/db/refresh_tokens.sql.go], [audit.sql.go] and [activity.sql.go], with
    the constraints of [migrations/000006], [000013] and [000018]. *)
From S2P Require Import Prelude.
From S2P Require Import GoError.
From S2P Require Import Schema.
From S2P Require Import Store.
From S2P Require Import Sql.
From S2P Require Import QueriesOrg.
Local Open Scope string_scope.

Section queries.
Context `{Env}.

(** ** refresh_tokens: not tenant-scoped, no row-level security *)
Definition CreateRefreshToken (userID familyID : N) (tokenHash : string) (expiresAt : Z)
    (userAgent ipAddress : option string) : M RefreshToken :=
  stmt (fun c d =>
    let r := {| RefreshToken_ID := s_uuid c; RefreshToken_UserID := userID;
                RefreshToken_FamilyID := familyID; RefreshToken_TokenHash := tokenHash;
                RefreshToken_ExpiresAt := expiresAt; RefreshToken_RevokedAt := None;
                RefreshToken_ReplacedBy := None; RefreshToken_UserAgent := userAgent;
                RefreshToken_IpAddress := ipAddress; RefreshToken_CreatedAt := s_now c |} in
    check! is_nil (refresh_tokens d !! s_uuid c) else unique_violation "refresh_tokens_pkey";
    check! negb (exists_row (fun x => RefreshToken_TokenHash x =?= tokenHash) (refresh_tokens d))
      else unique_violation "refresh_tokens_token_hash_key";
    check! negb (is_nil (users d !! userID)) else fk_violation "refresh_tokens_user_id_fkey";
    Ok (r, set_refresh_tokens (<[s_uuid c := r]> (refresh_tokens d)) d)).

Definition GetRefreshTokenByHash (tokenHash : string) : M RefreshToken :=
  query (fun _ d => one (find_row (fun r => RefreshToken_TokenHash r =?= tokenHash)
                           (refresh_tokens d))).
(** [FOR UPDATE] locks the row; transactions run one after the other here. *)
Definition GetRefreshTokenByHashForUpdate (tokenHash : string) : M RefreshToken :=
  query (fun _ d => one (find_row (fun r => RefreshToken_TokenHash r =?= tokenHash)
                           (refresh_tokens d))).

Definition RevokeRefreshToken (id : N) (replacedBy : option N) : M unit :=
  stmt (fun c d =>
    match sel (refresh_tokens d) id (fun r => is_nil (RefreshToken_RevokedAt r)) with
    | None => Ok (tt, d)
    | Some r =>
        check! match replacedBy with Some n => negb (is_nil (refresh_tokens d !! n)) | None => true end
          else fk_violation "refresh_tokens_replaced_by_fkey";
        Ok (tt, set_refresh_tokens
                  (<[id := RefreshToken_revoke (s_now c) replacedBy r]> (refresh_tokens d)) d)
    end).

(** A bulk revocation keeps [replaced_by]. *)
Definition revoke_where (now : Z) (P : RefreshToken -> bool) (r : RefreshToken) : RefreshToken :=
  if (P r && is_nil (RefreshToken_RevokedAt r))%bool
  then RefreshToken_revoke now (RefreshToken_ReplacedBy r) r else r.
Definition RevokeRefreshTokenFamily (familyID : N) : M unit :=
  stmt (fun c d => Ok (tt, set_refresh_tokens
    (revoke_where (s_now c) (fun r => RefreshToken_FamilyID r =?= familyID) <$> refresh_tokens d) d)).
Definition RevokeAllUserRefreshTokens (userID : N) : M unit :=
  stmt (fun c d => Ok (tt, set_refresh_tokens
    (revoke_where (s_now c) (fun r => RefreshToken_UserID r =?= userID) <$> refresh_tokens d) d)).

(** ** audit_logs: insert and select only *)

(** The insert policy also admits rows without an organization. *)
Definition audit_visible (c : StmtCtx) (org : option N) : bool :=
  (bypass_rls || match s_org c, org with
                 | None, _ => true | Some o, Some o' => o =?= o' | Some _, None => false end)%bool.
Definition CreateAuditLog (orgID actorUserID : option N) (action outcome : string)
    (targetType targetID ipAddress userAgent requestID traceID : option string) (metadata : json)
    : M AuditLog :=
  stmt (fun c d =>
    let a := {| AuditLog_ID := s_uuid c; AuditLog_OrganizationID := orgID;
                AuditLog_ActorUserID := actorUserID; AuditLog_Action := action;
                AuditLog_Outcome := outcome; AuditLog_TargetType := targetType;
                AuditLog_TargetID := targetID; AuditLog_IpAddress := ipAddress;
                AuditLog_UserAgent := userAgent; AuditLog_RequestID := requestID;
                AuditLog_TraceID := traceID; AuditLog_Metadata := metadata;
                AuditLog_CreatedAt := s_now c |} in
    check! match ipAddress with Some ip => inet_ok ip | None => true end
      else PgError "22P02" "";
    check! (is_nil orgID || audit_visible c orgID)%bool else ErrRLS;
    check! btrim_nonempty action else check_violation "audit_logs_action_check";
    check! is_one_of outcome ["success"; "failure"; "denied"]
      else check_violation "audit_logs_outcome_check";
    check! is_nil (audit_logs d !! s_uuid c) else unique_violation "audit_logs_pkey";
    check! match actorUserID with Some u => negb (is_nil (users d !! u)) | None => true end
      else fk_violation "audit_logs_actor_user_id_fkey";
    Ok (a, set_audit_logs (<[s_uuid c := a]> (audit_logs d)) d)).

Definition opt_is {A} `{EqDecision A} (filter : option A) (x : A) : bool :=
  match filter with None => true | Some y => x =?= y end.
(** The WHERE clause shared by [ListAuditLogs] and [CountAuditLogs]. *)
Definition audit_matches (c : StmtCtx) (orgID : option N) (action outcome : option string)
    (actor : option N) (since : option Z) (a : AuditLog) : bool :=
  (audit_visible c (AuditLog_OrganizationID a) &&
   match AuditLog_OrganizationID a, orgID with Some x, Some y => x =?= y | _, _ => false end &&
   opt_is action (AuditLog_Action a) && opt_is outcome (AuditLog_Outcome a) &&
   match actor with
   | None => true
   | Some u => match AuditLog_ActorUserID a with Some v => v =?= u | None => false end
   end &&
   match since with None => true | Some t => Z.leb t (AuditLog_CreatedAt a) end)%bool.
Definition ListAuditLogs orgID action outcome actor since (limit offset : Z) : M (list AuditLog) :=
  query (fun c d => Ok (limit_offset limit offset
    (order_by [desc (cmp_on AuditLog_CreatedAt Z.compare); desc (cmp_on AuditLog_ID N.compare)]
       (List.filter (audit_matches c orgID action outcome actor since) (rows (audit_logs d)))))).
Definition CountAuditLogs orgID action outcome actor since : M Z :=
  query (fun c d => Ok (count_rows (audit_matches c orgID action outcome actor since) (audit_logs d))).

(** ** activity_logs: insert and select only *)
Definition CreateActivityLog (orgID : N) (actor : option N) (action resourceType : string)
    (resourceID : N) (metadata : json) : M unit :=
  stmt (fun c d =>
    let a := {| ActivityLog_ID := s_uuid c; ActivityLog_OrganizationID := orgID;
                ActivityLog_ActorUserID := actor; ActivityLog_Action := action;
                ActivityLog_ResourceType := resourceType; ActivityLog_ResourceID := resourceID;
                ActivityLog_Metadata := metadata; ActivityLog_CreatedAt := s_now c |} in
    check! rls_visible c orgID else ErrRLS;
    check! btrim_nonempty action else check_violation "activity_logs_action_check";
    check! btrim_nonempty resourceType else check_violation "activity_logs_resource_type_check";
    check! is_nil (activity_logs d !! s_uuid c) else unique_violation "activity_logs_pkey";
    check! negb (is_nil (organizations d !! orgID))
      else fk_violation "activity_logs_organization_id_fkey";
    check! match actor with Some u => negb (is_nil (users d !! u)) | None => true end
      else fk_violation "activity_logs_actor_user_id_fkey";
    Ok (tt, set_activity_logs (<[s_uuid c := a]> (activity_logs d)) d)).

Definition activity_matches (c : StmtCtx) (orgID : N) (resourceType : string) (resourceID : N)
    (a : ActivityLog) : bool :=
  (in_org c (ActivityLog_OrganizationID a) orgID && (ActivityLog_ResourceType a =?= resourceType) &&
   (ActivityLog_ResourceID a =?= resourceID))%bool.
Definition ListActivityByResource orgID resourceType resourceID (limit offset : Z)
    : M (list ActivityLog) :=
  query (fun c d => Ok (limit_offset limit offset
    (order_by [desc (cmp_on ActivityLog_CreatedAt Z.compare); desc (cmp_on ActivityLog_ID N.compare)]
       (List.filter (activity_matches c orgID resourceType resourceID) (rows (activity_logs d)))))).
Definition CountActivityByResource orgID resourceType resourceID : M Z :=
  query (fun c d => Ok (count_rows (activity_matches c orgID resourceType resourceID)
                          (activity_logs d))).
End queries.
