(* ===== verification/QueriesInv.v ===== *)
(** * Statements on invitations and API keys

    Models [internal/db/invitations.sql.go] and [apikeys.sql.go], with the constraints of
    [migrations/000015]..[000017]. *)
From S2P Require Import Prelude.
From S2P Require Import GoError.
From S2P Require Import Schema.
From S2P Require Import Store.
From S2P Require Import Sql.
From S2P Require Import QueriesOrg.
From S2P Require Import QueriesAuth.
Local Open Scope string_scope.

Section queries.
Context `{Env}.

(** ** invitations *)

(** The CHECK constraints of a row and the partial unique index on pending addresses. *)
Definition invitation_checks (i : Invitation) : option error :=
  if negb (is_one_of (Invitation_Status i) ["pending"; "accepted"; "revoked"; "expired"])
  then Some (check_violation "invitations_status_check")
  else if negb (Z.ltb (Invitation_CreatedAt i) (Invitation_ExpiresAt i))
  then Some (check_violation "invitations_expiry_after_creation")
  else if negb (eqb (Invitation_Status i =?= "accepted") (negb (is_nil (Invitation_AcceptedAt i))))
  then Some (check_violation "invitations_accepted_consistency")
  else if negb (eqb (Invitation_Status i =?= "revoked") (negb (is_nil (Invitation_RevokedAt i))))
  then Some (check_violation "invitations_revoked_consistency")
  else None.
Definition pending_conflict (d : DB) (i : Invitation) : bool :=
  ((Invitation_Status i =?= "pending") &&
   exists_row (fun x => ((Invitation_OrganizationID x =?= Invitation_OrganizationID i) &&
     citext_eq (Invitation_Email x) (Invitation_Email i) && (Invitation_Status x =?= "pending") &&
     negb (Invitation_ID x =?= Invitation_ID i))%bool) (invitations d))%bool.
Definition token_conflict (d : DB) (i : Invitation) : bool :=
  exists_row (fun x => ((Invitation_TokenHash x =?= Invitation_TokenHash i) &&
    negb (Invitation_ID x =?= Invitation_ID i))%bool) (invitations d).

(** [accepted_by REFERENCES users (id)] *)
Definition accepted_by_known (d : DB) (i : Invitation) : bool :=
  match Invitation_AcceptedBy i with Some u => negb (is_nil (users d !! u)) | None => true end.

(** Writing one row: constraints first, then the table. *)
Definition put_invitation (id : N) (i : Invitation) (d : DB) : result (Invitation * DB) :=
  match invitation_checks i with
  | Some e => Err e
  | None =>
      check! negb (token_conflict d i) else unique_violation "idx_invitations_token_hash";
      check! negb (pending_conflict d i) else unique_violation "idx_invitations_pending_email";
      check! accepted_by_known d i else fk_violation "invitations_accepted_by_fkey";
      Ok (i, set_invitations (<[id := i]> (invitations d)) d)
  end.

Definition CreateInvitation (orgID : N) (email : string) (roleID : N) (tokenHash : string)
    (invitedBy : N) (expiresAt : Z) : M Invitation :=
  stmt (fun c d =>
    let i := {| Invitation_ID := s_uuid c; Invitation_OrganizationID := orgID;
                Invitation_Email := email; Invitation_RoleID := roleID;
                Invitation_Status := "pending"; Invitation_TokenHash := tokenHash;
                Invitation_InvitedBy := invitedBy; Invitation_ExpiresAt := expiresAt;
                Invitation_AcceptedAt := None; Invitation_AcceptedBy := None;
                Invitation_RevokedAt := None; Invitation_CreatedAt := s_now c;
                Invitation_UpdatedAt := s_now c; Invitation_NotifiedAt := None;
                Invitation_DeliveryAttempts := 0 |} in
    check! rls_visible c orgID else ErrRLS;
    check! is_nil (invitations d !! s_uuid c) else unique_violation "invitations_pkey";
    match put_invitation (s_uuid c) i d with
    | Err e => Err e
    | Ok written =>
        check! negb (is_nil (organizations d !! orgID))
          else fk_violation "invitations_organization_id_fkey";
        check! negb (is_nil (sel (roles d) roleID (fun r => Role_OrganizationID r =?= orgID)))
          else fk_violation "invitations_role_organization_fkey";
        check! negb (is_nil (users d !! invitedBy)) else fk_violation "invitations_invited_by_fkey";
        Ok written
    end).

Definition by_token (c : StmtCtx) (tokenHash : string) (i : Invitation) : bool :=
  (rls_visible c (Invitation_OrganizationID i) && (Invitation_TokenHash i =?= tokenHash))%bool.
Definition GetInvitationByTokenHash (tokenHash : string) : M Invitation :=
  query (fun c d => one (find_row (by_token c tokenHash) (invitations d))).
Definition GetInvitationByTokenHashForUpdate (tokenHash : string) : M Invitation :=
  query (fun c d => one (find_row (by_token c tokenHash) (invitations d))).
Definition GetInvitationByID (id orgID : N) : M Invitation :=
  query (fun c d => one (sel (invitations d) id (fun i => in_org c (Invitation_OrganizationID i) orgID))).
Definition GetInvitationByIDForUpdate (id orgID : N) : M Invitation :=
  query (fun c d => one (sel (invitations d) id (fun i => in_org c (Invitation_OrganizationID i) orgID))).
(** Only the organization is read, for a job that carries nothing but the id. *)
Definition GetInvitationByIDForJob (id : N) : M (N * N) :=
  query (fun c d => one ((fun i => (Invitation_ID i, Invitation_OrganizationID i)) <$>
    sel (invitations d) id (fun i => rls_visible c (Invitation_OrganizationID i)))).

(** [UPDATE ... WHERE id AND organization_id AND extra RETURNING *] *)
Definition update_invitation (id orgID : N) (extra : Invitation -> bool)
    (f : Z -> Invitation -> Invitation) : M Invitation :=
  stmt (fun c d =>
    match sel (invitations d) id (fun i => (in_org c (Invitation_OrganizationID i) orgID && extra i)%bool) with
    | None => Err ErrNoRows
    | Some i => put_invitation id (f (s_now c) i) d
    end).
Definition is_pending (i : Invitation) : bool := Invitation_Status i =?= "pending".

Definition RotateInvitationToken (id orgID : N) (tokenHash : string) (expiresAt : Z) : M Invitation :=
  update_invitation id orgID is_pending (fun now => Invitation_set_token now tokenHash expiresAt).
Definition AcceptInvitation (id orgID : N) (acceptedAt : option Z) (acceptedBy : option N)
    : M Invitation :=
  update_invitation id orgID (fun _ => true) (fun now => Invitation_accept now acceptedAt acceptedBy).
Definition RevokeInvitation (id orgID : N) (revokedAt : option Z) : M Invitation :=
  update_invitation id orgID (fun _ => true) (fun now => Invitation_revoke now revokedAt).
Definition MarkInvitationExpired (id orgID : N) : M Invitation :=
  update_invitation id orgID is_pending Invitation_expire.
Definition RotateInvitationForDelivery (id orgID : N) (tokenHash : string) : M Invitation :=
  update_invitation id orgID
    (fun i => (is_pending i && is_nil (Invitation_NotifiedAt i))%bool)
    (fun now => Invitation_rotate now tokenHash).
(** [:exec]: no row is no error. *)
Definition MarkInvitationNotified (id orgID : N) : M unit :=
  r <- attempt (update_invitation id orgID (fun _ => true) Invitation_notify) ;;
  match r with
  | Ok _ => ret tt
  | Err ErrNoRows => ret tt
  | Err e => fail e
  end.

Definition ListUndeliveredInvitations (orgID : N) (attempts : Z) (createdBefore rowLimit : Z)
    : M (list Invitation) :=
  query (fun c d => Ok (limit_offset rowLimit 0
    (order_by [cmp_on Invitation_CreatedAt Z.compare]
       (List.filter (fun i =>
          (in_org c (Invitation_OrganizationID i) orgID && is_pending i &&
           is_nil (Invitation_NotifiedAt i) && Z.eqb (Invitation_DeliveryAttempts i) attempts &&
           Z.ltb (Invitation_CreatedAt i) createdBefore)%bool) (rows (invitations d)))))).

Definition invitation_matches (c : StmtCtx) (orgID : N) (status email : option string)
    (i : Invitation) : bool :=
  (in_org c (Invitation_OrganizationID i) orgID && opt_is status (Invitation_Status i) &&
   match email with None => true | Some e => citext_eq (Invitation_Email i) e end)%bool.
(** Two CASE keys, ascending and descending, per sortable column. *)
Definition sort_key {R} (sortBy : string) (sortDesc : bool) (name : string)
    (cmp : R -> R -> comparison) : R -> R -> comparison :=
  when (sortBy =?= name) (if sortDesc then desc cmp else cmp).
Definition ListInvitations orgID status email (sortBy : string) (sortDesc : bool)
    (limit offset : Z) : M (list Invitation) :=
  query (fun c d => Ok (limit_offset limit offset (order_by
    [sort_key sortBy sortDesc "created_at" (cmp_on Invitation_CreatedAt Z.compare);
     sort_key sortBy sortDesc "expires_at" (cmp_on Invitation_ExpiresAt Z.compare);
     sort_key sortBy sortDesc "email" (cmp_on (fun i => citext_fold (Invitation_Email i)) text_cmp);
     cmp_on Invitation_ID N.compare]
    (List.filter (invitation_matches c orgID status email) (rows (invitations d)))))).
Definition CountInvitations orgID status email : M Z :=
  query (fun c d => Ok (count_rows (invitation_matches c orgID status email) (invitations d))).

(** ** api_keys *)
Definition CreateAPIKey (orgID createdBy : N) (name keyPrefix keyLastFour keyHash : string)
    (expiresAt : Z) : M ApiKey :=
  stmt (fun c d =>
    let k := {| ApiKey_ID := s_uuid c; ApiKey_OrganizationID := orgID; ApiKey_CreatedBy := createdBy;
                ApiKey_Name := name; ApiKey_KeyPrefix := keyPrefix; ApiKey_KeyLastFour := keyLastFour;
                ApiKey_KeyHash := keyHash; ApiKey_ExpiresAt := expiresAt; ApiKey_RevokedAt := None;
                ApiKey_LastUsedAt := None; ApiKey_CreatedAt := s_now c; ApiKey_UpdatedAt := s_now c |} in
    check! rls_visible c orgID else ErrRLS;
    check! (btrim_nonempty name && Z.leb (char_length name) 100)%bool
      else check_violation "api_keys_name_check";
    check! Z.ltb 0 (char_length keyPrefix) else check_violation "api_keys_key_prefix_check";
    check! Z.eqb (char_length keyLastFour) 4 else check_violation "api_keys_key_last_four_check";
    check! Z.ltb (s_now c) expiresAt else check_violation "api_keys_expiry_after_creation";
    check! is_nil (api_keys d !! s_uuid c) else unique_violation "api_keys_pkey";
    check! negb (exists_row (fun x => ApiKey_KeyHash x =?= keyHash) (api_keys d))
      else unique_violation "api_keys_hash_unique";
    check! negb (is_nil (organizations d !! orgID)) else fk_violation "api_keys_organization_id_fkey";
    check! exists_row (fun m => ((OrganizationMembership_OrganizationID m =?= orgID) &&
                         (OrganizationMembership_UserID m =?= createdBy))%bool) (memberships d)
      else fk_violation "api_keys_creator_organization_fkey";
    Ok (k, set_api_keys (<[s_uuid c := k]> (api_keys d)) d)).

Definition GetAPIKeyByHash (keyHash : string) : M ApiKey :=
  query (fun c d => one (find_row (fun k =>
    (rls_visible c (ApiKey_OrganizationID k) && (ApiKey_KeyHash k =?= keyHash))%bool) (api_keys d))).
Definition GetAPIKeyByIDForUpdate (id orgID : N) : M ApiKey :=
  query (fun c d => one (sel (api_keys d) id (fun k => in_org c (ApiKey_OrganizationID k) orgID))).
Definition RevokeAPIKey (id orgID : N) (revokedAt : option Z) : M ApiKey :=
  stmt (fun c d =>
    match sel (api_keys d) id (fun k => (in_org c (ApiKey_OrganizationID k) orgID &&
                                         is_nil (ApiKey_RevokedAt k))%bool) with
    | None => Err ErrNoRows
    | Some k => let k' := ApiKey_revoke (s_now c) revokedAt k in
                Ok (k', set_api_keys (<[id := k']> (api_keys d)) d)
    end).
Definition RevokeAPIKeyByID (id orgID : N) : M unit :=
  stmt (fun c d =>
    match sel (api_keys d) id (fun k => in_org c (ApiKey_OrganizationID k) orgID) with
    | None => Ok (tt, d)
    | Some k => Ok (tt, set_api_keys
                          (<[id := ApiKey_revoke (s_now c) (Some (s_now c)) k]> (api_keys d)) d)
    end).
(** One write per minute and key. *)
Definition TouchAPIKey (id : N) : M unit :=
  stmt (fun c d =>
    match sel (api_keys d) id (fun k => (rls_visible c (ApiKey_OrganizationID k) &&
            match ApiKey_LastUsedAt k with
            | None => true | Some t => Z.ltb t (s_now c - Minute)
            end)%bool) with
    | None => Ok (tt, d)
    | Some k => Ok (tt, set_api_keys (<[id := ApiKey_touch (s_now c) k]> (api_keys d)) d)
    end).
Definition ListExpiredAPIKeys (orgID : N) (expiredBefore rowLimit : Z) : M (list ApiKey) :=
  query (fun c d => Ok (limit_offset rowLimit 0
    (order_by [cmp_on ApiKey_ExpiresAt Z.compare]
       (List.filter (fun k => (in_org c (ApiKey_OrganizationID k) orgID &&
          is_nil (ApiKey_RevokedAt k) && Z.ltb (ApiKey_ExpiresAt k) expiredBefore)%bool)
          (rows (api_keys d)))))).
Definition apikey_matches (c : StmtCtx) (orgID : N) (includeRevoked : bool) (k : ApiKey) : bool :=
  (in_org c (ApiKey_OrganizationID k) orgID && (includeRevoked || is_nil (ApiKey_RevokedAt k)))%bool.
Definition ListAPIKeys orgID includeRevoked (sortBy : string) (sortDesc : bool)
    (limit offset : Z) : M (list ApiKey) :=
  query (fun c d => Ok (limit_offset limit offset (order_by
    [sort_key sortBy sortDesc "created_at" (cmp_on ApiKey_CreatedAt Z.compare);
     sort_key sortBy sortDesc "expires_at" (cmp_on ApiKey_ExpiresAt Z.compare);
     when (sortBy =?= "last_used_at") (cmp_on ApiKey_LastUsedAt
       (nulls_last (if sortDesc then desc Z.compare else Z.compare)));
     cmp_on ApiKey_Name text_cmp; cmp_on ApiKey_ID N.compare]
    (List.filter (apikey_matches c orgID includeRevoked) (rows (api_keys d)))))).
Definition CountAPIKeys orgID includeRevoked : M Z :=
  query (fun c d => Ok (count_rows (apikey_matches c orgID includeRevoked) (api_keys d))).
End queries.
