(* ===== verification/QueriesWork.v ===== *)
(** * Statements on teams, projects and tasks

    Models [internal/db/teams.sql.go], [projects.sql.go] and [tasks.sql.go], with the
    constraints and referential actions of [migrations/000012]..[000014]. *)
From S2P Require Import Prelude.
From S2P Require Import GoError.
From S2P Require Import Schema.
From S2P Require Import Store.
From S2P Require Import Sql.
From S2P Require Import QueriesOrg.
From S2P Require Import QueriesAuth.
From S2P Require Import QueriesInv.
Local Open Scope string_scope.

Section queries.
Context `{Env}.

(** ** teams and team_members *)
Definition CreateTeam (orgID : N) (name : string) (description : option string) (createdBy : N)
    : M Team :=
  stmt (fun c d =>
    let t := {| Team_ID := s_uuid c; Team_OrganizationID := orgID; Team_Name := name;
                Team_Description := description; Team_CreatedBy := createdBy;
                Team_CreatedAt := s_now c; Team_UpdatedAt := s_now c |} in
    check! rls_visible c orgID else ErrRLS;
    check! btrim_nonempty name else check_violation "teams_name_check";
    check! is_nil (teams d !! s_uuid c) else unique_violation "teams_pkey";
    check! negb (exists_row (fun x => ((Team_OrganizationID x =?= orgID) &&
                                       (Team_Name x =?= name))%bool) (teams d))
      else unique_violation "teams_organization_id_name_key";
    check! negb (is_nil (organizations d !! orgID)) else fk_violation "teams_organization_id_fkey";
    check! negb (is_nil (users d !! createdBy)) else fk_violation "teams_created_by_fkey";
    Ok (t, set_teams (<[s_uuid c := t]> (teams d)) d)).

Definition GetTeam (id orgID : N) : M Team :=
  query (fun c d => one (sel (teams d) id (fun t => in_org c (Team_OrganizationID t) orgID))).
Definition ListTeams (orgID : N) : M (list Team) :=
  query (fun c d => Ok (order_by [cmp_on Team_Name text_cmp]
    (List.filter (fun t => in_org c (Team_OrganizationID t) orgID) (rows (teams d))))).

Definition UpdateTeam (id orgID : N) (name : string) (description : option string) : M Team :=
  stmt (fun c d =>
    match sel (teams d) id (fun t => in_org c (Team_OrganizationID t) orgID) with
    | None => Err ErrNoRows
    | Some t =>
        let t' := Team_set (s_now c) name description t in
        check! btrim_nonempty name else check_violation "teams_name_check";
        check! negb (exists_row (fun x => ((Team_OrganizationID x =?= orgID) &&
                       (Team_Name x =?= name) && negb (Team_ID x =?= Team_ID t))%bool) (teams d))
          else unique_violation "teams_organization_id_name_key";
        Ok (t', set_teams (<[id := t']> (teams d)) d)
    end).

(** The composite foreign keys: members go with their team, projects lose it.  A
    reference is to the pair of the team and its organization. *)
Definition member_of_team (id orgID : N) (m : TeamMember) : Prop :=
  TeamMember_TeamID m = id /\ TeamMember_OrganizationID m = orgID.
#[global] Instance member_of_team_dec id orgID m : Decision (member_of_team id orgID m).
Proof. unfold member_of_team. apply _. Defined.
Definition unassign_team (now : Z) (id orgID : N) (p : Project) : Project :=
  if ((Project_TeamID p =?= Some id) && (Project_OrganizationID p =?= orgID))%bool
  then Project_unset_team now p else p.
Definition DeleteTeam (id orgID : N) : M unit :=
  stmt (fun c d =>
    match sel (teams d) id (fun t => in_org c (Team_OrganizationID t) orgID) with
    | None => Ok (tt, d)
    | Some _ => Ok (tt,
        set_teams (delete id (teams d))
          (set_team_members (rows_where (fun m => ~ member_of_team id orgID m) (team_members d))
             (set_projects (unassign_team (s_now c) id orgID <$> projects d) d)))
    end).

Record ListTeamMembersRow := { LTM_member : TeamMember; LTM_user : User }.
Definition ListTeamMembers (teamID orgID : N) : M (list ListTeamMembersRow) :=
  query (fun c d => Ok (order_by
    [cmp_on (fun r => citext_fold (User_Email (LTM_user r))) text_cmp]
    (omap (fun m =>
       if (in_org c (TeamMember_OrganizationID m) orgID && (TeamMember_TeamID m =?= teamID))%bool
       then (fun u => {| LTM_member := m; LTM_user := u |}) <$> users d !! TeamMember_UserID m
       else None) (rows (team_members d))))).

Definition AddTeamMember (orgID teamID userID : N) : M TeamMember :=
  stmt (fun c d =>
    let m := {| TeamMember_ID := s_uuid c; TeamMember_OrganizationID := orgID;
                TeamMember_TeamID := teamID; TeamMember_UserID := userID;
                TeamMember_CreatedAt := s_now c |} in
    check! rls_visible c orgID else ErrRLS;
    check! is_nil (team_members d !! s_uuid c) else unique_violation "team_members_pkey";
    check! negb (exists_row (fun x => ((TeamMember_OrganizationID x =?= orgID) &&
                   (TeamMember_TeamID x =?= teamID) && (TeamMember_UserID x =?= userID))%bool)
                   (team_members d))
      else unique_violation "team_members_organization_id_team_id_user_id_key";
    check! negb (is_nil (organizations d !! orgID))
      else fk_violation "team_members_organization_id_fkey";
    check! negb (is_nil (sel (teams d) teamID (fun t => Team_OrganizationID t =?= orgID)))
      else fk_violation "team_members_team_id_organization_id_fkey";
    check! negb (is_nil (users d !! userID)) else fk_violation "team_members_user_id_fkey";
    Ok (m, set_team_members (<[s_uuid c := m]> (team_members d)) d)).

Definition RemoveTeamMember (id teamID orgID : N) : M unit :=
  stmt (fun c d =>
    match sel (team_members d) id (fun m => (in_org c (TeamMember_OrganizationID m) orgID &&
                                             (TeamMember_TeamID m =?= teamID))%bool) with
    | None => Ok (tt, d)
    | Some _ => Ok (tt, set_team_members (delete id (team_members d)) d)
    end).

(** ** projects *)
Definition priorities : list string := ["low"; "medium"; "high"; "urgent"].
Definition array_position (l : list string) (s : string) : option Z :=
  (fun ix => Z.of_nat ix.1 + 1)%Z <$> list_find (fun x => x = s) l.

(** CHECK and foreign key constraints of a project row. *)
Definition project_checks (d : DB) (p : Project) : option error :=
  if negb (btrim_nonempty (Project_Name p) && Z.leb (char_length (Project_Name p)) 150)
  then Some (check_violation "projects_name_check")
  else if negb (match Project_Description p with None => true | Some x => Z.leb (char_length x) 5000 end)
  then Some (check_violation "projects_description_check")
  else if negb (is_one_of (Project_Status p) ["planning"; "active"; "on_hold"; "completed"; "archived"])
  then Some (check_violation "projects_status_check")
  else if negb (is_one_of (Project_Priority p) priorities)
  then Some (check_violation "projects_priority_check")
  else if negb (match Project_StartDate p, Project_DueDate p with
                | Some s, Some e => Z.leb s e | _, _ => true end)
  then Some (check_violation "projects_due_after_start")
  else if negb (match Project_TeamID p with
                | None => true
                | Some t => negb (is_nil (sel (teams d) t
                              (fun x => Team_OrganizationID x =?= Project_OrganizationID p)))
                end)
  then Some (fk_violation "projects_team_fkey")
  else None.

Definition CreateProject (orgID : N) (teamID : option N) (name : string)
    (description : option string) (status priority : string) (startDate dueDate : option Z)
    (createdBy : N) : M Project :=
  stmt (fun c d =>
    let p := {| Project_ID := s_uuid c; Project_OrganizationID := orgID; Project_TeamID := teamID;
                Project_Name := name; Project_Description := description; Project_Status := status;
                Project_Priority := priority; Project_StartDate := startDate;
                Project_DueDate := dueDate; Project_CreatedBy := createdBy;
                Project_CreatedAt := s_now c; Project_UpdatedAt := s_now c |} in
    check! rls_visible c orgID else ErrRLS;
    check! is_nil (projects d !! s_uuid c) else unique_violation "projects_pkey";
    match project_checks d p with
    | Some e => Err e
    | None =>
        check! negb (is_nil (organizations d !! orgID))
          else fk_violation "projects_organization_id_fkey";
        check! negb (is_nil (users d !! createdBy)) else fk_violation "projects_created_by_fkey";
        Ok (p, set_projects (<[s_uuid c := p]> (projects d)) d)
    end).

Definition GetProject (id orgID : N) : M Project :=
  query (fun c d => one (sel (projects d) id (fun p => in_org c (Project_OrganizationID p) orgID))).
Definition GetProjectForUpdate (id orgID : N) : M Project :=
  query (fun c d => one (sel (projects d) id (fun p => in_org c (Project_OrganizationID p) orgID))).

Definition UpdateProject (id orgID : N) (teamID : option N) (name : string)
    (description : option string) (status priority : string) (startDate dueDate : option Z)
    : M Project :=
  stmt (fun c d =>
    match sel (projects d) id (fun p => in_org c (Project_OrganizationID p) orgID) with
    | None => Err ErrNoRows
    | Some p =>
        let p' := Project_set (s_now c) teamID name description status priority startDate dueDate p in
        match project_checks d p' with
        | Some e => Err e
        | None => Ok (p', set_projects (<[id := p']> (projects d)) d)
        end
    end).

(** Deleting a project removes its tasks. *)
Definition task_of_project (id orgID : N) (t : Task) : Prop :=
  Task_ProjectID t = id /\ Task_OrganizationID t = orgID.
#[global] Instance task_of_project_dec id orgID t : Decision (task_of_project id orgID t).
Proof. unfold task_of_project. apply _. Defined.
Definition DeleteProject (id orgID : N) : M unit :=
  stmt (fun c d =>
    match sel (projects d) id (fun p => in_org c (Project_OrganizationID p) orgID) with
    | None => Ok (tt, d)
    | Some _ => Ok (tt, set_projects (delete id (projects d))
                          (set_tasks (rows_where (fun t => ~ task_of_project id orgID t) (tasks d)) d))
    end).

Definition project_matches (c : StmtCtx) (orgID : N) (status priority : option string)
    (teamID : option N) (p : Project) : bool :=
  (in_org c (Project_OrganizationID p) orgID && opt_is status (Project_Status p) &&
   opt_is priority (Project_Priority p) &&
   match teamID with None => true | Some t => Project_TeamID p =?= Some t end)%bool.
Definition ListProjects orgID status priority teamID (sortBy : string) (sortDesc : bool)
    (limit offset : Z) : M (list Project) :=
  query (fun c d => Ok (limit_offset limit offset (order_by
    [sort_key sortBy sortDesc "name" (cmp_on Project_Name text_cmp);
     sort_key sortBy sortDesc "created_at" (cmp_on Project_CreatedAt Z.compare);
     sort_key sortBy sortDesc "updated_at" (cmp_on Project_UpdatedAt Z.compare);
     when (sortBy =?= "due_date") (cmp_on Project_DueDate
       (nulls_last (if sortDesc then desc Z.compare else Z.compare)));
     sort_key sortBy sortDesc "priority" (cmp_on (fun p => array_position priorities (Project_Priority p))
       (nulls_last Z.compare));
     cmp_on Project_ID N.compare]
    (List.filter (project_matches c orgID status priority teamID) (rows (projects d)))))).
Definition CountProjects orgID status priority teamID : M Z :=
  query (fun c d => Ok (count_rows (project_matches c orgID status priority teamID) (projects d))).

(** ** tasks *)
Definition task_statuses : list string :=
  ["todo"; "in_progress"; "blocked"; "in_review"; "done"; "cancelled"].

Definition task_checks (d : DB) (t : Task) : option error :=
  if negb (btrim_nonempty (Task_Title t) && Z.leb (char_length (Task_Title t)) 200)
  then Some (check_violation "tasks_title_check")
  else if negb (match Task_Description t with None => true | Some x => Z.leb (char_length x) 5000 end)
  then Some (check_violation "tasks_description_check")
  else if negb (is_one_of (Task_Status t) task_statuses)
  then Some (check_violation "tasks_status_check")
  else if negb (is_one_of (Task_Priority t) priorities)
  then Some (check_violation "tasks_priority_check")
  else if is_nil (sel (projects d) (Task_ProjectID t)
                   (fun p => Project_OrganizationID p =?= Task_OrganizationID t))
  then Some (fk_violation "tasks_project_fkey")
  else if negb (match Task_AssigneeID t with
                | None => true
                | Some u => exists_row (fun m =>
                    ((OrganizationMembership_UserID m =?= u) &&
                     (OrganizationMembership_OrganizationID m =?= Task_OrganizationID t))%bool)
                    (memberships d)
                end)
  then Some (fk_violation "tasks_assignee_fkey")
  else None.

Definition CreateTask (orgID projectID : N) (title : string) (description : option string)
    (status priority : string) (assigneeID : option N) (dueDate : option Z) (createdBy : N)
    : M Task :=
  stmt (fun c d =>
    let t := {| Task_ID := s_uuid c; Task_OrganizationID := orgID; Task_ProjectID := projectID;
                Task_Title := title; Task_Description := description; Task_Status := status;
                Task_Priority := priority; Task_AssigneeID := assigneeID; Task_DueDate := dueDate;
                Task_CreatedBy := createdBy; Task_CreatedAt := s_now c; Task_UpdatedAt := s_now c |} in
    check! rls_visible c orgID else ErrRLS;
    check! is_nil (tasks d !! s_uuid c) else unique_violation "tasks_pkey";
    match task_checks d t with
    | Some e => Err e
    | None =>
        check! negb (is_nil (organizations d !! orgID)) else fk_violation "tasks_organization_id_fkey";
        check! negb (is_nil (users d !! createdBy)) else fk_violation "tasks_created_by_fkey";
        Ok (t, set_tasks (<[s_uuid c := t]> (tasks d)) d)
    end).

Definition GetTask (id orgID : N) : M Task :=
  query (fun c d => one (sel (tasks d) id (fun t => in_org c (Task_OrganizationID t) orgID))).
Definition GetTaskForUpdate (id orgID : N) : M Task :=
  query (fun c d => one (sel (tasks d) id (fun t => in_org c (Task_OrganizationID t) orgID))).

Definition UpdateTask (id orgID : N) (title : string) (description : option string)
    (status priority : string) (assigneeID : option N) (dueDate : option Z) : M Task :=
  stmt (fun c d =>
    match sel (tasks d) id (fun t => in_org c (Task_OrganizationID t) orgID) with
    | None => Err ErrNoRows
    | Some t =>
        let t' := Task_set (s_now c) title description status priority assigneeID dueDate t in
        match task_checks d t' with
        | Some e => Err e
        | None => Ok (t', set_tasks (<[id := t']> (tasks d)) d)
        end
    end).

Definition DeleteTask (id orgID : N) : M unit :=
  stmt (fun c d =>
    match sel (tasks d) id (fun t => in_org c (Task_OrganizationID t) orgID) with
    | None => Ok (tt, d)
    | Some _ => Ok (tt, set_tasks (delete id (tasks d)) d)
    end).

(** The assignee filter has three exclusive modes: a user, nobody, anybody. *)
Definition task_matches (c : StmtCtx) (orgID : N) (projectID : option N)
    (status priority : option string) (assigneeID : option N) (unassigned : bool) (t : Task) : bool :=
  (in_org c (Task_OrganizationID t) orgID &&
   opt_is projectID (Task_ProjectID t) && opt_is status (Task_Status t) &&
   opt_is priority (Task_Priority t) &&
   match assigneeID with
   | Some u => Task_AssigneeID t =?= Some u
   | None => if unassigned then is_nil (Task_AssigneeID t) else true
   end)%bool.
Definition ListTasks orgID projectID status priority assigneeID unassigned (sortBy : string)
    (sortDesc : bool) (limit offset : Z) : M (list Task) :=
  query (fun c d => Ok (limit_offset limit offset (order_by
    [sort_key sortBy sortDesc "title" (cmp_on Task_Title text_cmp);
     sort_key sortBy sortDesc "created_at" (cmp_on Task_CreatedAt Z.compare);
     sort_key sortBy sortDesc "updated_at" (cmp_on Task_UpdatedAt Z.compare);
     when (sortBy =?= "due_date") (cmp_on Task_DueDate
       (nulls_last (if sortDesc then desc Z.compare else Z.compare)));
     sort_key sortBy sortDesc "priority" (cmp_on (fun t => array_position priorities (Task_Priority t))
       (nulls_last Z.compare));
     sort_key sortBy sortDesc "status" (cmp_on (fun t => array_position task_statuses (Task_Status t))
       (nulls_last Z.compare));
     cmp_on Task_ID N.compare]
    (List.filter (task_matches c orgID projectID status priority assigneeID unassigned)
       (rows (tasks d)))))).
Definition CountTasks orgID projectID status priority assigneeID unassigned : M Z :=
  query (fun c d => Ok (count_rows
    (task_matches c orgID projectID status priority assigneeID unassigned) (tasks d))).
End queries.
