(* ===== verification/Permissions.v ===== *)
(** * Permission keys, default grants and the authenticated principal

    Models [internal/permissions/permissions.go] and [internal/authctx/authctx.go]. *)
From S2P Require Import Prelude.
Local Open Scope string_scope.

Definition OrganizationsRead := "organizations.read".
Definition OrganizationsUpdate := "organizations.update".
Definition MembersRead := "members.read".
Definition MembersManage := "members.manage".
Definition RolesRead := "roles.read".
Definition RolesManage := "roles.manage".
Definition TeamsRead := "teams.read".
Definition TeamsManage := "teams.manage".
Definition ProjectsRead := "projects.read".
Definition ProjectsCreate := "projects.create".
Definition ProjectsUpdate := "projects.update".
Definition ProjectsDelete := "projects.delete".
Definition TasksRead := "tasks.read".
Definition TasksCreate := "tasks.create".
Definition TasksUpdate := "tasks.update".
Definition TasksDelete := "tasks.delete".
Definition APIKeysManage := "api_keys.manage".
Definition AuditRead := "audit.read".

Definition readOnly : list string :=
  [OrganizationsRead; MembersRead; RolesRead; TeamsRead; ProjectsRead; TasksRead].

(** [All] *)
Definition All : list string :=
  [OrganizationsRead; OrganizationsUpdate; MembersRead; MembersManage; RolesRead; RolesManage;
   TeamsRead; TeamsManage; ProjectsRead; ProjectsCreate; ProjectsUpdate; ProjectsDelete;
   TasksRead; TasksCreate; TasksUpdate; TasksDelete; APIKeysManage; AuditRead].

(** [DefaultForRole] *)
Definition DefaultForRole (roleName : string) : list string :=
  if ((roleName =?= "Owner") || (roleName =?= "Admin"))%bool then All
  else if roleName =?= "Manager" then
    readOnly ++ [ProjectsCreate; ProjectsUpdate; TasksCreate; TasksUpdate]
  else readOnly.

(** [authctx.Principal] and [authctx.Tenant] *)
Record Principal := {
  Principal_UserID : N; Principal_TokenID : N; Principal_Method : string;
  Principal_APIKeyID : N; Principal_OrganizationID : N
}.
Definition MethodBearer := "bearer".
Definition MethodAPIKey := "api_key".
Definition IsAPIKey (p : Principal) : bool := negb (Principal_APIKeyID p =?= uuid_Nil).

Record Tenant := {
  Tenant_OrganizationID : N; Tenant_MembershipID : N; Tenant_RoleID : N; Tenant_RoleName : string
}.

(** Every default grant is a known key. *)
Lemma DefaultForRole_known name : forallb (fun k => existsb (String.eqb k) All) (DefaultForRole name) = true.
Proof. unfold DefaultForRole. destruct (_ || _)%bool; [|destruct (_ =?= _)]; vm_compute; reflexivity. Qed.
