(* ===== verification/Pagination.v ===== *)
(** * Page requests

    Models [internal/httpx/pagination.go] over [Strconv.v].  [int32] and [int64] values are integers with their conversions written
    out. *)
From S2P Require Import Prelude.
From S2P Require Import GoError.
From S2P Require Import Schema.
From S2P Require Import Store.
From S2P Require Import GoStrings.
From S2P Require Import Strconv.
From S2P Require Import Sql.
Local Open Scope Z_scope.

(** ** PageRequest *)
Definition DefaultPageSize : Z := 20.
Definition MaxPageSize : Z := 100.

Record PageRequest := { Page : Z; PageSize : Z }.
(** [int32] subtraction wraps before the conversion to [int64]. *)
Definition wrap32 (z : Z) : Z :=
  let r := Z.modulo z (2 ^ 32) in if Z.ltb r (2 ^ 31) then r else r - 2 ^ 32.
Definition Limit (p : PageRequest) : Z := PageSize p.
Definition Offset (p : PageRequest) : Z := wrap64 (wrap32 (Page p - 1) * PageSize p).

Record Pagination := { Pg_Page : Z; Pg_PageSize : Z; Pg_Total : Z; Pg_TotalPages : Z }.

(** [values.Get]: the first value, or the empty string. *)
Definition values_Get (values : list (string * string)) (key : string) : string :=
  match List.find (fun kv => kv.1 =?= key) values with Some kv => kv.2 | None => EmptyString end.

(** [ParsePageRequest] *)
Definition ParsePageRequest (values : list (string * string)) : result PageRequest :=
  let raw := values_Get values "page" in
  let '(page, f1) :=
    if raw =?= EmptyString then (1, []) else
    match ParseInt 32 raw with
    | Some n => if Z.ltb n 1 then (1, [("page", "must be a positive integer")]) else (n, [])
    | None => (1, [("page", "must be a positive integer")])
    end%string in
  let raw := values_Get values "page_size" in
  let '(size, f2) :=
    if raw =?= EmptyString then (DefaultPageSize, []) else
    match ParseInt 32 raw with
    | Some n => if (Z.ltb n 1 || Z.ltb MaxPageSize n)%bool
                then (DefaultPageSize, [("page_size", "must be between 1 and 100")]) else (n, [])
    | None => (DefaultPageSize, [("page_size", "must be between 1 and 100")])
    end%string in
  match f1 ++ f2 with
  | [] => Ok {| Page := page; PageSize := size |}
  | fields => Err (NewValidationError fields)
  end.

(** [NewPagination]; Go's [/] truncates. *)
Definition NewPagination (req : PageRequest) (total : Z) : Pagination :=
  {| Pg_Page := Page req; Pg_PageSize := PageSize req; Pg_Total := total;
     Pg_TotalPages := if Z.ltb 0 (PageSize req)
       then Z.quot (wrap64 (total + PageSize req - 1)) (PageSize req) else 0 |}.

(** ** Facts *)
Definition valid_page (p : PageRequest) : Prop :=
  1 <= Page p < 2 ^ 31 /\ 1 <= PageSize p <= MaxPageSize.


Lemma wrap32_id z : - 2 ^ 31 <= z < 2 ^ 31 -> wrap32 z = z.
Proof.
  intros H. unfold wrap32. destruct (Z.le_gt_cases 0 z).
  - rewrite Z.mod_small by lia. destruct (Z.ltb_spec z (2 ^ 31)); lia.
  - replace (z mod 2 ^ 32) with (z + 2 ^ 32).
    + destruct (Z.ltb_spec (z + 2 ^ 32) (2 ^ 31)); lia.
    + rewrite <- (Z.mod_add z 1) by lia. rewrite Z.mod_small; lia.
Qed.

(** For a valid page the machine arithmetic is exact. *)
Lemma Offset_exact p : valid_page p -> Offset p = (Page p - 1) * PageSize p.
Proof.
  intros [HP HS]. unfold Offset, MaxPageSize in *. rewrite wrap32_id by lia. apply wrap64_id. nia.
Qed.

(** [ParsePageRequest] rejects with 400 or returns a page in range: a positive page
    number, a size between 1 and 100; the SQL limit and offset computed from it are exact
    (no [int32] or [int64] wrap-around) and non-negative. *)
Theorem ParsePageRequest_valid (values : list (string * string)) :
  match ParsePageRequest values with
  | Ok p => valid_page p /\ 1 <= Limit p <= MaxPageSize /\
            Offset p = (Page p - 1) * PageSize p /\ 0 <= Offset p < 2 ^ 63
  | Err e => status_of e = 400
  end.
Proof.
  assert (Hv : forall page size, 1 <= page < 2 ^ 31 -> 1 <= size <= MaxPageSize ->
    let p := {| Page := page; PageSize := size |} in
    valid_page p /\ 1 <= Limit p <= MaxPageSize /\
    Offset p = (Page p - 1) * PageSize p /\ 0 <= Offset p < 2 ^ 63).
  { intros page size HP HS p. assert (valid_page p) as Hp by (by split).
    rewrite (Offset_exact p Hp). unfold Limit, MaxPageSize in *. simpl. split_and!; try done; nia. }
  unfold ParsePageRequest.
  destruct (values_Get values "page" =?= _); [|destruct (ParseInt 32 (values_Get values "page")) as [n|] eqn:E1;
    [pose proof (ParseInt_range 32 _ _ E1); destruct (Z.ltb_spec n 1)|]];
  (destruct (values_Get values "page_size" =?= _); [|destruct (ParseInt 32 (values_Get values "page_size")) as [k|] eqn:E2;
    [pose proof (ParseInt_range 32 _ _ E2); destruct (Z.ltb_spec k 1); [|destruct (Z.ltb_spec MaxPageSize k)]|]]);
  cbn -[Z.pow]; try reflexivity; apply Hv; unfold MaxPageSize, DefaultPageSize in *; lia.
Qed.

(** The rows of page number [k] when the collection is [rs]. *)
Definition page_rows {R} (size : Z) (rs : list R) (k : Z) : list R :=
  let p := {| Page := k; PageSize := size |} in limit_offset (Limit p) (Offset p) rs.

Lemma chunks_concat {R} (s : nat) (rs : list R) n :
  (0 < s)%nat -> (length rs <= n * s)%nat ->
  concat (map (fun k => take s (drop (k * s) rs)) (seq 0 n)) = rs.
Proof.
  intros Hs. revert rs. induction n as [|n IH]; intros rs Hlen.
  - simpl in *. destruct rs; [done|simpl in *; lia].
  - simpl. rewrite drop_0. rewrite <- seq_shift, map_map.
    etrans; [|apply (take_drop s)]. f_equal.
    etrans; [|apply (IH (drop s rs)); rewrite length_drop; lia].
    f_equal. apply map_ext. intros k. rewrite drop_drop. do 2 f_equal.
Qed.

(** C37. Pagination is a partition: for every collection of fewer than [2^31] rows and
    every admitted page size, the pages 1 .. [TotalPages] concatenated are exactly the
    collection, in order, nothing skipped or repeated; each page has at most [size]
    rows. *)
Theorem pages_partition {R} (size : Z) (rs : list R) :
  1 <= size <= MaxPageSize -> Z.of_nat (length rs) < 2 ^ 31 ->
  let pages := Pg_TotalPages (NewPagination {| Page := 1; PageSize := size |} (Z.of_nat (length rs))) in
  concat (map (fun k => page_rows size rs (Z.of_nat k + 1)) (seq 0 (Z.to_nat pages))) = rs /\
  forall k, Z.of_nat (length (page_rows size rs k)) <= size.
Proof.
  intros Hs Hlen. cbv zeta.
  assert (Hpages : Pg_TotalPages (NewPagination {| Page := 1; PageSize := size |} (Z.of_nat (length rs)))
     = (Z.of_nat (length rs) + size - 1) / size).
  { unfold NewPagination, MaxPageSize in *. simpl. destruct (Z.ltb_spec 0 size); [|lia].
    rewrite wrap64_id by lia. apply Z.quot_div_nonneg; lia. }
  rewrite Hpages. set (n := (Z.of_nat (length rs) + size - 1) / size).
  assert (Hn : Z.of_nat (length rs) <= n * size /\ 0 <= n < 2 ^ 31).
  { unfold n. pose proof (Z.div_mod (Z.of_nat (length rs) + size - 1) size ltac:(lia)).
    pose proof (Z.mod_pos_bound (Z.of_nat (length rs) + size - 1) size ltac:(lia)).
    pose proof (Z.div_pos (Z.of_nat (length rs) + size - 1) size ltac:(lia) ltac:(lia)).
    split; [lia|]. split; [lia|]. apply Z.div_lt_upper_bound; nia. }
  split.
  - etrans; [|apply (chunks_concat (Z.to_nat size) rs (Z.to_nat n)); nia].
    f_equal. apply map_ext_in. intros k [_ Hk]%in_seq. unfold page_rows.
    assert (valid_page {| Page := Z.of_nat k + 1; PageSize := size |}) as Hv.
    { unfold valid_page, Page, PageSize. lia. }
    rewrite (Offset_exact _ Hv). unfold Limit, limit_offset. simpl.
    f_equal. f_equal. nia.
  - intros k. unfold page_rows, limit_offset. rewrite length_take. unfold Limit. simpl. lia.
Qed.
Lemma pages_partition_witness :
  concat (map (fun k => page_rows 2 [10; 20; 30; 40; 50] (Z.of_nat k + 1)) (seq 0 3)) = [10; 20; 30; 40; 50].
Proof. apply (pages_partition 2 [10; 20; 30; 40; 50]); [unfold MaxPageSize; lia | reflexivity]. Defined.
