(* ===== verification/Tenancy.v ===== *)
(** * Tenant isolation: what a statement for one organization cannot touch

    [outside o d] is everything in the tables that is not the business of organization
    [o]: the global tables and, of every tenant table, the rows of other organizations.
    [same_outside o] relates two states with the same outside; each statement of the
    [Queries*] files that takes an organization keeps it, by its own WHERE clause: the
    lemmas hold with or without row-level security, and under any pattern of failures. *)
From S2P Require Import Prelude.
From S2P Require Import GoError.
From S2P Require Import Schema.
From S2P Require Import Store.
From S2P Require Import Logic.
From S2P Require Import Sql.
From S2P Require Import QueriesOrg.
From S2P Require Import QueriesAuth.
From S2P Require Import QueriesInv.
From S2P Require Import QueriesWork.

Record Outside := {
  out_users : gmap N User; out_permissions : gmap N Permission;
  out_refresh_tokens : gmap N RefreshToken;
  out_organizations : gmap N Organization; out_roles : gmap N Role;
  out_memberships : gmap N OrganizationMembership; out_teams : gmap N Team;
  out_team_members : gmap N TeamMember; out_projects : gmap N Project; out_tasks : gmap N Task;
  out_activity_logs : gmap N ActivityLog; out_invitations : gmap N Invitation;
  out_api_keys : gmap N ApiKey; out_audit_logs : gmap N AuditLog; out_grants : gset (N * N)
}.
(** A grant of a role of another organization. *)
Definition foreign_grant (o : N) (rs : gmap N Role) (rp : N * N) : Prop :=
  match rs !! rp.1 with Some r => Role_OrganizationID r <> o | None => False end.
#[global] Instance foreign_grant_dec o rs rp : Decision (foreign_grant o rs rp).
Proof. unfold foreign_grant. destruct (rs !! rp.1); apply _. Defined.
Definition outside (o : N) (d : DB) : Outside := {|
  out_users := users d; out_permissions := permissions d; out_refresh_tokens := refresh_tokens d;
  out_organizations := rows_where (fun r => Organization_ID r <> o) (organizations d);
  out_roles := rows_where (fun r => Role_OrganizationID r <> o) (roles d);
  out_memberships := rows_where (fun r => OrganizationMembership_OrganizationID r <> o) (memberships d);
  out_teams := rows_where (fun r => Team_OrganizationID r <> o) (teams d);
  out_team_members := rows_where (fun r => TeamMember_OrganizationID r <> o) (team_members d);
  out_projects := rows_where (fun r => Project_OrganizationID r <> o) (projects d);
  out_tasks := rows_where (fun r => Task_OrganizationID r <> o) (tasks d);
  out_activity_logs := rows_where (fun r => ActivityLog_OrganizationID r <> o) (activity_logs d);
  out_invitations := rows_where (fun r => Invitation_OrganizationID r <> o) (invitations d);
  out_api_keys := rows_where (fun r => ApiKey_OrganizationID r <> o) (api_keys d);
  out_audit_logs := rows_where (fun r => AuditLog_OrganizationID r <> Some o) (audit_logs d);
  out_grants := filter (foreign_grant o (roles d)) (role_permissions d)
|}.
Definition same_outside (o : N) (d d' : DB) : Prop := outside o d = outside o d'.
#[global] Instance same_outside_equiv o : Equivalence (same_outside o).
Proof. split; [by intros ? | by intros ? ? | intros ? ? ?; unfold same_outside; congruence]. Qed.



(** ** Grants and roles *)
Lemma grants_roles_update (o : N) (rs : gmap N Role) (k : N) (r r' : Role) (g : gset (N * N)) :
  rs !! k = Some r -> Role_OrganizationID r = Role_OrganizationID r' ->
  filter (foreign_grant o (<[k := r']> rs)) g = filter (foreign_grant o rs) g.
Proof.
  intros Hk Ho. apply set_eq. intros [k' p]. rewrite !elem_of_filter. unfold foreign_grant. simpl.
  destruct (decide (k = k')) as [->|]; [rewrite lookup_insert_eq, Hk | rewrite lookup_insert_ne by done]; [|done].
  by rewrite Ho.
Qed.
Lemma grants_roles_insert (rs : gmap N Role) (k : N) (r : Role) (g : gset (N * N)) :
  rs !! k = None ->
  filter (foreign_grant (Role_OrganizationID r) (<[k := r]> rs)) g
  = filter (foreign_grant (Role_OrganizationID r) rs) g.
Proof.
  intros Hk. apply set_eq. intros [k' p]. rewrite !elem_of_filter. unfold foreign_grant. simpl.
  destruct (decide (k = k')) as [->|]; [rewrite lookup_insert_eq, Hk | by rewrite lookup_insert_ne].
  naive_solver.
Qed.
Lemma grants_roles_delete (o : N) (rs : gmap N Role) (k : N) (r : Role) (g : gset (N * N)) :
  rs !! k = Some r -> Role_OrganizationID r = o ->
  filter (foreign_grant o (delete k rs)) (filter (fun rp => rp.1 <> k) g)
  = filter (foreign_grant o rs) g.
Proof.
  intros Hk <-. apply set_eq. intros [k' p]. rewrite !elem_of_filter. unfold foreign_grant. simpl.
  destruct (decide (k = k')) as [->|]; [rewrite lookup_delete_eq, Hk | rewrite lookup_delete_ne by done];
    naive_solver.
Qed.

Lemma in_org_true `{Env} c r o : in_org c r o = true -> r = o.
Proof. unfold in_org. intros [_ Ho]%andb_true_iff. by apply beq_eq. Qed.

Lemma Ok_tt {B} u (b b' : B) : Ok (tt, b) = Ok (u, b') -> b = b'.
Proof. congruence. Qed.

(** One statement: follow its branches, then show that each table kept its outside. *)
Ltac stmt_inv :=
  repeat match goal with
  | H : require _ _ _ = Ok _ |- _ => apply require_Ok in H as [? H]
  | H : Ok (tt, _) = Ok (_, _) |- _ => apply Ok_tt in H as <-
  | H : Ok (_, _) = Ok (_, _) |- _ => injection H as <- <-
  | H : Ok ?p = Ok (_, _) |- _ => is_var p; injection H as ->
  | H : Ok _ = Ok _ |- _ => injection H as H
  | H : Err _ = Ok _ |- _ => discriminate H
  | H : one _ = Ok _ |- _ => apply one_Ok in H
  | H : match ?x with _ => _ end = Ok _ |- _ => destruct x eqn:?
  | H : sel _ _ _ = Some _ |- _ => apply sel_Some in H as [? ?]
  | H : is_nil ?x = true |- _ => destruct x eqn:?; [discriminate H|clear H]
  | H : (_ && _)%bool = true |- _ => apply andb_true_iff in H as [? ?]
  | H : in_org _ _ _ = true |- _ => apply in_org_true in H
  end.
(** The same for a statement that is known to have succeeded. *)
Ltac stmt_ok H :=
  let c := fresh "c" in let d := fresh "d" in let Hb := fresh "Hb" in
  apply stmt_Ok in H as (c & d & Hb & -> & ? & ?); cbv beta zeta in Hb; stmt_inv; simpl in *.
Ltac query_ok H :=
  let c := fresh "c" in let Hb := fresh "Hb" in
  apply query_Ok in H as (-> & c & Hb & ?); cbv beta zeta in Hb; stmt_inv; simpl in *.
Ltac stmt_branches :=
  let c := fresh "c" in let d := fresh "d" in let a := fresh "a" in let d' := fresh "d'" in
  let Hb := fresh "Hb" in
  apply pres_stmt; [typeclasses eauto|]; intros c d a d' Hb; cbv beta zeta in Hb; stmt_inv.
Ltac outside_tables :=
  try reflexivity; unfold same_outside, outside; simpl; f_equal;
  first [ reflexivity
        | symmetry; (eapply rows_where_insert_fresh; [eassumption | simpl; congruence])
        | symmetry; (eapply rows_where_insert_out; [eassumption | simpl; congruence | simpl; congruence])
        | symmetry; (eapply rows_where_delete_out; [eassumption | simpl; congruence])
        | idtac ].
Ltac outside_stmt := stmt_branches; outside_tables.

Section frames.
Context `{Env} (o : N).
Abbreviation keeps := (pres (same_outside o)).

Lemma CreateRole_out name desc sys : keeps (CreateRole o name desc sys).
Proof. outside_stmt. symmetry. by apply (grants_roles_insert _ _ {| Role_OrganizationID := o |}). Qed.
Lemma UpdateRole_out id name desc : keeps (UpdateRole id o name desc).
Proof. outside_stmt. symmetry. by eapply grants_roles_update. Qed.
Lemma DeleteRole_out id : keeps (DeleteRole id o).
Proof.
  outside_stmt.
  - symmetry. apply rows_where_filter_out. intros k i Hi Hout [_ Ho]. done.
  - symmetry. by eapply grants_roles_delete.
Qed.
Lemma CreateMembership_out u r st j : keeps (CreateMembership o u r st j).
Proof. outside_stmt. Qed.
Lemma UpdateMembershipRole_out id r : keeps (UpdateMembershipRole id o r).
Proof. outside_stmt. Qed.
Lemma CreateAuditLog_out actor a oc tt' ti ip ua rq tr md :
  keeps (CreateAuditLog (Some o) actor a oc tt' ti ip ua rq tr md).
Proof. outside_stmt. Qed.
Lemma CreateActivityLog_out actor a rt ri md : keeps (CreateActivityLog o actor a rt ri md).
Proof. outside_stmt. Qed.

Lemma put_invitation_out id i d r :
  Invitation_OrganizationID i = o ->
  match invitations d !! id with Some x => Invitation_OrganizationID x = o | None => True end ->
  put_invitation id i d = Ok r -> same_outside o d r.2.
Proof.
  unfold put_invitation. intros Hi Hx Hp. destruct r. stmt_inv.
  unfold same_outside, outside; simpl; f_equal; symmetry. destruct (invitations d !! id) eqn:E.
  - by eapply rows_where_insert_out; [eassumption|..]; congruence.
  - eapply rows_where_insert_fresh; [eassumption|congruence].
Qed.
Lemma CreateInvitation_out em r h b e : keeps (CreateInvitation o em r h b e).
Proof.
  stmt_branches. eapply (put_invitation_out _ _ _ (_, _)); [| |eassumption]; [done|].
  by simplify_option_eq.
Qed.
Lemma update_invitation_out id extra f :
  (forall now i, Invitation_OrganizationID (f now i) = Invitation_OrganizationID i) ->
  keeps (update_invitation id o extra f).
Proof.
  intros Hf. stmt_branches.
  eapply (put_invitation_out _ _ _ (_, _)); [| |eassumption]; [by rewrite Hf | by simplify_map_eq].
Qed.
Lemma RotateInvitationToken_out id h e : keeps (RotateInvitationToken id o h e).
Proof. by apply update_invitation_out. Qed.
Lemma AcceptInvitation_out id a b : keeps (AcceptInvitation id o a b).
Proof. by apply update_invitation_out. Qed.
Lemma RevokeInvitation_out id a : keeps (RevokeInvitation id o a).
Proof. by apply update_invitation_out. Qed.
Lemma MarkInvitationExpired_out id : keeps (MarkInvitationExpired id o).
Proof. by apply update_invitation_out. Qed.
Lemma RotateInvitationForDelivery_out id h : keeps (RotateInvitationForDelivery id o h).
Proof. by apply update_invitation_out. Qed.
Lemma MarkInvitationNotified_out id : keeps (MarkInvitationNotified id o).
Proof.
  unfold MarkInvitationNotified. pres_step; [apply pres_attempt; by apply update_invitation_out|].
  pres_auto.
Qed.

Lemma CreateAPIKey_out b n p l h e : keeps (CreateAPIKey o b n p l h e).
Proof. outside_stmt. Qed.
Lemma RevokeAPIKey_out id a : keeps (RevokeAPIKey id o a).
Proof. outside_stmt. Qed.
Lemma RevokeAPIKeyByID_out id : keeps (RevokeAPIKeyByID id o).
Proof. outside_stmt. Qed.

Lemma CreateTeam_out n ds b : keeps (CreateTeam o n ds b).
Proof. outside_stmt. Qed.
Lemma UpdateTeam_out id n ds : keeps (UpdateTeam id o n ds).
Proof. outside_stmt. Qed.
Lemma DeleteTeam_out id : keeps (DeleteTeam id o).
Proof.
  outside_stmt.
  - symmetry. apply rows_where_filter_out. intros k m Hm Hout [_ Ho]. done.
  - symmetry. apply rows_where_fmap_out; intros k p _ Hp; unfold unassign_team;
      (destruct (_ && _)%bool eqn:E; [|exact Hp || reflexivity]); apply andb_true_iff in E as [_ E];
      apply beq_eq in E; (exact Hp || by destruct Hp).
Qed.
Lemma AddTeamMember_out t u : keeps (AddTeamMember o t u).
Proof. outside_stmt. Qed.
Lemma RemoveTeamMember_out id t : keeps (RemoveTeamMember id t o).
Proof. outside_stmt. Qed.

Lemma CreateProject_out t n ds st pr sd dd b : keeps (CreateProject o t n ds st pr sd dd b).
Proof. outside_stmt. Qed.
Lemma UpdateProject_out id t n ds st pr sd dd : keeps (UpdateProject id o t n ds st pr sd dd).
Proof. outside_stmt. Qed.
Lemma DeleteProject_out id : keeps (DeleteProject id o).
Proof.
  outside_stmt. symmetry. apply rows_where_filter_out. intros k t Ht Hout [_ Ho]. done.
Qed.
Lemma CreateTask_out p t ds st pr a dd b : keeps (CreateTask o p t ds st pr a dd b).
Proof. outside_stmt. Qed.
Lemma UpdateTask_out id t ds st pr a dd : keeps (UpdateTask id o t ds st pr a dd).
Proof. outside_stmt. Qed.
Lemma DeleteTask_out id : keeps (DeleteTask id o).
Proof. outside_stmt. Qed.

(** Grants are addressed by role alone; they stay inside when the role is [o]'s. *)
Definition role_of (d : DB) (roleID : N) : Prop :=
  exists r, roles d !! roleID = Some r /\ Role_OrganizationID r = o.
Definition inside_role (roleID : N) (d d' : DB) : Prop :=
  role_of d roleID -> same_outside o d d' /\ role_of d' roleID.
#[global] Instance inside_role_pre roleID : PreOrder (inside_role roleID).
Proof.
  split.
  - intros d Hd. by split.
  - intros d1 d2 d3 H12 H23 H1. destruct (H12 H1) as [Ho H2]. destruct (H23 H2).
    split; [by etrans | done].
Qed.
Lemma SetRolePermissions_out roleID : pres (inside_role roleID) (SetRolePermissions roleID).
Proof.
  stmt_branches. intros Hr. destruct (grant_visible _ _ _); [|done]. split; [|done]. unfold same_outside, outside; simpl. f_equal.
  apply set_eq. intros [k p]. rewrite !elem_of_filter. unfold foreign_grant. simpl.
  destruct Hr as (r & Hr & Ho). split; [|tauto]. intros [Hf Hin]. split_and!; try done.
  intros ->. by rewrite Hr in Hf.
Qed.
Lemma AddRolePermission_out roleID p : pres (inside_role roleID) (AddRolePermission roleID p).
Proof.
  stmt_branches. intros Hr. split; [|done]. unfold same_outside, outside; simpl. f_equal.
  apply set_eq. intros [k q]. rewrite !elem_of_filter, elem_of_union, elem_of_singleton.
  unfold foreign_grant. simpl. destruct Hr as (r & Hr & Ho). split; [tauto|].
  intros [Hf [Heq|Hin]]; [|done]. simplify_eq. by rewrite Hr in Hf.
Qed.
End frames.

#[export] Hint Resolve CreateRole_out UpdateRole_out DeleteRole_out CreateMembership_out
  UpdateMembershipRole_out CreateAuditLog_out CreateActivityLog_out CreateInvitation_out
  RotateInvitationToken_out AcceptInvitation_out RevokeInvitation_out MarkInvitationExpired_out
  RotateInvitationForDelivery_out MarkInvitationNotified_out CreateAPIKey_out RevokeAPIKey_out
  RevokeAPIKeyByID_out CreateTeam_out UpdateTeam_out DeleteTeam_out AddTeamMember_out
  RemoveTeamMember_out CreateProject_out UpdateProject_out DeleteProject_out CreateTask_out
  UpdateTask_out DeleteTask_out SetRolePermissions_out AddRolePermission_out : teamflow_frame.
