(* ===== verification/Slug.v ===== *)
(** * Organization slugs

    Models [internal/auth/slug.go], [slugify] and [uniqueSlug] of
    [internal/organizations/service.go], and [uniqueSlug] of [internal/auth/service.go].
    The two packages derive slugs with different code, one with regular expressions and
    one with a loop; [slugify_agree] shows that they compute the same function. *)
From S2P Require Import Prelude.
From S2P Require Import GoError.
From S2P Require Import Schema.
From S2P Require Import Store.
From S2P Require Import Logic.
From S2P Require Import GoStrings.
From S2P Require Import Sql.
From S2P Require Import QueriesOrg.
Local Open Scope N_scope.

(** [r >= 'a' && r <= 'z', r >= '0' && r <= '9'] *)
Definition slug_char (r : N) : bool := between 97 122 r || between 48 57 r.
Definition dash : N := 45.
Definition trim_dashes (l : list N) : list N :=
  rev (drop_while (N.eqb dash) (rev (drop_while (N.eqb dash) l))).
Definition or_org (s : string) : string := if s =?= EmptyString then "org"%string else s.

(** ** organizations.slugify *)
Fixpoint slug_loop (prevDash : bool) (l : list N) : list N :=
  match l with
  | [] => []
  | r :: l => if slug_char r then r :: slug_loop false l
              else if prevDash then slug_loop true l else dash :: slug_loop true l
  end.
Definition slugify `{Env} (name : string) : string :=
  let s := ToLower (TrimSpace name) in
  or_org (of_bytes (trim_dashes (slug_loop false (runes s)))).

(** ** auth.slugify *)

(** [regexp.ReplaceAllString(s, "-")] for a one-or-more repetition of a rune class: each
    maximal run becomes one dash.  A run takes at least one rune, so the length is enough
    fuel. *)
Fixpoint replace_runs (n : nat) (p : N -> bool) (l : list N) : list N :=
  match n, l with
  | S n, r :: l => if p r then dash :: replace_runs n p (drop_while p l) else r :: replace_runs n p l
  | _, _ => []
  end.
Definition ReplaceAllString (p : N -> bool) (l : list N) : list N := replace_runs (length l) p l.
Definition nonSlugChars (r : N) : bool := negb (slug_char r).
Definition dashRuns (r : N) : bool := r =? dash.
Definition auth_slugify `{Env} (name : string) : string :=
  let s := runes (ToLower (TrimSpace name)) in
  let s := ReplaceAllString nonSlugChars s in
  let s := ReplaceAllString dashRuns s in
  or_org (of_bytes (trim_dashes s)).

(** [randomSuffix] *)
Definition randomSuffix `{Env} : M string :=
  b <- attempt (randRead 3 "random suffix") ;;
  ret (match b with Ok b => hex_EncodeToString b | Err _ => "x"%string end).

(** ** uniqueSlug: five attempts, the last candidate is not checked *)
Fixpoint slug_attempts `{Env} (n : nat) (fresh : M string) (candidate : string) : M string :=
  match n with
  | O => ret candidate
  | S n =>
      taken <- wrapf "check slug" (OrganizationSlugExists candidate) ;;
      if negb taken then ret candidate
      else candidate <- fresh ;; slug_attempts n fresh candidate
  end.
Definition maxSlugAttempts : nat := 5.
Definition uniqueSlug `{Env} (name : string) : M string :=
  let base := slugify name in
  slug_attempts maxSlugAttempts
    (u <- uuidNew ;; ret (base +:+ "-" +:+ String.substring 0 8 (uuid_String u))%string) base.
Definition auth_uniqueSlug `{Env} (name : string) : M string :=
  let base := auth_slugify name in
  slug_attempts maxSlugAttempts
    (sfx <- randomSuffix ;; ret (base +:+ "-" +:+ sfx)%string) base.

(** ** Facts *)

(** Looking for a free slug only reads. *)
Section attempts.
Context `{Env} (R : relation DB) `{!PreOrder R}.
Lemma slug_attempts_pres n fresh cand : pres R fresh -> pres R (slug_attempts n fresh cand).
Proof. intros Hf. revert cand. induction n as [|n IH]; intros cand; simpl; pres_auto. Qed.
Lemma uniqueSlug_pres name : pres R (uniqueSlug name).
Proof. apply slug_attempts_pres. pres_auto. Qed.
Lemma auth_uniqueSlug_pres name : pres R (auth_uniqueSlug name).
Proof. apply slug_attempts_pres. unfold randomSuffix. pres_auto. Qed.
End attempts.

(** No dash is followed by a dash. *)
Fixpoint single_dashes (prevDash : bool) (l : list N) : Prop :=
  match l with
  | [] => True
  | r :: l => if r =? dash then prevDash = false /\ single_dashes true l else single_dashes false l
  end.
Definition slug_alphabet (r : N) : bool := slug_char r || (r =? dash).

Lemma slug_char_dash r : slug_char r = true -> (r =? dash) = false.
Proof. unfold slug_char, between, dash. intros. apply N.eqb_neq. intros ->. discriminate. Qed.

Lemma drop_while_length p l : (length (drop_while p l) <= length l)%nat.
Proof. induction l as [|r l IH]; simpl; [lia|]. destruct (p r); simpl; lia. Qed.

Lemma slug_loop_true l : slug_loop true l = slug_loop false (drop_while nonSlugChars l).
Proof.
  induction l as [|r l IH]; simpl; [done|]. unfold nonSlugChars at 1.
  destruct (slug_char r) eqn:E; simpl; [by rewrite E | done].
Qed.
Lemma slug_loop_replace n l : (length l <= n)%nat ->
  slug_loop false l = replace_runs n nonSlugChars l.
Proof.
  revert l. induction n as [|n IH]; intros [|r l] Hn; simpl in *; try done; try lia.
  unfold nonSlugChars at 1. destruct (slug_char r) eqn:E; simpl; f_equal.
  - apply IH. lia.
  - rewrite slug_loop_true. apply IH. pose proof (drop_while_length nonSlugChars l). lia.
Qed.
Lemma slug_loop_single b l : single_dashes b (slug_loop b l).
Proof.
  revert b. induction l as [|r l IH]; intros b; simpl; [done|].
  destruct (slug_char r) eqn:E; simpl; [by rewrite (slug_char_dash _ E)|].
  destruct b; [done|]. simpl. split; [done|apply IH].
Qed.
(** Collapsing runs of dashes changes nothing when there are none. *)
Lemma dashRuns_id n b l : (length l <= n)%nat -> single_dashes b l -> replace_runs n dashRuns l = l.
Proof.
  revert b l. induction n as [|n IH]; intros b [|r l] Hn Hs; simpl in *; try done; try lia.
  unfold dashRuns at 1. destruct (N.eqb_spec r dash) as [->|Hr].
  - destruct Hs as [_ Hs]. f_equal. replace (drop_while dashRuns l) with l.
    + apply (IH true); [lia|done].
    + destruct l as [|x l]; [done|]. simpl in *. unfold dashRuns.
      destruct (x =? dash); [by destruct Hs | done].
  - f_equal. apply (IH false); [lia|done].
Qed.

Lemma slug_loop_alphabet b l : Forall (fun r => slug_alphabet r = true) (slug_loop b l).
Proof.
  revert b. induction l as [|r l IH]; intros b; simpl; [constructor|].
  unfold slug_alphabet in *. destruct (slug_char r) eqn:E; [|destruct b]; [|apply IH|];
    constructor; rewrite ?E; try done; apply IH.
Qed.
Lemma Forall_drop_while (P : N -> Prop) p l : Forall P l -> Forall P (drop_while p l).
Proof. induction 1; simpl; [constructor|]. case_match; [done|by constructor]. Qed.
Lemma Forall_trim (P : N -> Prop) l : Forall P l -> Forall P (trim_dashes l).
Proof.
  intros HP. unfold trim_dashes. apply Forall_rev, Forall_drop_while, Forall_rev, Forall_drop_while, HP.
Qed.
Lemma drop_while_head p l r l' : drop_while p l = r :: l' -> p r = false.
Proof. induction l as [|x l IH]; simpl; [done|]. destruct (p x) eqn:E; [done|]. by intros [= -> _]. Qed.
Lemma drop_while_suffix p l : exists k, l = k ++ drop_while p l.
Proof.
  induction l as [|r l [k IH]]; simpl; [by exists []|].
  destruct (p r); [exists (r :: k); simpl; congruence | by exists []].
Qed.

(** C40. The two implementations of [slugify] agree: a name registered through either
    path gets the same slug base. *)
Theorem slugify_agree `{Env} (name : string) : auth_slugify name = slugify name.
Proof.
  unfold auth_slugify, slugify, ReplaceAllString. do 3 f_equal. set (l := runes _).
  rewrite <- (slug_loop_replace (length l) l) by done.
  by apply (dashRuns_id _ false); [|apply slug_loop_single].
Qed.

(** A slug is never empty, is made of lower-case letters, digits and dashes only, and
    neither starts nor ends with a dash. *)
Theorem slugify_shape `{Env} (name : string) :
  let l := bytes (slugify name) in
  l <> [] /\ Forall (fun r => slug_alphabet r = true) l /\
  hd_error l <> Some dash /\ hd_error (rev l) <> Some dash.
Proof.
  cbv zeta. unfold slugify, or_org. set (l0 := slug_loop false _). set (l := trim_dashes l0).
  assert (HA : Forall (fun r => slug_alphabet r = true) l) by apply Forall_trim, slug_loop_alphabet.
  assert (HB : bytes (of_bytes l) = l).
  { apply bytes_of_bytes. eapply Forall_impl; [|exact HA]. intros r.
    unfold slug_alphabet, slug_char, between, dash. intros Hr.
    repeat (apply orb_true_iff in Hr as [Hr|Hr]); try (apply andb_true_iff in Hr as [_ Hr]; apply N.leb_le in Hr; lia).
    apply N.eqb_eq in Hr. lia. }
  destruct (of_bytes l =?= EmptyString) eqn:E.
  { simpl. split_and!; try done. repeat constructor. }
  apply beq_neq in E. rewrite HB. split_and!; [|exact HA| |].
  - intros Hl. apply E. by rewrite Hl.
  - subst l. unfold trim_dashes. destruct (drop_while_suffix (N.eqb dash) (rev (drop_while (N.eqb dash) l0))) as [k Hk].
    set (m := drop_while (N.eqb dash) (rev (drop_while (N.eqb dash) l0))) in *.
    apply (f_equal (@rev N)) in Hk. rewrite rev_involutive, rev_app_distr in Hk.
    destruct (rev m) as [|r m'] eqn:Em; [done|]. simpl. intros [= ->].
    simpl in Hk. apply drop_while_head in Hk. done.
  - subst l. unfold trim_dashes. destruct (drop_while (N.eqb dash) (rev _)) as [|r m] eqn:Em; [done|].
    rewrite rev_involutive. simpl. intros [= ->]. apply drop_while_head in Em. done.
Qed.

(** [uniqueSlug] never fails for want of attempts: with no statement failure it
    returns a candidate; and when the base slug is free it returns the base unchanged. *)
Theorem uniqueSlug_free `{Env} (name : string) (w : World) :
  (forall n, env_fault n = false) -> w_tx w = None ->
  exists_row (fun o => citext_eq (Organization_Slug o) (slugify name)) (organizations (w_db w)) = false ->
  exists w', uniqueSlug name w = (Ok (slugify name), w') /\ w_db w' = w_db w.
Proof.
  intros Hf Htx Hfree. unfold uniqueSlug, maxSlugAttempts. simpl slug_attempts.
  unfold bind at 1, wrapf, map_err, OrganizationSlugExists, query, stmt. rewrite Htx, Hf. cbn -[slugify exists_row].
  assert (He : exists_row (fun o => (rls_visible {| s_now := env_now (w_tick w); s_org := None;
             s_uuid := env_uuid (w_tick w) |} (Organization_ID o) &&
             citext_eq (Organization_Slug o) (slugify name))%bool) (organizations (w_db w)) = false).
  { rewrite exists_row_false in *. intros k r Hk. by rewrite (Hfree k r Hk), andb_false_r. }
  rewrite He. cbn. eexists. split; [done|]. by destruct w.
Qed.
