(* ===== verification/AuditTrail.v ===== *)
(** * Audit and activity records

    Models [internal/audit/audit.go] (events and the SQL recorder) and
    [internal/activity/activity.go].  The reading side of the audit log is in
    [AuditService.v], after the authorization interface.  Logging and the metrics counter
    have no effect on the state. *)
From S2P Require Import Prelude.
From S2P Require Import GoError.
From S2P Require Import Schema.
From S2P Require Import Store.
From S2P Require Import Logic.
From S2P Require Import GoStrings.
From S2P Require Import Json.
From S2P Require Import Sql.
From S2P Require Import QueriesOrg.
From S2P Require Import QueriesAuth.
From S2P Require Import Tenancy.
Local Open Scope string_scope.

Definition OutcomeSuccess := "success".
Definition OutcomeFailure := "failure".
Definition OutcomeDenied := "denied".

Definition TargetUser := "user".
Definition TargetRefreshToken := "refresh_token".
Definition TargetOrganization := "organization".
Definition TargetMembership := "membership".
Definition TargetRole := "role".
Definition TargetInvitation := "invitation".
Definition TargetAPIKey := "api_key".

Definition AuthRegistered := "auth.registered".
Definition AuthLoginSucceeded := "auth.login.succeeded".
Definition AuthLoginFailed := "auth.login.failed".
Definition AuthTokensRefreshed := "auth.tokens.refreshed".
Definition AuthTokenReuseDetected := "auth.token.reuse_detected".
Definition AuthLoggedOut := "auth.logged_out".
Definition AuthLoggedOutAll := "auth.logged_out_all".
Definition OrganizationCreated := "organization.created".
Definition OrganizationRenamed := "organization.updated".
Definition RoleCreated := "role.created".
Definition RoleUpdated := "role.updated".
Definition RoleDeleted := "role.deleted".
Definition MemberRoleAssigned := "member.role_assigned".
Definition InvitationCreated := "invitation.created".
Definition InvitationSent := "invitation.sent".
Definition InvitationResent := "invitation.resent".
Definition InvitationRevoked := "invitation.revoked".
Definition InvitationAccepted := "invitation.accepted".
Definition APIKeyCreated := "apikey.created".
Definition APIKeyRevoked := "apikey.revoked".

Definition maxMetadataLength : Z := 4000.

(** ** Event *)
Record Event := {
  Event_OrganizationID : option N; Event_ActorUserID : option N;
  Event_Action : string; Event_Outcome : string;
  Event_TargetType : string; Event_TargetID : string;
  Event_IPAddress : string; Event_UserAgent : string;
  Event_RequestID : string; Event_TraceID : string;
  Event_Metadata : option (list (string * json))
}.
(** The composite literal the call sites start from. *)
Definition new_event (action outcome targetType targetID : string) (org actor : option N) : Event :=
  {| Event_OrganizationID := org; Event_ActorUserID := actor; Event_Action := action;
     Event_Outcome := outcome; Event_TargetType := targetType; Event_TargetID := targetID;
     Event_IPAddress := ""; Event_UserAgent := ""; Event_RequestID := ""; Event_TraceID := "";
     Event_Metadata := None |}.
Definition WithActor (userID : N) (e : Event) : Event :=
  {| Event_OrganizationID := Event_OrganizationID e; Event_ActorUserID := Some userID;
     Event_Action := Event_Action e; Event_Outcome := Event_Outcome e;
     Event_TargetType := Event_TargetType e; Event_TargetID := Event_TargetID e;
     Event_IPAddress := Event_IPAddress e; Event_UserAgent := Event_UserAgent e;
     Event_RequestID := Event_RequestID e; Event_TraceID := Event_TraceID e;
     Event_Metadata := Event_Metadata e |}.
Definition WithRequest (ip userAgent requestID traceID : string) (e : Event) : Event :=
  {| Event_OrganizationID := Event_OrganizationID e; Event_ActorUserID := Event_ActorUserID e;
     Event_Action := Event_Action e; Event_Outcome := Event_Outcome e;
     Event_TargetType := Event_TargetType e; Event_TargetID := Event_TargetID e;
     Event_IPAddress := ip; Event_UserAgent := userAgent;
     Event_RequestID := requestID; Event_TraceID := traceID;
     Event_Metadata := Event_Metadata e |}.
Definition WithTarget (targetType targetID : string) (e : Event) : Event :=
  {| Event_OrganizationID := Event_OrganizationID e; Event_ActorUserID := Event_ActorUserID e;
     Event_Action := Event_Action e; Event_Outcome := Event_Outcome e;
     Event_TargetType := targetType; Event_TargetID := targetID;
     Event_IPAddress := Event_IPAddress e; Event_UserAgent := Event_UserAgent e;
     Event_RequestID := Event_RequestID e; Event_TraceID := Event_TraceID e;
     Event_Metadata := Event_Metadata e |}.
Definition WithMetadata (metadata : list (string * json)) (e : Event) : Event :=
  {| Event_OrganizationID := Event_OrganizationID e; Event_ActorUserID := Event_ActorUserID e;
     Event_Action := Event_Action e; Event_Outcome := Event_Outcome e;
     Event_TargetType := Event_TargetType e; Event_TargetID := Event_TargetID e;
     Event_IPAddress := Event_IPAddress e; Event_UserAgent := Event_UserAgent e;
     Event_RequestID := Event_RequestID e; Event_TraceID := Event_TraceID e;
     Event_Metadata := Some metadata |}.

(** [normalize] touches the outcome only. *)
Definition set_outcome (o : string) (e : Event) : Event :=
  {| Event_OrganizationID := Event_OrganizationID e; Event_ActorUserID := Event_ActorUserID e;
     Event_Action := Event_Action e; Event_Outcome := o;
     Event_TargetType := Event_TargetType e; Event_TargetID := Event_TargetID e;
     Event_IPAddress := Event_IPAddress e; Event_UserAgent := Event_UserAgent e;
     Event_RequestID := Event_RequestID e; Event_TraceID := Event_TraceID e;
     Event_Metadata := Event_Metadata e |}.
Definition normalize (e : Event) : Event :=
  let e := if Event_Outcome e =?= "" then set_outcome OutcomeSuccess e else e in
  if Event_Action e =?= "" then set_outcome OutcomeFailure e else e.

(** The metadata that is stored: the event's, or a marker when its text is too long. *)
Definition bounded_metadata (m : option (list (string * json))) : json :=
  let metadata := JObj (match m with Some fs => fs | None => [] end) in
  let raw := Marshal metadata in
  if Z.ltb maxMetadataLength (len raw)
  then JObj [("bytes", JNum (len raw)); ("truncated", JBool true)] else metadata.

Definition optional (value : string) : option string :=
  if value =?= "" then None else Some value.

Section recorder.
Context `{Env}.

(** [params] followed by [CreateAuditLog], the part [Record] and [RecordTx] share. *)
Definition write_event (e : Event) : M AuditLog :=
  let event := normalize e in
  if Event_Action event =?= "" then fail (ErrorsNew "audit: an action is required") else
  CreateAuditLog (Event_OrganizationID event) (Event_ActorUserID event) (Event_Action event)
    (Event_Outcome event) (optional (Event_TargetType event)) (optional (Event_TargetID event))
    (optional (Event_IPAddress event)) (optional (Event_UserAgent event))
    (optional (Event_RequestID event)) (optional (Event_TraceID event))
    (bounded_metadata (Event_Metadata event)).

(** [SQLRecorder.Record]: the outcome of the write is logged, never returned. *)
Definition Record_ (e : Event) : M unit :=
  attempt (write_event (normalize e)) ;;; ret tt.

(** [SQLRecorder.RecordTx] *)
Definition RecordTx (e : Event) : M unit :=
  if Event_Action (normalize e) =?= "" then fail (ErrorsNew "audit: an action is required") else
  wrapf ("audit: record " +:+ Event_Action e) (write_event e) ;;; ret tt.

(** ** Activity *)
Definition activity_Record (orgID : N) (actor : option N) (action resourceType : string)
    (resourceID : N) (metadata : option (list (string * json))) : M unit :=
  wrapf ("record activity " +:+ action)
    (CreateActivityLog orgID actor action resourceType resourceID
       (JObj (match metadata with Some fs => fs | None => [] end))).

(** ** Facts *)

(** Recording keeps other organizations' rows, whatever happens. *)
Lemma write_event_pres R `{!PreOrder R} e :
  (forall a b c x y ip ua rq tr md, pres R (CreateAuditLog (Event_OrganizationID e) a b c x y ip ua rq tr md)) ->
  pres R (write_event e).
Proof.
  intros HR. unfold write_event. destruct (Event_Action (normalize e) =?= ""); [by apply pres_fail|].
  assert (Event_OrganizationID (normalize e) = Event_OrganizationID e) as ->; [|apply HR].
  unfold normalize. by repeat case_match.
Qed.
Lemma RecordTx_pres R `{!PreOrder R} e :
  (forall a b c x y ip ua rq tr md, pres R (CreateAuditLog (Event_OrganizationID e) a b c x y ip ua rq tr md)) ->
  pres R (RecordTx e).
Proof.
  intros HR. unfold RecordTx. destruct (Event_Action (normalize e) =?= ""); [by apply pres_fail|].
  apply pres_bind; [done| |intros _; by apply pres_ret]. by apply pres_wrapf, write_event_pres.
Qed.
Lemma RecordTx_out o e : Event_OrganizationID e = Some o -> pres (same_outside o) (RecordTx e).
Proof. intros Ho. apply RecordTx_pres; [apply _|]. intros. rewrite Ho. apply CreateAuditLog_out. Qed.
Lemma activity_Record_out o a ac rt ri md : pres (same_outside o) (activity_Record o a ac rt ri md).
Proof. unfold activity_Record. pres_auto. Qed.

(** One new activity row, and nothing else of the activity log changed. *)
Definition logged (o u : N) (action kind : string) (rid : N) (d d' : DB) : Prop := exists a,
  activity_logs d !! ActivityLog_ID a = None /\
  activity_logs d' = <[ActivityLog_ID a := a]> (activity_logs d) /\
  ActivityLog_OrganizationID a = o /\ ActivityLog_ActorUserID a = Some u /\
  ActivityLog_Action a = action /\ ActivityLog_ResourceType a = kind /\ ActivityLog_ResourceID a = rid.
(** The same, with what the entry says. *)
Definition logged_with (o u : N) (action kind : string) (rid : N) (md : list (string * json)) (d d' : DB) : Prop := exists a,
  activity_logs d !! ActivityLog_ID a = None /\ activity_logs d' = <[ActivityLog_ID a := a]> (activity_logs d) /\
  ActivityLog_OrganizationID a = o /\ ActivityLog_ActorUserID a = Some u /\ ActivityLog_Action a = action /\
  ActivityLog_ResourceType a = kind /\ ActivityLog_ResourceID a = rid /\ ActivityLog_Metadata a = JObj md.
Lemma activity_Record_with o u ac rt ri md w x w' :
  activity_Record o (Some u) ac rt ri (Some md) w = (Ok x, w') ->
  logged_with o u ac rt ri md (w_db w) (w_db w') /\ exists t, w_db w' = set_activity_logs t (w_db w).
Proof.
  unfold activity_Record. intros E%wrapf_Ok. stmt_ok E. split; [|eauto].
  match goal with |- logged_with _ _ _ _ _ _ _ (set_activity_logs (<[_ := ?a]> _) _) => exists a end.
  by split_and!.
Qed.
Lemma activity_Record_Ok o u ac rt ri md w x w' :
  activity_Record o (Some u) ac rt ri md w = (Ok x, w') ->
  logged o u ac rt ri (w_db w) (w_db w') /\
  exists t, w_db w' = set_activity_logs t (w_db w).
Proof.
  unfold activity_Record. intros E%wrapf_Ok. stmt_ok E. split; [|eauto].
  match goal with |- logged _ _ _ _ _ _ (set_activity_logs (<[_ := ?a]> _) _) => exists a end.
  by split_and!.
Qed.
End recorder.

(** The stored metadata text is bounded: an event with oversized metadata keeps a marker of
    at most 41 bytes, plus the digits of the size. *)
Lemma bounded_metadata_cases m :
  let j := JObj (match m with Some fs => fs | None => [] end) in
  bounded_metadata m = j /\ (len (Marshal j) <= maxMetadataLength)%Z \/
  bounded_metadata m = JObj [("bytes", JNum (len (Marshal j))); ("truncated", JBool true)] /\
  (maxMetadataLength < len (Marshal j))%Z.
Proof.
  cbv zeta. unfold bounded_metadata. destruct (Z.ltb_spec maxMetadataLength (len (Marshal (JObj (match m with Some fs => fs | None => [] end))))); auto.
Qed.

(** [Record] never fails its caller: with every pattern of failures it returns
    normally, and the only table it may touch is the audit log. *)
Theorem Record_total `{Env} (e : Event) (w : World) :
  exists w', Record_ e w = (Ok tt, w') /\
    exists t, w_db w' = set_audit_logs t (w_db w) /\ audit_logs (w_db w) ⊆ t.
Proof.
  set (R := fun d d' => exists t, d' = set_audit_logs t d /\ audit_logs d ⊆ t).
  assert (PreOrder R).
  { split.
    - intros d. exists (audit_logs d). by destruct d.
    - intros d1 d2 d3 (t & -> & Ht) (t' & -> & Ht'). exists t'. split; [done|].
      etrans; [exact Ht|exact Ht']. }
  assert (Hp : pres R (write_event (normalize e))).
  { apply write_event_pres; [done|]. intros. stmt_branches. eexists. split; [done|].
    by apply insert_subseteq. }
  specialize (Hp w) as [_ HR]. unfold Record_, bind, attempt.
  destruct (write_event (normalize e) w) as [r w1]. simpl in *. eexists. split; [done|exact HR].
Qed.
#[export] Hint Resolve RecordTx_out activity_Record_out : teamflow_frame.
