(* ===== verification/Authz.v ===== *)
(** * The authorization interface

    The abstract meaning of "user [u] may do [p] in organization [o]" and the interface
    the feature services call ([audit.Authorizer]; the other packages use the organizations
    service through the same method).  [Organizations.v] implements it; the theorems of the
    clients hold for any implementation that satisfies the laws. *)
From S2P Require Import Prelude.
From S2P Require Import GoError.
From S2P Require Import Schema.
From S2P Require Import Store.
From S2P Require Import Logic.
From S2P Require Import Permissions.
From S2P Require Import Tenancy.
Local Open Scope string_scope.

(** The tenant a user resolves to: an active membership in an active organization, with a
    role of that organization. *)
Definition member_tenant (d : DB) (userID orgID : N) (t : Tenant) : Prop :=
  exists mid m org role,
    memberships d !! mid = Some m /\ OrganizationMembership_OrganizationID m = orgID /\
    OrganizationMembership_UserID m = userID /\ OrganizationMembership_Status m = "active" /\
    organizations d !! orgID = Some org /\ Organization_Status org = "active" /\
    roles d !! OrganizationMembership_RoleID m = Some role /\
    Role_OrganizationID role = orgID /\
    t = {| Tenant_OrganizationID := orgID; Tenant_MembershipID := OrganizationMembership_ID m;
           Tenant_RoleID := OrganizationMembership_RoleID m; Tenant_RoleName := Role_Name role |}.
(** The role holds the permission. *)
Definition grants (d : DB) (roleID : N) (permission : string) : Prop :=
  exists pid p, permissions d !! pid = Some p /\ Permission_Key p = permission /\
    (roleID, Permission_ID p) ∈ role_permissions d.
Definition authorized (d : DB) (userID orgID : N) (permission : string) (t : Tenant) : Prop :=
  member_tenant d userID orgID t /\ grants d (Tenant_RoleID t) permission.

(** Code that never changes the tables. *)
Definition reads `{Env} {A} (m : M A) : Prop := pres eq m.

Class Authorizer `{Env} := {
  Authorize : N -> N -> string -> M Tenant;
  Authorize_reads u o p : reads (Authorize u o p);
  Authorize_sound u o p w t w' : Authorize u o p w = (Ok t, w') -> authorized (w_db w) u o p t
}.

Create HintDb teamflow_ops.

Section gate.
Context `{Authorizer}.

Lemma Authorize_pres R `{!PreOrder R} u o p : pres R (Authorize u o p).
Proof. intros w. destruct (Authorize_reads u o p w) as [Ht Hd]. rewrite <- Hd. by split. Qed.

(** What a successful request says about its caller. *)
Lemma gate_Ok {A} u o p (k : Tenant -> M A) w a w' :
  bind (Authorize u o p) k w = (Ok a, w') ->
  exists t w1, authorized (w_db w) u o p t /\ w_db w1 = w_db w /\ k t w1 = (Ok a, w').
Proof.
  intros (t & w1 & E & Hk)%bind_Ok. exists t, w1. split_and!; [by eapply Authorize_sound| |done].
  destruct (Authorize_reads u o p w) as [_ Hd]. by rewrite E in Hd.
Qed.
End gate.
#[export] Hint Resolve Authorize_pres : teamflow_frame.

(** A failed request leaves the tables as they were: [keeps_on_error m]. *)
Definition keeps_on_error `{Env} {A} (m : M A) : Prop :=
  forall w e w', m w = (Err e, w') -> w_db w' = w_db w.
Section atomic.
Context `{Env}.
Lemma reads_keeps {A} (m : M A) : reads m -> keeps_on_error m.
Proof. intros Hm w e w' E. destruct (Hm w) as [_ Hd]. by rewrite E in Hd. Qed.
(** Reads first, then one transaction, then pure post-processing. *)
Lemma keeps_bind_reads {A B} (m : M A) (k : A -> M B) :
  reads m -> (forall a, keeps_on_error (k a)) -> keeps_on_error (bind m k).
Proof.
  intros Hm Hk w e w'. unfold bind. destruct (Hm w) as [_ Hd].
  destruct (m w) as [[a|e1] w1]; simpl in *; intros E.
  - rewrite (Hk _ _ _ _ E). done.
  - by simplify_eq.
Qed.
Lemma keeps_bind_ret {A B} (m : M A) (f : A -> B) :
  keeps_on_error m -> keeps_on_error (bind m (fun a => ret (f a))).
Proof. intros Hm w e w'. unfold bind. destruct (m w) as [[a|e1] w1] eqn:E; intros; simplify_eq/=. eauto. Qed.
Lemma keeps_map_err {A} f (m : M A) : keeps_on_error m -> keeps_on_error (map_err f m).
Proof. intros Hm w e w'. unfold map_err. destruct (m w) as [[a|e1] w1] eqn:E; intros; simplify_eq/=. eauto. Qed.
Lemma keeps_tx {A} o (fn : M A) : pres (fun _ _ => True) fn -> keeps_on_error (WithTenantTx o fn).
Proof. intros Hp w e w' E. by eapply WithTenantTx_Err. Qed.
End atomic.

(** ** The contract of a tenant operation

    What every operation of a feature service promises: it succeeds only for a caller with
    the permission; it cannot reach another organization's data; if it fails, it has changed
    nothing.  All three hold under any pattern of failures, and whether or not the database
    enforces row-level security. *)
Definition granted `{Env} {A} (u o : N) (p : string) (m : M A) : Prop := forall w a w',
  m w = (Ok a, w') -> exists t, authorized (w_db w) u o p t.
Record tenant_op `{Env} {A} (u o : N) (p : string) (m : M A) : Prop := {
  op_granted : granted u o p m;
  op_isolated : pres (same_outside o) m;
  op_atomic : keeps_on_error m
}.
(** So for a caller without the permission it fails and the tables stay as they are. *)
Lemma op_mediated `{Env} {A} u o p (m : M A) w : tenant_op u o p m ->
  (forall t, ~ authorized (w_db w) u o p t) -> exists e, (m w).1 = Err e /\ w_db (m w).2 = w_db w.
Proof.
  intros [Hg _ Ha] Hn. destruct (m w) as [[a|e] w1] eqn:E; [|exists e; split; [done|by eapply Ha]].
  destruct (Hg w a w1 E) as [t Ht]. by destruct (Hn t).
Qed.

Section contract.
Context `{Authorizer}.
(** The shape of every operation: the gate, one tenant transaction, pure results. *)
Lemma tenant_op_gate {A} u o p (k : Tenant -> M A) :
  (forall t, pres (same_outside o) (k t)) -> (forall t, keeps_on_error (k t)) ->
  tenant_op u o p (bind (Authorize u o p) k).
Proof.
  intros Hp Hk. split.
  - intros w a w' (t & w1 & Ht & _)%gate_Ok. by exists t.
  - pres_auto.
  - apply keeps_bind_reads; [apply Authorize_reads|done].
Qed.
(** Operations are functions of the world: equal ones have the same contract. *)
Lemma tenant_op_ext {A} u o p (m m' : M A) :
  (forall w, m w = m' w) -> tenant_op u o p m -> tenant_op u o p m'.
Proof.
  intros Heq [Hm Hi Ha]. split.
  - intros w a w'. rewrite <- Heq. apply Hm.
  - intros w. rewrite <- Heq. apply Hi.
  - intros w e w'. rewrite <- Heq. apply Ha.
Qed.
End contract.
Lemma pres_weaken `{Env} (R R' : relation DB) {A} (m : M A) :
  (forall d d', R d d' -> R' d d') -> pres R m -> pres R' m.
Proof. intros HR Hm w. destruct (Hm w). split; auto. Qed.
Lemma pres_True `{Env} o {A} (m : M A) : pres (same_outside o) m -> pres (fun _ _ => True) m.
Proof. by apply pres_weaken. Qed.
Lemma keeps_reject `{Env} b e : keeps_on_error (reject_if b e).
Proof. unfold reject_if, keeps_on_error, fail, ret. destruct b; congruence. Qed.
Lemma keeps_ret `{Env} {A} (a : A) : keeps_on_error (ret a).
Proof. intros w e w'. unfold ret. congruence. Qed.

(** One tenant transaction whose body stays inside the organization. *)
Lemma keeps_tenant_tx `{Env} o {A} (fn : M A) :
  pres (same_outside o) fn -> keeps_on_error (WithTenantTx o fn).
Proof. intros Hp. by eapply keeps_tx, pres_True. Qed.

Ltac keeps_step :=
  match goal with
  | |- keeps_on_error (WithTenantTx _ _) => apply keeps_tenant_tx
  | |- keeps_on_error (wrapf _ _) => apply keeps_map_err
  | |- keeps_on_error (map_err _ _) => apply keeps_map_err
  | |- keeps_on_error (bind _ (fun a => ret _)) => apply keeps_bind_ret
  end.
(** The contract of one operation: name the steps, the frame lemmas do the rest. *)
Ltac tenant_op_auto :=
  apply tenant_op_gate; intros ?; [pres_auto | repeat keeps_step; pres_auto].
