(* ===== verification/Organizations.v ===== *)
(** * Organizations: tenant resolution, permissions, roles, members

    Models [internal/organizations/service.go].  It implements the authorization interface
    of [Authz.v]. *)
From S2P Require Import Prelude.
From S2P Require Import GoError.
From S2P Require Import Schema.
From S2P Require Import Store.
From S2P Require Import Logic.
From S2P Require Import GoStrings.
From S2P Require Import Sql.
From S2P Require Import QueriesOrg.
From S2P Require Import Permissions.
From S2P Require Import Tenancy.
From S2P Require Import Slug.
From S2P Require Import Authz.
From S2P Require Import Demo.
Local Open Scope string_scope.

Definition maintenanceBatchSize : Z := 1000.
Definition defaultRoles : list (string * string) :=
  [("Owner", "Full control over the organization");
   ("Admin", "Manage organization resources and members");
   ("Manager", "Manage teams, projects and tasks");
   ("Member", "Work on assigned projects and tasks");
   ("Viewer", "Read-only access")].

Record OrganizationDTO := {
  OD_ID : N; OD_Name : string; OD_Slug : string; OD_Status : string; OD_Role : string;
  OD_CreatedAt : Z; OD_UpdatedAt : Z
}.
Record MemberDTO := {
  MD_MembershipID : N; MD_UserID : N; MD_Email : string; MD_FirstName : string;
  MD_LastName : string; MD_Role : string; MD_Status : string; MD_JoinedAt : option Z
}.
Record RoleDTO := {
  RD_ID : N; RD_OrganizationID : N; RD_Name : string; RD_Description : option string;
  RD_IsSystem : bool; RD_Permissions : list string; RD_CreatedAt : Z; RD_UpdatedAt : Z
}.

Definition org_not_found (cause : option error) : error :=
  NewAPIError 404 "ORGANIZATION_NOT_FOUND" "Organization not found" cause.
Definition org_suspended : error :=
  NewAPIError 403 "ORGANIZATION_SUSPENDED" "Organization is not active" None.
Definition isUniqueViolation (e : error) : bool :=
  match asPgError e with Some (code, _) => code =?= "23505" | None => false end.

(** [if errors.Is(err, pgx.ErrNoRows) { return f(err) }; return fmt.Errorf(prefix, err)] *)
Definition on_no_rows {A} (f : error -> error) (prefix : string) (m : M A) : M A :=
  map_err (fun e => if isNoRows e then f e else Errorf prefix e) m.
(** The same without a prefix. *)
Definition no_rows_as {A} (f : error -> error) (m : M A) : M A :=
  map_err (fun e => if isNoRows e then f e else e) m.
(** [if isUniqueViolation(err) { return f(err) }; return err] *)
Definition unique_as {A} (f : error -> error) (m : M A) : M A :=
  map_err (fun e => if isUniqueViolation e then f e else e) m.
Definition role_name_taken (e : error) : error :=
  NewAPIError 409 "ROLE_NAME_TAKEN" "A role with this name already exists" (Some e).
Definition as_not_found (_ : error) : error := Sentinel ErrNotFound.

Section service.
Context `{Env}.

(** ** Authorization *)
Definition resolve_body (userID orgID : N) : M Tenant :=
  row <- on_no_rows (fun e => org_not_found (Some e)) "get membership" (GetMembership orgID userID) ;;
  reject_if (negb (OrganizationMembership_Status row =?= "active")) (org_not_found None) ;;;
  org <- on_no_rows (fun e => org_not_found (Some e)) "get organization" (GetOrganizationByID orgID) ;;
  reject_if (Organization_Status org =?= "deleted") (org_not_found None) ;;;
  reject_if (negb (Organization_Status org =?= "active")) org_suspended ;;;
  role <- on_no_rows (fun e => org_not_found (Some e)) "get role"
            (GetRoleByID (OrganizationMembership_RoleID row) orgID) ;;
  ret {| Tenant_OrganizationID := orgID; Tenant_MembershipID := OrganizationMembership_ID row;
         Tenant_RoleID := OrganizationMembership_RoleID row; Tenant_RoleName := Role_Name role |}.
Definition ResolveTenant (userID orgID : N) : M Tenant :=
  WithTenantTx orgID (resolve_body userID orgID).

Definition requirePermission (orgID roleID : N) (permission : string) : M unit :=
  allowed <- wrapf "check permission" (WithTenantTx orgID (HasRolePermission roleID permission)) ;;
  reject_if (negb allowed) (Sentinel ErrForbidden).

Definition Authorize_ (userID orgID : N) (permission : string) : M Tenant :=
  tenant <- ResolveTenant userID orgID ;;
  requirePermission orgID (Tenant_RoleID tenant) permission ;;;
  ret tenant.

(** ** Organizations *)
Definition orgDTO (o : Organization) (role : string) : OrganizationDTO :=
  {| OD_ID := Organization_ID o; OD_Name := Organization_Name o; OD_Slug := Organization_Slug o;
     OD_Status := Organization_Status o; OD_Role := role;
     OD_CreatedAt := Organization_CreatedAt o; OD_UpdatedAt := Organization_UpdatedAt o |}.

Definition ListMyOrganizations (userID : N) : M (list OrganizationDTO) :=
  rows <- wrapf "list memberships" (ListMembershipsByUser userID) ;;
  ret (map (fun r => orgDTO (LMU_organization r) (Role_Name (LMU_role r)))
        (List.filter (fun r => Organization_Status (LMU_organization r) =?= "active") rows)).

Definition GetOrganization (userID orgID : N) : M OrganizationDTO :=
  t <- ResolveTenant userID orgID ;;
  requirePermission orgID (Tenant_RoleID t) OrganizationsRead ;;;
  o <- WithTenantTx orgID (wrapf "get organization" (GetOrganizationByID orgID)) ;;
  ret (orgDTO o (Tenant_RoleName t)).

(** [setPermissions]: replace every grant of the role. *)
Definition setPermissions (roleID : N) (permissions : list string) : M unit :=
  SetRolePermissions roleID ;;;
  for_each permissions (fun key =>
    p <- no_rows_as (fun _ => NewAPIError 400 "UNKNOWN_PERMISSION" "Unknown permission" None)
           (GetPermissionByKey key) ;;
    AddRolePermission roleID (Permission_ID p)).

(** The role loop of [CreateOrganization]; it returns the Owner role's id. *)
Fixpoint seed_roles (orgID : N) (rs : list (string * string)) (ownerID : N) : M N :=
  match rs with
  | [] => ret ownerID
  | (name, desc) :: rs =>
      role <- wrapf ("create role " +:+ name) (QueriesOrg.CreateRole orgID name (Some desc) true) ;;
      wrapf ("seed permissions for role " +:+ name)
        (setPermissions (Role_ID role) (DefaultForRole name)) ;;;
      seed_roles orgID rs (if name =?= "Owner" then Role_ID role else ownerID)
  end.

Definition CreateOrganization (userID : N) (name : string) : M OrganizationDTO :=
  slug <- uniqueSlug name ;;
  wrapf "begin tx" Begin ;;;
  defer Rollback
    (org <- wrapf "create organization" (QueriesOrg.CreateOrganization name slug "active") ;;
     ownerID <- seed_roles (Organization_ID org) defaultRoles uuid_Nil ;;
     now <- timeNow ;;
     wrapf "create membership"
       (CreateMembership (Organization_ID org) userID ownerID "active" (Some now)) ;;;
     wrapf "commit tx" Commit ;;;
     ret (orgDTO org "Owner")).

(** The inline statement of [UpdateOrganization]. *)
Definition rename_active_organization (orgID : N) (name : string) : M Organization :=
  stmt (fun c d =>
    match sel (organizations d) orgID (fun o => ((Organization_ID o =?= orgID) &&
             rls_visible c (Organization_ID o) && (Organization_Status o =?= "active"))%bool) with
    | None => Err ErrNoRows
    | Some o =>
        let o' := Organization_set_Name (s_now c) name o in
        check! btrim_nonempty name else check_violation "organizations_name_check";
        Ok (o', set_organizations (<[orgID := o']> (organizations d)) d)
    end).
Definition UpdateOrganization (userID orgID : N) (name : string) : M OrganizationDTO :=
  t <- ResolveTenant userID orgID ;;
  requirePermission orgID (Tenant_RoleID t) OrganizationsUpdate ;;;
  o <- on_no_rows (fun e => org_not_found (Some e)) "update organization"
         (WithTenantTx orgID (rename_active_organization orgID name)) ;;
  ret (orgDTO o (Tenant_RoleName t)).

Definition ListMembers (userID orgID : N) : M (list MemberDTO) :=
  t <- ResolveTenant userID orgID ;;
  requirePermission orgID (Tenant_RoleID t) MembersRead ;;;
  rows <- WithTenantTx orgID (wrapf "list members" (ListMembersByOrganization orgID)) ;;
  ret (map (fun r => {| MD_MembershipID := OrganizationMembership_ID (LMO_membership r);
                        MD_UserID := OrganizationMembership_UserID (LMO_membership r);
                        MD_Email := User_Email (LMO_user r); MD_FirstName := User_FirstName (LMO_user r);
                        MD_LastName := User_LastName (LMO_user r); MD_Role := Role_Name (LMO_role r);
                        MD_Status := OrganizationMembership_Status (LMO_membership r);
                        MD_JoinedAt := OrganizationMembership_JoinedAt (LMO_membership r) |}) rows).

(** ** Roles *)
Definition roleDTO (role : Role) (permissions : list string) : RoleDTO :=
  {| RD_ID := Role_ID role; RD_OrganizationID := Role_OrganizationID role;
     RD_Name := Role_Name role; RD_Description := Role_Description role;
     RD_IsSystem := Role_IsSystem role; RD_Permissions := permissions;
     RD_CreatedAt := Role_CreatedAt role; RD_UpdatedAt := Role_UpdatedAt role |}.

Fixpoint list_role_dtos (rs : list Role) : M (list RoleDTO) :=
  match rs with
  | [] => ret []
  | role :: rs =>
      ps <- ListPermissionKeysByRole (Role_ID role) ;;
      rest <- list_role_dtos rs ;;
      ret (roleDTO role ps :: rest)
  end.
Definition ListRoles (userID orgID : N) : M (list RoleDTO) :=
  t <- ResolveTenant userID orgID ;;
  requirePermission orgID (Tenant_RoleID t) RolesRead ;;;
  wrapf "list roles" (WithTenantTx orgID
    (roles <- ListRolesByOrganization orgID ;; list_role_dtos roles)).

Definition create_role_body (orgID : N) (name : string) (description : option string)
    (permissions : list string) : M Role :=
  role <- unique_as role_name_taken (QueriesOrg.CreateRole orgID name description false) ;;
  setPermissions (Role_ID role) permissions ;;;
  ret role.
Definition CreateRole (userID orgID : N) (name : string) (description : option string)
    (permissions : list string) : M RoleDTO :=
  t <- ResolveTenant userID orgID ;;
  requirePermission orgID (Tenant_RoleID t) RolesManage ;;;
  role <- wrapf "create role" (WithTenantTx orgID
    (create_role_body orgID name description permissions)) ;;
  ret (roleDTO role permissions).

Definition system_role (msg : string) : error := NewAPIError 409 "SYSTEM_ROLE_IMMUTABLE" msg None.

Definition update_role_body (orgID roleID : N) (name : string) (description : option string)
    (permissions : list string) : M Role :=
  current <- no_rows_as as_not_found (GetRoleByID roleID orgID) ;;
  reject_if (Role_IsSystem current) (system_role "System roles cannot be changed") ;;;
  role <- unique_as role_name_taken (QueriesOrg.UpdateRole roleID orgID name description) ;;
  setPermissions (Role_ID role) permissions ;;;
  ret role.
Definition UpdateRole (userID orgID roleID : N) (name : string) (description : option string)
    (permissions : list string) : M RoleDTO :=
  t <- ResolveTenant userID orgID ;;
  requirePermission orgID (Tenant_RoleID t) RolesManage ;;;
  role <- wrapf "update role" (WithTenantTx orgID
    (update_role_body orgID roleID name description permissions)) ;;
  ret (roleDTO role permissions).

Definition DeleteRole (userID orgID roleID : N) : M unit :=
  t <- ResolveTenant userID orgID ;;
  requirePermission orgID (Tenant_RoleID t) RolesManage ;;;
  WithTenantTx orgID
    (role <- no_rows_as as_not_found (GetRoleByID roleID orgID) ;;
     reject_if (Role_IsSystem role) (system_role "System roles cannot be deleted") ;;;
     count <- CountMembershipsByRole roleID orgID ;;
     reject_if (Z.ltb 0 count)
       (NewAPIError 409 "ROLE_IN_USE" "Reassign members before deleting this role" None) ;;;
     QueriesOrg.DeleteRole roleID orgID).

(** The transaction of [AssignMemberRole], for a caller whose own role is [callerRole]. *)
Definition last_owner : error :=
  NewAPIError 409 "LAST_OWNER" "The organization must retain an Owner" None.
Definition assign_body (callerRole : string) (orgID membershipID roleID : N) : M MemberDTO :=
  current <- no_rows_as as_not_found (GetMembershipByID membershipID orgID) ;;
  currentRole <- GetRoleByID (OrganizationMembership_RoleID current) orgID ;;
  newRole <- no_rows_as (fun e => NewAPIError 404 "ROLE_NOT_FOUND" "Role not found" (Some e))
               (GetRoleByID roleID orgID) ;;
  reject_if (((Role_Name currentRole =?= "Owner") || (Role_Name newRole =?= "Owner")) &&
             negb (callerRole =?= "Owner"))%bool (Sentinel ErrForbidden) ;;;
  (if ((Role_Name currentRole =?= "Owner") && negb (Role_Name newRole =?= "Owner"))%bool then
     owners <- CountActiveOwners orgID ;; reject_if (Z.leb owners 1) last_owner
   else ret tt) ;;;
  updated <- UpdateMembershipRole membershipID orgID roleID ;;
  user <- GetUserByID (OrganizationMembership_UserID updated) ;;
  ret {| MD_MembershipID := OrganizationMembership_ID updated;
         MD_UserID := OrganizationMembership_UserID updated; MD_Email := User_Email user;
         MD_FirstName := User_FirstName user; MD_LastName := User_LastName user;
         MD_Role := Role_Name newRole; MD_Status := OrganizationMembership_Status updated;
         MD_JoinedAt := OrganizationMembership_JoinedAt updated |}.
Definition AssignMemberRole (userID orgID membershipID roleID : N) : M MemberDTO :=
  t <- ResolveTenant userID orgID ;;
  requirePermission orgID (Tenant_RoleID t) MembersManage ;;;
  wrapf "assign member role"
    (WithTenantTx orgID (assign_body (Tenant_RoleName t) orgID membershipID roleID)).

(** ** Maintenance *)
Definition ForEachActiveOrganization (only : N) (fn : N -> M unit) : M unit :=
  if negb (only =?= uuid_Nil) then fn only
  else
    ids <- wrapf "list organizations for maintenance" (ListActiveOrganizationIDs maintenanceBatchSize) ;;
    for_each ids fn.
End service.

(** ** Facts: authorization *)
Section facts.
Context `{Env}.

Lemma ResolveTenant_pres R `{!PreOrder R} u o : pres R (ResolveTenant u o).
Proof. unfold ResolveTenant, resolve_body, on_no_rows. pres_auto. Qed.
Lemma requirePermission_pres R `{!PreOrder R} o r p : pres R (requirePermission o r p).
Proof. unfold requirePermission. pres_auto. Qed.

Lemma resolve_body_Ok u o w t w' : resolve_body u o w = (Ok t, w') ->
  member_tenant (w_db w) u o t /\ w_db w' = w_db w.
Proof.
  unfold resolve_body, on_no_rows. intros E. go_inv.
  repeat match goal with H : _ _ _ = (Ok _, _) |- _ => query_ok H end. bool_hyps.
  match goal with H : find_row _ _ = Some _ |- _ => apply find_row_Some in H as [Hm [mid Hmid]] end.
  unfold member_of in Hm. stmt_inv. bool_hyps.
  split; [|done]. eexists mid, _, _, _. split_and!; eauto.
Qed.

Lemma ResolveTenant_Ok u o w t w' : ResolveTenant u o w = (Ok t, w') ->
  member_tenant (w_db w) u o t /\ w_db w' = w_db w.
Proof.
  intros (w1 & w2 & tx & E & Hd & _ & _ & Hd' & _)%WithTenantTx_Ok.
  apply resolve_body_Ok in E as [Hm Hd2]. rewrite Hd in *. split; [done|congruence].
Qed.
Lemma requirePermission_Ok o r p w u w' : requirePermission o r p w = (Ok u, w') ->
  grants (w_db w) r p /\ w_db w' = w_db w.
Proof.
  unfold requirePermission. intros E. go_inv. apply WithTenantTx_Ok in E0 as
    (w1 & w2 & tx & E & Hd & _ & _ & Hd' & _). query_ok E. bool_hyps. subst. bool_hyps.
  match goal with H : exists_row _ _ = true |- _ => apply exists_row_true in H as (pid & pm & Hpid & Hp) end.
  bool_hyps. rewrite Hd in *. split; [|done]. exists pid, pm. done.
Qed.
Lemma Authorize_reads_ u o p : reads (Authorize_ u o p).
Proof.
  unfold Authorize_, reads. pres_step; [apply ResolveTenant_pres; apply _|].
  pres_step; [apply requirePermission_pres; apply _|]. pres_auto.
Qed.
Lemma Authorize_sound_ u o p w t w' :
  Authorize_ u o p w = (Ok t, w') -> authorized (w_db w) u o p t.
Proof.
  unfold Authorize_. intros E. go_inv. apply ResolveTenant_Ok in E0 as [Hm Hd].
  apply requirePermission_Ok in E1 as [Hg Hd']. split; [done|]. by rewrite Hd in Hg.
Qed.
End facts.

(** The organizations service is the authorizer of every other service. *)
#[export] Instance organizations_Authorizer `{Env} : Authorizer :=
  {| Authorize := Authorize_; Authorize_reads := Authorize_reads_; Authorize_sound := Authorize_sound_ |}.

(** ** Facts: the contract of the operations *)
Section contract.
Context `{Env}.

(** The operations inline the two halves of [Authorize]. *)
Lemma gate_inline {A} u o p (k : Tenant -> M A) w :
  bind (Authorize u o p) k w
  = (t <- ResolveTenant u o ;; requirePermission o (Tenant_RoleID t) p ;;; k t) w.
Proof.
  simpl. unfold Authorize_, bind. destruct (ResolveTenant u o w) as [[t|e] w1]; [|done].
  by destruct (requirePermission o (Tenant_RoleID t) p w1) as [[[]|e] w2].
Qed.

Lemma inside_role_pres {A} o roleID (m : M A) w :
  pres (inside_role o roleID) m -> role_of o (w_db w) roleID ->
  same_tx (w_tx w) (w_tx (m w).2) /\ same_outside o (w_db w) (w_db (m w).2).
Proof. intros Hm Hr. destruct (Hm w) as [Ht Hi]. split; [done|]. by apply Hi. Qed.
Lemma setPermissions_inside o roleID ps : pres (inside_role o roleID) (setPermissions roleID ps).
Proof. unfold setPermissions, no_rows_as. pres_auto. Qed.

(** A role the organization owns, then its grants. *)
Lemma with_grants_out o ps (m : M Role) :
  pres (same_outside o) m ->
  (forall w r w', m w = (Ok r, w') -> role_of o (w_db w') (Role_ID r)) ->
  pres (same_outside o) (role <- m ;; setPermissions (Role_ID role) ps ;;; ret role).
Proof.
  intros Hm Hr. apply pres_bind_Ok; [apply _|done|]. intros w r w1 E.
  unfold bind. pose proof (inside_role_pres o (Role_ID r) (setPermissions (Role_ID r) ps) w1
    (setPermissions_inside _ _ _) (Hr _ _ _ E)).
  by destruct (setPermissions (Role_ID r) ps w1) as [[]].
Qed.
Lemma CreateRole_role o n ds sys w r w' :
  QueriesOrg.CreateRole o n ds sys w = (Ok r, w') -> role_of o (w_db w') (Role_ID r).
Proof. intros E. stmt_ok E. eexists. split; [apply lookup_insert_eq|done]. Qed.
Lemma UpdateRole_role id o n ds w r w' :
  QueriesOrg.UpdateRole id o n ds w = (Ok r, w') -> role_of o (w_db w') (Role_ID r).
Proof. intros E. stmt_ok E. bool_hyps. subst. eexists. split; [apply lookup_insert_eq|done]. Qed.

Lemma unique_as_Ok {A} f (m : M A) w a w' : unique_as f m w = (Ok a, w') -> m w = (Ok a, w').
Proof. apply map_err_Ok. Qed.
Lemma rename_out o name : pres (same_outside o) (rename_active_organization o name).
Proof.
  stmt_branches. bool_hyps. unfold same_outside, outside. simpl.
  f_equal. symmetry. eapply rows_where_insert_out; [eassumption| |]; simpl; congruence.
Qed.

Lemma create_role_body_out o n ds ps : pres (same_outside o) (create_role_body o n ds ps).
Proof.
  apply with_grants_out; [apply pres_map_err, CreateRole_out|].
  intros w x w' E%unique_as_Ok. by eapply CreateRole_role.
Qed.
Lemma update_role_body_out o r n ds ps : pres (same_outside o) (update_role_body o r n ds ps).
Proof.
  unfold update_role_body, no_rows_as. pres_step; [pres_auto|]. pres_step; [pres_auto|].
  apply with_grants_out; [apply pres_map_err, UpdateRole_out|].
  intros w x w' E%unique_as_Ok. by eapply UpdateRole_role.
Qed.

Lemma list_role_dtos_out o rs : pres (same_outside o) (list_role_dtos rs).
Proof. induction rs as [|x rs IH]; simpl; pres_auto. Qed.
#[local] Hint Resolve list_role_dtos_out create_role_body_out update_role_body_out rename_out : teamflow_frame.
#[local] Ltac inline_op :=
  (eapply tenant_op_ext; [intros w; apply gate_inline|]); apply tenant_op_gate; intros t;
  unfold on_no_rows, no_rows_as, assign_body; repeat keeps_step; pres_auto.
Lemma GetOrganization_op u o : tenant_op u o OrganizationsRead (GetOrganization u o).
Proof. inline_op. Qed.
Lemma UpdateOrganization_op u o name : tenant_op u o OrganizationsUpdate (UpdateOrganization u o name).
Proof. inline_op. Qed.
Lemma ListMembers_op u o : tenant_op u o MembersRead (ListMembers u o).
Proof. inline_op. Qed.
Lemma ListRoles_op u o : tenant_op u o RolesRead (ListRoles u o).
Proof. inline_op. Qed.
Lemma CreateRole_op u o name desc ps : tenant_op u o RolesManage (CreateRole u o name desc ps).
Proof. inline_op. Qed.
Lemma UpdateRole_op u o r name desc ps : tenant_op u o RolesManage (UpdateRole u o r name desc ps).
Proof. inline_op. Qed.
Lemma DeleteRole_op u o r : tenant_op u o RolesManage (DeleteRole u o r).
Proof. inline_op. Qed.
Lemma AssignMemberRole_op u o m r : tenant_op u o MembersManage (AssignMemberRole u o m r).
Proof. inline_op. Qed.

(** The organization operations keep the contract of a tenant operation, each with the
    permission it names: without the permission nothing happens, other organizations' data
    is out of reach, and a failed request leaves no trace. *)
Theorem organization_ops (u o m r : N) (name : string) (desc : option string) (ps : list string) :
  tenant_op u o OrganizationsRead (GetOrganization u o) /\
  tenant_op u o OrganizationsUpdate (UpdateOrganization u o name) /\
  tenant_op u o MembersRead (ListMembers u o) /\
  tenant_op u o RolesRead (ListRoles u o) /\
  tenant_op u o RolesManage (CreateRole u o name desc ps) /\
  tenant_op u o RolesManage (UpdateRole u o r name desc ps) /\
  tenant_op u o RolesManage (DeleteRole u o r) /\
  tenant_op u o MembersManage (AssignMemberRole u o m r).
Proof.
  split_and!; auto using GetOrganization_op, UpdateOrganization_op, ListMembers_op, ListRoles_op, CreateRole_op,
    UpdateRole_op, DeleteRole_op, AssignMemberRole_op.
Qed.
End contract.
#[export] Hint Resolve GetOrganization_op UpdateOrganization_op ListMembers_op ListRoles_op CreateRole_op
  UpdateRole_op DeleteRole_op AssignMemberRole_op : teamflow_ops.

(** ** Facts: authorization against its reference

    [authorize_spec] is the decision as a function of the tables alone; with no failing
    statement, [Authorize] computes it. *)
Definition tenant_of (d : DB) (u o : N) : result Tenant :=
  match find_row (fun m => ((OrganizationMembership_OrganizationID m =?= o) &&
                            (OrganizationMembership_UserID m =?= u))%bool) (memberships d) with
  | None => Err (org_not_found (Some ErrNoRows))
  | Some m =>
      if negb (OrganizationMembership_Status m =?= "active") then Err (org_not_found None) else
      match sel (organizations d) o (fun r => Organization_ID r =?= o) with
      | None => Err (org_not_found (Some ErrNoRows))
      | Some org =>
          if Organization_Status org =?= "deleted" then Err (org_not_found None)
          else if negb (Organization_Status org =?= "active") then Err org_suspended
          else match sel (roles d) (OrganizationMembership_RoleID m)
                       (fun r => Role_OrganizationID r =?= o) with
               | None => Err (org_not_found (Some ErrNoRows))
               | Some role =>
                   Ok {| Tenant_OrganizationID := o; Tenant_MembershipID := OrganizationMembership_ID m;
                         Tenant_RoleID := OrganizationMembership_RoleID m;
                         Tenant_RoleName := Role_Name role |}
               end
      end
  end.
Definition granted (d : DB) (roleID : N) (p : string) : bool :=
  exists_row (fun x => ((Permission_Key x =?= p) &&
    bool_decide ((roleID, Permission_ID x) ∈ role_permissions d))%bool) (permissions d).
Definition authorize_spec (d : DB) (u o : N) (p : string) : result Tenant :=
  match tenant_of d u o with
  | Err e => Err e
  | Ok t => if granted d (Tenant_RoleID t) p then Ok t else Err (Sentinel ErrForbidden)
  end.

Section reference.
Context `{Env} (Hnf : forall n, env_fault n = false).

Lemma rls_self c o : s_org c = Some o -> rls_visible c o = true.
Proof. unfold rls_visible. intros ->. by rewrite beq_refl, orb_true_r. Qed.
Lemma in_org_live c o r : s_org c = Some o -> in_org c r o = (r =?= o).
Proof.
  intros Hc. unfold in_org. destruct (r =?= o) eqn:E; [|by rewrite andb_false_r].
  apply beq_eq in E as ->. by rewrite (rls_self c o Hc).
Qed.
Lemma sel_ext {R} (t : gmap N R) id P Q : (forall r, P r = Q r) -> sel t id P = sel t id Q.
Proof. intros HPQ. unfold sel. destruct (t !! id); [|done]. by rewrite HPQ. Qed.
Lemma one_ErrNoRows {A} (x : option A) e : one x = Err e -> e = ErrNoRows.
Proof. destruct x; simpl; congruence. Qed.

Lemma GetMembership_live u o w : live o w ->
  GetMembership o u w =
    (one (find_row (fun m => ((OrganizationMembership_OrganizationID m =?= o) &&
                              (OrganizationMembership_UserID m =?= u))%bool) (memberships (w_db w))), next_tick w).
Proof.
  intros Hl. apply (query_live Hnf _ o); [done| |apply one_ErrNoRows].
  intros c Hc. f_equal. apply find_row_ext. intros m. unfold member_of. by rewrite in_org_live.
Qed.
Lemma GetOrganizationByID_live o w : live o w ->
  GetOrganizationByID o w =
    (one (sel (organizations (w_db w)) o (fun r => Organization_ID r =?= o)), next_tick w).
Proof.
  intros Hl. apply (query_live Hnf _ o); [done| |apply one_ErrNoRows].
  intros c Hc. f_equal. apply sel_ext. intros r. destruct (Organization_ID r =?= o) eqn:E; [|done].
  apply beq_eq in E as ->. by rewrite (rls_self c o Hc).
Qed.
Lemma GetRoleByID_live id o w : live o w ->
  GetRoleByID id o w = (one (sel (roles (w_db w)) id (fun r => Role_OrganizationID r =?= o)), next_tick w).
Proof.
  intros Hl. apply (query_live Hnf _ o); [done| |apply one_ErrNoRows].
  intros c Hc. f_equal. apply sel_ext. intros r. by apply in_org_live.
Qed.

Lemma resolve_body_live u o w : live o w ->
  exists w', resolve_body u o w = (tenant_of (w_db w) u o, w') /\ live o w' /\ w_db w' = w_db w /\
    w_tx w' = w_tx w.
Proof.
  intros Hl. unfold resolve_body, on_no_rows, bind, map_err, tenant_of, reject_if.
  rewrite GetMembership_live by done. destruct (find_row _ _) as [m|]; simpl;
    [|eexists; split_and!; [done|by apply live_next|done..]].
  destruct (negb (OrganizationMembership_Status m =?= "active")); simpl;
    [eexists; split_and!; [done|by apply live_next|done..]|].
  rewrite GetOrganizationByID_live by (by apply live_next). simpl.
  destruct (sel _ _ _) as [org|]; simpl;
    [|eexists; split_and!; [done|by do 2 apply live_next|done..]].
  destruct (Organization_Status org =?= "deleted"); simpl;
    [eexists; split_and!; [done|by do 2 apply live_next|done..]|].
  destruct (negb (Organization_Status org =?= "active")); simpl;
    [eexists; split_and!; [done|by do 2 apply live_next|done..]|].
  rewrite GetRoleByID_live by (by do 2 apply live_next). simpl.
  destruct (sel (roles _) _ _) as [role|]; simpl;
    (eexists; split_and!; [done|by do 3 apply live_next|done..]).
Qed.
Lemma ResolveTenant_run u o w : w_tx w = None ->
  exists w', ResolveTenant u o w = (tenant_of (w_db w) u o, w') /\ w_tx w' = None /\ w_db w' = w_db w.
Proof.
  intros Hw. unfold ResolveTenant.
  destruct (resolve_body_live u o (enter_tx o w) (live_enter o w)) as (w2 & E & Hl & Hd & Ht).
  rewrite (WithTenantTx_run Hnf _ _ _ _ _ Hw E Hl). change (w_db (enter_tx o w)) with (w_db w).
  destruct (tenant_of (w_db w) u o); (eexists; split; [done|]).
  - split; [done|]. apply Hd.
  - rewrite Ht. simpl. done.
Qed.
Lemma requirePermission_run o roleID p w : w_tx w = None -> role_of o (w_db w) roleID ->
  exists w', requirePermission o roleID p w =
      ((if granted (w_db w) roleID p then Ok tt else Err (Sentinel ErrForbidden)), w') /\
    w_db w' = w_db w.
Proof.
  intros Hw (r & Hr & Ho).
  assert (E : HasRolePermission roleID p (enter_tx o w) =
              (Ok (granted (w_db w) roleID p), next_tick (enter_tx o w))).
  { apply (query_live Hnf _ o); [apply live_enter| |done]. intros c Hc. simpl.
    unfold grant_visible. rewrite Hr, Ho, (rls_self c o Hc). done. }
  unfold requirePermission, bind, wrapf, map_err.
  rewrite (WithTenantTx_run Hnf _ _ _ _ _ Hw E (live_next _ _ (live_enter o w))).
  destruct (granted _ _ _); (eexists; split; [done|done]).
Qed.
Lemma tenant_of_role d u o t : tenant_of d u o = Ok t -> role_of o d (Tenant_RoleID t).
Proof.
  unfold tenant_of. intros E. repeat (case_match; simplify_eq/=).
  match goal with H : sel (roles d) _ _ = Some _ |- _ => apply sel_Some in H as [? ?] end.
  bool_hyps. by eexists.
Qed.
Lemma Authorize_run u o p w : w_tx w = None ->
  exists w', Authorize_ u o p w = (authorize_spec (w_db w) u o p, w') /\ w_db w' = w_db w.
Proof.
  intros Hw. unfold Authorize_, authorize_spec, bind.
  destruct (ResolveTenant_run u o w Hw) as (w1 & -> & Hw1 & Hd1).
  destruct (tenant_of (w_db w) u o) as [t|e] eqn:Et; [|by eexists].
  apply tenant_of_role in Et. rewrite <- Hd1 in Et.
  destruct (requirePermission_run o (Tenant_RoleID t) p w1 Hw1 Et) as (w2 & -> & Hd2).
  rewrite Hd1 in *. destruct (granted (w_db w) (Tenant_RoleID t) p); eexists; (split; [done|congruence]).
Qed.
End reference.

(** C7. With no failing statement, [Authorize] decides exactly by the tables: it returns
    the tenant for an active member of an active organization whose role holds the
    permission, and otherwise the error [authorize_spec] lists (404, 403 suspended,
    403 forbidden); it changes nothing. *)
Theorem Authorize_reference `{Env} (u o : N) (p : string) (w : World) :
  (forall n, env_fault n = false) -> w_tx w = None ->
  (Authorize_ u o p w).1 = authorize_spec (w_db w) u o p /\ w_db (Authorize_ u o p w).2 = w_db w.
Proof.
  intros Hnf Hw. destruct (Authorize_run Hnf u o p w Hw) as (w' & -> & Hd). by split.
Qed.
Lemma Authorize_reference_witness :
  (@Authorize_ demo 1 1 "members.manage" (demo_world demo_DB)).1 =
    Ok {| Tenant_OrganizationID := 1; Tenant_MembershipID := 31; Tenant_RoleID := 10; Tenant_RoleName := "Owner" |}.
Proof.
  rewrite (proj1 (@Authorize_reference demo 1 1 "members.manage" (demo_world demo_DB) (fun _ => eq_refl) eq_refl)).
  vm_compute. reflexivity.
Defined.

(** An outsider cannot tell whether an organization exists: for a user without an
    active membership row, the response to any permission check is the same 404 body,
    whatever the tables hold about the organization. *)
Theorem Authorize_outsider `{Env} (u o : N) (p rid : string) (w : World) :
  (forall n, env_fault n = false) -> w_tx w = None ->
  (forall k m, memberships (w_db w) !! k = Some m -> OrganizationMembership_OrganizationID m = o ->
     OrganizationMembership_UserID m = u -> OrganizationMembership_Status m <> "active") ->
  exists e, (Authorize_ u o p w).1 = Err e /\
    WriteError rid e = (404%Z, {| Body_Code := "ORGANIZATION_NOT_FOUND";
      Body_Message := "Organization not found"; Body_Details := []; Body_RequestID := rid |}).
Proof.
  intros Hnf Hw Hout. destruct (Authorize_run Hnf u o p w Hw) as (w' & -> & _). cbn [fst].
  unfold authorize_spec, tenant_of. destruct (find_row _ _) as [m|] eqn:E; [|by eexists].
  apply find_row_Some in E as [Hm [k Hk]]. bool_hyps.
  destruct (OrganizationMembership_Status m =?= "active") eqn:Ea; [|by eexists].
  apply beq_eq in Ea. by destruct (Hout k m).
Qed.
Lemma Authorize_outsider_witness :
  exists e, (@Authorize_ demo 4 1 "members.read" (demo_world demo_DB)).1 = Err e /\ status_of e = 404%Z.
Proof.
  destruct (@Authorize_outsider demo 4 1 "members.read" "" (demo_world demo_DB) (fun _ => eq_refl) eq_refl)
    as (e & He & Hb).
  - intros k m Hk Ho Hu. simpl in Hk. unfold demo_membership in Hk.
    repeat (apply lookup_insert_Some in Hk as [[<- <-]|[_ Hk]]; [discriminate|]).
    apply lookup_singleton_Some in Hk as [<- <-]. discriminate.
  - exists e. split; [exact He|]. unfold status_of. by rewrite Hb.
Defined.

(** ** Facts: the last owner *)

(** The organization has an active member whose role is named Owner. *)
Definition has_owner (d : DB) (o : N) : Prop := exists k m r,
  memberships d !! k = Some m /\ OrganizationMembership_OrganizationID m = o /\
  OrganizationMembership_Status m = "active" /\
  roles d !! OrganizationMembership_RoleID m = Some r /\ Role_Name r = "Owner".

Section owners.
Context `{Env}.

(** The statement that moves a member touches that member only. *)
Lemma UpdateMembershipRole_Ok id o r w m w' :
  UpdateMembershipRole id o r w = (Ok m, w') ->
  exists m0 now, memberships (w_db w) !! id = Some m0 /\ OrganizationMembership_OrganizationID m0 = o /\
    OrganizationMembership_Status m0 = "active" /\
    m = OrganizationMembership_set_RoleID now r m0 /\
    w_db w' = set_memberships (<[id := m]> (memberships (w_db w))) (w_db w).
Proof. intros E. stmt_ok E. bool_hyps. do 2 eexists. split_and!; done. Qed.

Lemma active_owner_Some c d o m : active_owner c d o m = true ->
  exists r, OrganizationMembership_OrganizationID m = o /\ OrganizationMembership_Status m = "active" /\
    roles d !! OrganizationMembership_RoleID m = Some r /\ Role_Name r = "Owner".
Proof.
  unfold active_owner. intros HP. apply andb_true_iff in HP as [HP Hr].
  apply andb_true_iff in HP as [Ho%in_org_true Ha%beq_eq].
  destruct (roles d !! _) as [r|]; [|done]. apply andb_true_iff in Hr as [_ Hn%beq_eq]. by exists r.
Qed.

(** What [assign_body] established when it returned: it wrote one membership, and unless
    that membership stays an Owner or was not one, another active Owner exists. *)
Lemma assign_body_Ok cr o mid roleID w md w' :
  assign_body cr o mid roleID w = (Ok md, w') ->
  exists m0 m r0 r1 now, memberships (w_db w) !! mid = Some m0 /\
    OrganizationMembership_OrganizationID m0 = o /\ OrganizationMembership_Status m0 = "active" /\
    roles (w_db w) !! OrganizationMembership_RoleID m0 = Some r0 /\
    roles (w_db w) !! roleID = Some r1 /\ Role_OrganizationID r1 = o /\
    m = OrganizationMembership_set_RoleID now roleID m0 /\
    w_db w' = set_memberships (<[mid := m]> (memberships (w_db w))) (w_db w) /\
    (Role_Name r0 = "Owner" \/ Role_Name r1 = "Owner" -> cr = "Owner") /\
    (Role_Name r0 = "Owner" -> Role_Name r1 <> "Owner" ->
       exists k m' r, k <> mid /\ memberships (w_db w) !! k = Some m' /\
         OrganizationMembership_OrganizationID m' = o /\ OrganizationMembership_Status m' = "active" /\
         roles (w_db w) !! OrganizationMembership_RoleID m' = Some r /\ Role_Name r = "Owner").
Proof.
  unfold assign_body, no_rows_as. intros E.
  apply bind_Ok in E as (m0 & w1 & E0%map_err_Ok & E). query_ok E0.
  apply bind_Ok in E as (r0 & w2 & E1 & E). query_ok E1.
  apply bind_Ok in E as (r1 & w3 & E2%map_err_Ok & E). query_ok E2.
  apply bind_Ok in E as ([] & w4 & [Hguard <-]%reject_if_Ok & E).
  apply bind_Ok in E as ([] & w5 & Echk & E).
  apply bind_Ok in E as (m & w6 & Eu & E).
  apply UpdateMembershipRole_Ok in Eu as (m0' & now & Hm0 & Ho & Ha & -> & Hd).
  apply bind_Ok in E as (usr & w7 & Eusr & E). query_ok Eusr. apply ret_Ok in E as [_ <-]. simpl.
  assert (Hw5 : w_db w5 = w_db w /\
    (Role_Name r0 = "Owner" -> Role_Name r1 <> "Owner" ->
       exists k m' r, k <> mid /\ memberships (w_db w) !! k = Some m' /\
         OrganizationMembership_OrganizationID m' = o /\ OrganizationMembership_Status m' = "active" /\
         roles (w_db w) !! OrganizationMembership_RoleID m' = Some r /\ Role_Name r = "Owner")).
  { destruct (_ && _)%bool eqn:Eb in Echk.
    - apply bind_Ok in Echk as (owners & w8 & Eo & Echk). query_ok Eo.
      apply reject_if_Ok in Echk as [Hle <-]. split; [done|]. intros _ _. subst owners. bool_hyps.
      match goal with Hlt : (1 < count_rows _ _)%Z |- _ =>
        apply (count_rows_two _ _ mid) in Hlt as (k & m' & Hk & Hm' & HP) end.
      apply active_owner_Some in HP as (r & ? & ? & ? & ?). exists k, m', r. done.
    - apply ret_Ok in Echk as [_ <-]. split; [done|]. intros Hr0 Hr1. rewrite Hr0, beq_refl in Eb.
      apply negb_false_iff, beq_eq in Eb. done. }
  destruct Hw5 as [Hw5 Hother]. rewrite Hw5 in *. simplify_eq.
  eexists m0, _, r0, r1, now. split_and!; try done.
  intros Hor. destruct (cr =?= "Owner") eqn:Ec; [by apply beq_eq|].
  rewrite andb_true_r in Hguard. apply orb_false_iff in Hguard as [Hg0 Hg1].
  apply beq_neq in Hg0, Hg1. by destruct Hor.
Qed.
End owners.

(** Assigning roles one request at a time never removes the last Owner: if the
    organization has an active Owner before the call, it has one afterwards, whoever calls,
    whatever is asked for and whichever statements fail. *)
Theorem AssignMemberRole_keeps_owner `{Env} (u o mid roleID : N) (w : World) :
  has_owner (w_db w) o -> has_owner (w_db (AssignMemberRole u o mid roleID w).2) o.
Proof.
  intros Hown. destruct (organization_ops u o mid roleID "" None []) as (_ & _ & _ & _ & _ & _ & _ & [_ _ Hat]).
  destruct (AssignMemberRole u o mid roleID w) as [[md|e] w'] eqn:E; [|simpl; by rewrite (Hat _ _ _ E)].
  simpl. unfold AssignMemberRole in E. go_inv.
  apply ResolveTenant_Ok in E0 as [_ Hd1]. apply requirePermission_Ok in E1 as [_ Hd2].
  apply WithTenantTx_Ok in E as (wa & wb & t & E & Hda & _ & _ & Hd' & _).
  apply assign_body_Ok in E as (m0 & m & r0 & r1 & now & Hm0 & Ho & Ha & Hr0 & Hr1 & _ & -> & Hdb & _ & Hother).
  rewrite Hd', Hdb, Hda in *. rewrite Hd2, Hd1 in *. clear Hd' Hdb Hda Hd2 Hd1.
  destruct Hown as (k & mo & ro & Hk & Hko & Hka & Hkr & Hkn). unfold has_owner. simpl.
  destruct (decide (k = mid)) as [->|Hne].
  - simplify_eq. destruct (decide (Role_Name r1 = "Owner")) as [Hn1|Hn1].
    + eexists mid, _, r1. rewrite lookup_insert_eq. split_and!; done.
    + destruct (Hother Hkn Hn1) as (k' & m' & r & Hk' & Hm' & Ho' & Ha' & Hr' & Hn').
      exists k', m', r. rewrite lookup_insert_ne by done. done.
  - exists k, mo, ro. rewrite lookup_insert_ne by done. done.
Qed.
Lemma AssignMemberRole_keeps_owner_witness :
  has_owner (w_db (@AssignMemberRole demo 1 1 32 11 (demo_world demo_DB)).2) 1.
Proof.
  apply (@AssignMemberRole_keeps_owner demo 1 1 32 11 (demo_world demo_DB)).
  exists 31%N, (demo_membership 31 1 1 10), (demo_role 10 1 "Owner"). split_and!; reflexivity.
Defined.

(** Only an Owner can make or unmake an Owner: when a role assignment succeeds and
    either the old or the new role is named Owner, the caller's own role is Owner. *)
Theorem AssignMemberRole_owner_only `{Env} (u o mid roleID : N) (w : World) (md : MemberDTO) (w' : World)
    (m0 : OrganizationMembership) (r0 r1 : Role) :
  AssignMemberRole u o mid roleID w = (Ok md, w') ->
  memberships (w_db w) !! mid = Some m0 ->
  roles (w_db w) !! OrganizationMembership_RoleID m0 = Some r0 -> roles (w_db w) !! roleID = Some r1 ->
  Role_Name r0 = "Owner" \/ Role_Name r1 = "Owner" ->
  exists t, authorized (w_db w) u o MembersManage t /\ Tenant_RoleName t = "Owner".
Proof.
  intros E Hm0 Hr0 Hr1 Hor. unfold AssignMemberRole in E. go_inv.
  apply ResolveTenant_Ok in E0 as [Hmt Hd1]. apply requirePermission_Ok in E1 as [Hg Hd2].
  apply WithTenantTx_Ok in E as (wa & wb & t & E & Hda & _).
  apply assign_body_Ok in E as (m0' & m & r0' & r1' & now & Hm0' & _ & _ & Hr0' & Hr1' & _ & _ & _ & Hc & _).
  rewrite Hda, Hd2, Hd1 in *. simplify_eq. eexists. split; [by split|]. auto.
Qed.
Lemma AssignMemberRole_owner_only_witness :
  exists t, authorized demo_DB 1 1 MembersManage t /\ Tenant_RoleName t = "Owner".
Proof.
  destruct (@AssignMemberRole demo 1 1 32 11 (demo_world demo_DB)) as [r w'] eqn:E.
  assert (Hr : exists md, r = Ok md).
  { apply (f_equal fst) in E. vm_compute in E. simpl in E. subst r. eexists. reflexivity. }
  destruct Hr as [md ->].
  exact (@AssignMemberRole_owner_only demo 1 1 32 11 (demo_world demo_DB) md w'
    (demo_membership 32 1 2 10) (demo_role 10 1 "Owner") (demo_role 11 1 "Viewer")
    E eq_refl eq_refl eq_refl (or_introl eq_refl)).
Defined.

(** ** Facts: creating an organization *)

(** The tables only gained roles, and grants of roles that were not there. *)
Definition gains_roles (d d' : DB) : Prop :=
  organizations d' = organizations d /\ memberships d' = memberships d /\
  permissions d' = permissions d /\ roles d ⊆ roles d' /\
  (forall rid p, roles d !! rid <> None ->
     (rid, p) ∈ role_permissions d -> (rid, p) ∈ role_permissions d').
#[export] Instance gains_roles_pre : PreOrder gains_roles.
Proof.
  split.
  - intros d. by split_and!.
  - intros d1 d2 d3 (H1 & H2 & H3 & H4 & H5) (G1 & G2 & G3 & G4 & G5).
    split_and!; try congruence; [by etrans|]. intros rid p Hr Hin. apply G5; [|by apply H5].
    destruct (roles d1 !! rid) as [r|] eqn:E; [|done]. by rewrite (lookup_weaken _ _ _ _ E H4).
Qed.
(** A complete Owner role. *)
Definition owner_ready (o rid : N) (d : DB) : Prop := exists r,
  roles d !! rid = Some r /\ Role_OrganizationID r = o /\ Role_Name r = "Owner" /\
  Role_IsSystem r = true /\ forall key, key ∈ All -> grants d rid key.
Lemma owner_ready_gains o rid d d' : gains_roles d d' -> owner_ready o rid d -> owner_ready o rid d'.
Proof.
  intros (_ & _ & Hp & Hr & Hg) (r & Hrid & Ho & Hn & Hs & Hk). exists r.
  split_and!; [by eapply lookup_weaken|done|done|done|]. intros key Hkey.
  destruct (Hk key Hkey) as (pid & p & Hpid & Hpk & Hin). exists pid, p. rewrite Hp.
  split_and!; [done|done|]. apply Hg; [by rewrite Hrid|done].
Qed.

Section create.
Context `{Env}.

Lemma CreateRole_Ok o n ds sys w r w' : QueriesOrg.CreateRole o n ds sys w = (Ok r, w') ->
  roles (w_db w) !! Role_ID r = None /\ Role_OrganizationID r = o /\ Role_Name r = n /\
  Role_IsSystem r = sys /\ w_db w' = set_roles (<[Role_ID r := r]> (roles (w_db w))) (w_db w).
Proof. intros E. stmt_ok E. done. Qed.

(** [for_each ... AddRolePermission]: grants only accumulate; [get] is the key lookup with its
    error mapping. *)
Lemma add_permissions_Ok (get : string -> M Permission) roleID ps w u w' :
  (forall key v p v', get key v = (Ok p, v') -> GetPermissionByKey key v = (Ok p, v')) ->
  for_each ps (fun key => p <- get key ;; AddRolePermission roleID (Permission_ID p)) w = (Ok u, w') ->
  exists g, w_db w' = set_role_permissions g (w_db w) /\ role_permissions (w_db w) ⊆ g /\
    forall key, key ∈ ps -> exists pid p, permissions (w_db w) !! pid = Some p /\
      Permission_Key p = key /\ (roleID, Permission_ID p) ∈ g.
Proof.
  intros Hget. revert w. induction ps as [|key ps IH]; simpl; intros w E.
  - apply ret_Ok in E as [_ <-]. exists (role_permissions (w_db w)). split_and!; [by destruct (w_db w)|done|].
    intros key Hk. by apply not_elem_of_nil in Hk.
  - apply bind_Ok in E as ([] & w1 & Ea & E). apply bind_Ok in Ea as (p & w0 & Ep%Hget & Ea).
    query_ok Ep. apply find_row_Some in Hb as [Hkey%beq_eq [pid Hpid]].
    stmt_ok Ea. apply IH in E as (g & Hd & Hsub & Hk). simpl in *.
    exists g. split_and!; [by rewrite Hd|set_solver|].
    intros k [->|Hin]%elem_of_cons; [|by apply Hk]. exists pid, p. split_and!; [done|done|set_solver].
Qed.
Lemma setPermissions_Ok roleID ps w u w' : setPermissions roleID ps w = (Ok u, w') ->
  exists g, w_db w' = set_role_permissions g (w_db w) /\
    (forall rid p, rid <> roleID -> (rid, p) ∈ role_permissions (w_db w) -> (rid, p) ∈ g) /\
    forall key, key ∈ ps -> exists pid p, permissions (w_db w) !! pid = Some p /\
      Permission_Key p = key /\ (roleID, Permission_ID p) ∈ g.
Proof.
  unfold setPermissions. intros E. apply bind_Ok in E as ([] & w1 & Es & E).
  apply add_permissions_Ok in E as (g & Hd & Hsub & Hk); [|intros ? ? ? ?; apply map_err_Ok]. stmt_ok Es.
  exists g. split_and!; [rewrite Hd; by destruct (grant_visible _ _ _)| |].
  - intros rid p Hne Hin. apply Hsub. destruct (grant_visible _ _ _); [|done]. simpl.
    apply elem_of_filter. done.
  - intros key Hkey. destruct (Hk key Hkey) as (pid & p & Hpid & Hpk & Hpg).
    exists pid, p. split_and!; [|done|done]. by destruct (grant_visible _ _ _).
Qed.

Lemma seed_roles_Ok o rs own w own' w' : seed_roles o rs own w = (Ok own', w') ->
  gains_roles (w_db w) (w_db w') /\
  (own' = own \/ owner_ready o own' (w_db w')) /\
  ("Owner" ∈ rs.*1 -> owner_ready o own' (w_db w')).
Proof.
  revert own w. induction rs as [|[n ds] rs IH]; intros own w E; simpl in E.
  - apply ret_Ok in E as [-> <-]. split_and!; [done|by left|]. intros Hin. by apply not_elem_of_nil in Hin.
  - apply bind_Ok in E as (r & w1 & Ec%wrapf_Ok & E). apply CreateRole_Ok in Ec as (Hfresh & Ho & Hn & Hsys & Hd1).
    apply bind_Ok in E as ([] & w2 & Es%wrapf_Ok & E). apply setPermissions_Ok in Es as (g & Hd2 & Hg & Hk).
    assert (Hstep : gains_roles (w_db w) (w_db w2)).
    { rewrite Hd2, Hd1. split_and!; try done; [by apply insert_subseteq|]. intros rid p Hr Hin. simpl.
      apply Hg; [congruence|]. by rewrite Hd1. }
    assert (Hready : n = "Owner" -> owner_ready o (Role_ID r) (w_db w2)).
    { intros ->. exists r. rewrite Hd2, Hd1. simpl. split_and!; [by rewrite lookup_insert_eq|done|done|done|].
      intros key Hkey. destruct (Hk key) as (pid & p & Hpid & H1 & H2); [by unfold DefaultForRole|].
      exists pid, p. rewrite Hd1 in Hpid. done. }
    apply IH in E as (Hgain & Hown & Hin). split; [by etrans|].
    destruct (n =?= "Owner") eqn:En; [apply beq_eq in En|apply beq_neq in En].
    + assert (owner_ready o own' (w_db w')) as Hr; [|by split; [right|]].
      destruct Hown as [->|Hr]; [|done]. eapply owner_ready_gains; [done|by apply Hready].
    + split; [done|]. simpl. intros [Heq|Hin']%elem_of_cons; [congruence|by apply Hin].
Qed.
End create.

(** The new organization [o] of the user [u]: the tables gained the organization, its roles
    and one membership, which makes [u] an active member with a complete Owner role. *)
Definition founded (u o : N) (d d' : DB) : Prop := exists org m,
  organizations d !! o = None /\ organizations d' = <[o := org]> (organizations d) /\
  Organization_Status org = "active" /\
  memberships d !! OrganizationMembership_ID m = None /\
  memberships d' = <[OrganizationMembership_ID m := m]> (memberships d) /\
  OrganizationMembership_OrganizationID m = o /\ OrganizationMembership_UserID m = u /\
  OrganizationMembership_Status m = "active" /\
  permissions d' = permissions d /\ roles d ⊆ roles d' /\
  (forall rid p, roles d !! rid <> None -> (rid, p) ∈ role_permissions d -> (rid, p) ∈ role_permissions d') /\
  owner_ready o (OrganizationMembership_RoleID m) d'.
Lemma founded_authorized u o d d' p : founded u o d d' -> p ∈ All ->
  exists t, authorized d' u o p t /\ Tenant_RoleName t = "Owner".
Proof.
  intros (org & m & _ & Horg & Hst & _ & Hm & Ho & Hu & Ha & _ & _ & _ & (r & Hr & Hro & Hn & _ & Hg)) Hp.
  eexists. split; [split|].
  - exists (OrganizationMembership_ID m), m, org, r. rewrite Hm, Horg, !lookup_insert_eq. by split_and!.
  - by apply Hg.
  - done.
Qed.

Section founding.
Context `{Env}.

(** The statements around the role loop. *)
Lemma founding_Ok u name slug own w0 org w1 w2 st j m w3 :
  QueriesOrg.CreateOrganization name slug "active" w0 = (Ok org, w1) ->
  gains_roles (w_db w1) (w_db w2) -> owner_ready (Organization_ID org) own (w_db w2) ->
  st = "active" -> CreateMembership (Organization_ID org) u own st j w2 = (Ok m, w3) ->
  founded u (Organization_ID org) (w_db w0) (w_db w3).
Proof.
  intros Eo Hg Hready -> Em. stmt_ok Eo. stmt_ok Em. destruct Hg as (Horg & Hmem & Hp & Hr & Hgr). simpl in *.
  rewrite Hmem in *. eexists.
  match goal with |- context [set_memberships (<[_ := ?x]> _) _] => exists x end. by split_and!.
Qed.

Lemma CreateOrganization_Ok u name w dto w' : CreateOrganization u name w = (Ok dto, w') ->
  founded u (OD_ID dto) (w_db w) (w_db w').
Proof.
  intros E. unfold CreateOrganization in E. apply bind_Ok in E as (slug & w1 & Hs & E).
  pose proof (pres_run eq _ _ _ _ (uniqueSlug_pres eq name) Hs) as ->. clear Hs.
  apply bind_Ok in E as ([] & w2 & Hb%wrapf_Ok & E).
  assert (w_db w2 = w_db w1) as <-.
  { unfold Begin in Hb. destruct (w_tx w1); [done|]. destruct (env_fault _); by simplify_eq. }
  rewrite defer_run in E. destruct (bind _ _ w2) as [r w3] eqn:Ebody. simpl in E. simplify_eq.
  apply bind_Ok in Ebody as (org & w4 & Eo%wrapf_Ok & Ebody).
  apply bind_Ok in Ebody as (own & w5 & (Hg & _ & Hready)%seed_roles_Ok & Ebody).
  apply bind_Ok in Ebody as (now & w6 & [-> ->]%timeNow_Ok & Ebody).
  apply bind_Ok in Ebody as (m & w7 & Ecm%wrapf_Ok & Ebody).
  apply bind_Ok in Ebody as ([] & w8 & [Hc1 Hc2]%wrapf_Ok%Commit_Ok & Ebody). apply ret_Ok in Ebody as [<- <-].
  unfold Rollback. rewrite Hc2. simpl. rewrite Hc1.
  eapply (founding_Ok _ _ _ _ _ _ _ (next_tick w5)); [exact Eo|exact Hg|apply Hready; left|done|exact Ecm].
Qed.
End founding.


(** C26. A created organization belongs to its creator: when [CreateOrganization] returns,
    the committed tables make the caller an active member of the new, active organization
    with the Owner role, authorized for every permission the program knows. *)
Theorem CreateOrganization_owner `{Env} (u : N) (name : string) (w : World) (dto : OrganizationDTO) (w' : World)
    (p : string) :
  CreateOrganization u name w = (Ok dto, w') -> p ∈ All ->
  exists t, authorized (w_db w') u (OD_ID dto) p t /\ Tenant_RoleName t = "Owner".
Proof.
  intros E%CreateOrganization_Ok Hp. by eapply founded_authorized.
Qed.
Definition demo_permissions_DB : DB := {|
  users := users demo_DB; organizations := ∅; roles := ∅; memberships := ∅;
  permissions := list_to_map (imap (fun i key => (N.of_nat i, demo_permission (N.of_nat i) key)) All);
  role_permissions := ∅; refresh_tokens := ∅; teams := ∅; team_members := ∅; projects := ∅;
  tasks := ∅; activity_logs := ∅; invitations := ∅; api_keys := ∅; audit_logs := ∅ |}.
Lemma CreateOrganization_owner_witness :
  exists dto w' t, @CreateOrganization demo 1 "New Org" (demo_world demo_permissions_DB) = (Ok dto, w') /\
    authorized (w_db w') 1 (OD_ID dto) "audit.read" t.
Proof.
  destruct (@CreateOrganization demo 1 "New Org" (demo_world demo_permissions_DB)) as [r w'] eqn:E.
  assert (Hr : exists dto, r = Ok dto).
  { apply (f_equal fst) in E. vm_compute in E. subst r. eexists. reflexivity. }
  destruct Hr as [dto ->].
  destruct (@CreateOrganization_owner demo 1 "New Org" (demo_world demo_permissions_DB) dto w' "audit.read" E)
    as (t & Ht & _).
  - apply list_elem_of_In. simpl. do 17 right. left. reflexivity.
  - exists dto, w', t. split; [reflexivity|exact Ht].
Defined.
