(* ===== verification/Validation.v ===== *)
(** * Input validation and field types

    Models [internal/validation/validation.go] and the value half of
    [internal/fieldtypes/fieldtypes.go] (the JSON codecs of its types belong to request
    decoding).  A validator is the list of its field errors, first message per field. *)
From S2P Require Import Prelude.
From S2P Require Import GoError.
From S2P Require Import Schema.
From S2P Require Import Store.
From S2P Require Import GoStrings.
From S2P Require Import Sql.
From S2P Require Import Demo.
Local Open Scope string_scope.

Definition Validator : Type := list (string * string).
Definition New : Validator := [].

Definition Check_ (ok : bool) (field msg : string) (v : Validator) : Validator :=
  if ok then v else if existsb (fun e => e.1 =?= field) v then v else (v ++ [(field, msg)])%list.
Definition Valid (v : Validator) : bool := match v with [] => true | _ => false end.
Definition ErrOf (v : Validator) : option error :=
  if Valid v then None else Some (NewValidationError v).
Definition Required (field value : string) : Validator -> Validator :=
  Check_ (negb (TrimSpace value =?= "")) field "is required".
(** [len(value)] counts bytes. *)
Definition MaxLen (field value : string) (n : Z) : Validator -> Validator :=
  Check_ (Z.leb (len value) n) field "is too long".
Definition Email `{Env} (field value : string) : Validator -> Validator :=
  Check_ (mail_ParseAddress_ok value) field "must be a valid email address".
Definition Password `{Env} (field value : string) (v : Validator) : Validator :=
  if Z.ltb 72 (len value) then Check_ false field "must be at most 72 bytes" v
  else if Z.ltb (len value) 8 then Check_ false field "must be at least 8 characters" v
  else
    let hasLetter := existsb unicode_IsLetter (runes value) in
    let hasDigit := existsb (fun r => (negb (unicode_IsLetter r) && unicode_IsDigit r)%bool) (runes value) in
    Check_ (hasLetter && hasDigit)%bool field "must contain both letters and numbers" v.
Definition NormalizeEmail `{Env} (email : string) : string := ToLower (TrimSpace email).

(** ** fieldtypes *)

(** [Optional]: omitted, or present with a value or null. *)
Inductive Optional (T : Type) := Unset | SetTo (v : option T).
Arguments Unset {T}.
Arguments SetTo {T} v.

(** Dates are instants; [EqualDate] compares them. *)
Definition EqualPtr {T} (a b : option T) (eq : T -> T -> bool) : bool :=
  match a, b with
  | Some x, Some y => eq x y
  | None, None => true
  | _, _ => false
  end.
Definition EqualDate (a b : Z) : bool := Z.eqb a b.
Definition NormalizeOptionalText (s : option string) : option string :=
  match s with
  | None => None
  | Some t => if TrimSpace t =?= "" then None else Some t
  end.

(** ** Facts *)
Lemma EqualPtr_spec {T} (a b : option T) eq :
  (forall x y, eq x y = true <-> x = y) -> EqualPtr a b eq = true <-> a = b.
Proof. intros Heq. destruct a, b; simpl; rewrite ?Heq; split; congruence. Qed.

(** [ErrOf] is nil exactly when every check passed. *)
Lemma Check_valid ok f m v : Valid (Check_ ok f m v) = (ok && Valid v)%bool.
Proof.
  unfold Check_. destruct ok; [done|]. destruct v as [|e v]; [done|].
  by destruct (existsb _ _).
Qed.
Lemma ErrOf_None v : ErrOf v = None <-> Valid v = true.
Proof. unfold ErrOf. destruct (Valid v); split; congruence. Qed.
Lemma ErrOf_Some v e : ErrOf v = Some e -> status_of e = 400%Z.
Proof. unfold ErrOf. destruct (Valid v); [done|]. intros [= <-]. done. Qed.

Lemma Required_btrim f s v : Valid (Required f s v) = true -> btrim_nonempty s = true.
Proof.
  unfold Required. rewrite Check_valid. intros [Hne _]%andb_true_iff.
  destruct (btrim_nonempty s) eqn:Eb; [done|]. rewrite TrimSpace_spaces in Hne; [done|].
  unfold bytes, btrim_nonempty in *. revert Eb. generalize (String.list_ascii_of_string s).
  intros l. induction l as [|a l IH]; simpl; intros Hl; [constructor|].
  apply orb_false_iff in Hl as [Ha%negb_false_iff Hl]. constructor; [by apply N.eqb_eq|auto].
Qed.

(** The password policy: a password passes exactly when it has 8 to 72 bytes (within
    bcrypt's limit) and contains a letter and a digit. *)
Theorem Password_policy `{Env} (value : string) :
  (forall r, unicode_IsDigit r = true -> unicode_IsLetter r = false) ->
  ErrOf (Password "password" value New) = None <->
  (8 <= len value <= 72)%Z /\ (exists r, r ∈ runes value /\ unicode_IsLetter r = true) /\
  (exists r, r ∈ runes value /\ unicode_IsDigit r = true).
Proof.
  intros Hdl. rewrite ErrOf_None. unfold Password.
  destruct (Z.ltb_spec 72 (len value)); [split; [discriminate|lia]|].
  destruct (Z.ltb_spec (len value) 8); [split; [discriminate|lia]|].
  rewrite Check_valid, andb_true_r, andb_true_iff, !existsb_exists. split.
  - intros [(r & Hr & Hl) (r' & Hr' & Hd)]. apply andb_true_iff in Hd as [_ Hd].
    apply list_elem_of_In in Hr, Hr'. split_and!; eauto; lia.
  - intros (_ & (r & Hr & Hl) & (r' & Hr' & Hd)). apply list_elem_of_In in Hr, Hr'.
    split; [by exists r|]. exists r'. by rewrite (Hdl _ Hd), Hd.
Qed.
Lemma Password_policy_witness :
  ErrOf (@Password demo "password" "passw0rd" New) = None <->
  (8 <= len "passw0rd" <= 72)%Z /\ (exists r, r ∈ runes "passw0rd" /\ @unicode_IsLetter demo r = true) /\
  (exists r, r ∈ runes "passw0rd" /\ @unicode_IsDigit demo r = true).
Proof.
  apply (@Password_policy demo). intros r. simpl. unfold between. intros Hr.
  apply andb_true_iff in Hr as [H1 H2]. apply N.leb_le in H1, H2.
  apply orb_false_iff. split; apply andb_false_iff; left; apply N.leb_gt; lia.
Defined.
