(* ===== verification/Scanner.v ===== *)
(** * The JSON scanner

    Models the byte scanner of [encoding/json] and the way [json.Decoder] uses it to find
    the end of the next value: a stack of the open objects and arrays and a state, advanced
    one byte at a time.  It decides what is reported about a body whose reading broke off:
    whether the text so far holds a complete value, is already malformed, or needs more. *)
From S2P Require Import Prelude.
From S2P Require Import GoStrings.
From S2P Require Import Json.
From S2P Require Import JsonDecode.
Local Open Scope N_scope.

(** The [parseState] of an open container: a key or a value is being read. *)
Inductive Frame := ObjectKey | ObjectValue | ArrayValue.
Inductive State :=
  | BeginValue | BeginValueOrEmpty | BeginString | BeginStringOrEmpty | EndValue
  | InString | InStringEsc | InStringEscU (left : nat)
  | Neg | Digits | Zero | Dot | Dot0 | Exp | ExpSign | Exp0
  | Lit (rest : list N).
(** What one step reports: go on, the value has ended with this byte, it had ended before
    it, or the byte is an error. *)
Inductive Step := Continue (s : State) (stack : list Frame) | EndHere | EndBefore | ScanError.

Definition ended (stack : list Frame) : Step := match stack with [] => EndHere | _ => Continue EndValue stack end.
(** [stateEndValue]; [pop] of the last container ends the value. *)
Definition end_value (stack : list Frame) (c : N) : Step :=
  match stack with
  | [] => EndBefore
  | f :: r =>
      if json_space c then Continue EndValue stack else
      match f with
      | ObjectKey => if c =? 58 then Continue BeginValue (ObjectValue :: r) else ScanError
      | ObjectValue =>
          if c =? 44 then Continue BeginString (ObjectKey :: r) else if c =? 125 then ended r else ScanError
      | ArrayValue => if c =? 44 then Continue BeginValue stack else if c =? 93 then ended r else ScanError
      end
  end.
Definition begin_value (stack : list Frame) (c : N) : Step :=
  if json_space c then Continue BeginValue stack
  else if c =? 123 then Continue BeginStringOrEmpty (ObjectKey :: stack)
  else if c =? 91 then Continue BeginValueOrEmpty (ArrayValue :: stack)
  else if c =? 34 then Continue InString stack
  else if c =? 45 then Continue Neg stack
  else if c =? 48 then Continue Zero stack
  else if c =? 116 then Continue (Lit (ch "rue")) stack
  else if c =? 102 then Continue (Lit (ch "alse")) stack
  else if c =? 110 then Continue (Lit (ch "ull")) stack
  else if between 49 57 c then Continue Digits stack
  else ScanError.
Definition begin_string (stack : list Frame) (c : N) : Step :=
  if json_space c then Continue BeginString stack
  else if c =? 34 then Continue InString stack else ScanError.
(** [state0], [stateE]: what may follow the digits of a number. *)
Definition after_int (stack : list Frame) (c : N) : Step :=
  if c =? 46 then Continue Dot stack
  else if (c =? 101) || (c =? 69) then Continue Exp stack else end_value stack c.
Definition digit_to (s : State) (stack : list Frame) (c : N) : Step :=
  if is_digit c then Continue s stack else ScanError.
Definition is_hex (c : N) : bool := between 48 57 c || between 97 102 c || between 65 70 c.

Definition step (s : State) (stack : list Frame) (c : N) : Step :=
  match s with
  | BeginValue => begin_value stack c
  | BeginValueOrEmpty =>
      if json_space c then Continue s stack
      else if c =? 93 then end_value stack c else begin_value stack c
  | BeginString => begin_string stack c
  | BeginStringOrEmpty =>
      if json_space c then Continue s stack
      else if c =? 125 then end_value (ObjectValue :: tail stack) c else begin_string stack c
  | EndValue => end_value stack c
  | InString =>
      if c =? 34 then Continue EndValue stack
      else if c =? 92 then Continue InStringEsc stack
      else if c <? 32 then ScanError else Continue InString stack
  | InStringEsc =>
      if existsb (N.eqb c) [98; 102; 110; 114; 116; 92; 47; 34] then Continue InString stack
      else if c =? 117 then Continue (InStringEscU 3) stack else ScanError
  | InStringEscU n =>
      if is_hex c then Continue (match n with O => InString | S n => InStringEscU n end) stack else ScanError
  | Neg =>
      if c =? 48 then Continue Zero stack
      else if between 49 57 c then Continue Digits stack else ScanError
  | Digits => if is_digit c then Continue Digits stack else after_int stack c
  | Zero => after_int stack c
  | Dot => digit_to Dot0 stack c
  | Dot0 =>
      if is_digit c then Continue Dot0 stack
      else if (c =? 101) || (c =? 69) then Continue Exp stack else end_value stack c
  | Exp => if (c =? 43) || (c =? 45) then Continue ExpSign stack else digit_to Exp0 stack c
  | ExpSign => digit_to Exp0 stack c
  | Exp0 => if is_digit c then Continue Exp0 stack else end_value stack c
  | Lit [] => end_value stack c
  | Lit (b :: r) => if c =? b then Continue (match r with [] => EndValue | _ => Lit r end) stack else ScanError
  end.

(** [readValue] on the bytes that arrived. *)
Inductive Scan := Complete | Malformed | NeedMore.
Fixpoint scan_from (s : State) (stack : list Frame) (l : list N) : Scan :=
  match l with
  | [] => NeedMore
  | c :: r =>
      match step s stack c with
      | Continue s' stack' => scan_from s' stack' r
      | EndHere | EndBefore => Complete
      | ScanError => Malformed
      end
  end.
Definition scan_value (l : list N) : Scan := scan_from BeginValue [] l.

Definition quote (s : string) : list N := 34 :: bytes s ++ [34].
Example scan_examples : map scan_value
    [bytes "{" ++ quote "a" ++ bytes ": [1, -2.5e3, null]} junk"; bytes "{" ++ quote "a" ++ bytes ": [1";
     bytes "{" ++ quote "a" ++ bytes " 1}"; bytes "  "; bytes "12"; bytes "12 "; bytes "nul"; bytes "nulL"] =
  [Complete; NeedMore; Malformed; NeedMore; NeedMore; Complete; NeedMore; Malformed].
Proof. vm_compute. reflexivity. Qed.
