(* ===== verification/Decode.v ===== *)
(** * Decoding JSON into structs

    Models [internal/httpx/decode.go], the decoders of [internal/fieldtypes/fieldtypes.go]
    and what [encoding/json] does with the field types the program declares: members are
    matched by name, without regard to case; [null] leaves a value as it is and clears a
    pointer; a later member of the same name wins.  A struct is described by its fields,
    each with the setter of its type. *)
From S2P Require Import Prelude.
From S2P Require Import GoError.
From S2P Require Import Schema.
From S2P Require Import Store.
From S2P Require Import GoStrings.
From S2P Require Import Utf8.
From S2P Require Import Json.
From S2P Require Import JsonDecode.
From S2P Require Import Scanner.
From S2P Require Import Validation.
Local Open Scope string_scope.

(** ** Field types *)

(** How a JSON value is stored into a field of type [F] that holds a value already. *)
Definition FieldType (F : Type) : Type := json -> F -> option F.
Definition string_field : FieldType string := fun v old =>
  match v with JStr s => Some s | JNull => Some old | _ => None end.
Definition int_field : FieldType Z := fun v old =>
  match v with
  | JNum n => if Z.leb (- 2 ^ 63) n && Z.ltb n (2 ^ 63) then Some n else None
  | JNull => Some old
  | _ => None
  end.
Definition uuid_field `{Env} : FieldType N := fun v old =>
  match v with JStr s => uuid_Parse s | JNull => Some old | _ => None end.
(** A pointer: [null] sets it to nil, anything else is decoded into a fresh value. *)
Definition pointer_field {F} (zero : F) (ft : FieldType F) : FieldType (option F) := fun v _ =>
  match v with JNull => Some None | _ => Some <$> ft v zero end.
(** [[]string]: [null] sets it to nil, here [None]; a [null] element is the zero value. *)
Definition strings_field : FieldType (option (list string)) := fun v _ =>
  match v with JArr l => Some <$> mapM (fun x => string_field x "") l | JNull => Some None | _ => None end.
(** [Date.UnmarshalJSON], with [time.Parse(DateLayout, s)] as a parameter; [null] reads as
    the empty text. *)
Definition date_field (parse : string -> option Z) : FieldType Z := fun v _ =>
  match v with JStr s => parse s | JNull => parse "" | _ => None end.
(** [Optional.UnmarshalJSON] *)
Definition optional_field {F} (zero : F) (ft : FieldType F) : FieldType (Optional F) := fun v _ =>
  match v with JNull => Some (SetTo None) | _ => (fun x => SetTo (Some x)) <$> ft v zero end.

(** ** Structs *)
Record Field (T : Type) := { field_name : string; field_set : json -> T -> option T }.
Arguments field_name {T}. Arguments field_set {T}. Arguments Build_Field {T}.
(** A field from its type and the struct's accessor and update. *)
Definition mk_field {T F} (name : string) (ft : FieldType F) (get : T -> F) (put : F -> T -> T) : Field T :=
  {| field_name := name; field_set v x := (fun y => put y x) <$> ft v (get x) |}.

(** [foldName]: simple folding to ASCII; the long s and the Kelvin sign are the only other
    code points that fold to a letter of a field name. *)
Definition fold_rune (c : N) : N :=
  if (c =? 383)%N then 115 else if (c =? 8490)%N then 107 else ascii_lower c.
Definition foldName (s : string) : list N := map fold_rune (runes s).
Section struct.
Context {T : Type} (fields : list (Field T)).
Definition find_field (name : string) : option (Field T) :=
  match List.find (fun f => field_name f =?= name) fields with
  | Some f => Some f
  | None => List.find (fun f => foldName (field_name f) =?= foldName name) fields
  end.
(** [strict]: [DisallowUnknownFields]. *)
Definition set_member (strict : bool) (kv : string * json) (x : T) : option T :=
  match find_field kv.1 with
  | Some f => field_set f kv.2 x
  | None => if strict then None else Some x
  end.
Fixpoint set_members (strict : bool) (fs : list (string * json)) (x : T) : option T :=
  match fs with
  | [] => Some x
  | kv :: r => x' ← set_member strict kv x; set_members strict r x'
  end.
Definition decode_struct (strict : bool) (zero : T) (v : json) : option T :=
  match v with JObj fs => set_members strict fs zero | JNull => Some zero | _ => None end.
(** [json.Unmarshal(text, &x)] *)
Definition UnmarshalStruct (zero : T) (text : string) : option T :=
  v ← Unmarshal text; decode_struct false zero v.

(** [DecodeJSON]; [limit] is the limit [MaxBytesReader] puts on the body, if any. *)
Definition invalid_json (message : string) : error :=
  NewAPIError 400 "INVALID_JSON" message (Some (ErrorsNew "json")).
Definition too_large : error :=
  NewAPIError 413 "REQUEST_TOO_LARGE" "Request body is too large" (Some (ErrorsNew "http: request body too large")).
Definition not_json : error := invalid_json "Request body contains invalid JSON".
Definition trailing_data : error := invalid_json "Request body must contain a single JSON object".

(** A body that is read to its end: one value, then only space. *)
Definition decode_whole (zero : T) (body : string) : result T :=
  match skip_ws (bytes body) with
  | [] => Err (invalid_json "Request body must not be empty")
  | _ =>
      match parse_value (S (S (length (bytes body)))) (bytes body) with
      | None => Err not_json
      | Some (v, rest) =>
          match decode_struct true zero v with
          | None => Err not_json
          | Some x => match skip_ws rest with [] => Ok x | _ => Err trailing_data end
          end
      end
  end.
(** A body whose reading fails after the bytes [prefix]: the value may end within them, but
    the search for trailing data then meets the failure. *)
Definition decode_cut (zero : T) (prefix : list N) : result T :=
  match scan_value prefix with
  | NeedMore => Err too_large
  | Malformed => Err not_json
  | Complete =>
      match parse_value (S (S (length prefix))) prefix with
      | None => Err not_json
      | Some (v, _) => match decode_struct true zero v with None => Err not_json | Some _ => Err trailing_data end
      end
  end.
Definition DecodeJSON (limit : option Z) (zero : T) (body : string) : result T :=
  match limit with
  | Some n => if Z.ltb n (len body) then decode_cut zero (take (Z.to_nat n) (bytes body)) else decode_whole zero body
  | None => decode_whole zero body
  end.
End struct.

(** ** Facts *)
Lemma parse_value_blank n l : skip_ws l = [] -> parse_value n l = None.
Proof. destruct n; [done|]. cbn [parse_value]. by intros ->. Qed.

Section facts.
Context {T : Type} (fields : list (Field T)).

(** Every refusal is a client error: 413 for a body that is too large to tell, 400 with
    the code INVALID_JSON otherwise. *)
Lemma DecodeJSON_Err limit zero body e : DecodeJSON fields limit zero body = Err e ->
  (status_of e = 400%Z /\ code_of e = "INVALID_JSON") \/ (status_of e = 413%Z /\ code_of e = "REQUEST_TOO_LARGE").
Proof. unfold DecodeJSON, decode_whole, decode_cut. intros Hd. repeat case_match; simplify_eq; by (left + right). Qed.

Lemma decode_whole_Ok zero body x :
  decode_whole fields zero body = Ok x <->
  exists v, Unmarshal body = Some v /\ decode_struct fields true zero v = Some x.
Proof.
  unfold decode_whole, Unmarshal. split.
  - destruct (skip_ws (bytes body)) eqn:E; [done|]. destruct (parse_value _ _) as [[v rest]|]; [|done]. cbn.
    destruct (decode_struct _ _ _ _) as [y|] eqn:Ed; [|done]. destruct (skip_ws rest); [|done].
    intros [= <-]. by exists v.
  - intros (v & Hu & Hd). destruct (skip_ws (bytes body)) as [|b r] eqn:E.
    + by rewrite parse_value_blank in Hu.
    + destruct (parse_value _ _) as [[v' rest]|]; [|done]. cbn in Hu. destruct (skip_ws rest) eqn:Er; [|done].
      injection Hu as ->. by rewrite Hd.
Qed.
(** A body is accepted exactly when it respects the limit and is one JSON value that fits
    the struct. *)
Lemma DecodeJSON_Ok limit zero body x :
  DecodeJSON fields limit zero body = Ok x <->
  (forall n, limit = Some n -> (len body <= n)%Z) /\
  exists v, Unmarshal body = Some v /\ decode_struct fields true zero v = Some x.
Proof.
  unfold DecodeJSON. destruct limit as [n|]; [|rewrite decode_whole_Ok; by split; [split|intros [_ ?]]].
  destruct (Z.ltb_spec n (len body)) as [Hn|Hn].
  - split; [|intros [Hl _]; specialize (Hl n eq_refl); lia]. unfold decode_cut. by repeat case_match.
  - rewrite decode_whole_Ok. split; [|by intros [_ ?]]. intros ?. split; [by intros ? [= <-]|done].
Qed.
End facts.
