(* ===== verification/Teams.v ===== *)
(** * Teams

    Models [internal/teams/service.go], against the authorization interface. *)
From S2P Require Import Prelude.
From S2P Require Import GoError.
From S2P Require Import Schema.
From S2P Require Import Store.
From S2P Require Import Logic.
From S2P Require Import Sql.
From S2P Require Import QueriesOrg.
From S2P Require Import QueriesAuth.
From S2P Require Import QueriesInv.
From S2P Require Import QueriesWork.
From S2P Require Import Permissions.
From S2P Require Import Tenancy.
From S2P Require Import Authz.
From S2P Require Import Organizations.
From S2P Require Import Demo.
Local Open Scope string_scope.

Record TeamDTO := {
  TD_ID : N; TD_OrganizationID : N; TD_Name : string; TD_Description : option string;
  TD_CreatedBy : N; TD_CreatedAt : Z; TD_UpdatedAt : Z
}.
Record MemberDTO := {
  TM_ID : N; TM_UserID : N; TM_Email : string; TM_FirstName : string; TM_LastName : string;
  TM_CreatedAt : Z
}.
Definition toDTO (t : Team) : TeamDTO :=
  {| TD_ID := Team_ID t; TD_OrganizationID := Team_OrganizationID t; TD_Name := Team_Name t;
     TD_Description := Team_Description t; TD_CreatedBy := Team_CreatedBy t;
     TD_CreatedAt := Team_CreatedAt t; TD_UpdatedAt := Team_UpdatedAt t |}.
Definition isUniqueViolation (e : error) : bool :=
  match asPgError e with Some (code, _) => code =?= "23505" | None => false end.
Definition team_name_taken (e : error) : error :=
  NewAPIError 409 "TEAM_NAME_TAKEN" "A team with this name already exists" (Some e).
Definition member_not_found (cause : option error) : error :=
  NewAPIError 404 "MEMBER_NOT_FOUND" "Active organization member not found" cause.
Definition member_dto (m : TeamMember) (u : User) : MemberDTO :=
  {| TM_ID := TeamMember_ID m; TM_UserID := TeamMember_UserID m; TM_Email := User_Email u;
     TM_FirstName := User_FirstName u; TM_LastName := User_LastName u;
     TM_CreatedAt := TeamMember_CreatedAt m |}.

Section service.
Context `{Authorizer}.

(** [if errors.Is(err, pgx.ErrNoRows) { return httpx.ErrNotFound }] *)
Definition get_team (teamID orgID : N) : M Team :=
  map_err (fun e => if isNoRows e then Sentinel ErrNotFound else e) (GetTeam teamID orgID).

Definition List_ (userID orgID : N) : M (list TeamDTO) :=
  _ <- Authorize userID orgID TeamsRead ;;
  rows <- wrapf "list teams" (WithTenantTx orgID (ListTeams orgID)) ;;
  ret (map toDTO rows).

Definition Get (userID orgID teamID : N) : M TeamDTO :=
  _ <- Authorize userID orgID TeamsRead ;;
  team <- WithTenantTx orgID (get_team teamID orgID) ;;
  ret (toDTO team).

Definition Create (userID orgID : N) (name : string) (description : option string) : M TeamDTO :=
  _ <- Authorize userID orgID TeamsManage ;;
  team <- wrapf "create team" (WithTenantTx orgID
    (map_err (fun e => if isUniqueViolation e then team_name_taken e else e)
       (CreateTeam orgID name description userID))) ;;
  ret (toDTO team).

Definition Update (userID orgID teamID : N) (name : string) (description : option string) : M TeamDTO :=
  _ <- Authorize userID orgID TeamsManage ;;
  team <- wrapf "update team" (WithTenantTx orgID
    (map_err (fun e => if isNoRows e then Sentinel ErrNotFound
                       else if isUniqueViolation e then team_name_taken e else e)
       (UpdateTeam teamID orgID name description))) ;;
  ret (toDTO team).

Definition Delete (userID orgID teamID : N) : M unit :=
  _ <- Authorize userID orgID TeamsManage ;;
  WithTenantTx orgID (get_team teamID orgID ;;; DeleteTeam teamID orgID).

Definition ListMembers (userID orgID teamID : N) : M (list MemberDTO) :=
  _ <- Authorize userID orgID TeamsRead ;;
  rows <- wrapf "list team members" (WithTenantTx orgID
    (get_team teamID orgID ;;; ListTeamMembers teamID orgID)) ;;
  ret (map (fun r => member_dto (LTM_member r) (LTM_user r)) rows).

(** The membership lookup: any error leaves the zero value, whose status is not active. *)
Definition ensure_active_member (orgID userID : N) : M unit :=
  r <- attempt (GetMembership orgID userID) ;;
  match r with
  | Err e => fail (member_not_found (Some e))
  | Ok m => reject_if (negb (OrganizationMembership_Status m =?= "active")) (member_not_found None)
  end.
Definition add_member_body (orgID teamID memberUserID : N) : M MemberDTO :=
  get_team teamID orgID ;;;
  ensure_active_member orgID memberUserID ;;;
  row <- map_err (fun e => if isUniqueViolation e
                  then NewAPIError 409 "TEAM_MEMBER_EXISTS" "User is already on this team" (Some e) else e)
           (AddTeamMember orgID teamID memberUserID) ;;
  user <- GetUserByID memberUserID ;;
  ret (member_dto row user).
Definition AddMember (userID orgID teamID memberUserID : N) : M MemberDTO :=
  _ <- Authorize userID orgID TeamsManage ;;
  wrapf "add team member" (WithTenantTx orgID (add_member_body orgID teamID memberUserID)).

Definition RemoveMember (userID orgID teamID teamMemberID : N) : M unit :=
  _ <- Authorize userID orgID TeamsManage ;;
  WithTenantTx orgID (get_team teamID orgID ;;; RemoveTeamMember teamMemberID teamID orgID).
End service.

(** ** Facts *)

(** ** The contract of the operations *)
Section contract.
Context `{Authorizer} (u o : N).
Lemma get_team_out t : pres (same_outside o) (get_team t o).
Proof. unfold get_team. pres_auto. Qed.
Lemma ensure_active_member_out m : pres (same_outside o) (ensure_active_member o m).
Proof. unfold ensure_active_member. pres_auto. Qed.
#[local] Hint Resolve get_team_out ensure_active_member_out : teamflow_frame.
Lemma team_List_op : tenant_op u o TeamsRead (List_ u o).
Proof. unfold List_. tenant_op_auto. Qed.
Lemma team_Get_op t : tenant_op u o TeamsRead (Get u o t).
Proof. unfold Get. tenant_op_auto. Qed.
Lemma team_Create_op name desc : tenant_op u o TeamsManage (Create u o name desc).
Proof. unfold Create. tenant_op_auto. Qed.
Lemma team_Update_op t name desc : tenant_op u o TeamsManage (Update u o t name desc).
Proof. unfold Update. tenant_op_auto. Qed.
Lemma team_Delete_op t : tenant_op u o TeamsManage (Delete u o t).
Proof. unfold Delete. tenant_op_auto. Qed.
Lemma team_ListMembers_op t : tenant_op u o TeamsRead (ListMembers u o t).
Proof. unfold ListMembers. tenant_op_auto. Qed.
Lemma team_AddMember_op t m : tenant_op u o TeamsManage (AddMember u o t m).
Proof. unfold AddMember, add_member_body. tenant_op_auto. Qed.
Lemma team_RemoveMember_op t m : tenant_op u o TeamsManage (RemoveMember u o t m).
Proof. unfold RemoveMember. tenant_op_auto. Qed.
End contract.

#[export] Hint Resolve team_List_op team_Get_op team_Create_op team_Update_op team_Delete_op team_ListMembers_op team_AddMember_op team_RemoveMember_op
  : teamflow_ops.
(** The team operations keep the contract of a tenant operation. *)
Theorem team_ops `{Authorizer} (u o t m : N) (name : string) (desc : option string) :
  tenant_op u o TeamsRead (List_ u o) /\
  tenant_op u o TeamsRead (Get u o t) /\
  tenant_op u o TeamsManage (Create u o name desc) /\
  tenant_op u o TeamsManage (Update u o t name desc) /\
  tenant_op u o TeamsManage (Delete u o t) /\
  tenant_op u o TeamsRead (ListMembers u o t) /\
  tenant_op u o TeamsManage (AddMember u o t m) /\
  tenant_op u o TeamsManage (RemoveMember u o t m).
Proof. split_and!; auto with teamflow_ops. Qed.

Section facts.
Context `{Authorizer}.
Lemma get_team_Ok t o w x w' : get_team t o w = (Ok x, w') ->
  w' = next_tick w /\ teams (w_db w) !! t = Some x /\ Team_OrganizationID x = o.
Proof. intros E%map_err_Ok. query_ok E. done. Qed.

Lemma AddTeamMember_Ok o t m w row w' : AddTeamMember o t m w = (Ok row, w') ->
  TeamMember_TeamID row = t /\ TeamMember_UserID row = m /\ TeamMember_OrganizationID row = o /\
  team_members (w_db w) !! TeamMember_ID row = None /\
  w_db w' = set_team_members (<[TeamMember_ID row := row]> (team_members (w_db w))) (w_db w) /\
  forall k x, team_members (w_db w) !! k = Some x -> TeamMember_TeamID x = t ->
     TeamMember_OrganizationID x = o -> TeamMember_UserID x <> m.
Proof.
  intros E. stmt_ok E. split_and!; try done. intros k x Hk Ht Ho Hu.
  match goal with Hx : negb (exists_row _ _) = true |- _ =>
    apply negb_true_iff in Hx; rewrite exists_row_false in Hx; specialize (Hx _ _ Hk) end.
  rewrite Ht, Ho, Hu, !beq_refl in *. done.
Qed.

(** A team only ever gains active members of its organization: when [AddMember]
    succeeds, the team exists in the organization, the user has an active membership there,
    and exactly that pair was added, once, to the team. *)
Theorem AddMember_Ok (u o t m : N) (w : World) (dto : MemberDTO) (w' : World) :
  AddMember u o t m w = (Ok dto, w') ->
  (exists team, teams (w_db w) !! t = Some team /\ Team_OrganizationID team = o) /\
  (exists k ms, memberships (w_db w) !! k = Some ms /\ OrganizationMembership_OrganizationID ms = o /\
     OrganizationMembership_UserID ms = m /\ OrganizationMembership_Status ms = "active") /\
  (forall k x, team_members (w_db w) !! k = Some x -> TeamMember_TeamID x = t ->
     TeamMember_OrganizationID x = o -> TeamMember_UserID x <> m) /\
  exists tm, TeamMember_TeamID tm = t /\ TeamMember_UserID tm = m /\ TeamMember_OrganizationID tm = o /\
    team_members (w_db w) !! TeamMember_ID tm = None /\
    w_db w' = set_team_members (<[TeamMember_ID tm := tm]> (team_members (w_db w))) (w_db w).
Proof.
  unfold AddMember. intros (tn & w1 & _ & Hd1 & E)%gate_Ok. apply wrapf_Ok in E.
  apply WithTenantTx_Ok in E as (wa & wb & tx & E & Hda & _ & _ & Hd' & _).
  rewrite Hd', <- Hd1, <- Hda. clear Hd' Hda Hd1. unfold add_member_body in E.
  apply bind_Ok in E as (team & w2 & (-> & Hteam & Hto)%get_team_Ok & E).
  apply bind_Ok in E as ([] & w3 & Em & E). unfold ensure_active_member in Em.
  apply bind_Ok in Em as (rm & w4 & Er%attempt_Ok & Em). destruct rm as [ms|]; [|done].
  query_ok Er. apply reject_if_Ok in Em as [Hact <-].
  apply find_row_Some in Hb as [Hms [k Hk]]. unfold member_of in Hms. stmt_inv. bool_hyps.
  apply bind_Ok in E as (row & w5 & (Ht & Hm & Ho & Hnew & Hd & Huniq)%map_err_Ok%AddTeamMember_Ok & E).
  apply bind_Ok in E as (usr & w6 & Eu & E). query_ok Eu. apply ret_Ok in E as [_ <-]. simpl in *.
  split_and!; [eauto|eauto 6|done|by exists row].
Qed.
End facts.
Definition demo_team_DB : DB :=
  set_teams {[70%N := {| Team_ID := 70; Team_OrganizationID := 1; Team_Name := "t"; Team_Description := None;
                         Team_CreatedBy := 1; Team_CreatedAt := 0; Team_UpdatedAt := 0 |}]}
    (set_permissions {[50%N := demo_permission 50 "teams.manage"]} demo_DB).
Lemma AddMember_Ok_witness :
  exists dto w', @AddMember demo (@organizations_Authorizer demo) 1 1 70 3 (demo_world demo_team_DB) = (Ok dto, w') /\
    exists k ms, memberships demo_team_DB !! k = Some ms /\ OrganizationMembership_UserID ms = 3%N /\
      OrganizationMembership_Status ms = "active".
Proof.
  destruct (@AddMember demo (@organizations_Authorizer demo) 1 1 70 3 (demo_world demo_team_DB)) as [r w'] eqn:E.
  assert (Hr : exists dto, r = Ok dto) by (apply (f_equal fst) in E; vm_compute in E; subst r; eexists; reflexivity).
  destruct Hr as [dto ->].
  destruct (@AddMember_Ok demo (@organizations_Authorizer demo) 1 1 70 3 (demo_world demo_team_DB) dto w' E)
    as (_ & (k & ms & Hk & _ & Hu & Ha) & _).
  exists dto, w'. split; [reflexivity|]. exists k, ms. split; [exact Hk|]. split; assumption.
Defined.
