(* ===== verification/Projects.v ===== *)
(** * Projects

    Models [internal/projects/model.go] (the mutable fields, partial updates, validation)
    and [internal/projects/service.go], against the authorization interface. *)
From S2P Require Import Prelude.
From S2P Require Import GoError.
From S2P Require Import Schema.
From S2P Require Import Store.
From S2P Require Import Logic.
From S2P Require Import GoStrings.
From S2P Require Import Sql.
From S2P Require Import QueriesOrg.
From S2P Require Import QueriesAuth.
From S2P Require Import QueriesInv.
From S2P Require Import QueriesWork.
From S2P Require Import Permissions.
From S2P Require Import Pagination.
From S2P Require Import Tenancy.
From S2P Require Import AuditTrail.
From S2P Require Import Authz.
From S2P Require Import Validation.
From S2P Require Import Organizations.
From S2P Require Import Demo.
Local Open Scope string_scope.

Definition maxNameLength : Z := 150.
Definition maxDescriptionLength : Z := 5000.
Definition defaultStatus := "planning".
Definition defaultPriority := "medium".
Definition defaultSort := "created_at".
Definition validStatuses : list string := ["planning"; "active"; "on_hold"; "completed"; "archived"].
Definition validPriorities : list string := ["low"; "medium"; "high"; "urgent"].
Definition sortableFields : list string := ["created_at"; "updated_at"; "name"; "due_date"; "priority"].

Record CreateInput := {
  CI_Name : string; CI_Description : option string; CI_TeamID : option N; CI_Status : string;
  CI_Priority : string; CI_StartDate : option Z; CI_DueDate : option Z
}.
Record UpdateInput := {
  UI_Name : option string; UI_Description : Optional string; UI_TeamID : Optional N;
  UI_Status : option string; UI_Priority : option string; UI_StartDate : Optional Z;
  UI_DueDate : Optional Z
}.
Record ListFilter := {
  LF_Status : option string; LF_Priority : option string; LF_TeamID : option N;
  LF_Sort : string; LF_Desc : bool
}.
(** [fields]: the mutable project state. *)
Record fields := {
  F_Name : string; F_Description : option string; F_TeamID : option N; F_Status : string;
  F_Priority : string; F_StartDate : option Z; F_DueDate : option Z
}.
#[export] Instance fields_eq_dec : EqDecision fields.
Proof. solve_decision. Defined.

(** [CreateInput.fields] *)
Definition CreateInput_fields (inp : CreateInput) : fields :=
  {| F_Name := TrimSpace (CI_Name inp); F_Description := NormalizeOptionalText (CI_Description inp);
     F_TeamID := CI_TeamID inp;
     F_Status := if CI_Status inp =?= "" then defaultStatus else CI_Status inp;
     F_Priority := if CI_Priority inp =?= "" then defaultPriority else CI_Priority inp;
     F_StartDate := CI_StartDate inp; F_DueDate := CI_DueDate inp |}.

(** One field of [UpdateInput.apply]: its next value, and its name when it changed. *)
Definition present {T} (v : option T) (cur : T) (norm : T -> T) : T :=
  match v with Some x => norm x | None => cur end.
Definition present_opt {T} (v : Optional T) (cur : option T) (norm : option T -> option T) : option T :=
  match v with SetTo x => norm x | Unset => cur end.
Definition changed_if (b : bool) (name : string) : list string := if b then [name] else [].

Definition apply (inp : UpdateInput) (current : fields) : fields * list string :=
  let next := {|
    F_Name := present (UI_Name inp) (F_Name current) TrimSpace;
    F_Description := present_opt (UI_Description inp) (F_Description current) NormalizeOptionalText;
    F_TeamID := present_opt (UI_TeamID inp) (F_TeamID current) id;
    F_Status := present (UI_Status inp) (F_Status current) id;
    F_Priority := present (UI_Priority inp) (F_Priority current) id;
    F_StartDate := present_opt (UI_StartDate inp) (F_StartDate current) id;
    F_DueDate := present_opt (UI_DueDate inp) (F_DueDate current) id |} in
  (next,
   changed_if (negb (F_Name next =?= F_Name current)) "name" ++
   changed_if (negb (EqualPtr (F_Description next) (F_Description current) beq)) "description" ++
   changed_if (negb (EqualPtr (F_TeamID next) (F_TeamID current) beq)) "team_id" ++
   changed_if (negb (F_Status next =?= F_Status current)) "status" ++
   changed_if (negb (F_Priority next =?= F_Priority current)) "priority" ++
   changed_if (negb (EqualPtr (F_StartDate next) (F_StartDate current) EqualDate)) "start_date" ++
   changed_if (negb (EqualPtr (F_DueDate next) (F_DueDate current) EqualDate)) "due_date")%list.

(** [fields.validate] *)
Definition validate (f : fields) : option error :=
  let v := Required "name" (F_Name f) New in
  let v := MaxLen "name" (F_Name f) maxNameLength v in
  let v := match F_Description f with
           | Some d => MaxLen "description" d maxDescriptionLength v | None => v end in
  let v := Check_ (is_one_of (F_Status f) validStatuses) "status"
             "must be one of planning, active, on_hold, completed, archived" v in
  let v := Check_ (is_one_of (F_Priority f) validPriorities) "priority"
             "must be one of low, medium, high, urgent" v in
  let v := match F_StartDate f, F_DueDate f with
           | Some s, Some d => Check_ (negb (Z.ltb d s)) "due_date" "must not be before start_date" v
           | _, _ => v end in
  ErrOf v.

Definition fieldsFromProject (p : Project) : fields :=
  {| F_Name := Project_Name p; F_Description := Project_Description p; F_TeamID := Project_TeamID p;
     F_Status := Project_Status p; F_Priority := Project_Priority p;
     F_StartDate := Project_StartDate p; F_DueDate := Project_DueDate p |}.

(** The DTO carries the same fields as the row. *)
Definition ProjectDTO := Project.
Definition toDTO (p : Project) : ProjectDTO := p.

Definition projectNotFound (e : error) : error :=
  NewAPIError 404 "PROJECT_NOT_FOUND" "Project not found" (Some e).
Definition invalidTeam (e : error) : error :=
  NewAPIError 422 "INVALID_TEAM" "Team not found in this organization" (Some e).
Definition mapWriteError (e : error) : error :=
  match asPgError e with
  | Some (code, name) =>
      if ((code =?= "23503") && (name =?= "projects_team_fkey"))%bool then invalidTeam e else e
  | None => e
  end.
Definition no_rows (f : error -> error) (e : error) : error := if isNoRows e then f e else e.
Definition reject (e : option error) : M unit := match e with Some e => fail e | None => ret tt end.

Section service.
Context `{Authorizer}.

Definition ensureTeam (orgID : N) (teamID : option N) : M unit :=
  match teamID with
  | None => ret tt
  | Some t => map_err (no_rows invalidTeam) (GetTeam t orgID) ;;; ret tt
  end.
Definition getForUpdate (orgID projectID : N) : M Project :=
  map_err (no_rows projectNotFound) (GetProjectForUpdate projectID orgID).

Definition List_ (userID orgID : N) (filter : ListFilter) (page : PageRequest)
    : M (list ProjectDTO * Pagination) :=
  _ <- Authorize userID orgID ProjectsRead ;;
  let sortBy := if is_one_of (LF_Sort filter) sortableFields then LF_Sort filter else defaultSort in
  tr <- wrapf "list projects" (WithTenantTx orgID
    (total <- CountProjects orgID (LF_Status filter) (LF_Priority filter) (LF_TeamID filter) ;;
     rows <- ListProjects orgID (LF_Status filter) (LF_Priority filter) (LF_TeamID filter)
               sortBy (LF_Desc filter) (Limit page) (Offset page) ;;
     ret (total, rows))) ;;
  ret (map toDTO tr.2, NewPagination page tr.1).

Definition Get (userID orgID projectID : N) : M ProjectDTO :=
  _ <- Authorize userID orgID ProjectsRead ;;
  p <- wrapf "get project" (WithTenantTx orgID
         (map_err (no_rows projectNotFound) (GetProject projectID orgID))) ;;
  ret (toDTO p).

Definition create_body (userID orgID : N) (f : fields) : M Project :=
  ensureTeam orgID (F_TeamID f) ;;;
  project <- map_err mapWriteError
    (CreateProject orgID (F_TeamID f) (F_Name f) (F_Description f) (F_Status f) (F_Priority f)
       (F_StartDate f) (F_DueDate f) userID) ;;
  activity_Record orgID (Some userID) "project.created" "project" (Project_ID project)
    (Some [("name", JStr (Project_Name project))]) ;;;
  ret project.
Definition Create (userID orgID : N) (inp : CreateInput) : M ProjectDTO :=
  _ <- Authorize userID orgID ProjectsCreate ;;
  let f := CreateInput_fields inp in
  reject (validate f) ;;;
  project <- wrapf "create project" (WithTenantTx orgID (create_body userID orgID f)) ;;
  ret (toDTO project).

Definition update_metadata (current project : Project) (changed : list string) : list (string * json) :=
  [("changes", JArr (map JStr changed)); ("name", JStr (Project_Name project))] ++
  (if negb (Project_Status current =?= Project_Status project) then
     [("status", JObj [("from", JStr (Project_Status current)); ("to", JStr (Project_Status project))])]
   else [])%list.
Definition is_set {T} (o : Optional T) : bool := match o with SetTo _ => true | Unset => false end.
Definition update_body (userID orgID projectID : N) (inp : UpdateInput) : M Project :=
  current <- getForUpdate orgID projectID ;;
  let '(next, changed) := apply inp (fieldsFromProject current) in
  reject (validate next) ;;;
  if (match changed with [] => true | _ => false end) then ret current else
  (if is_set (UI_TeamID inp) then ensureTeam orgID (F_TeamID next) else ret tt) ;;;
  project <- map_err mapWriteError
    (UpdateProject projectID orgID (F_TeamID next) (F_Name next) (F_Description next)
       (F_Status next) (F_Priority next) (F_StartDate next) (F_DueDate next)) ;;
  activity_Record orgID (Some userID) "project.updated" "project" (Project_ID project)
    (Some (update_metadata current project changed)) ;;;
  ret project.
Definition Update (userID orgID projectID : N) (inp : UpdateInput) : M ProjectDTO :=
  _ <- Authorize userID orgID ProjectsUpdate ;;
  project <- wrapf "update project" (WithTenantTx orgID (update_body userID orgID projectID inp)) ;;
  ret (toDTO project).

Definition delete_body (userID orgID projectID : N) : M unit :=
  current <- getForUpdate orgID projectID ;;
  DeleteProject projectID orgID ;;;
  activity_Record orgID (Some userID) "project.deleted" "project" projectID
    (Some [("name", JStr (Project_Name current))]).
Definition Delete (userID orgID projectID : N) : M unit :=
  _ <- Authorize userID orgID ProjectsDelete ;;
  wrapf "delete project" (WithTenantTx orgID (delete_body userID orgID projectID)).

Definition ListActivity (userID orgID projectID : N) (page : PageRequest)
    : M (list ActivityLog * Pagination) :=
  _ <- Authorize userID orgID ProjectsRead ;;
  tr <- wrapf "list project activity" (WithTenantTx orgID
    (map_err (no_rows projectNotFound) (GetProject projectID orgID) ;;;
     total <- CountActivityByResource orgID "project" projectID ;;
     rows <- ListActivityByResource orgID "project" projectID (Limit page) (Offset page) ;;
     ret (total, rows))) ;;
  ret (tr.2, NewPagination page tr.1).
End service.

(** ** Facts: partial updates *)

(** [apply] reports precisely whether anything changed: the list of changed fields is
    empty exactly when the merged fields equal the current ones, so [Update]'s early return
    skips the write only when there is nothing to write. *)
Theorem apply_changed (inp : UpdateInput) (cur : fields) :
  (apply inp cur).2 = [] <-> (apply inp cur).1 = cur.
Proof.
  assert (Hc : forall b n l, (changed_if (negb b) n ++ l)%list = [] <-> b = true /\ l = []).
  { intros [] n l; simpl; [tauto|]. split; [done|]. by intros []. }
  assert (Hl : forall b n, changed_if (negb b) n = [] <-> b = true).
  { intros [] n; simpl; split; congruence. }
  unfold apply. cbn [fst snd]. rewrite !Hc, Hl.
  rewrite !beq_true, !EqualPtr_spec by (intros; apply beq_true || apply Z.eqb_eq).
  destruct cur. cbn. split.
  - intros. destruct_and?. by f_equal.
  - intros [= -> -> -> -> -> -> ->]. by split_and!.
Qed.

(** *** A partial update, field by field

    What the client set replaces the current value, and what it left out stays: a name is
    stored trimmed, a blank description as none. *)
Definition set_or {T} (v : option T) (cur next : T) : Prop := match v with Some x => next = x | None => next = cur end.
Definition set_or_clear {T} (v : Optional T) (cur next : option T) : Prop :=
  match v with SetTo x => next = x | Unset => next = cur end.
Definition merges (inp : UpdateInput) (cur next : fields) : Prop :=
  match UI_Name inp with Some n => F_Name next = TrimSpace n | None => F_Name next = F_Name cur end /\
  match UI_Description inp with
  | SetTo (Some t) => F_Description next = if TrimSpace t =?= "" then None else Some t
  | SetTo None => F_Description next = None
  | Unset => F_Description next = F_Description cur
  end /\
  set_or_clear (UI_TeamID inp) (F_TeamID cur) (F_TeamID next) /\
  set_or (UI_Status inp) (F_Status cur) (F_Status next) /\ set_or (UI_Priority inp) (F_Priority cur) (F_Priority next) /\
  set_or_clear (UI_StartDate inp) (F_StartDate cur) (F_StartDate next) /\
  set_or_clear (UI_DueDate inp) (F_DueDate cur) (F_DueDate next).
(** The fields that differ, by their names in the API. *)
Definition differ (cur next : fields) (name : string) : Prop :=
  name = "name" /\ F_Name next <> F_Name cur \/ name = "description" /\ F_Description next <> F_Description cur \/
  name = "team_id" /\ F_TeamID next <> F_TeamID cur \/ name = "status" /\ F_Status next <> F_Status cur \/
  name = "priority" /\ F_Priority next <> F_Priority cur \/ name = "start_date" /\ F_StartDate next <> F_StartDate cur \/
  name = "due_date" /\ F_DueDate next <> F_DueDate cur.

Lemma apply_merges inp cur : merges inp cur (apply inp cur).1.
Proof.
  unfold merges, set_or, set_or_clear, apply. cbn. split_and!; [by destruct (UI_Name inp)| |by destruct (UI_TeamID inp)
    |by destruct (UI_Status inp)|by destruct (UI_Priority inp)|by destruct (UI_StartDate inp)|by destruct (UI_DueDate inp)].
  by destruct (UI_Description inp) as [|[t|]].
Qed.
Lemma elem_of_changed_if b x n : n ∈ changed_if (negb b) x <-> n = x /\ b <> true.
Proof. destruct b; cbn; [|rewrite list_elem_of_singleton]; split; [by intros ?%not_elem_of_nil|by intros [_ []]|done|by intros [? _]]. Qed.
Lemma changed_if_sublist b x : changed_if b x `sublist_of` [x].
Proof. destruct b; cbn; [done|apply sublist_nil_l]. Qed.
Lemma apply_names inp cur : NoDup (apply inp cur).2 /\ forall n, n ∈ (apply inp cur).2 <-> differ cur (apply inp cur).1 n.
Proof.
  split.
  - apply (sublist_NoDup _ ["name"; "description"; "team_id"; "status"; "priority"; "start_date"; "due_date"]);
      [apply (bool_decide_unpack _); vm_compute; exact I|].
    unfold apply. cbn [snd]. change ["name"; "description"; "team_id"; "status"; "priority"; "start_date"; "due_date"]
      with (["name"] ++ ["description"] ++ ["team_id"] ++ ["status"] ++ ["priority"] ++ ["start_date"] ++ ["due_date"])%list.
    repeat (apply sublist_app; [apply changed_if_sublist|]). apply changed_if_sublist.
  - intros n. unfold apply, differ. cbn [fst snd].
    rewrite !elem_of_app, !elem_of_changed_if, !beq_true, !EqualPtr_spec by (intros; apply beq_true || apply Z.eqb_eq). done.
Qed.

(** Validation agrees with the schema: fields that pass [validate] satisfy every CHECK
    constraint of the projects table (with the byte length standing above the character
    length), so the database can only refuse the write for its team reference. *)
Theorem validate_implies_checks (f : fields) (d : DB) (p : Project) :
  validate f = None -> fieldsFromProject p = f ->
  project_checks d p = None \/ project_checks d p = Some (fk_violation "projects_team_fkey").
Proof.
  intros Hv <-. unfold validate in Hv. apply ErrOf_None in Hv.
  assert (Hlen : forall s, (char_length s <= len s)%Z).
  { intros s. unfold char_length, len. rewrite <- (String.string_of_list_ascii_of_string s) at 2.
    generalize (String.list_ascii_of_string s). intros l. apply Nat2Z.inj_le.
    induction l as [|a l IH]; simpl; [done|]. destruct (negb _); simpl; lia. }
  unfold project_checks. simpl in Hv.
  assert (Hsplit : forall ok f0 m0 v0, Valid (Check_ ok f0 m0 v0) = true -> ok = true /\ Valid v0 = true).
  { intros ok f0 m0 v0. rewrite Check_valid. by intros [? ?]%andb_true_iff. }
  assert (Hdates : match Project_StartDate p, Project_DueDate p with
                   | Some s, Some e => Z.leb s e | _, _ => true end = true /\
    Valid (Check_ (is_one_of (Project_Priority p) validPriorities) "priority"
      "must be one of low, medium, high, urgent"
      (Check_ (is_one_of (Project_Status p) validStatuses) "status"
         "must be one of planning, active, on_hold, completed, archived"
      (match Project_Description p with
       | Some d => MaxLen "description" d maxDescriptionLength
                     (MaxLen "name" (Project_Name p) maxNameLength (Required "name" (Project_Name p) New))
       | None => MaxLen "name" (Project_Name p) maxNameLength (Required "name" (Project_Name p) New)
       end))) = true).
  { destruct (Project_StartDate p) as [s|]; [destruct (Project_DueDate p) as [e|]|]; [|by split..].
    apply Hsplit in Hv as [Hse Hv]. split; [|done]. bool_hyps. by apply Z.leb_le. }
  destruct Hdates as [Hd Hv2]. apply Hsplit in Hv2 as [Hp Hv2]. apply Hsplit in Hv2 as [Hs Hv2].
  assert (Hdesc : match Project_Description p with None => true
                  | Some x => Z.leb (char_length x) 5000 end = true /\
    Valid (MaxLen "name" (Project_Name p) maxNameLength (Required "name" (Project_Name p) New)) = true).
  { destruct (Project_Description p) as [x|]; [|by split]. apply Hsplit in Hv2 as [Hx Hv2].
    split; [|done]. apply Z.leb_le in Hx. apply Z.leb_le. specialize (Hlen x). unfold maxDescriptionLength in *. lia. }
  destruct Hdesc as [Hdesc Hv3]. apply Hsplit in Hv3 as [Hn Hreq]. apply Z.leb_le in Hn.
  apply Required_btrim in Hreq as Hname. rewrite Hname.
  assert (Hn2 : Z.leb (char_length (Project_Name p)) 150 = true).
  { apply Z.leb_le. specialize (Hlen (Project_Name p)). unfold maxNameLength in *. lia. }
  rewrite Hn2, Hdesc, Hd. unfold priorities, validPriorities, validStatuses in *.
  rewrite Hs, Hp. simpl. destruct (negb _); auto.
Qed.
Definition demo_fields : fields :=
  {| F_Name := "p"; F_Description := None; F_TeamID := None; F_Status := "planning";
     F_Priority := "low"; F_StartDate := Some 1%Z; F_DueDate := Some 2%Z |}.
Definition demo_project (id org : N) : Project :=
  {| Project_ID := id; Project_OrganizationID := org; Project_TeamID := None; Project_Name := "p";
     Project_Description := None; Project_Status := "planning"; Project_Priority := "low";
     Project_StartDate := Some 1%Z; Project_DueDate := Some 2%Z; Project_CreatedBy := 1;
     Project_CreatedAt := 0; Project_UpdatedAt := 0 |}.
Lemma validate_implies_checks_witness :
  project_checks demo_DB (demo_project 80 1) = None \/
  project_checks demo_DB (demo_project 80 1) = Some (fk_violation "projects_team_fkey").
Proof. exact (validate_implies_checks demo_fields demo_DB (demo_project 80 1) eq_refl eq_refl). Defined.

(** ** Facts: the operations *)

Section contract.
Context `{Authorizer} (u o : N).
Lemma project_reject_pres R `{!PreOrder R} e : pres R (reject e).
Proof. destruct e; unfold reject; pres_auto. Qed.
Lemma ensureTeam_out t : pres (same_outside o) (ensureTeam o t).
Proof. destruct t; unfold ensureTeam; pres_auto. Qed.
#[local] Hint Resolve project_reject_pres ensureTeam_out : teamflow_frame.
Lemma project_List_op flt pg : tenant_op u o ProjectsRead (List_ u o flt pg).
Proof. unfold List_. tenant_op_auto. Qed.
Lemma project_Get_op p : tenant_op u o ProjectsRead (Get u o p).
Proof. unfold Get, toDTO. tenant_op_auto. Qed.
Lemma project_Create_op ci : tenant_op u o ProjectsCreate (Create u o ci).
Proof.
  unfold Create, create_body, toDTO. apply tenant_op_gate; intros t; [cbv zeta; pres_auto|].
  apply keeps_bind_reads; [apply project_reject_pres, _|]. intros _. repeat keeps_step. pres_auto.
Qed.
Lemma project_Update_op p ui : tenant_op u o ProjectsUpdate (Update u o p ui).
Proof. unfold Update, update_body, getForUpdate, toDTO. tenant_op_auto. Qed.
Lemma project_Delete_op p : tenant_op u o ProjectsDelete (Delete u o p).
Proof. unfold Delete, delete_body, getForUpdate. tenant_op_auto. Qed.
Lemma project_ListActivity_op p pg : tenant_op u o ProjectsRead (ListActivity u o p pg).
Proof. unfold ListActivity. tenant_op_auto. Qed.
End contract.
#[export] Hint Resolve project_List_op project_Get_op project_Create_op project_Update_op project_Delete_op project_ListActivity_op : teamflow_ops.

(** The project operations keep the contract of a tenant operation. *)
Theorem project_ops `{Authorizer} (u o p : N) (flt : ListFilter) (pg : PageRequest)
    (ci : CreateInput) (ui : UpdateInput) :
  tenant_op u o ProjectsRead (List_ u o flt pg) /\
  tenant_op u o ProjectsRead (Get u o p) /\
  tenant_op u o ProjectsCreate (Create u o ci) /\
  tenant_op u o ProjectsUpdate (Update u o p ui) /\
  tenant_op u o ProjectsDelete (Delete u o p) /\
  tenant_op u o ProjectsRead (ListActivity u o p pg).
Proof. split_and!; auto with teamflow_ops. Qed.

Section results.
Context `{Authorizer}.

Lemma reject_Ok e w u w' : reject e w = (Ok u, w') -> e = None /\ w = w'.
Proof. destruct e; unfold reject; [done|]. by intros [_ ->]%ret_Ok. Qed.
Lemma ensureTeam_Ok o t w u w' : ensureTeam o t w = (Ok u, w') ->
  w_db w' = w_db w /\ match t with None => True | Some id => exists team,
    teams (w_db w) !! id = Some team /\ Team_OrganizationID team = o end.
Proof.
  unfold ensureTeam. destruct t as [id|].
  - intros (team & w1 & E%map_err_Ok & [_ <-]%ret_Ok)%bind_Ok. query_ok E. eauto.
  - by intros [_ <-]%ret_Ok.
Qed.
Lemma getForUpdate_Ok o id w p w' : getForUpdate o id w = (Ok p, w') ->
  w' = next_tick w /\ projects (w_db w) !! id = Some p /\ Project_OrganizationID p = o.
Proof. unfold getForUpdate. intros E%map_err_Ok. query_ok E. done. Qed.
Lemma UpdateProject_Ok id o t n ds st pr sd dd w p w' :
  UpdateProject id o t n ds st pr sd dd w = (Ok p, w') ->
  w_db w' = set_projects (<[id := p]> (projects (w_db w))) (w_db w) /\
  fieldsFromProject p = {| F_Name := n; F_Description := ds; F_TeamID := t; F_Status := st;
                           F_Priority := pr; F_StartDate := sd; F_DueDate := dd |} /\
  exists p0, projects (w_db w) !! id = Some p0 /\ Project_ID p = Project_ID p0 /\
    Project_OrganizationID p = Project_OrganizationID p0 /\ Project_CreatedBy p = Project_CreatedBy p0 /\
    Project_CreatedAt p = Project_CreatedAt p0.
Proof. intros E. stmt_ok E. split_and!; [done|done|]. eexists. by split_and!. Qed.


(** [Delete] removes the project with all of its tasks and nothing else of either
    table, and logs one [project.deleted] entry. *)
Theorem Delete_Ok (u o id : N) (w : World) (w' : World) :
  Delete u o id w = (Ok tt, w') ->
  (exists cur, projects (w_db w) !! id = Some cur /\ Project_OrganizationID cur = o) /\
  projects (w_db w') = delete id (projects (w_db w)) /\
  (forall k t, tasks (w_db w') !! k = Some t <-> tasks (w_db w) !! k = Some t /\ ~ task_of_project id o t) /\
  logged o u "project.deleted" "project" id (w_db w) (w_db w').
Proof.
  unfold Delete. intros (tn & w1 & _ & Hd1 & E%wrapf_Ok)%gate_Ok.
  apply WithTenantTx_Ok in E as (wa & wb & tx & E & Hda & Htx & Htxo & Hd' & _).
  rewrite Hd', <- Hd1, <- Hda. clear Hd' Hda Hd1. unfold delete_body in E.
  apply bind_Ok in E as (cur & w3 & (-> & Hcur & Ho)%getForUpdate_Ok & E).
  apply bind_Ok in E as ([] & w4 & Ed & (Hlog & t & Hd7)%activity_Record_Ok).
  assert (Hd4 : w_db w4 = set_projects (delete id (projects (w_db wa)))
     (set_tasks (rows_where (fun t => ~ task_of_project id o t) (tasks (w_db wa))) (w_db wa))).
  { apply stmt_Ok in Ed as (c & d & Hb & -> & _ & Hc). simpl in *. unfold sel in Hb. rewrite Hcur in Hb.
    rewrite Htx in Hc. destruct Hc as (Hc & _). rewrite Htxo in Hc.
    rewrite (in_org_live c o _ Hc), Ho, beq_refl in Hb. by simplify_eq. }
  split_and!; [by exists cur| | |].
  - by rewrite Hd7, Hd4.
  - intros k x. rewrite Hd7, Hd4. simpl. apply (rows_where_lookup (fun t => ~ task_of_project id o t)).
  - destruct Hlog as (a & Hl). rewrite Hd4 in Hl. by exists a.
Qed.
End results.

Definition demo_project_DB : DB :=
  set_projects {[80%N := demo_project 80 1]}
    (set_permissions {[50%N := demo_permission 50 "projects.update"; 51%N := demo_permission 51 "projects.delete"]}
       demo_DB).
Definition demo_update : UpdateInput :=
  {| UI_Name := Some "q"; UI_Description := Unset; UI_TeamID := Unset; UI_Status := Some "active";
     UI_Priority := None; UI_StartDate := Unset; UI_DueDate := SetTo None |}.
Lemma Delete_Ok_witness :
  exists w', @Delete demo (@organizations_Authorizer demo) 1 1 80 (demo_world demo_project_DB) = (Ok tt, w') /\
    projects (w_db w') = delete 80%N (projects demo_project_DB).
Proof.
  destruct (@Delete demo (@organizations_Authorizer demo) 1 1 80 (demo_world demo_project_DB)) as [r w'] eqn:E.
  assert (Hr : r = Ok tt) by (apply (f_equal fst) in E; vm_compute in E; subst r; reflexivity).
  rewrite Hr in E. exists w'. split; [by rewrite Hr|].
  exact (proj1 (proj2 (@Delete_Ok demo (@organizations_Authorizer demo) 1 1 80 (demo_world demo_project_DB) w' E))).
Defined.
