(* ===== verification/Tasks.v ===== *)
(** * Tasks

    Models [internal/tasks/model.go] and [internal/tasks/service.go], against the
    authorization interface. *)
From S2P Require Import Prelude.
From S2P Require Import GoError.
From S2P Require Import Schema.
From S2P Require Import Store.
From S2P Require Import Logic.
From S2P Require Import GoStrings.
From S2P Require Import Sql.
From S2P Require Import QueriesOrg.
From S2P Require Import QueriesAuth.
From S2P Require Import QueriesInv.
From S2P Require Import QueriesWork.
From S2P Require Import Permissions.
From S2P Require Import Pagination.
From S2P Require Import Tenancy.
From S2P Require Import AuditTrail.
From S2P Require Import Authz.
From S2P Require Import Validation.
From S2P Require Import Organizations.
From S2P Require Import Demo.
Local Open Scope string_scope.

Definition maxTitleLength : Z := 200.
Definition maxDescriptionLength : Z := 5000.
Definition defaultStatus := "todo".
Definition defaultPriority := "medium".
Definition defaultSort := "created_at".
Definition validStatuses : list string :=
  ["todo"; "in_progress"; "blocked"; "in_review"; "done"; "cancelled"].
Definition validPriorities : list string := ["low"; "medium"; "high"; "urgent"].
Definition sortableFields : list string :=
  ["created_at"; "updated_at"; "title"; "due_date"; "priority"; "status"].

Record CreateInput := {
  CI_Title : string; CI_Description : option string; CI_Status : string; CI_Priority : string;
  CI_AssigneeID : option N; CI_DueDate : option Z
}.
Record UpdateInput := {
  UI_Title : option string; UI_Description : Optional string; UI_Status : option string;
  UI_Priority : option string; UI_AssigneeID : Optional N; UI_DueDate : Optional Z
}.
Record ListFilter := {
  LF_ProjectID : option N; LF_Status : option string; LF_Priority : option string;
  LF_AssigneeID : option N; LF_Unassigned : bool; LF_Sort : string; LF_Desc : bool
}.
Record fields := {
  F_Title : string; F_Description : option string; F_Status : string; F_Priority : string;
  F_AssigneeID : option N; F_DueDate : option Z
}.

Definition CreateInput_fields (inp : CreateInput) : fields :=
  {| F_Title := TrimSpace (CI_Title inp); F_Description := NormalizeOptionalText (CI_Description inp);
     F_Status := if CI_Status inp =?= "" then defaultStatus else CI_Status inp;
     F_Priority := if CI_Priority inp =?= "" then defaultPriority else CI_Priority inp;
     F_AssigneeID := CI_AssigneeID inp; F_DueDate := CI_DueDate inp |}.

Definition present {T} (v : option T) (cur : T) (norm : T -> T) : T :=
  match v with Some x => norm x | None => cur end.
Definition present_opt {T} (v : Optional T) (cur : option T) (norm : option T -> option T) : option T :=
  match v with SetTo x => norm x | Unset => cur end.
Definition changed_if (b : bool) (name : string) : list string := if b then [name] else [].

(** [UpdateInput.apply] *)
Definition apply (inp : UpdateInput) (current : fields) : fields * list string :=
  let next := {|
    F_Title := present (UI_Title inp) (F_Title current) TrimSpace;
    F_Description := present_opt (UI_Description inp) (F_Description current) NormalizeOptionalText;
    F_Status := present (UI_Status inp) (F_Status current) id;
    F_Priority := present (UI_Priority inp) (F_Priority current) id;
    F_AssigneeID := present_opt (UI_AssigneeID inp) (F_AssigneeID current) id;
    F_DueDate := present_opt (UI_DueDate inp) (F_DueDate current) id |} in
  (next,
   changed_if (negb (F_Title next =?= F_Title current)) "title" ++
   changed_if (negb (EqualPtr (F_Description next) (F_Description current) beq)) "description" ++
   changed_if (negb (F_Status next =?= F_Status current)) "status" ++
   changed_if (negb (F_Priority next =?= F_Priority current)) "priority" ++
   changed_if (negb (EqualPtr (F_AssigneeID next) (F_AssigneeID current) beq)) "assignee_id" ++
   changed_if (negb (EqualPtr (F_DueDate next) (F_DueDate current) EqualDate)) "due_date")%list.

Definition validate (f : fields) : option error :=
  let v := Required "title" (F_Title f) New in
  let v := MaxLen "title" (F_Title f) maxTitleLength v in
  let v := match F_Description f with
           | Some d => MaxLen "description" d maxDescriptionLength v | None => v end in
  let v := Check_ (is_one_of (F_Status f) validStatuses) "status"
             "must be one of todo, in_progress, blocked, in_review, done, cancelled" v in
  let v := Check_ (is_one_of (F_Priority f) validPriorities) "priority"
             "must be one of low, medium, high, urgent" v in
  ErrOf v.

Definition fieldsFromTask (t : Task) : fields :=
  {| F_Title := Task_Title t; F_Description := Task_Description t; F_Status := Task_Status t;
     F_Priority := Task_Priority t; F_AssigneeID := Task_AssigneeID t; F_DueDate := Task_DueDate t |}.
Definition TaskDTO := Task.
Definition toDTO (t : Task) : TaskDTO := t.

Definition taskNotFound (e : error) : error := NewAPIError 404 "TASK_NOT_FOUND" "Task not found" (Some e).
Definition projectNotFound (e : error) : error :=
  NewAPIError 404 "PROJECT_NOT_FOUND" "Project not found in this organization" (Some e).
Definition invalidAssignee (e : option error) : error :=
  NewAPIError 422 "INVALID_ASSIGNEE" "Assignee must be an active member of this organization" e.
Definition mapWriteError (e : error) : error :=
  match asPgError e with
  | Some (code, name) =>
      if ((code =?= "23503") && (name =?= "tasks_project_fkey"))%bool then projectNotFound e
      else if ((code =?= "23503") && (name =?= "tasks_assignee_fkey"))%bool then invalidAssignee (Some e)
      else e
  | None => e
  end.
Definition no_rows (f : error -> error) (e : error) : error := if isNoRows e then f e else e.
Definition reject (e : option error) : M unit := match e with Some e => fail e | None => ret tt end.

Section service.
Context `{Authorizer}.

Definition ensureProject (orgID projectID : N) : M unit :=
  map_err (no_rows projectNotFound) (GetProject projectID orgID) ;;; ret tt.
(** Any lookup error leaves the zero membership, whose status is not active. *)
Definition ensureAssignee (orgID : N) (assigneeID : option N) : M unit :=
  match assigneeID with
  | None => ret tt
  | Some u =>
      r <- attempt (GetMembership orgID u) ;;
      match r with
      | Err e => fail (invalidAssignee (Some e))
      | Ok m => reject_if (negb (OrganizationMembership_Status m =?= "active")) (invalidAssignee None)
      end
  end.
Definition getForUpdate (orgID taskID : N) : M Task :=
  map_err (no_rows taskNotFound) (GetTaskForUpdate taskID orgID).

Definition list_body (orgID : N) (filter : ListFilter) (page : PageRequest) : M (Z * list Task) :=
  let sortBy := if is_one_of (LF_Sort filter) sortableFields then LF_Sort filter else defaultSort in
  match LF_ProjectID filter with Some p => ensureProject orgID p | None => ret tt end ;;;
  total <- CountTasks orgID (LF_ProjectID filter) (LF_Status filter) (LF_Priority filter)
             (LF_AssigneeID filter) (LF_Unassigned filter) ;;
  rows <- ListTasks orgID (LF_ProjectID filter) (LF_Status filter) (LF_Priority filter)
            (LF_AssigneeID filter) (LF_Unassigned filter) sortBy (LF_Desc filter)
            (Limit page) (Offset page) ;;
  ret (total, rows).
Definition list_ (userID orgID : N) (filter : ListFilter) (page : PageRequest)
    : M (list TaskDTO * Pagination) :=
  _ <- Authorize userID orgID TasksRead ;;
  tr <- wrapf "list tasks" (WithTenantTx orgID (list_body orgID filter page)) ;;
  ret (map toDTO tr.2, NewPagination page tr.1).
Definition List_ := list_.
Definition ListByProject (userID orgID projectID : N) (filter : ListFilter) (page : PageRequest) :=
  list_ userID orgID
    {| LF_ProjectID := Some projectID; LF_Status := LF_Status filter;
       LF_Priority := LF_Priority filter; LF_AssigneeID := LF_AssigneeID filter;
       LF_Unassigned := LF_Unassigned filter; LF_Sort := LF_Sort filter; LF_Desc := LF_Desc filter |} page.

Definition Get (userID orgID taskID : N) : M TaskDTO :=
  _ <- Authorize userID orgID TasksRead ;;
  t <- wrapf "get task" (WithTenantTx orgID (map_err (no_rows taskNotFound) (GetTask taskID orgID))) ;;
  ret (toDTO t).

Definition create_metadata (projectID : N) (task : Task) : list (string * json) :=
  (match Task_AssigneeID task with
   | Some a => [("assignee_id", JStr (uuid_String a))] | None => [] end ++
   [("project_id", JStr (uuid_String projectID)); ("title", JStr (Task_Title task))])%list.
Definition create_body (userID orgID projectID : N) (f : fields) : M Task :=
  ensureProject orgID projectID ;;;
  ensureAssignee orgID (F_AssigneeID f) ;;;
  task <- map_err mapWriteError
    (CreateTask orgID projectID (F_Title f) (F_Description f) (F_Status f) (F_Priority f)
       (F_AssigneeID f) (F_DueDate f) userID) ;;
  activity_Record orgID (Some userID) "task.created" "task" (Task_ID task)
    (Some (create_metadata projectID task)) ;;;
  ret task.
Definition Create (userID orgID projectID : N) (inp : CreateInput) : M TaskDTO :=
  _ <- Authorize userID orgID TasksCreate ;;
  let f := CreateInput_fields inp in
  reject (validate f) ;;;
  task <- wrapf "create task" (WithTenantTx orgID (create_body userID orgID projectID f)) ;;
  ret (toDTO task).

Definition opt_uuid (o : option N) : json := match o with Some u => JStr (uuid_String u) | None => JNull end.
Definition update_metadata (current task : Task) (changed : list string) : list (string * json) :=
  ((if negb (EqualPtr (Task_AssigneeID current) (Task_AssigneeID task) beq) then
      [("assignee", JObj [("from", opt_uuid (Task_AssigneeID current)); ("to", opt_uuid (Task_AssigneeID task))])]
    else []) ++
   [("changes", JArr (map JStr changed))] ++
   (if negb (Task_Status current =?= Task_Status task) then
      [("status", JObj [("from", JStr (Task_Status current)); ("to", JStr (Task_Status task))])]
    else []) ++
   [("title", JStr (Task_Title task))])%list.
Definition is_set {T} (o : Optional T) : bool := match o with SetTo _ => true | Unset => false end.
Definition update_body (userID orgID taskID : N) (inp : UpdateInput) : M Task :=
  current <- getForUpdate orgID taskID ;;
  let '(next, changed) := apply inp (fieldsFromTask current) in
  reject (validate next) ;;;
  if (match changed with [] => true | _ => false end) then ret current else
  (if is_set (UI_AssigneeID inp) then ensureAssignee orgID (F_AssigneeID next) else ret tt) ;;;
  task <- map_err mapWriteError
    (UpdateTask taskID orgID (F_Title next) (F_Description next) (F_Status next) (F_Priority next)
       (F_AssigneeID next) (F_DueDate next)) ;;
  activity_Record orgID (Some userID) "task.updated" "task" (Task_ID task)
    (Some (update_metadata current task changed)) ;;;
  ret task.
Definition Update (userID orgID taskID : N) (inp : UpdateInput) : M TaskDTO :=
  _ <- Authorize userID orgID TasksUpdate ;;
  task <- wrapf "update task" (WithTenantTx orgID (update_body userID orgID taskID inp)) ;;
  ret (toDTO task).

Definition delete_body (userID orgID taskID : N) : M unit :=
  current <- getForUpdate orgID taskID ;;
  DeleteTask taskID orgID ;;;
  activity_Record orgID (Some userID) "task.deleted" "task" taskID
    (Some [("project_id", JStr (uuid_String (Task_ProjectID current))); ("title", JStr (Task_Title current))]).
Definition Delete (userID orgID taskID : N) : M unit :=
  _ <- Authorize userID orgID TasksDelete ;;
  wrapf "delete task" (WithTenantTx orgID (delete_body userID orgID taskID)).

Definition ListActivity (userID orgID taskID : N) (page : PageRequest)
    : M (list ActivityLog * Pagination) :=
  _ <- Authorize userID orgID TasksRead ;;
  tr <- wrapf "list task activity" (WithTenantTx orgID
    (map_err (no_rows taskNotFound) (GetTask taskID orgID) ;;;
     total <- CountActivityByResource orgID "task" taskID ;;
     rows <- ListActivityByResource orgID "task" taskID (Limit page) (Offset page) ;;
     ret (total, rows))) ;;
  ret (tr.2, NewPagination page tr.1).
End service.

(** ** Facts *)

Section contract.
Context `{Authorizer} (u o : N).
Lemma task_reject_pres R `{!PreOrder R} e : pres R (reject e).
Proof. destruct e; unfold reject; pres_auto. Qed.
Lemma ensureAssignee_out a : pres (same_outside o) (ensureAssignee o a).
Proof. destruct a; unfold ensureAssignee; pres_auto. Qed.
Lemma ensureProject_out p : pres (same_outside o) (ensureProject o p).
Proof. unfold ensureProject. pres_auto. Qed.
#[local] Hint Resolve task_reject_pres ensureAssignee_out ensureProject_out : teamflow_frame.
Lemma task_List_op flt pg : tenant_op u o TasksRead (List_ u o flt pg).
Proof. unfold List_, list_, list_body. tenant_op_auto. Qed.
Lemma task_ListByProject_op p flt pg : tenant_op u o TasksRead (ListByProject u o p flt pg).
Proof. unfold ListByProject, list_, list_body. tenant_op_auto. Qed.
Lemma task_Get_op t : tenant_op u o TasksRead (Get u o t).
Proof. unfold Get, toDTO. tenant_op_auto. Qed.
Lemma task_Create_op p ci : tenant_op u o TasksCreate (Create u o p ci).
Proof.
  unfold Create, create_body, toDTO. apply tenant_op_gate; intros t; [cbv zeta; pres_auto|].
  apply keeps_bind_reads; [apply task_reject_pres, _|]. intros _. repeat keeps_step. pres_auto.
Qed.
Lemma task_Update_op t ui : tenant_op u o TasksUpdate (Update u o t ui).
Proof. unfold Update, update_body, getForUpdate, toDTO. tenant_op_auto. Qed.
Lemma task_Delete_op t : tenant_op u o TasksDelete (Delete u o t).
Proof. unfold Delete, delete_body, getForUpdate. tenant_op_auto. Qed.
Lemma task_ListActivity_op t pg : tenant_op u o TasksRead (ListActivity u o t pg).
Proof. unfold ListActivity. tenant_op_auto. Qed.
End contract.
#[export] Hint Resolve task_List_op task_ListByProject_op task_Get_op task_Create_op task_Update_op task_Delete_op task_ListActivity_op : teamflow_ops.

(** The task operations keep the contract of a tenant operation. *)
Theorem task_ops `{Authorizer} (u o p t : N) (flt : ListFilter) (pg : PageRequest)
    (ci : CreateInput) (ui : UpdateInput) :
  tenant_op u o TasksRead (List_ u o flt pg) /\
  tenant_op u o TasksRead (ListByProject u o p flt pg) /\
  tenant_op u o TasksRead (Get u o t) /\
  tenant_op u o TasksCreate (Create u o p ci) /\
  tenant_op u o TasksUpdate (Update u o t ui) /\
  tenant_op u o TasksDelete (Delete u o t) /\
  tenant_op u o TasksRead (ListActivity u o t pg).
Proof. split_and!; auto with teamflow_ops. Qed.

Section results.
Context `{Authorizer}.

Lemma task_reject_Ok e w u w' : reject e w = (Ok u, w') -> e = None /\ w = w'.
Proof. destruct e; unfold reject; [done|]. by intros [_ ->]%ret_Ok. Qed.

Lemma task_for_update_Ok o id w t w' : getForUpdate o id w = (Ok t, w') ->
  w' = next_tick w /\ tasks (w_db w) !! id = Some t /\ Task_OrganizationID t = o.
Proof. unfold getForUpdate. intros E%map_err_Ok. query_ok E. done. Qed.

(** Active membership of the user in the organization. *)
Definition active_member (d : DB) (o u : N) : Prop := exists k m, memberships d !! k = Some m /\
  OrganizationMembership_OrganizationID m = o /\ OrganizationMembership_UserID m = u /\
  OrganizationMembership_Status m = "active".
Lemma ensureAssignee_Ok o a w x w' : ensureAssignee o a w = (Ok x, w') ->
  w_db w' = w_db w /\ match a with None => True | Some u => active_member (w_db w) o u end.
Proof.
  unfold ensureAssignee. destruct a as [u|]; [|by intros [_ <-]%ret_Ok].
  intros (r & w1 & E%attempt_Ok & Em)%bind_Ok. destruct r as [m|]; [|done]. query_ok E.
  apply reject_if_Ok in Em as [Hact%negb_false_iff <-].
  apply find_row_Some in Hb as [Hms [k Hk]]. unfold member_of in Hms. stmt_inv. bool_hyps.
  split; [done|]. by exists k, m.
Qed.
Lemma CreateTask_Ok o p t ds st pr a dd u w x w' :
  CreateTask o p t ds st pr a dd u w = (Ok x, w') ->
  w_db w' = set_tasks (<[Task_ID x := x]> (tasks (w_db w))) (w_db w) /\
  tasks (w_db w) !! Task_ID x = None /\ Task_OrganizationID x = o /\ Task_ProjectID x = p /\
  Task_CreatedBy x = u /\ Task_AssigneeID x = a /\
  fieldsFromTask x = {| F_Title := t; F_Description := ds; F_Status := st; F_Priority := pr;
                        F_AssigneeID := a; F_DueDate := dd |}.
Proof. intros E. stmt_ok E. by split_and!. Qed.

(** A created task is inside its organization: on success the stored row carries the
    validated input, its project is one of the organization's, its assignee (if any) is an
    active member, and the activity log gained one [task.created] entry of the caller. *)
Theorem Create_Ok (u o p : N) (inp : CreateInput) (w : World) (t : Task) (w' : World) :
  Create u o p inp w = (Ok t, w') ->
  let f := CreateInput_fields inp in
  validate f = None /\ fieldsFromTask t = f /\
  Task_OrganizationID t = o /\ Task_ProjectID t = p /\ Task_CreatedBy t = u /\
  tasks (w_db w) !! Task_ID t = None /\ tasks (w_db w') = <[Task_ID t := t]> (tasks (w_db w)) /\
  (exists pr, projects (w_db w) !! p = Some pr /\ Project_OrganizationID pr = o) /\
  match Task_AssigneeID t with None => True | Some a => active_member (w_db w) o a end /\
  logged o u "task.created" "task" (Task_ID t) (w_db w) (w_db w').
Proof.
  unfold Create. intros (tn & w1 & _ & Hd1 & E)%gate_Ok. cbv zeta in *.
  apply bind_Ok in E as ([] & w2 & [Hv <-]%task_reject_Ok & E).
  apply bind_Ok in E as (t' & w3 & E%wrapf_Ok & E'). apply ret_Ok in E' as [<- <-]. unfold toDTO.
  apply WithTenantTx_Ok in E as (wa & wb & tx & E & Hda & _ & _ & Hd' & _).
  rewrite Hd', <- Hd1, <- Hda. clear Hd' Hda Hd1. unfold create_body in E.
  apply bind_Ok in E as ([] & w4 & Ep & E).
  apply bind_Ok in Ep as (pr & w5 & Ep%map_err_Ok & [_ <-]%ret_Ok). query_ok Ep.
  apply bind_Ok in E as ([] & w6 & [Hd6 Hact]%ensureAssignee_Ok & E).
  apply bind_Ok in E as (x & w7 & (Hd7 & Hnew & Ho & Hp & Hu & Has & Hf)%map_err_Ok%CreateTask_Ok & E).
  apply bind_Ok in E as ([] & w8 & (Hlog & g & Hd8)%activity_Record_Ok & E). apply ret_Ok in E as [<- <-].
  simpl in *. rewrite Hd6 in *. split_and!; try done.
  - by rewrite Hd8, Hd7.
  - eauto.
  - by rewrite Has.
  - destruct Hlog as (a & Hl). rewrite Hd7 in Hl. by exists a.
Qed.

(** A task cannot be reassigned across a tenant boundary: when an update that sets the
    assignee succeeds with a change, the new assignee is nobody or an active member of the
    organization. *)
Theorem Update_assignee (u o id : N) (inp : UpdateInput) (v : option N) (w : World) (t : Task) (w' : World) :
  Update u o id inp w = (Ok t, w') -> UI_AssigneeID inp = SetTo v -> w_db w' <> w_db w ->
  Task_AssigneeID t = v /\ match v with None => True | Some a => active_member (w_db w) o a end.
Proof.
  unfold Update. intros (tn & w1 & _ & Hd1 & E)%gate_Ok Hset Hne.
  apply bind_Ok in E as (t' & w2 & E%wrapf_Ok & E'). apply ret_Ok in E' as [<- <-]. unfold toDTO.
  apply WithTenantTx_Ok in E as (wa & wb & tx & E & Hda & _ & _ & Hd' & _).
  rewrite Hd', <- Hd1, <- Hda in *. clear Hd' Hda Hd1. unfold update_body in E.
  apply bind_Ok in E as (cur & w3 & (-> & Hcur & Ho)%task_for_update_Ok & E).
  destruct (apply inp (fieldsFromTask cur)) as [next changed] eqn:Ea.
  apply bind_Ok in E as ([] & w4 & [Hv <-]%task_reject_Ok & E).
  destruct changed as [|c0 cs]; [by apply ret_Ok in E as [_ <-]|].
  rewrite Hset in E. simpl in E. apply bind_Ok in E as ([] & w5 & [Hd5 Hact]%ensureAssignee_Ok & E).
  apply bind_Ok in E as (x & w6 & Eu%map_err_Ok & E).
  apply bind_Ok in E as ([] & w7 & _ & E). apply ret_Ok in E as [<- _].
  injection Ea as Hn _. rewrite <- Hn in *. simpl in Hact. rewrite Hset in Hact. simpl in Hact.
  stmt_ok Eu. rewrite Hset. simpl. done.
Qed.
End results.
Definition demo_task_DB : DB :=
  set_projects {[80%N := {| Project_ID := 80; Project_OrganizationID := 1; Project_TeamID := None; Project_Name := "p";
     Project_Description := None; Project_Status := "planning"; Project_Priority := "low";
     Project_StartDate := None; Project_DueDate := None; Project_CreatedBy := 1;
     Project_CreatedAt := 0; Project_UpdatedAt := 0 |}]}
    (set_tasks {[90%N := {| Task_ID := 90; Task_OrganizationID := 1; Task_ProjectID := 80; Task_Title := "t";
       Task_Description := None; Task_Status := "todo"; Task_Priority := "low"; Task_AssigneeID := None;
       Task_DueDate := None; Task_CreatedBy := 1; Task_CreatedAt := 0; Task_UpdatedAt := 0 |}]}
    (set_permissions {[50%N := demo_permission 50 "tasks.update"; 51%N := demo_permission 51 "tasks.create"]}
       demo_DB)).
Definition demo_create : CreateInput :=
  {| CI_Title := " T "; CI_Description := None; CI_Status := ""; CI_Priority := ""; CI_AssigneeID := Some 3%N;
     CI_DueDate := None |}.
Definition demo_assign : UpdateInput :=
  {| UI_Title := None; UI_Description := Unset; UI_Status := None; UI_Priority := None;
     UI_AssigneeID := SetTo (Some 3%N); UI_DueDate := Unset |}.
Lemma Create_Ok_witness :
  exists t w', @Create demo (@organizations_Authorizer demo) 1 1 80 demo_create (demo_world demo_task_DB) = (Ok t, w') /\
    Task_OrganizationID t = 1%N.
Proof.
  destruct (@Create demo (@organizations_Authorizer demo) 1 1 80 demo_create (demo_world demo_task_DB)) as [r w'] eqn:E.
  assert (Hr : exists t, r = Ok t) by (apply (f_equal fst) in E; vm_compute in E; subst r; eexists; reflexivity).
  destruct Hr as [t ->].
  destruct (@Create_Ok demo (@organizations_Authorizer demo) 1 1 80 demo_create (demo_world demo_task_DB) t w' E)
    as (_ & _ & Ho & _).
  exists t, w'. split; [reflexivity|exact Ho].
Defined.
Lemma Update_assignee_witness :
  exists t w', @Update demo (@organizations_Authorizer demo) 1 1 90 demo_assign (demo_world demo_task_DB) = (Ok t, w') /\
    Task_AssigneeID t = Some 3%N.
Proof.
  destruct (@Update demo (@organizations_Authorizer demo) 1 1 90 demo_assign (demo_world demo_task_DB)) as [r w'] eqn:E.
  assert (Hr : exists t, r = Ok t) by (apply (f_equal fst) in E; vm_compute in E; subst r; eexists; reflexivity).
  destruct Hr as [t ->].
  destruct (@Update_assignee demo (@organizations_Authorizer demo) 1 1 90 demo_assign (Some 3%N)
              (demo_world demo_task_DB) t w' E eq_refl) as [Ha _].
  - intros Hd. apply (f_equal (fun d => Task_AssigneeID <$> tasks d !! 90%N)) in Hd.
    apply (f_equal snd) in E. simpl in E. rewrite <- E in Hd. vm_compute in Hd. discriminate.
  - exists t, w'. split; [reflexivity|exact Ha].
Defined.
