(* ===== verification/Auth.v ===== *)
(** * Authentication: registration, login, refresh-token rotation, logout

    Models [internal/auth/service.go], [tokens.go], [password.go], [dto.go] and the issuing
    half of [jwt.go]; resolving the credentials of a request is in [AuthHttp.v].  The signing
    secret, the issuer and the two lifetimes are parameters, as in the service's constructor.
    The comparison with a dummy hash that [Login] makes for unknown users only takes time. *)
From S2P Require Import Prelude.
From S2P Require Import GoError.
From S2P Require Import Schema.
From S2P Require Import Store.
From S2P Require Import Logic.
From S2P Require Import GoStrings.
From S2P Require Import Sql.
From S2P Require Import QueriesOrg.
From S2P Require Import QueriesAuth.
From S2P Require Import Permissions.
From S2P Require Import Tenancy.
From S2P Require Import AuditTrail.
From S2P Require Import Authz.
From S2P Require Import Slug.
From S2P Require Import Demo.
From S2P Require Import Organizations.
Local Open Scope string_scope.

(** The configuration of [JWTService] and [Service]. *)
Class AuthConfig := {
  jwt_secret : string; jwt_issuer : string; accessTTL : Z; refreshTTL : Z
}.

Record RegisterInput := {
  RI_Email : string; RI_Password : string; RI_FirstName : string; RI_LastName : string;
  RI_OrganizationName : string
}.
Record LoginInput := { LI_Email : string; LI_Password : string }.
Record RequestMeta := { RM_UserAgent : string; RM_IPAddress : string }.
Record TokenPair := {
  TP_AccessToken : string; TP_RefreshToken : string; TP_ExpiresIn : Z; TP_ExpiresAt : Z
}.
(** [UserDTO] has no password hash. *)
Record UserDTO := {
  UD_ID : N; UD_Email : string; UD_FirstName : string; UD_LastName : string;
  UD_AvatarURL : option string; UD_Status : string; UD_EmailVerifiedAt : option Z;
  UD_LastLoginAt : option Z; UD_CreatedAt : Z
}.
Record AuthResult := { AR_Tokens : TokenPair; AR_User : UserDTO }.
Record issuedRefresh := { ir_id : N; ir_raw : string }.

Definition NewUserDTO (u : User) : UserDTO :=
  {| UD_ID := User_ID u; UD_Email := User_Email u; UD_FirstName := User_FirstName u;
     UD_LastName := User_LastName u; UD_AvatarURL := User_AvatarUrl u; UD_Status := User_Status u;
     UD_EmailVerifiedAt := User_EmailVerifiedAt u; UD_LastLoginAt := User_LastLoginAt u;
     UD_CreatedAt := User_CreatedAt u |}.
Definition invalidCredentials : error :=
  NewAPIError 401 "INVALID_CREDENTIALS" "Invalid email or password" (Some (Sentinel ErrUnauthorized)).
Definition isUniqueViolation (e : error) : bool :=
  match asPgError e with Some (code, _) => code =?= "23505" | None => false end.
Definition nonempty (s : string) : option string := if s =?= "" then None else Some s.

Section service.
Context `{Env} `{AuthConfig}.

(** ** Credentials *)
Definition bcryptCost : nat := 12.
Definition HashPassword (plaintext : string) : M string :=
  match bcrypt_GenerateFromPassword bcryptCost plaintext with
  | Some h => ret h
  | None => fail (Errorf "hash password" (ErrorsNew "bcrypt"))
  end.
Definition VerifyPassword (hash plaintext : string) : bool := bcrypt_CompareHashAndPassword hash plaintext.
Definition hashToken (raw : string) : string := hex_EncodeToString (sha256_Sum256 raw).
Definition generateRefreshToken : M string :=
  buf <- randRead 32 "generate refresh token" ;; ret (RawURLEncoding buf).

(** [GenerateAccessToken]: the claims in the order the struct lists them. *)
Definition GenerateAccessToken (userID tokenID : N) : M (string * Z) :=
  now <- timeNow ;;
  let expiresAt := (now + accessTTL)%Z in
  match jwt_SignedString jwt_secret
          [("type", JStr "access"); ("iss", JStr jwt_issuer); ("sub", JStr (uuid_String userID));
           ("exp", JNum (expiresAt / Second)); ("nbf", JNum (now / Second));
           ("iat", JNum (now / Second)); ("jti", JStr (uuid_String tokenID))] with
  | Some signed => ret (signed, expiresAt)
  | None => fail (Errorf "sign access token" (ErrorsNew "jwt"))
  end.

(** [createRefreshToken]: the raw value is returned, only its digest is stored. *)
Definition createRefreshToken (userID familyID : N) (meta : RequestMeta) : M issuedRefresh :=
  raw <- generateRefreshToken ;;
  now <- timeNow ;;
  row <- wrapf "create refresh token"
    (CreateRefreshToken userID familyID (hashToken raw) (now + refreshTTL)
       (nonempty (RM_UserAgent meta)) (nonempty (RM_IPAddress meta))) ;;
  ret {| ir_id := RefreshToken_ID row; ir_raw := raw |}.

(** [int(time.Until(expiresAt).Seconds())] *)
Definition token_pair (access raw : string) (expiresAt : Z) : M TokenPair :=
  now <- timeNow ;;
  ret {| TP_AccessToken := access; TP_RefreshToken := raw;
         TP_ExpiresIn := Z.quot (expiresAt - now) Second; TP_ExpiresAt := expiresAt |}.
Definition issueSession (userID familyID : N) (meta : RequestMeta) : M TokenPair :=
  refresh <- createRefreshToken userID familyID meta ;;
  tokenID <- uuidNew ;;
  at_ <- GenerateAccessToken userID tokenID ;;
  token_pair at_.1 (ir_raw refresh) at_.2.
Definition IssueSession (userID : N) (meta : RequestMeta) : M TokenPair :=
  familyID <- uuidNew ;; issueSession userID familyID meta.

(** ** Register *)
Definition seedRolePermissions (roleID : N) (roleName : string) : M unit :=
  for_each (DefaultForRole roleName) (fun key =>
    p <- GetPermissionByKey key ;; AddRolePermission roleID (Permission_ID p)).
Definition extraRoles : list (string * string) :=
  [("Admin", "Manage organization resources and members"); ("Manager", "Manage teams, projects and tasks");
   ("Member", "Work on assigned projects and tasks"); ("Viewer", "Read-only access")].
Definition create_org_for (userID : N) (name slug : string) : M Organization :=
  org <- map_err (fun e => if isUniqueViolation e
            then NewAPIError 409 "SLUG_TAKEN" "Organization name is unavailable" (Some e)
            else Errorf "create organization" e)
           (QueriesOrg.CreateOrganization name slug "active") ;;
  role <- wrapf "create owner role" (QueriesOrg.CreateRole (Organization_ID org) "Owner"
            (Some "Full control over the organization") true) ;;
  wrapf "seed owner permissions" (seedRolePermissions (Role_ID role) "Owner") ;;;
  for_each extraRoles (fun extra =>
    extraRole <- wrapf ("create role " +:+ extra.1)
      (QueriesOrg.CreateRole (Organization_ID org) extra.1 (Some extra.2) true) ;;
    wrapf ("seed permissions for role " +:+ extra.1) (seedRolePermissions (Role_ID extraRole) extra.1)) ;;;
  now <- timeNow ;;
  wrapf "create membership"
    (CreateMembership (Organization_ID org) userID (Role_ID role) "active" (Some now)) ;;;
  ret org.
Definition register_tx (inp : RegisterInput) (slug passwordHash : string) : M (User * Organization) :=
  user <- map_err (fun e => if isUniqueViolation e
             then NewAPIError 409 "EMAIL_TAKEN" "An account with this email already exists" (Some e)
             else Errorf "create user" e)
            (CreateUser (RI_Email inp) passwordHash (RI_FirstName inp) (RI_LastName inp) "active") ;;
  org <- create_org_for (User_ID user) (RI_OrganizationName inp) slug ;;
  wrapf "commit tx" Commit ;;;
  ret (user, org).
(** The deferred rollback is a no-op once the transaction is committed, so what follows the
    commit stands outside it. *)
Definition Register (inp : RegisterInput) (meta : RequestMeta) : M AuthResult :=
  passwordHash <- HashPassword (RI_Password inp) ;;
  slug <- auth_uniqueSlug (RI_OrganizationName inp) ;;
  uo <- in_plain_tx "begin tx" (register_tx inp slug passwordHash) ;;
  let '(user, org) := uo in
  Record_ (WithMetadata [("email", JStr (User_Email user))]
    (WithRequest (RM_IPAddress meta) (RM_UserAgent meta) "" ""
      (new_event AuthRegistered "" TargetUser (uuid_String (User_ID user))
         (Some (Organization_ID org)) (Some (User_ID user))))) ;;;
  familyID <- uuidNew ;;
  tokens <- issueSession (User_ID user) familyID meta ;;
  ret {| AR_Tokens := tokens; AR_User := NewUserDTO user |}.

(** ** Login *)
Definition Login (inp : LoginInput) (meta : RequestMeta) : M AuthResult :=
  let denied := WithRequest (RM_IPAddress meta) (RM_UserAgent meta) "" ""
                  (new_event AuthLoginFailed OutcomeFailure TargetUser "" None None) in
  r <- attempt (GetUserByEmail (LI_Email inp)) ;;
  match r with
  | Err e =>
      if isNoRows e then Record_ denied ;;; fail invalidCredentials
      else fail (Errorf "get user by email" e)
  | Ok user =>
      if negb (User_Status user =?= "active") then Record_ denied ;;; fail invalidCredentials
      else if negb (VerifyPassword (User_PasswordHash user) (LI_Password inp)) then
        Record_ (WithTarget TargetUser (uuid_String (User_ID user)) (WithActor (User_ID user) denied)) ;;;
        fail invalidCredentials
      else
        wrapf "update last login" (UpdateUserLastLogin (User_ID user)) ;;;
        Record_ (WithRequest (RM_IPAddress meta) (RM_UserAgent meta) "" ""
          (new_event AuthLoginSucceeded "" TargetUser (uuid_String (User_ID user)) None (Some (User_ID user)))) ;;;
        familyID <- uuidNew ;;
        tokens <- issueSession (User_ID user) familyID meta ;;
        ret {| AR_Tokens := tokens; AR_User := NewUserDTO user |}
  end.

(** ** Refresh

    The transaction: either the reuse branch, which commits the family revocation, or the
    rotation. *)
Definition refresh_tx (rawToken : string) (meta : RequestMeta) : M (RefreshToken + User * issuedRefresh) :=
  stored <- map_err (fun e => if isNoRows e then Sentinel ErrUnauthorized else Errorf "get refresh token" e)
              (GetRefreshTokenByHashForUpdate (hashToken rawToken)) ;;
  if negb (is_nil (RefreshToken_RevokedAt stored)) then
    wrapf "revoke token family on reuse" (RevokeRefreshTokenFamily (RefreshToken_FamilyID stored)) ;;;
    wrapf "commit token family revocation" Commit ;;;
    ret (inl stored)
  else
    now <- timeNow ;;
    if time_After now (RefreshToken_ExpiresAt stored) then fail (Sentinel ErrUnauthorized) else
    user <- wrapf "get user" (GetUserByID (RefreshToken_UserID stored)) ;;
    if negb (User_Status user =?= "active") then fail (Sentinel ErrUnauthorized) else
    newRefresh <- createRefreshToken (User_ID user) (RefreshToken_FamilyID stored) meta ;;
    wrapf "revoke old refresh token" (RevokeRefreshToken (RefreshToken_ID stored) (Some (ir_id newRefresh))) ;;;
    wrapf "commit tx" Commit ;;;
    ret (inr (user, newRefresh)).
(** After the commit: the reuse is recorded and refused, the rotation gets its access token. *)
Definition refresh_post (meta : RequestMeta) (r : RefreshToken + User * issuedRefresh) : M AuthResult :=
  match r with
  | inl stored =>
      Record_ (WithMetadata [("family_id", JStr (uuid_String (RefreshToken_FamilyID stored)))]
        (WithRequest (RM_IPAddress meta) (RM_UserAgent meta) "" ""
          (new_event AuthTokenReuseDetected OutcomeDenied TargetRefreshToken
             (uuid_String (RefreshToken_ID stored)) None (Some (RefreshToken_UserID stored))))) ;;;
      fail (Sentinel ErrUnauthorized)
  | inr (user, newRefresh) =>
      tokenID <- uuidNew ;;
      at_ <- GenerateAccessToken (User_ID user) tokenID ;;
      Record_ (WithRequest (RM_IPAddress meta) (RM_UserAgent meta) "" ""
        (new_event AuthTokensRefreshed "" TargetRefreshToken (uuid_String (ir_id newRefresh)) None
           (Some (User_ID user)))) ;;;
      tokens <- token_pair at_.1 (ir_raw newRefresh) at_.2 ;;
      ret {| AR_Tokens := tokens; AR_User := NewUserDTO user |}
  end.
Definition Refresh (rawToken : string) (meta : RequestMeta) : M AuthResult :=
  r <- in_plain_tx "begin tx" (refresh_tx rawToken meta) ;; refresh_post meta r.

(** ** Logout *)
Definition Logout (rawToken : string) : M unit :=
  r <- attempt (GetRefreshTokenByHash (hashToken rawToken)) ;;
  match r with
  | Err e => if isNoRows e then ret tt else fail (Errorf "get refresh token" e)
  | Ok stored => wrapf "revoke token family" (RevokeRefreshTokenFamily (RefreshToken_FamilyID stored))
  end.
Definition LogoutAll (userID : N) : M unit :=
  wrapf "revoke all refresh tokens" (RevokeAllUserRefreshTokens userID) ;;;
  Record_ (new_event AuthLoggedOutAll "" TargetUser (uuid_String userID) None (Some userID)).
Definition CurrentUser (userID : N) : M UserDTO :=
  u <- map_err (fun e => if isNoRows e then Sentinel ErrNotFound else Errorf "get user" e)
         (GetUserByID userID) ;;
  ret (NewUserDTO u).
End service.

(** ** Facts: the refresh-token table *)

(** Rows are filed under their id, and no two rows store the same digest. *)
Definition tokens_wf (d : DB) : Prop :=
  (forall k r, refresh_tokens d !! k = Some r -> RefreshToken_ID r = k) /\
  (forall k1 k2 r1 r2, refresh_tokens d !! k1 = Some r1 -> refresh_tokens d !! k2 = Some r2 ->
     RefreshToken_TokenHash r1 = RefreshToken_TokenHash r2 -> k1 = k2).
(** A session lineage has at most one token that can still be used. *)
Definition family_single (d : DB) : Prop := forall k1 k2 r1 r2,
  refresh_tokens d !! k1 = Some r1 -> refresh_tokens d !! k2 = Some r2 ->
  RefreshToken_RevokedAt r1 = None -> RefreshToken_RevokedAt r2 = None ->
  RefreshToken_FamilyID r1 = RefreshToken_FamilyID r2 -> k1 = k2.
Definition auth_inv (d : DB) : Prop := tokens_wf d /\ family_single d.
(** Every token of the family is revoked. *)
Definition family_dead (f : N) (d : DB) : Prop := forall k r,
  refresh_tokens d !! k = Some r -> RefreshToken_FamilyID r = f -> RefreshToken_RevokedAt r <> None.

Definition same_tokens (d d' : DB) : Prop := refresh_tokens d = refresh_tokens d'.
#[export] Instance same_tokens_equiv : Equivalence same_tokens.
Proof. split; [by intros ?|by intros ? ?|intros ? ? ?; unfold same_tokens; congruence]. Qed.

Section tokens.
Context `{Env} `{AuthConfig}.

Lemma Record_tokens e : pres same_tokens (Record_ e).
Proof.
  unfold Record_. pres_step; [|pres_auto]. apply pres_attempt, write_event_pres; [apply _|].
  intros. stmt_branches. done.
Qed.
Lemma GenerateAccessToken_tokens u t : pres same_tokens (GenerateAccessToken u t).
Proof. unfold GenerateAccessToken. pres_auto. Qed.
Lemma token_pair_tokens a r e : pres same_tokens (token_pair a r e).
Proof. unfold token_pair. pres_auto. Qed.

Lemma createRefreshToken_True u f m : pres (fun _ _ => True) (createRefreshToken u f m).
Proof. unfold createRefreshToken, generateRefreshToken. pres_auto. by apply pres_stmt. Qed.
Lemma refresh_tx_commits raw meta : commits (refresh_tx raw meta).
Proof.
  unfold refresh_tx. commits_auto; try (apply pres_wrapf; by apply pres_stmt);
    try apply createRefreshToken_True; pres_auto.
Qed.

(** What a created token is. *)
Lemma CreateRefreshToken_Ok u f h e ua ip w row w' :
  CreateRefreshToken u f h e ua ip w = (Ok row, w') ->
  RefreshToken_UserID row = u /\ RefreshToken_FamilyID row = f /\ RefreshToken_TokenHash row = h /\
  RefreshToken_RevokedAt row = None /\ refresh_tokens (w_db w) !! RefreshToken_ID row = None /\
  (forall k r, refresh_tokens (w_db w) !! k = Some r -> RefreshToken_TokenHash r <> h) /\
  w_db w' = set_refresh_tokens (<[RefreshToken_ID row := row]> (refresh_tokens (w_db w))) (w_db w).
Proof.
  intros E. stmt_ok E. split_and!; try done. intros k r Hk Hh.
  match goal with Hx : negb (exists_row _ _) = true |- _ =>
    apply negb_true_iff in Hx; rewrite exists_row_false in Hx; specialize (Hx _ _ Hk) end.
  simpl in *. rewrite Hh, beq_refl in *. done.
Qed.
Lemma createRefreshToken_Ok u f m w ir w' : createRefreshToken u f m w = (Ok ir, w') ->
  exists row, RefreshToken_ID row = ir_id ir /\ RefreshToken_UserID row = u /\
    RefreshToken_FamilyID row = f /\ RefreshToken_TokenHash row = hashToken (ir_raw ir) /\
    RefreshToken_RevokedAt row = None /\ refresh_tokens (w_db w) !! ir_id ir = None /\
    (forall k r, refresh_tokens (w_db w) !! k = Some r ->
       RefreshToken_TokenHash r <> hashToken (ir_raw ir)) /\
    w_db w' = set_refresh_tokens (<[ir_id ir := row]> (refresh_tokens (w_db w))) (w_db w).
Proof.
  unfold createRefreshToken, generateRefreshToken. intros E.
  apply bind_Ok in E as (raw & w1 & Er & E). apply bind_Ok in Er as (buf & w2 & [_ ->]%randRead_Ok & Er).
  apply ret_Ok in Er as [<- <-]. apply bind_Ok in E as (now & w3 & [-> ->]%timeNow_Ok & E).
  apply bind_Ok in E as (row & w4 & Ec%wrapf_Ok & E). apply ret_Ok in E as [<- <-].
  apply CreateRefreshToken_Ok in Ec as (? & ? & ? & ? & ? & ? & ?). exists row. by split_and!.
Qed.

(** The two ways the refresh transaction commits. *)
Lemma refresh_tx_Ok raw meta w r w' : tokens_wf (w_db w) ->
  refresh_tx raw meta w = (Ok r, w') ->
  exists stored, refresh_tokens (w_db w) !! RefreshToken_ID stored = Some stored /\
    RefreshToken_TokenHash stored = hashToken raw /\
    match r with
    | inl s => s = stored /\ RefreshToken_RevokedAt stored <> None /\ exists now,
        w_db w' = set_refresh_tokens (revoke_where now
          (fun x => RefreshToken_FamilyID x =?= RefreshToken_FamilyID stored) <$> refresh_tokens (w_db w)) (w_db w)
    | inr (user, ir) => RefreshToken_RevokedAt stored = None /\ exists row now,
        RefreshToken_ID row = ir_id ir /\ RefreshToken_FamilyID row = RefreshToken_FamilyID stored /\
        RefreshToken_TokenHash row = hashToken (ir_raw ir) /\ RefreshToken_RevokedAt row = None /\
        RefreshToken_UserID row = User_ID user /\
        users (w_db w) !! RefreshToken_UserID stored = Some user /\ User_Status user = "active" /\
        (env_now (S (w_tick w)) <= RefreshToken_ExpiresAt stored)%Z /\
        refresh_tokens (w_db w) !! ir_id ir = None /\
        (forall k x, refresh_tokens (w_db w) !! k = Some x ->
           RefreshToken_TokenHash x <> hashToken (ir_raw ir)) /\
        w_db w' = set_refresh_tokens
          (<[RefreshToken_ID stored := RefreshToken_revoke now (Some (ir_id ir)) stored]>
             (<[ir_id ir := row]> (refresh_tokens (w_db w)))) (w_db w)
    end.
Proof.
  intros [Hkeyed Huniq] E. unfold refresh_tx in E.
  apply bind_Ok in E as (stored & w1 & Eg%map_err_Ok & E). query_ok Eg.
  apply find_row_Some in Hb as [Hhash%beq_eq [k Hk]].
  assert (Hid : refresh_tokens (w_db w) !! RefreshToken_ID stored = Some stored).
  { by rewrite (Hkeyed _ _ Hk). }
  exists stored. split; [done|]. split; [done|].
  destruct (negb (is_nil (RefreshToken_RevokedAt stored))) eqn:Erev.
  - apply bind_Ok in E as ([] & w2 & Ef%wrapf_Ok & E). stmt_ok Ef.
    apply bind_Ok in E as ([] & w3 & [Hd _]%wrapf_Ok%Commit_Ok & E). apply ret_Ok in E as [<- <-].
    simpl in Hd. split; [done|]. split; [by destruct (RefreshToken_RevokedAt stored)|]. eexists. exact Hd.
  - apply bind_Ok in E as (now & w2 & [-> ->]%timeNow_Ok & E).
    destruct (time_After _ _) eqn:Eexp; [done|]. unfold time_After in Eexp. apply Z.ltb_ge in Eexp.
    apply bind_Ok in E as (user & w3 & Eu%wrapf_Ok & E). query_ok Eu.
    destruct (negb (User_Status user =?= "active")) eqn:Ea; [done|].
    apply bind_Ok in E as (ir & w4 & Ec & E).
    apply createRefreshToken_Ok in Ec as (row & Hrid & Hru & Hrf & Hrh & Hrr & Hfresh & Hnew & Hd4).
    simpl in *. apply bind_Ok in E as ([] & w5 & Er%wrapf_Ok & E).
    apply bind_Ok in E as ([] & w6 & [Hd _]%wrapf_Ok%Commit_Ok & E). apply ret_Ok in E as [<- <-].
    assert (Hne : ir_id ir <> RefreshToken_ID stored) by (intros Heq; rewrite Heq in Hfresh; congruence).
    assert (Hs : sel (refresh_tokens (w_db w4)) (RefreshToken_ID stored)
                   (fun r => is_nil (RefreshToken_RevokedAt r)) = Some stored).
    { apply sel_Some. rewrite Hd4. simpl. rewrite lookup_insert_ne by done. split; [done|].
      by destruct (RefreshToken_RevokedAt stored). }
    apply stmt_Ok in Er as (c2 & d2 & Hb2 & -> & _ & _). cbv beta in Hb2. rewrite Hs in Hb2.
    apply require_Ok in Hb2 as [_ Hb2]. apply Ok_tt in Hb2 as <-. simpl in Hd. rewrite Hd4 in Hd. simpl in Hd.
    split; [by destruct (RefreshToken_RevokedAt stored)|]. bool_hyps.
    exists row. eexists. split_and!; try done.
Qed.
End tokens.

(** ** Facts: rotation *)
Section rotation.
Context `{Env} `{AuthConfig}.

Lemma same_tokens_post {A} (m : M A) w : pres same_tokens m ->
  refresh_tokens (w_db (m w).2) = refresh_tokens (w_db w).
Proof. intros Hm. destruct (Hm w) as [_ Hs]. done. Qed.

Lemma bind_fail {A B} (m : M A) e w : exists e', ((m ;;; @fail B e) w).1 = Err e'.
Proof. unfold bind, fail. destruct (m w) as [[]]; simpl; eauto. Qed.
Lemma refresh_post_tokens meta r : pres same_tokens (refresh_post meta r).
Proof.
  destruct r as [s|[user ir]]; simpl.
  - pres_step; [apply Record_tokens|]. pres_auto.
  - pres_step; [pres_auto|]. pres_step; [apply GenerateAccessToken_tokens|].
    pres_step; [apply Record_tokens|]. pres_step; [apply token_pair_tokens|]. pres_auto.
Qed.
Lemma Refresh_run raw meta w :
  match in_plain_tx "begin tx" (refresh_tx raw meta) w with
  | (Ok r, w1) => Refresh raw meta w = refresh_post meta r w1
  | (Err e, w1) => Refresh raw meta w = (Err e, w1)
  end.
Proof. unfold Refresh, bind. by destruct (in_plain_tx _ _ w) as [[]]. Qed.

(** The token table after any [Refresh], whatever its outcome. *)
Lemma Refresh_cases raw meta w : w_tx w = None -> tokens_wf (w_db w) ->
  let w' := (Refresh raw meta w).2 in
  refresh_tokens (w_db w') = refresh_tokens (w_db w) \/
  exists stored, refresh_tokens (w_db w) !! RefreshToken_ID stored = Some stored /\
    RefreshToken_TokenHash stored = hashToken raw /\
    (RefreshToken_RevokedAt stored <> None /\
     (exists e, (Refresh raw meta w).1 = Err e) /\ (exists now,
       refresh_tokens (w_db w') = revoke_where now
         (fun x => RefreshToken_FamilyID x =?= RefreshToken_FamilyID stored) <$> refresh_tokens (w_db w)) \/
     RefreshToken_RevokedAt stored = None /\ exists row now,
       refresh_tokens (w_db w) !! RefreshToken_ID row = None /\
       RefreshToken_FamilyID row = RefreshToken_FamilyID stored /\ RefreshToken_RevokedAt row = None /\
       (forall k x, refresh_tokens (w_db w) !! k = Some x ->
          RefreshToken_TokenHash x <> RefreshToken_TokenHash row) /\
       refresh_tokens (w_db w') = <[RefreshToken_ID stored := RefreshToken_revoke now (Some (RefreshToken_ID row)) stored]>
         (<[RefreshToken_ID row := row]> (refresh_tokens (w_db w)))).
Proof.
  intros Hw Hwf. cbv zeta. pose proof (Refresh_run raw meta w) as Hrun.
  destruct (in_plain_tx "begin tx" (refresh_tx raw meta) w) as [[r|e] w1] eqn:E; rewrite Hrun; clear Hrun.
  2: { apply plain_tx_Err in E as [Hd _]; [|apply refresh_tx_commits]. simpl. left. by rewrite Hd. }
  apply plain_tx_Ok in E as (_ & E & _); [|apply refresh_tx_commits].
  apply refresh_tx_Ok in E as (stored & Hs & Hh & Hcase); [|done]. right. exists stored.
  split; [done|]. split; [done|]. destruct r as [s|[user ir]].
  - left. destruct Hcase as (-> & Hrev & now & Hd). split; [done|].
    split.
    + apply bind_fail.
    + exists now. rewrite (same_tokens_post _ w1 (refresh_post_tokens meta (inl stored))), Hd. done.
  - right. destruct Hcase as (Hact & row & now & Hid & Hf & Hhash & Hr & _ & _ & _ & _ & Hfresh & Hnew & Hd).
    split; [done|]. exists row, now. rewrite Hid. split_and!; try done.
    + intros k x Hk. rewrite Hhash. eauto.
    + rewrite same_tokens_post by apply refresh_post_tokens. by rewrite Hd.
Qed.

Lemma revoke_where_fields now P r :
  RefreshToken_ID (revoke_where now P r) = RefreshToken_ID r /\
  RefreshToken_FamilyID (revoke_where now P r) = RefreshToken_FamilyID r /\
  RefreshToken_TokenHash (revoke_where now P r) = RefreshToken_TokenHash r /\
  (RefreshToken_RevokedAt (revoke_where now P r) = None -> RefreshToken_RevokedAt r = None /\ P r = false).
Proof.
  unfold revoke_where. destruct (P r) eqn:EP, (is_nil (RefreshToken_RevokedAt r)) eqn:EN; simpl;
    (split_and!; [done..|]); intros Hn; try done. by rewrite Hn in EN.
Qed.
(** Bulk revocation and rotation keep the invariant. *)
Lemma revoke_where_inv now P d d' :
  refresh_tokens d' = revoke_where now P <$> refresh_tokens d -> auth_inv d -> auth_inv d'.
Proof.
  intros Hd [[Hk Hu] Hs]. unfold auth_inv, tokens_wf, family_single. rewrite Hd.
  split; [split|].
  - intros k r. rewrite lookup_fmap. intros (r0 & Hr0 & ->)%fmap_Some.
    destruct (revoke_where_fields now P r0) as (-> & _). eauto.
  - intros k1 k2 r1 r2. rewrite !lookup_fmap. intros (x1 & H1 & ->)%fmap_Some (x2 & H2 & ->)%fmap_Some.
    destruct (revoke_where_fields now P x1) as (_ & _ & -> & _).
    destruct (revoke_where_fields now P x2) as (_ & _ & -> & _). eauto.
  - intros k1 k2 r1 r2. rewrite !lookup_fmap. intros (x1 & H1 & ->)%fmap_Some (x2 & H2 & ->)%fmap_Some.
    destruct (revoke_where_fields now P x1) as (_ & -> & _ & Ha1).
    destruct (revoke_where_fields now P x2) as (_ & -> & _ & Ha2).
    intros [Hr1 _]%Ha1 [Hr2 _]%Ha2. eauto.
Qed.
(** One more token, of a fresh id and digest. *)
Lemma insert_wf d row : tokens_wf d -> refresh_tokens d !! RefreshToken_ID row = None ->
  (forall k x, refresh_tokens d !! k = Some x -> RefreshToken_TokenHash x <> RefreshToken_TokenHash row) ->
  tokens_wf (set_refresh_tokens (<[RefreshToken_ID row := row]> (refresh_tokens d)) d).
Proof.
  intros [Hk Hu] Hid Hh. split; simpl.
  - intros k r [[<- <-]|[Hne Hr]]%lookup_insert_Some; eauto.
  - intros k1 k2 r1 r2 [[<- <-]|[Hn1 H1]]%lookup_insert_Some [[<- <-]|[Hn2 H2]]%lookup_insert_Some Heq;
      [done| | |by eauto].
    + exfalso. by eapply Hh.
    + exfalso. by eapply Hh.
Qed.
Lemma rotate_inv d d' stored row now :
  refresh_tokens d !! RefreshToken_ID stored = Some stored -> RefreshToken_RevokedAt stored = None ->
  refresh_tokens d !! RefreshToken_ID row = None ->
  RefreshToken_FamilyID row = RefreshToken_FamilyID stored ->
  (forall k x, refresh_tokens d !! k = Some x -> RefreshToken_TokenHash x <> RefreshToken_TokenHash row) ->
  refresh_tokens d' = <[RefreshToken_ID stored := RefreshToken_revoke now (Some (RefreshToken_ID row)) stored]>
    (<[RefreshToken_ID row := row]> (refresh_tokens d)) ->
  auth_inv d -> auth_inv d'.
Proof.
  intros Hs Hr Hid Hf Hh Hd [Hwf Hsg]. destruct (insert_wf d row Hwf Hid Hh) as [Hk Hu]. simpl in *.
  assert (Hs' : <[RefreshToken_ID row := row]> (refresh_tokens d) !! RefreshToken_ID stored = Some stored).
  { rewrite lookup_insert_ne; [done|]. intros Heq. rewrite Heq in Hid. congruence. }
  unfold auth_inv, tokens_wf, family_single. rewrite Hd. split; [split|].
  - intros k r [[<- <-]|[Hne Hx]]%lookup_insert_Some; eauto.
  - intros k1 k2 r1 r2 [[<- <-]|[Hn1 H1]]%lookup_insert_Some [[<- <-]|[Hn2 H2]]%lookup_insert_Some Heq;
      simpl in *; eauto.
  - intros k1 k2 r1 r2 [[<- <-]|[Hn1 H1]]%lookup_insert_Some; [done|].
    intros [[<- <-]|[Hn2 H2]]%lookup_insert_Some; [done|].
    intros Ha1 Ha2 Heq. revert H1 H2.
    intros [[<- <-]|[Hm1 H1]]%lookup_insert_Some [[<- <-]|[Hm2 H2]]%lookup_insert_Some; [done| | |by eauto].
    + exfalso. apply Hn2. eapply Hsg; eauto. congruence.
    + exfalso. apply Hn1. eapply Hsg; eauto. congruence.
Qed.
End rotation.

(** ** Sessions over time

    One request on the token table.  [issueSession] is what [Login] and [Register] do once
    they have drawn a family id; the id is a fresh UUID. *)
Section sessions.
Context `{Env} `{AuthConfig}.

Inductive session_step : World -> World -> Prop :=
| step_refresh raw meta w : session_step w (Refresh raw meta w).2
| step_logout raw w : session_step w (Logout raw w).2
| step_logout_all u w : session_step w (LogoutAll u w).2
| step_issue u f meta w :
    (forall k r, refresh_tokens (w_db w) !! k = Some r -> RefreshToken_FamilyID r <> f) ->
    session_step w (issueSession u f meta w).2.

(** The token was issued, and its whole lineage is revoked. *)
Definition retired (raw : string) (d : DB) : Prop := exists k r,
  refresh_tokens d !! k = Some r /\ RefreshToken_TokenHash r = hashToken raw /\
  family_dead (RefreshToken_FamilyID r) d.

(** What a request may do to the token table: bulk revocation, rotation, a new lineage. *)
Inductive token_change (d d' : DB) : Prop :=
| tc_same : refresh_tokens d' = refresh_tokens d -> token_change d d'
| tc_revoke now P : refresh_tokens d' = revoke_where now P <$> refresh_tokens d -> token_change d d'
| tc_rotate stored row now :
    refresh_tokens d !! RefreshToken_ID stored = Some stored -> RefreshToken_RevokedAt stored = None ->
    refresh_tokens d !! RefreshToken_ID row = None ->
    RefreshToken_FamilyID row = RefreshToken_FamilyID stored ->
    (forall k x, refresh_tokens d !! k = Some x -> RefreshToken_TokenHash x <> RefreshToken_TokenHash row) ->
    refresh_tokens d' = <[RefreshToken_ID stored := RefreshToken_revoke now (Some (RefreshToken_ID row)) stored]>
      (<[RefreshToken_ID row := row]> (refresh_tokens d)) -> token_change d d'
| tc_new row :
    refresh_tokens d !! RefreshToken_ID row = None ->
    (forall k x, refresh_tokens d !! k = Some x -> RefreshToken_TokenHash x <> RefreshToken_TokenHash row) ->
    (forall k x, refresh_tokens d !! k = Some x -> RefreshToken_FamilyID x <> RefreshToken_FamilyID row) ->
    refresh_tokens d' = <[RefreshToken_ID row := row]> (refresh_tokens d) -> token_change d d'.

Lemma change_inv d d' : token_change d d' -> auth_inv d -> auth_inv d'.
Proof.
  intros Hc Hi. destruct Hc as [Hd|now P Hd|stored row now ? ? ? ? ? Hd|row Hid Hh Hf Hd].
  - unfold auth_inv, tokens_wf, family_single. by rewrite Hd.
  - by eapply revoke_where_inv.
  - by eapply rotate_inv.
  - destruct Hi as [Hwf Hsg]. pose proof (insert_wf d row Hwf Hid Hh) as Hwf'. unfold tokens_wf in Hwf'.
    simpl in Hwf'. unfold auth_inv, tokens_wf, family_single. rewrite Hd. split; [done|].
    intros k1 k2 r1 r2 [[<- <-]|[Hn1 H1]]%lookup_insert_Some [[<- <-]|[Hn2 H2]]%lookup_insert_Some ? ? Heq;
      [done| | |by eauto].
    + by destruct (Hf _ _ H2).
    + by destruct (Hf _ _ H1).
Qed.
(** Revocation is final. *)
Lemma change_retired raw d d' : token_change d d' -> retired raw d -> retired raw d'.
Proof.
  intros Hc (k & r & Hk & Hh & Hdead). unfold retired, family_dead.
  destruct Hc as [Hd|now P Hd|stored row now Hs Hact Hid Hf Hfr Hd|row Hid Hh' Hf Hd]; rewrite Hd.
  - exists k, r. eauto.
  - exists k, (revoke_where now P r). rewrite lookup_fmap, Hk.
    destruct (revoke_where_fields now P r) as (_ & -> & -> & _). split_and!; [done..|].
    intros k' r'. rewrite lookup_fmap. intros (x & Hx & ->)%fmap_Some.
    destruct (revoke_where_fields now P x) as (_ & -> & _ & Ha). intros Hfam Hn.
    destruct (Ha Hn) as [Hxn _]. exact (Hdead _ _ Hx Hfam Hxn).
  - assert (Hne : RefreshToken_FamilyID stored <> RefreshToken_FamilyID r).
    { intros Heq. exact (Hdead _ _ Hs Heq Hact). }
    exists k, r. split_and!.
    + rewrite !lookup_insert_ne; [done| |]; intros Heq; congruence.
    + done.
    + intros k' r' [[<- <-]|[Hn1 Hx]]%lookup_insert_Some; [done|].
      apply lookup_insert_Some in Hx as [[<- <-]|[Hn2 Hx]]; [congruence|eauto].
  - exists k, r. split_and!.
    + rewrite lookup_insert_ne; [done|]. intros Heq; congruence.
    + done.
    + intros k' r' [[<- <-]|[Hn1 Hx]]%lookup_insert_Some; [|eauto].
      intros Heq. by destruct (Hf _ _ Hk).
Qed.

Lemma Refresh_change raw meta w : w_tx w = None -> tokens_wf (w_db w) ->
  token_change (w_db w) (w_db (Refresh raw meta w).2).
Proof.
  intros Hw Hwf. destruct (Refresh_cases raw meta w Hw Hwf)
    as [Hd|(stored & Hs & Hh & [(_ & _ & now & Hd)|(Hr & row & now & ? & ? & ? & ? & Hd)])].
  - by apply tc_same.
  - by eapply tc_revoke.
  - by eapply tc_rotate.
Qed.

(** A bulk revocation: a failed statement changes nothing. *)
Lemma revoke_family_change f w : w_tx w = None ->
  token_change (w_db w) (w_db (RevokeRefreshTokenFamily f w).2).
Proof.
  intros Hw. unfold RevokeRefreshTokenFamily, stmt. rewrite Hw.
  destruct (env_fault _); [by apply tc_same|]. by eapply tc_revoke.
Qed.
Lemma revoke_user_change u w : w_tx w = None ->
  token_change (w_db w) (w_db (RevokeAllUserRefreshTokens u w).2).
Proof.
  intros Hw. unfold RevokeAllUserRefreshTokens, stmt. rewrite Hw.
  destruct (env_fault _); [by apply tc_same|]. by eapply tc_revoke.
Qed.
Lemma eq_change d d' : d' = d -> token_change d d'.
Proof. intros ->. by apply tc_same. Qed.
Lemma pres_closed {A} R (m : M A) w : pres R m -> w_tx w = None -> w_tx (m w).2 = None.
Proof. intros Hm Hw. destruct (Hm w) as [Ht _]. rewrite Hw in Ht. by destruct (w_tx (m w).2). Qed.
Lemma reads_db {A} (m : M A) w : pres eq m -> w_db (m w).2 = w_db w.
Proof. intros Hm. by destruct (Hm w). Qed.

Lemma Logout_change raw w : w_tx w = None -> token_change (w_db w) (w_db (Logout raw w).2).
Proof.
  intros Hw. unfold Logout, bind, attempt.
  assert (Hq : pres eq (GetRefreshTokenByHash (hashToken raw))) by (apply pres_query; typeclasses eauto).
  pose proof (reads_db _ w Hq) as Hd. pose proof (pres_closed _ _ w Hq Hw) as Hc.
  destruct (GetRefreshTokenByHash (hashToken raw) w) as [[r|e] w1]; simpl in *.
  - rewrite wrapf_snd, <- Hd. by apply revoke_family_change.
  - destruct (isNoRows e); by apply eq_change.
Qed.
Lemma LogoutAll_change u w : w_tx w = None -> token_change (w_db w) (w_db (LogoutAll u w).2).
Proof.
  intros Hw. pose proof (revoke_user_change u w Hw) as Hc.
  unfold LogoutAll, bind. pose proof (wrapf_snd "revoke all refresh tokens" (RevokeAllUserRefreshTokens u) w) as Hs.
  destruct (wrapf _ _ w) as [[[]|e] w1]; simpl in Hs; subst w1; [|done].
  match goal with |- context [Record_ ?e ?w] => pose proof (same_tokens_post (Record_ e) w (Record_tokens e)) as Ht end.
  destruct Hc as [Hd|now P Hd|stored row now ? ? ? ? ? Hd|row ? ? ? Hd]; rewrite <- Ht in Hd.
  - by apply tc_same.
  - by eapply tc_revoke.
  - by eapply tc_rotate.
  - by eapply tc_new.
Qed.
End sessions.

Section session_theorems.
Context `{Env} `{AuthConfig}.

Lemma stmt_keeps {A} (body : StmtCtx -> DB -> result (A * DB)) : keeps_on_error (stmt body).
Proof.
  intros w e w'. unfold stmt.
  destruct (w_tx w) as [t|] eqn:Ht; [destruct (tx_aborted t)|]; try destruct (env_fault _);
    try (by intros; simplify_eq/=); destruct (body _ _) as [[a d]|e0]; intros; simplify_eq/=; try done.
  by destruct (aborts e).
Qed.
Lemma createRefreshToken_change u f meta w :
  (forall k r, refresh_tokens (w_db w) !! k = Some r -> RefreshToken_FamilyID r <> f) ->
  token_change (w_db w) (w_db (createRefreshToken u f meta w).2).
Proof.
  intros Hf. destruct (createRefreshToken u f meta w) as [[ir|e] w1] eqn:E; simpl.
  - apply createRefreshToken_Ok in E as (row & Hid & _ & Hrf & Hrh & _ & Hfresh & Hh & Hd).
    eapply (tc_new _ _ row).
    + by rewrite Hid.
    + intros k x Hk. rewrite Hrh. eauto.
    + intros k x Hk. rewrite Hrf. eauto.
    + rewrite Hd, Hid. done.
  - apply eq_change.
    assert (Hk : keeps_on_error (createRefreshToken u f meta)); [|by apply (Hk _ _ _ E)].
    unfold createRefreshToken, generateRefreshToken.
    do 2 (apply keeps_bind_reads; [unfold reads; pres_auto|intros ?]).
    apply keeps_bind_ret, keeps_map_err, stmt_keeps.
Qed.
Lemma issueSession_change u f meta w :
  (forall k r, refresh_tokens (w_db w) !! k = Some r -> RefreshToken_FamilyID r <> f) ->
  token_change (w_db w) (w_db (issueSession u f meta w).2).
Proof.
  intros Hf. pose proof (createRefreshToken_change u f meta w Hf) as Hc.
  unfold issueSession, bind at 1. destruct (createRefreshToken u f meta w) as [[ir|e] w1]; simpl in *; [|done].
  match goal with |- token_change _ (w_db (?m w1).2) =>
    assert (Ht : refresh_tokens (w_db (m w1).2) = refresh_tokens (w_db w1)) end.
  { apply same_tokens_post. pres_step; [pres_auto|]. pres_step; [apply GenerateAccessToken_tokens|].
    apply token_pair_tokens. }
  destruct Hc as [Hd|now P Hd|stored row now ? ? ? ? ? Hd|row ? ? ? Hd]; rewrite <- Ht in Hd.
  - by apply tc_same.
  - by eapply tc_revoke.
  - by eapply tc_rotate.
  - by eapply tc_new.
Qed.

Lemma any_closed {A} (m : M A) w : pres (fun _ _ => True) m -> w_tx w = None -> w_tx (m w).2 = None.
Proof. apply pres_closed. Qed.
Lemma Record_any e : pres (fun _ _ => True) (Record_ e).
Proof. eapply pres_weaken; [|apply Record_tokens]. done. Qed.
Lemma GenerateAccessToken_any u t : pres (fun _ _ => True) (GenerateAccessToken u t).
Proof. eapply pres_weaken; [|apply GenerateAccessToken_tokens]. done. Qed.
Lemma token_pair_any a r e : pres (fun _ _ => True) (token_pair a r e).
Proof. eapply pres_weaken; [|apply token_pair_tokens]. done. Qed.
Lemma in_plain_tx_closed {A} p (m : M A) w : commits m -> w_tx w = None ->
  w_tx (in_plain_tx p m w).2 = None.
Proof.
  intros Hc Hw. destruct (in_plain_tx p m w) as [[a|e] w1] eqn:E; simpl.
  - by apply plain_tx_Ok in E as (_ & _ & ?).
  - apply plain_tx_Err in E as [_ Ht]; [|done]. congruence.
Qed.

Lemma session_step_change w w' : session_step w w' -> w_tx w = None -> auth_inv (w_db w) ->
  token_change (w_db w) (w_db w') /\ w_tx w' = None.
Proof.
  intros Hs Hw [Hwf _]. destruct Hs as [raw meta w|raw w|u w|u f meta w Hf]; split.
  - by apply Refresh_change.
  - pose proof (in_plain_tx_closed "begin tx" _ w (refresh_tx_commits raw meta) Hw) as Hc.
    unfold Refresh, bind. destruct (in_plain_tx _ _ w) as [[r|e] w1]; [|done]. simpl in Hc.
    apply any_closed; [|done]. eapply pres_weaken; [|apply refresh_post_tokens]. done.
  - by apply Logout_change.
  - apply any_closed; [|done]. unfold Logout. pres_auto. by apply pres_stmt.
  - by apply LogoutAll_change.
  - apply any_closed; [|done]. unfold LogoutAll. pres_step; [|apply Record_any].
    apply pres_wrapf. by apply pres_stmt.
  - by apply issueSession_change.
  - apply any_closed; [|done]. unfold issueSession. pres_step; [apply createRefreshToken_True|].
    pres_step; [pres_auto|]. pres_step; [apply GenerateAccessToken_any|apply token_pair_any].
Qed.

Lemma session_steps w w' : rtc session_step w w' -> w_tx w = None -> auth_inv (w_db w) ->
  w_tx w' = None /\ auth_inv (w_db w') /\ forall raw, retired raw (w_db w) -> retired raw (w_db w').
Proof.
  induction 1 as [w|w w1 w2 Hs _ IH]; intros Hw Hi; [eauto|].
  destruct (session_step_change _ _ Hs Hw Hi) as [Hc Hw1].
  destruct IH as (? & ? & Hr); [done|by eapply change_inv|].
  split_and!; [done..|]. intros raw Hraw. by apply Hr, (change_retired _ _ _ Hc).
Qed.

(** C8. The session invariant of [auth/service.go] and [auth/tokens.go]: under any sequence of
    refreshes, logouts and newly issued sessions, whatever their outcome and whatever statements
    fail, rows stay filed under their id, no two tokens share a digest, and no session lineage
    ever has two usable refresh tokens. *)
Theorem session_inv w w' : w_tx w = None -> auth_inv (w_db w) -> rtc session_step w w' ->
  auth_inv (w_db w').
Proof. intros Hw Hi Hs. by apply (session_steps _ _ Hs Hw Hi). Qed.

(** A retired token is not rotated. *)
Lemma Refresh_retired raw meta w : w_tx w = None -> tokens_wf (w_db w) -> retired raw (w_db w) ->
  exists e, (Refresh raw meta w).1 = Err e.
Proof.
  intros Hw Hwf (k & r & Hk & Hh & Hdead). pose proof (Refresh_run raw meta w) as Hrun.
  destruct (in_plain_tx "begin tx" (refresh_tx raw meta) w) as [[x|e] w1] eqn:E; rewrite Hrun; [|by exists e].
  apply plain_tx_Ok in E as (_ & E & _); [|apply refresh_tx_commits].
  apply refresh_tx_Ok in E as (stored & Hs & Hsh & Hcase); [|done]. simpl in Hs.
  destruct x as [s|[user ir]]; [apply bind_fail|]. destruct Hcase as (Hact & _). exfalso.
  destruct Hwf as [Hkey Hu]. rewrite <- Hh in Hsh. pose proof (Hu _ _ _ _ Hs Hk Hsh) as Hid.
  assert (Heq : stored = r) by congruence. rewrite Heq in Hact. exact (Hdead _ _ Hk eq_refl Hact).
Qed.

(** C14. A retired refresh token is refused for ever: once the lineage of a token is revoked (by
    the reuse check, a logout or a logout of all sessions), no later sequence of requests lets
    [Refresh] accept that token, whatever statements fail. *)
Theorem retired_refused raw meta w w' : w_tx w = None -> auth_inv (w_db w) ->
  retired raw (w_db w) -> rtc session_step w w' -> exists e, (Refresh raw meta w').1 = Err e.
Proof.
  intros Hw Hi Hr Hs. destruct (session_steps _ _ Hs Hw Hi) as (Hw' & [Hwf _] & Hr').
  apply Refresh_retired; auto.
Qed.
End session_theorems.

Section auth_theorems.
Context `{Env} `{AuthConfig}.

Lemma Record_fail {A} e x w : ((Record_ e ;;; @fail A x) w).1 = Err x.
Proof. unfold Record_, bind, attempt, fail. by destruct (write_event _ w). Qed.
Lemma run_tokens {A} (m : M A) w r w' : pres same_tokens m -> m w = (r, w') ->
  refresh_tokens (w_db w') = refresh_tokens (w_db w).
Proof. intros Hm E. pose proof (same_tokens_post m w Hm) as Ht. by rewrite E in Ht. Qed.

(** C15. What a successful [Refresh] did: the presented token was on file, not revoked and not
    expired, its user is active; exactly that token is now revoked and points to its
    replacement, a new usable token of the same user and lineage; the table holds the digest
    of the new token, the response the token itself. *)
Theorem Refresh_rotates raw meta w res w' : tokens_wf (w_db w) ->
  Refresh raw meta w = (Ok res, w') ->
  exists stored row user now,
    refresh_tokens (w_db w) !! RefreshToken_ID stored = Some stored /\
    RefreshToken_TokenHash stored = hashToken raw /\ RefreshToken_RevokedAt stored = None /\
    (env_now (S (S (w_tick w))) <= RefreshToken_ExpiresAt stored)%Z /\
    users (w_db w) !! RefreshToken_UserID stored = Some user /\ User_Status user = "active" /\
    AR_User res = NewUserDTO user /\
    RefreshToken_UserID row = User_ID user /\
    RefreshToken_FamilyID row = RefreshToken_FamilyID stored /\ RefreshToken_RevokedAt row = None /\
    RefreshToken_TokenHash row = hashToken (TP_RefreshToken (AR_Tokens res)) /\
    refresh_tokens (w_db w) !! RefreshToken_ID row = None /\
    refresh_tokens (w_db w') =
      <[RefreshToken_ID stored := RefreshToken_revoke now (Some (RefreshToken_ID row)) stored]>
        (<[RefreshToken_ID row := row]> (refresh_tokens (w_db w))).
Proof.
  intros Hwf E. pose proof (Refresh_run raw meta w) as Hrun. rewrite E in Hrun.
  destruct (in_plain_tx "begin tx" (refresh_tx raw meta) w) as [[r|e] w1] eqn:Etx; [|done].
  apply plain_tx_Ok in Etx as (_ & Etx & _); [|apply refresh_tx_commits].
  apply refresh_tx_Ok in Etx as (stored & Hs & Hh & Hcase); [|done]. destruct r as [s|[user ir]].
  { apply (f_equal fst) in Hrun. unfold refresh_post in Hrun. by rewrite Record_fail in Hrun. }
  destruct Hcase as (Hact & row & now & Hid & Hf & Hhash & Hr & Hu & Huser & Hst & Hexp & Hfresh & _ & Hd).
  assert (Ht : refresh_tokens (w_db w') = refresh_tokens (w_db w1)).
  { pose proof (same_tokens_post _ w1 (refresh_post_tokens meta (inr (user, ir)))) as Hx. by rewrite <- Hrun in Hx. }
  unfold refresh_post in Hrun. symmetry in Hrun.
  apply bind_Ok in Hrun as (t & w2 & _ & Hrun). apply bind_Ok in Hrun as (at_ & w3 & _ & Hrun).
  apply bind_Ok in Hrun as ([] & w4 & _ & Hrun). apply bind_Ok in Hrun as (tp & w5 & Htp & Hrun).
  apply ret_Ok in Hrun as [<- _]. apply bind_Ok in Htp as (n & w6 & _ & Htp). apply ret_Ok in Htp as [<- _].
  exists stored, row, user, now. simpl in *. rewrite Hid, Ht, Hd. by split_and!.
Qed.

Lemma Record_fail_users {A} e x w : ((Record_ e ;;; @fail A x) w).1 = Err x /\
    refresh_tokens (w_db ((Record_ e ;;; @fail A x) w).2) = refresh_tokens (w_db w).
Proof. split; [apply Record_fail|]. apply same_tokens_post. pres_step; [apply Record_tokens|]. pres_auto. Qed.

(** Every token of the lineage is now retired. *)
Definition lineage_retired (f : N) (d d' : DB) : Prop := forall k r raw,
  refresh_tokens d !! k = Some r -> RefreshToken_FamilyID r = f -> RefreshToken_TokenHash r = hashToken raw ->
  retired raw d'.
Lemma revoke_family_retires f now d d' :
  refresh_tokens d' = revoke_where now (fun x => RefreshToken_FamilyID x =?= f) <$> refresh_tokens d ->
  lineage_retired f d d'.
Proof.
  intros Hd k r raw Hk Hf Hh. exists k. eexists. rewrite Hd, lookup_fmap, Hk.
  split; [done|]. destruct (revoke_where_fields now (fun x => RefreshToken_FamilyID x =?= f) r) as (_ & -> & -> & _).
  split; [done|]. intros k' r'. rewrite Hd, lookup_fmap. intros (x & Hx & ->)%fmap_Some.
  destruct (revoke_where_fields now (fun x => RefreshToken_FamilyID x =?= f) x) as (_ & -> & _ & Ha).
  rewrite Hf. intros Hfx Hn. destruct (Ha Hn) as [_ Hb]. apply beq_neq in Hb. done.
Qed.

(** C25. Reuse detection: when no statement fails, presenting a token that was already rotated
    or revoked answers 401 and retires every token of its lineage, the current one included. *)
Theorem Refresh_reuse raw meta w stored :
  (forall n, env_fault n = false) -> w_tx w = None ->
  find_row (fun r => RefreshToken_TokenHash r =?= hashToken raw) (refresh_tokens (w_db w)) = Some stored ->
  RefreshToken_RevokedAt stored <> None ->
  (Refresh raw meta w).1 = Err (Sentinel ErrUnauthorized) /\
  lineage_retired (RefreshToken_FamilyID stored) (w_db w) (w_db (Refresh raw meta w).2).
Proof.
  intros Hnf Hw Hs Hrev.
  assert (Hrun : exists w1, in_plain_tx "begin tx" (refresh_tx raw meta) w = (Ok (inl stored), w1) /\
    refresh_tokens (w_db w1) = revoke_where (env_now (w_tick w))
      (fun x => RefreshToken_FamilyID x =?= RefreshToken_FamilyID stored) <$> refresh_tokens (w_db w)).
  { eexists. unfold in_plain_tx, wrapf, map_err, bind at 1, Begin. rewrite Hw, Hnf. rewrite defer_run.
    unfold refresh_tx, bind, wrapf, map_err, GetRefreshTokenByHashForUpdate, RevokeRefreshTokenFamily, Commit, query, stmt.
    simpl. rewrite !Hnf, Hs. simpl. destruct (RefreshToken_RevokedAt stored); [|done]. simpl. rewrite !Hnf. simpl.
    split; [done|]. simpl. done. }
  destruct Hrun as (w1 & Hrun & Hd). pose proof (Refresh_run raw meta w) as Hr. rewrite Hrun in Hr. rewrite Hr.
  split; [apply Record_fail|]. eapply (revoke_family_retires _ (env_now (w_tick w))).
  by rewrite (same_tokens_post _ w1 (refresh_post_tokens meta (inl stored))).
Qed.

(** [Logout] ends the session: when no statement fails it succeeds, for a known token and
    for an unknown one, and every token of the lineage of a known one is retired. *)
Theorem Logout_retires raw w stored :
  (forall n, env_fault n = false) -> w_tx w = None ->
  find_row (fun r => RefreshToken_TokenHash r =?= hashToken raw) (refresh_tokens (w_db w)) = Some stored ->
  (Logout raw w).1 = Ok tt /\
    lineage_retired (RefreshToken_FamilyID stored) (w_db w) (w_db (Logout raw w).2).
Proof.
  intros Hnf Hw Hs. unfold Logout, bind, attempt, wrapf, map_err, GetRefreshTokenByHash,
    RevokeRefreshTokenFamily, query, stmt. rewrite Hw, Hnf, Hs. simpl. rewrite Hw, Hnf. simpl.
  split; [done|]. by eapply revoke_family_retires.
Qed.

(** [Login] does not tell accounts apart: when no statement fails, an unknown address, an
    inactive account and a wrong password get the same 401 response, and no session. *)
Theorem Login_denied inp meta w :
  (forall n, env_fault n = false) -> w_tx w = None ->
  (forall u, find_row (fun u => citext_eq (User_Email u) (LI_Email inp)) (users (w_db w)) = Some u ->
     User_Status u = "active" -> VerifyPassword (User_PasswordHash u) (LI_Password inp) = false) ->
  (Login inp meta w).1 = Err invalidCredentials /\
    refresh_tokens (w_db (Login inp meta w).2) = refresh_tokens (w_db w).
Proof.
  intros Hnf Hw Hno. unfold Login.
  assert (Hq : GetUserByEmail (LI_Email inp) w =
    (one (find_row (fun u => citext_eq (User_Email u) (LI_Email inp)) (users (w_db w))), next_tick w)).
  { unfold GetUserByEmail, query, stmt. rewrite Hw, Hnf. by destruct (find_row _ _); destruct w. }
  assert (Ha : attempt (GetUserByEmail (LI_Email inp)) w = (Ok (GetUserByEmail (LI_Email inp) w).1, next_tick w)).
  { unfold attempt. by rewrite Hq. }
  rewrite (bind_run _ _ _ _ _ Ha), Hq. simpl. destruct (find_row _ _) as [u|]; simpl; [|exact (Record_fail_users _ _ (next_tick w))].
  destruct (User_Status u =?= "active") eqn:Ea; simpl; [|exact (Record_fail_users _ _ (next_tick w))].
  rewrite (Hno u eq_refl) by (by apply beq_eq). simpl. exact (Record_fail_users _ _ (next_tick w)).
Qed.

(** C24. Only the password opens a session: a successful [Login] found an active user with that
    address whose stored hash accepts the password, and filed one new usable token for that
    user, whose digest is that of the token it returned. *)
Theorem Login_Ok inp meta w res w' : Login inp meta w = (Ok res, w') ->
  exists u row,
    find_row (fun u => citext_eq (User_Email u) (LI_Email inp)) (users (w_db w)) = Some u /\
    User_Status u = "active" /\ VerifyPassword (User_PasswordHash u) (LI_Password inp) = true /\
    AR_User res = NewUserDTO u /\ RefreshToken_UserID row = User_ID u /\ RefreshToken_RevokedAt row = None /\
    RefreshToken_TokenHash row = hashToken (TP_RefreshToken (AR_Tokens res)) /\
    refresh_tokens (w_db w) !! RefreshToken_ID row = None /\
    refresh_tokens (w_db w') = <[RefreshToken_ID row := row]> (refresh_tokens (w_db w)).
Proof.
  unfold Login. intros E. apply bind_Ok in E as (r & w1 & Eq%attempt_Ok & E).
  destruct r as [u|e].
  2: { destruct (isNoRows e); [|done]. by apply bind_Ok in E as (? & ? & _ & E%fail_Ok). }
  query_ok Eq. destruct (User_Status u =?= "active") eqn:Ea; simpl in E.
  2: { by apply bind_Ok in E as (? & ? & _ & E%fail_Ok). }
  destruct (VerifyPassword _ _) eqn:Ev; simpl in E.
  2: { by apply bind_Ok in E as (? & ? & _ & E%fail_Ok). }
  apply bind_Ok in E as ([] & w2 & Eu%wrapf_Ok & E). stmt_ok Eu.
  apply bind_Ok in E as ([] & w3 & Erec & E).
  apply run_tokens in Erec; [|apply Record_tokens]. simpl in Erec.
  apply bind_Ok in E as (f & w4 & [_ ->]%uuidNew_Ok & E).
  apply bind_Ok in E as (tp & w5 & Ei & E). apply ret_Ok in E as [<- <-].
  apply bind_Ok in Ei as (ir & w6 & Ec & Ei).
  apply createRefreshToken_Ok in Ec as (row & Hid & Hru & _ & Hrh & Hrr & Hfresh & _ & Hd6).
  simpl in Hfresh, Hd6. rewrite Erec in Hfresh, Hd6.
  apply bind_Ok in Ei as (t & w7 & [_ ->]%uuidNew_Ok & Ei).
  apply bind_Ok in Ei as (at_ & w8 & Eg & Ei).
  apply run_tokens in Eg; [|apply GenerateAccessToken_tokens]. simpl in Eg.
  apply bind_Ok in Ei as (n & w9 & [_ ->]%timeNow_Ok & Ei). apply ret_Ok in Ei as [<- <-].
  apply beq_eq in Ea. exists u, row. simpl in *. rewrite Hid, Eg, Hd6. by split_and!.
Qed.
End auth_theorems.

(** ** Facts: registration *)
Section register.
Context `{Env} `{AuthConfig}.

Lemma seedRolePermissions_Ok rid name w u w' : seedRolePermissions rid name w = (Ok u, w') ->
  exists g, w_db w' = set_role_permissions g (w_db w) /\ role_permissions (w_db w) ⊆ g /\
    forall key, key ∈ DefaultForRole name -> exists pid p, permissions (w_db w) !! pid = Some p /\
      Permission_Key p = key /\ (rid, Permission_ID p) ∈ g.
Proof. apply add_permissions_Ok. done. Qed.
Lemma seed_gains rid name w u w' : seedRolePermissions rid name w = (Ok u, w') ->
  gains_roles (w_db w) (w_db w').
Proof. intros (g & -> & Hs & _)%seedRolePermissions_Ok. split_and!; try done. simpl. intros. by apply Hs. Qed.
Lemma create_role_gains o n ds sys w r w' : QueriesOrg.CreateRole o n ds sys w = (Ok r, w') ->
  gains_roles (w_db w) (w_db w').
Proof.
  intros (Hfresh & _ & _ & _ & ->)%CreateRole_Ok. split_and!; try done. simpl. by apply insert_subseteq.
Qed.
Lemma extra_roles_gain o l w u w' :
  for_each l (fun extra =>
    extraRole <- wrapf ("create role " +:+ extra.1)
      (QueriesOrg.CreateRole o extra.1 (Some extra.2) true) ;;
    wrapf ("seed permissions for role " +:+ extra.1) (seedRolePermissions (Role_ID extraRole) extra.1)) w
    = (Ok u, w') -> gains_roles (w_db w) (w_db w').
Proof.
  revert w. induction l as [|x l IH]; simpl; intros w E.
  - by apply ret_Ok in E as [_ <-].
  - apply bind_Ok in E as ([] & w1 & Ex & E). apply bind_Ok in Ex as (r & w2 & Er%wrapf_Ok & Es%wrapf_Ok).
    etrans; [by eapply create_role_gains|]. etrans; [by eapply seed_gains|]. by eapply IH.
Qed.

(** The new organization of a registration: its only member so far is its owner. *)
Lemma owner_role_ready o ds w role w2 u w3 :
  QueriesOrg.CreateRole o "Owner" ds true w = (Ok role, w2) ->
  seedRolePermissions (Role_ID role) "Owner" w2 = (Ok u, w3) -> owner_ready o (Role_ID role) (w_db w3).
Proof.
  intros (_ & Hro & Hrn & Hsys & Hd2)%CreateRole_Ok (g & Hd3 & _ & Hk)%seedRolePermissions_Ok.
  exists role. rewrite Hd3, Hd2. simpl. split_and!; [by rewrite lookup_insert_eq|done|done|done|].
  intros key Hkey. destruct (Hk key Hkey) as (pid & p & Hpid & H1 & H2). exists pid, p.
  rewrite Hd2 in Hpid. done.
Qed.
Lemma create_org_for_Ok u name slug w org w' : create_org_for u name slug w = (Ok org, w') ->
  founded u (Organization_ID org) (w_db w) (w_db w').
Proof.
  unfold create_org_for. intros E. apply bind_Ok in E as (o & w1 & Eo%map_err_Ok & E).
  apply bind_Ok in E as (role & w2 & Er%wrapf_Ok & E). apply bind_Ok in E as ([] & w3 & Es%wrapf_Ok & E).
  apply bind_Ok in E as ([] & w4 & Ex & E). apply bind_Ok in E as (now & w5 & [-> ->]%timeNow_Ok & E).
  apply bind_Ok in E as (m & w6 & Em%wrapf_Ok & E). apply ret_Ok in E as [-> <-].
  assert (Hg : gains_roles (w_db w1) (w_db w4)).
  { etrans; [by eapply create_role_gains|]. etrans; [by eapply seed_gains|]. by eapply extra_roles_gain. }
  eapply (founding_Ok _ _ _ (Role_ID role) _ _ _ (next_tick w4)); [exact Eo|exact Hg| |done|exact Em].
  change (w_db (next_tick w4)) with (w_db w4).
  eapply owner_ready_gains; [by eapply extra_roles_gain|]. by eapply owner_role_ready.
Qed.

(** The accounts: everything but tokens and logs. *)
Definition same_accounts (d d' : DB) : Prop :=
  users d = users d' /\ organizations d = organizations d' /\ memberships d = memberships d' /\
  roles d = roles d' /\ permissions d = permissions d' /\ role_permissions d = role_permissions d'.
#[export] Instance same_accounts_pre : PreOrder same_accounts.
Proof. split; [by intros ?|]. unfold same_accounts. intros ? ? ?; naive_solver congruence. Qed.
Definition same_users (d d' : DB) : Prop := users d = users d'.
#[local] Instance same_users_pre : PreOrder same_users.
Proof. split; [by intros ?|]. unfold same_users. intros ? ? ?; congruence. Qed.

Lemma Record_accounts e : pres same_accounts (Record_ e).
Proof.
  unfold Record_. pres_step; [|pres_auto]. apply pres_attempt, write_event_pres; [apply _|].
  intros. stmt_branches. done.
Qed.
Lemma issueSession_accounts u f meta : pres same_accounts (issueSession u f meta).
Proof.
  unfold issueSession, createRefreshToken, generateRefreshToken, GenerateAccessToken, token_pair.
  pres_auto. stmt_branches. done.
Qed.
Lemma create_org_for_users u name slug : pres same_users (create_org_for u name slug).
Proof. unfold create_org_for, seedRolePermissions. pres_auto; by stmt_branches. Qed.

Lemma register_tx_commits inp slug h : commits (register_tx inp slug h).
Proof.
  unfold register_tx. commits_auto.
  - apply pres_map_err. by apply pres_stmt.
  - eapply pres_weaken; [|apply create_org_for_users]. done.
Qed.
(** A complete account: the user, and an organization that did not exist before, in which the
    user has the Owner role and every permission. *)
Definition account_created (inp : RegisterInput) (u : User) (d d' : DB) : Prop :=
  users d !! User_ID u = None /\ users d' !! User_ID u = Some u /\
  (forall k x, users d !! k = Some x -> citext_eq (User_Email x) (RI_Email inp) = false) /\
  User_Email u = RI_Email inp /\ User_Status u = "active" /\
  bcrypt_GenerateFromPassword bcryptCost (RI_Password inp) = Some (User_PasswordHash u) /\
  exists orgID, organizations d !! orgID = None /\
    forall p, p ∈ All -> exists t, authorized d' (User_ID u) orgID p t /\ Tenant_RoleName t = "Owner".
Lemma account_created_same inp u d d' d'' :
  same_accounts d' d'' -> account_created inp u d d' -> account_created inp u d d''.
Proof.
  unfold account_created, authorized, member_tenant, grants. intros (-> & -> & -> & -> & -> & ->). done.
Qed.
Lemma register_tx_Ok inp slug h w u org w' :
  bcrypt_GenerateFromPassword bcryptCost (RI_Password inp) = Some h ->
  register_tx inp slug h w = (Ok (u, org), w') -> account_created inp u (w_db w) (w_db w').
Proof.
  intros Hh E. unfold register_tx in E. apply bind_Ok in E as (u0 & w1 & Eu%map_err_Ok & E).
  apply bind_Ok in E as (org0 & w2 & Eo & E). apply bind_Ok in E as ([] & w3 & [Hd _]%wrapf_Ok%Commit_Ok & E).
  apply ret_Ok in E as [[= -> ->] <-]. destruct (create_org_for_users (User_ID u) (RI_OrganizationName inp) slug w1) as [_ Hu].
  rewrite Eo in Hu. apply create_org_for_Ok in Eo. stmt_ok Eu. unfold same_users in Hu. simpl in Hu.
  unfold account_created. simpl. rewrite Hd, <- Hu, lookup_insert_eq. split_and!; [done..| | | | |]; try done.
  - intros k x Hk. match goal with Hx : negb (exists_row _ _) = true |- _ =>
      apply negb_true_iff in Hx; rewrite exists_row_false in Hx; exact (Hx _ _ Hk) end.
  - exists (Organization_ID org). pose proof Eo as (? & ? & Hfresh & _). split; [exact Hfresh|].
    intros p Hp. by eapply founded_authorized.
Qed.

(** C17. Registration is all or nothing: whatever fails, either no account table changed, or
    there is a new active user with that address and a bcrypt hash of that password, who owns a
    new organization with every permission; and a success means the latter and returns that
    user. *)
Theorem Register_atomic inp meta w r w' : Register inp meta w = (r, w') ->
  (exists e, r = Err e /\ same_accounts (w_db w) (w_db w')) \/
  exists u, account_created inp u (w_db w) (w_db w') /\
    forall res, r = Ok res -> AR_User res = NewUserDTO u.
Proof.
  unfold Register, HashPassword. intros E. unfold bind at 1 in E.
  destruct (bcrypt_GenerateFromPassword bcryptCost (RI_Password inp)) as [h|] eqn:Hh; simpl in E.
  2: { left. injection E as <- <-. by eexists. }
  unfold bind at 1 in E. pose proof (reads_db _ w (auth_uniqueSlug_pres eq (RI_OrganizationName inp))) as Hs.
  destruct (auth_uniqueSlug _ w) as [[slug|e] w1]; simpl in Hs.
  2: { left. injection E as <- <-. exists e. rewrite Hs. done. }
  unfold bind at 1 in E. destruct (in_plain_tx _ _ w1) as [[[u org]|e] w2] eqn:Etx.
  2: { apply plain_tx_Err in Etx as [Hd _]; [|apply register_tx_commits]. left. injection E as <- <-.
       exists e. rewrite Hd, Hs. done. }
  apply plain_tx_Ok in Etx as (_ & Etx & _); [|apply register_tx_commits].
  apply (register_tx_Ok _ _ _ _ _ _ _ Hh) in Etx. simpl in Etx. rewrite Hs in Etx. right. exists u.
  assert (Hp : forall ev, pres same_accounts (Record_ ev ;;; familyID <- uuidNew ;;
    tokens <- issueSession (User_ID u) familyID meta ;; ret {| AR_Tokens := tokens; AR_User := NewUserDTO u |})).
  { intros ev. pres_step; [apply Record_accounts|]. pres_step; [pres_auto|]. pres_step; [apply issueSession_accounts|]. pres_auto. }
  match type of E with (bind (Record_ ?ev) _) w2 = _ => specialize (Hp ev w2) end.
  rewrite E in Hp. destruct Hp as [_ Hp]. split; [by eapply account_created_same|].
  intros res ->. apply bind_Ok in E as (? & ? & _ & E). apply bind_Ok in E as (? & ? & _ & E).
  apply bind_Ok in E as (? & ? & _ & E). apply ret_Ok in E as [<- _]. done.
Qed.
End register.

(** ** Concrete runs *)
#[local] Instance demo_auth : AuthConfig :=
  {| jwt_secret := "k"; jwt_issuer := "team-flow"; accessTTL := 15 * Minute; refreshTTL := 720 * Hour |}.
Definition demo_meta : RequestMeta := {| RM_UserAgent := "ua"; RM_IPAddress := "10.0.0.1" |}.
Definition demo_token (id : N) (raw : string) (revoked : option Z) (next : option N) : RefreshToken :=
  {| RefreshToken_ID := id; RefreshToken_UserID := 1; RefreshToken_FamilyID := 7;
     RefreshToken_TokenHash := @hashToken demo raw; RefreshToken_ExpiresAt := 9000000;
     RefreshToken_RevokedAt := revoked; RefreshToken_ReplacedBy := next; RefreshToken_UserAgent := None;
     RefreshToken_IpAddress := None; RefreshToken_CreatedAt := 0 |}.
(** One session of user 1: token "old" was rotated into "cur". *)
Definition demo_session : World := demo_world (set_refresh_tokens
  {[60%N := demo_token 60 "old" (Some 5%Z) (Some 61%N); 61%N := demo_token 61 "cur" None None]} demo_DB).
Lemma demo_session_inv : auth_inv (w_db demo_session).
Proof.
  assert (Hall : forall k r, refresh_tokens (w_db demo_session) !! k = Some r ->
    k = 60%N /\ r = demo_token 60 "old" (Some 5%Z) (Some 61%N) \/ k = 61%N /\ r = demo_token 61 "cur" None None).
  { intros k r. simpl. intros [[<- <-]|[_ [<- <-]%lookup_singleton_Some]]%lookup_insert_Some; auto. }
  split; [split|].
  - intros k r [[-> ->]|[-> ->]]%Hall; done.
  - intros k1 k2 r1 r2 [[-> ->]|[-> ->]]%Hall [[-> ->]|[-> ->]]%Hall; vm_compute; congruence.
  - intros k1 k2 r1 r2 [[-> ->]|[-> ->]]%Hall [[-> ->]|[-> ->]]%Hall; simpl; congruence.
Qed.

Lemma session_inv_witness :
  auth_inv (w_db (@Refresh demo demo_auth "cur" demo_meta demo_session).2) /\
  (exists r, (@Refresh demo demo_auth "cur" demo_meta demo_session).1 = Ok r).
Proof.
  split.
  - apply (@session_inv demo demo_auth demo_session _ eq_refl demo_session_inv), rtc_once, step_refresh.
  - eexists. vm_compute. reflexivity.
Defined.
Lemma Refresh_rotates_witness : exists res w',
  @Refresh demo demo_auth "cur" demo_meta demo_session = (Ok res, w') /\
  UD_ID (AR_User res) = 1%N.
Proof.
  destruct (@Refresh demo demo_auth "cur" demo_meta demo_session) as [r w'] eqn:E.
  assert (Hr : exists res, r = Ok res).
  { apply (f_equal fst) in E. vm_compute in E. subst r. eexists. reflexivity. }
  destruct Hr as [res ->]. exists res, w'. split; [done|].
  destruct (@Refresh_rotates demo demo_auth "cur" demo_meta demo_session res w' (proj1 demo_session_inv) E)
    as (stored & row & user & now & Hs & Hh & _ & _ & Hu & _ & -> & _).
  simpl in Hs. apply lookup_insert_Some in Hs as [[_ <-]|[_ [_ <-]%lookup_singleton_Some]];
    vm_compute in Hu; by injection Hu as <-.
Defined.
Lemma Refresh_reuse_witness :
  (@Refresh demo demo_auth "old" demo_meta demo_session).1 = Err (Sentinel ErrUnauthorized) /\
  @retired demo "cur" (w_db (@Refresh demo demo_auth "old" demo_meta demo_session).2).
Proof.
  destruct (@Refresh_reuse demo demo_auth "old" demo_meta demo_session
    (demo_token 60 "old" (Some 5%Z) (Some 61%N))) as [He Hr]; [done..|].
  split; [done|]. by apply (Hr 61%N (demo_token 61 "cur" None None)).
Defined.
Lemma retired_refused_witness : exists e,
  (@Refresh demo demo_auth "cur" demo_meta (@Logout demo "old" demo_session).2).1 = Err e.
Proof.
  apply (@retired_refused demo demo_auth "cur" demo_meta (@Logout demo "old" demo_session).2).
  - vm_compute. reflexivity.
  - eapply change_inv; [|apply demo_session_inv]. by apply Logout_change.
  - assert (Hd : refresh_tokens (w_db (@Logout demo "old" demo_session).2) = revoke_where 1000001
      (fun x => RefreshToken_FamilyID x =?= 7%N) <$> refresh_tokens (w_db demo_session)) by (vm_compute; reflexivity).
    exact (@revoke_family_retires demo 7 1000001 _ _ Hd 61%N (demo_token 61 "cur" None None) "cur" eq_refl eq_refl eq_refl).
  - constructor.
Defined.
Lemma Logout_retires_witness :
  (@Logout demo "cur" demo_session).1 = Ok tt /\
  @retired demo "old" (w_db (@Logout demo "cur" demo_session).2).
Proof.
  destruct (@Logout_retires demo "cur" demo_session (demo_token 61 "cur" None None)) as [He Hr];
    [done..|].
  split; [done|]. by apply (Hr 60%N (demo_token 60 "old" (Some 5%Z) (Some 61%N))).
Defined.
Lemma Login_denied_witness :
  (@Login demo demo_auth {| LI_Email := "ann@x.io"; LI_Password := "wrong" |} demo_meta demo_session).1
    = Err invalidCredentials.
Proof.
  apply (@Login_denied demo demo_auth {| LI_Email := "ann@x.io"; LI_Password := "wrong" |} demo_meta demo_session);
    [done|done|].
  intros u Hu _. vm_compute in Hu. by injection Hu as <-.
Defined.
Lemma Login_Ok_witness : exists res w',
  @Login demo demo_auth {| LI_Email := "ANN@x.io"; LI_Password := "passw0rd" |} demo_meta demo_session = (Ok res, w') /\
  UD_Status (AR_User res) = "active".
Proof.
  destruct (@Login demo demo_auth {| LI_Email := "ANN@x.io"; LI_Password := "passw0rd" |} demo_meta demo_session)
    as [r w'] eqn:E.
  assert (Hr : exists res, r = Ok res).
  { apply (f_equal fst) in E. vm_compute in E. subst r. eexists. reflexivity. }
  destruct Hr as [res ->]. exists res, w'. split; [done|].
  by destruct (@Login_Ok demo demo_auth _ _ _ _ _ E) as (u & row & _ & Ha & _ & -> & _).
Defined.
Definition demo_register : RegisterInput :=
  {| RI_Email := "new@x.io"; RI_Password := "passw0rd1"; RI_FirstName := "N"; RI_LastName := "W";
     RI_OrganizationName := "New Org" |}.
Lemma Register_atomic_witness : exists res w' u,
  @Register demo demo_auth demo_register demo_meta (demo_world demo_permissions_DB) = (Ok res, w') /\
  @account_created demo demo_register u demo_permissions_DB (w_db w').
Proof.
  destruct (@Register demo demo_auth demo_register demo_meta (demo_world demo_permissions_DB)) as [r w'] eqn:E.
  assert (Hr : exists res, r = Ok res).
  { apply (f_equal fst) in E. vm_compute in E. subst r. eexists. reflexivity. }
  destruct Hr as [res ->].
  destruct (@Register_atomic demo demo_auth demo_register demo_meta _ _ _ E) as [(e & He & _)|(u & Hu & _)]; [discriminate|].
  exists res, w', u. split; [reflexivity|exact Hu].
Defined.
