(* ===== verification/Delivery.v ===== *)
(** * Delivery interfaces: email transport and job queue

    The two interfaces the domain services hand work to: [mailer.Sender]
    ([internal/mailer/mailer.go], with its two implementations) and [jobs.Enqueuer]
    ([internal/jobs/jobs.go]).  What a client relies on is that neither touches the
    database. *)
From S2P Require Import Prelude.
From S2P Require Import GoError.
From S2P Require Import Schema.
From S2P Require Import Store.
From S2P Require Import Logic.
From S2P Require Import Tenancy.
From S2P Require Import Authz.
From S2P Require Import Jobs.
Local Open Scope string_scope.

Class Sender `{Env} := {
  Send : Message -> M unit;
  Send_reads m : reads (Send m)
}.
Class Enqueuer `{Env} := {
  Enqueue : string -> json -> M Job;
  Enqueue_reads jobType payload : reads (Enqueue jobType payload)
}.

Section senders.
Context `{Env}.
(** [LogSender.Send]: the structured log is the list of messages. *)
Definition LogSender_Send (msg : Message) : M unit := fun w => (Ok tt, set_mail (w_mail w ++ [msg])%list w).
Definition DiscardSender_Send (msg : Message) : M unit := ret tt.
Lemma LogSender_reads msg : reads (LogSender_Send msg).
Proof. by intros w. Qed.
Definition LogSender : Sender := {| Send := LogSender_Send; Send_reads := LogSender_reads |}.
Lemma DiscardSender_reads msg : reads (DiscardSender_Send msg).
Proof. by intros w. Qed.
Definition DiscardSender : Sender := {| Send := DiscardSender_Send; Send_reads := DiscardSender_reads |}.
End senders.

(** The job queue behind the interface: a
    request's context is not cancelled while it enqueues. *)
Section queue_enqueuer.
Context `{Env} `{AEAD} `{Platform} `{RedisServer}.
Lemma ctx_check_reads c : reads (ctx_check c).
Proof. intros w. unfold ctx_check. destruct (c _); by split. Qed.
Lemma transmit_reads {A} (f : Redis -> reply A * Redis) : reads (transmit f).
Proof. intros w. unfold transmit. destruct (redis_fault _); [by split|]. destruct (redis_refused _); [by split|]. by destruct (f _). Qed.
Lemma received_reads : reads received.
Proof. intros w. unfold received. by destruct (redis_fault _). Qed.
Lemma command_reads {A} c (f : Redis -> reply A * Redis) : reads (command c f).
Proof.
  unfold reads, command. pres_step; [apply ctx_check_reads|]. pres_step; [apply transmit_reads|].
  pres_step; [apply received_reads|]. pres_auto.
Qed.
Lemma value_reads {A} (r : reply A) : reads (value r).
Proof. destruct r; by split. Qed.
Lemma run_command_reads {A} c (f : Redis -> reply A * Redis) : reads (run_command c f).
Proof. unfold reads, run_command. pres_step; [apply command_reads|apply value_reads]. Qed.
Lemma enqueue_reads q c t p d : reads (enqueue q c t p d).
Proof.
  unfold reads, enqueue, seal. pres_auto; apply run_command_reads.
Qed.
Definition Queue_Enqueuer (q : Queue) : Enqueuer := {|
  Enqueue t p := Jobs.Enqueue q Background t (Some p);
  Enqueue_reads t p := enqueue_reads q Background t (Some p) 0
|}.
End queue_enqueuer.

Section frame.
Context `{Env} (R : relation DB) `{!PreOrder R}.
Lemma reads_pres {A} (m : M A) : reads m -> pres R m.
Proof. intros Hm w. destruct (Hm w) as [Ht Hd]. rewrite <- Hd. by split. Qed.
Lemma Send_pres `{!Sender} m : pres R (Send m).
Proof. apply reads_pres, Send_reads. Qed.
Lemma Enqueue_pres `{!Enqueuer} t p : pres R (Enqueue t p).
Proof. apply reads_pres, Enqueue_reads. Qed.
End frame.
#[export] Hint Resolve Send_pres Enqueue_pres : teamflow_frame.
