(* ===== verification/Invitations.v ===== *)
(** * Invitations

    Models [internal/invitations/model.go], [service.go] and [job.go], against the
    authorization, transport and queue interfaces. *)
From S2P Require Import Prelude.
From S2P Require Import GoError.
From S2P Require Import Schema.
From S2P Require Import Store.
From S2P Require Import Logic.
From S2P Require Import GoStrings.
From S2P Require Import Sql.
From S2P Require Import QueriesOrg.
From S2P Require Import QueriesAuth.
From S2P Require Import QueriesInv.
From S2P Require Import Permissions.
From S2P Require Import Pagination.
From S2P Require Import Tenancy.
From S2P Require Import AuditTrail.
From S2P Require Import Authz.
From S2P Require Import Validation.
From S2P Require Import Organizations.
From S2P Require Import Auth.
From S2P Require Import Jobs.
From S2P Require Import Delivery.
From S2P Require Import Demo.
Local Open Scope string_scope.

Definition StatusPending := "pending".
Definition StatusAccepted := "accepted".
Definition StatusRevoked := "revoked".
Definition StatusExpired := "expired".
Definition ownerRoleName := "Owner".
Definition tokenBytes : nat := 32.
Definition lf : string := String (Ascii.ascii_of_N 10) EmptyString.
Definition acceptPath (token : string) : string := "/invitations/accept?token=" +:+ token.
Definition sortableFields : list string := ["created_at"; "expires_at"; "email"].
Definition defaultSort := "created_at".
Definition redeliveryGracePeriod : Z := 2 * Minute.
Definition redeliveryBatchSize : Z := 100.
Definition JobTypeEmail := "invitation.email".

Record CreateInput := { CI_Email : string; CI_RoleID : N }.
Record ListFilter := {
  LF_Status : option string; LF_Email : option string; LF_Sort : string; LF_Desc : bool
}.
Record InvitationDTO := {
  ID_ID : N; ID_OrganizationID : N; ID_Email : string; ID_RoleID : N; ID_RoleName : string;
  ID_Status : string; ID_InvitedBy : N; ID_ExpiresAt : Z; ID_AcceptedAt : option Z;
  ID_AcceptedBy : option N; ID_RevokedAt : option Z; ID_CreatedAt : Z; ID_UpdatedAt : Z
}.
Record PreviewDTO := {
  PD_OrganizationID : N; PD_OrganizationName : string; PD_Email : string; PD_RoleName : string;
  PD_Status : string; PD_ExpiresAt : Z; PD_AccountExists : bool
}.
Record AcceptInput := { AI_Token : string; AI_Password : string; AI_FirstName : string; AI_LastName : string }.
Record AcceptResult := {
  AcR_InvitationID : N; AcR_OrganizationID : N; AcR_OrganizationName : string;
  AcR_RoleName : string; AcR_User : UserDTO; AcR_Tokens : TokenPair
}.
Record EmailJobPayload := { EP_InvitationID : N; EP_Token : string }.

(** What the service is constructed with, and the two decoders of the standard library its
    texts go through: the RFC 3339 form of an instant, the JSON payloads of its jobs. *)
Class InviteConfig `{Env} := {
  invite_ttl : Z;
  invite_baseURL : string;
  invite_queue : option Enqueuer;
  format_RFC3339 : Z -> string;
  unmarshal_email : string -> option EmailJobPayload;
  unmarshal_redeliver : string -> option N
}.

Definition effectiveStatus (inv : Invitation) (now : Z) : string :=
  if ((Invitation_Status inv =?= StatusPending) && time_After now (Invitation_ExpiresAt inv))%bool
  then StatusExpired else Invitation_Status inv.
Definition isUsable (inv : Invitation) (now : Z) : bool :=
  ((Invitation_Status inv =?= StatusPending) && negb (time_After now (Invitation_ExpiresAt inv)))%bool.
Definition acceptURL (baseURL token : string) : string := TrimRight 47 baseURL +:+ acceptPath token.
Definition toDTO (inv : Invitation) (roleName : string) (now : Z) : InvitationDTO :=
  {| ID_ID := Invitation_ID inv; ID_OrganizationID := Invitation_OrganizationID inv;
     ID_Email := Invitation_Email inv; ID_RoleID := Invitation_RoleID inv; ID_RoleName := roleName;
     ID_Status := effectiveStatus inv now; ID_InvitedBy := Invitation_InvitedBy inv;
     ID_ExpiresAt := Invitation_ExpiresAt inv; ID_AcceptedAt := Invitation_AcceptedAt inv;
     ID_AcceptedBy := Invitation_AcceptedBy inv; ID_RevokedAt := Invitation_RevokedAt inv;
     ID_CreatedAt := Invitation_CreatedAt inv; ID_UpdatedAt := Invitation_UpdatedAt inv |}.

(** ** Errors *)
Definition notFound (cause : option error) : error :=
  NewAPIError 404 "INVITATION_NOT_FOUND" "Invitation not found" cause.
Definition roleNotFound (cause : error) : error :=
  NewAPIError 404 "ROLE_NOT_FOUND" "Role not found" (Some cause).
Definition not_active : error :=
  NewAPIError 409 "INVITATION_NOT_ACTIVE" "Only pending invitations can be resent" None.
Definition already_member (cause : option error) : error :=
  NewAPIError 409 "ALREADY_A_MEMBER" "This person is already a member of the organization" cause.
Definition unusable (inv : Invitation) (now : Z) : error :=
  let s := effectiveStatus inv now in
  if s =?= StatusAccepted then
    NewAPIError 409 "INVITATION_ALREADY_ACCEPTED" "This invitation has already been accepted" None
  else if s =?= StatusRevoked then NewAPIError 410 "INVITATION_REVOKED" "This invitation was revoked" None
  else if s =?= StatusExpired then NewAPIError 410 "INVITATION_EXPIRED" "This invitation has expired" None
  else notFound None.
Definition mapWriteError (e : error) : error :=
  match asPgError e with
  | Some (code, name) =>
      if negb (code =?= "23505") then e
      else if name =?= "idx_invitations_pending_email" then
        NewAPIError 409 "INVITATION_PENDING" "This email already has a pending invitation" (Some e)
      else if name =?= "users_email_key" then
        NewAPIError 409 "EMAIL_TAKEN" "An account with this email already exists" (Some e)
      else e
  | None => e
  end.
Definition mapMembershipError (e : error) : error :=
  match asPgError e with
  | Some (code, _) => if code =?= "23505" then already_member (Some e) else e
  | None => e
  end.
Definition no_rows (f : error -> error) (e : error) : error := if isNoRows e then f e else e.
Definition reject (e : option error) : M unit := match e with Some e => fail e | None => ret tt end.

Section model.
Context `{Env}.
Definition normalizeEmail (email : string) : string := ToLower (TrimSpace email).
Definition CreateInput_validate (inp : CreateInput) : option error :=
  ErrOf (Check_ (negb (CI_RoleID inp =?= uuid_Nil)) "role_id" "is required"
    (Email "email" (CI_Email inp) (Required "email" (CI_Email inp) New))).
Definition validateAccount (inp : AcceptInput) : option error :=
  if ((AI_Password inp =?= "") && (AI_FirstName inp =?= "") && (AI_LastName inp =?= ""))%bool then None
  else ErrOf
    (MaxLen "last_name" (AI_LastName inp) 100 (Required "last_name" (AI_LastName inp)
      (MaxLen "first_name" (AI_FirstName inp) 100 (Required "first_name" (AI_FirstName inp)
        (Password "password" (AI_Password inp) New))))).
Definition generateToken : M string :=
  buf <- randRead tokenBytes "generate invitation token" ;; ret (RawURLEncoding buf).
Definition hashToken (raw : string) : string := hex_EncodeToString (sha256_Sum256 raw).
End model.

Section service.
Context `{Authorizer} `{!AuthConfig} `{!Sender} `{!InviteConfig}.

Definition orgName (orgID : N) : M string :=
  org <- wrapf "get organization" (GetOrganizationByID orgID) ;; ret (Organization_Name org).
Definition get_role (roleID orgID : N) : M Role := map_err (no_rows roleNotFound) (GetRoleByID roleID orgID).
Definition get_for_update (id orgID : N) : M Invitation :=
  map_err (no_rows (fun e => notFound (Some e))) (GetInvitationByIDForUpdate id orgID).

(** ** Delivery *)

(** The transport's error is logged, not returned. *)
Definition invitation_message (invitation : Invitation) (dto : InvitationDTO) (org token : string) : Message :=
  let link := acceptURL invite_baseURL token in
  let expires := format_RFC3339 (Invitation_ExpiresAt invitation) in
  {| Message_To := Invitation_Email invitation;
     Message_Subject := "You have been invited to join " +:+ org +:+ " on TeamFlow";
     Message_Text := "You have been invited to join " +:+ org +:+ " as " +:+ ID_RoleName dto +:+ "." +:+ lf +:+ lf +:+
       "Accept the invitation:" +:+ lf +:+ link +:+ lf +:+ lf +:+
       "This link expires at " +:+ expires +:+ " and can only be used once." +:+ lf;
     Message_Link := link;
     Message_Metadata := [("invitation_id", uuid_String (ID_ID dto));
       ("organization_id", uuid_String (Invitation_OrganizationID invitation)); ("expires_at", expires)] |}.
Definition sendInvitationEmail (invitation : Invitation) (dto : InvitationDTO) (org token : string) : M unit :=
  attempt (Send (invitation_message invitation dto org token)) ;;; ret tt.
Definition markNotified (invitationID orgID : N) : M unit :=
  WithTenantTx orgID (MarkInvitationNotified invitationID orgID).
Definition deliverInline (invitation : Invitation) (dto : InvitationDTO) (org token : string) : M unit :=
  sendInvitationEmail invitation dto org token ;;;
  attempt (markNotified (Invitation_ID invitation) (Invitation_OrganizationID invitation)) ;;; ret tt.
Definition email_payload (id : N) (token : string) : json :=
  JObj [("invitation_id", JStr (uuid_String id)); ("token", JStr token)].
Definition enqueueEmail (invitation : Invitation) (token : string) : M Job :=
  match invite_queue with
  | None => fail (ErrorsNew "jobs: no queue configured")
  | Some q => @Enqueue _ q JobTypeEmail (email_payload (Invitation_ID invitation) token)
  end.
Definition dispatchEmail (invitation : Invitation) (dto : InvitationDTO) (org token : string) : M unit :=
  match invite_queue with
  | Some _ =>
      r <- attempt (enqueueEmail invitation token) ;;
      match r with Err _ => deliverInline invitation dto org token | Ok _ => ret tt end
  | None => deliverInline invitation dto org token
  end.

(** ** Create, resend, revoke, list *)
Definition checkInvitee (orgID : N) (email : string) : M unit :=
  r <- attempt (GetActiveMembershipByEmail orgID email) ;;
  match r with
  | Ok _ => fail (already_member None)
  | Err e => if isNoRows e then ret tt else fail e
  end.
Definition create_body (tenant : Tenant) (userID orgID : N) (inp : CreateInput) (email token : string)
    (expiresAt : Z) : M (Invitation * string * string) :=
  checkInvitee orgID email ;;;
  role <- get_role (CI_RoleID inp) orgID ;;
  reject_if ((Role_Name role =?= ownerRoleName) && negb (Tenant_RoleName tenant =?= ownerRoleName))%bool
    (Sentinel ErrForbidden) ;;;
  org <- orgName orgID ;;
  invitation <- map_err mapWriteError
    (CreateInvitation orgID email (CI_RoleID inp) (hashToken token) userID expiresAt) ;;
  RecordTx (WithMetadata [("email", JStr email); ("role", JStr (Role_Name role))]
    (new_event InvitationCreated "" TargetInvitation (uuid_String (Invitation_ID invitation))
       (Some orgID) (Some userID))) ;;;
  ret (invitation, Role_Name role, org).
Definition Create (userID orgID : N) (inp : CreateInput) : M InvitationDTO :=
  tenant <- Authorize userID orgID MembersManage ;;
  reject (CreateInput_validate inp) ;;;
  let email := normalizeEmail (CI_Email inp) in
  token <- generateToken ;;
  now <- timeNow ;;
  let expiresAt := (now + invite_ttl)%Z in
  r <- wrapf "create invitation"
    (WithTenantTx orgID (create_body tenant userID orgID inp email token expiresAt)) ;;
  let '(invitation, roleName, org) := r in
  let dto := toDTO invitation roleName now in
  dispatchEmail invitation dto org token ;;;
  ret dto.

Definition resend_body (orgID invitationID : N) (token : string) (expiresAt : Z)
    : M (Invitation * string * string) :=
  current <- get_for_update invitationID orgID ;;
  reject_if (negb (Invitation_Status current =?= StatusPending)) not_active ;;;
  role <- get_role (Invitation_RoleID current) orgID ;;
  org <- orgName orgID ;;
  invitation <- map_err (no_rows (fun _ => not_active))
    (RotateInvitationToken invitationID orgID (hashToken token) expiresAt) ;;
  ret (invitation, Role_Name role, org).
Definition Resend (userID orgID invitationID : N) : M InvitationDTO :=
  _ <- Authorize userID orgID MembersManage ;;
  token <- generateToken ;;
  now <- timeNow ;;
  r <- wrapf "resend invitation"
    (WithTenantTx orgID (resend_body orgID invitationID token (now + invite_ttl)%Z)) ;;
  let '(invitation, roleName, org) := r in
  let dto := toDTO invitation roleName now in
  dispatchEmail invitation dto org token ;;;
  ret dto.

Definition revoke_body (userID orgID invitationID : N) : M unit :=
  current <- get_for_update invitationID orgID ;;
  reject_if (negb (Invitation_Status current =?= StatusPending)) (notFound None) ;;;
  now <- timeNow ;;
  RevokeInvitation invitationID orgID (Some now) ;;;
  RecordTx (new_event InvitationRevoked "" TargetInvitation (uuid_String invitationID)
    (Some orgID) (Some userID)).
Definition Revoke (userID orgID invitationID : N) : M unit :=
  _ <- Authorize userID orgID MembersManage ;;
  WithTenantTx orgID (revoke_body userID orgID invitationID).

(** The role names, each looked up once: a Go map filled while walking the rows. *)
Fixpoint role_names (orgID : N) (rows : list Invitation) (names : gmap N string) : M (gmap N string) :=
  match rows with
  | [] => ret names
  | row :: rows =>
      match names !! Invitation_RoleID row with
      | Some _ => role_names orgID rows names
      | None =>
          role <- wrapf "get role" (GetRoleByID (Invitation_RoleID row) orgID) ;;
          role_names orgID rows (<[Invitation_RoleID row := Role_Name role]> names)
      end
  end.
Definition list_body (orgID : N) (filter : ListFilter) (sortBy : string) (page : PageRequest)
    : M (Z * list Invitation * gmap N string) :=
  total <- CountInvitations orgID (LF_Status filter) (LF_Email filter) ;;
  rows <- ListInvitations orgID (LF_Status filter) (LF_Email filter) sortBy (LF_Desc filter)
            (Limit page) (Offset page) ;;
  names <- role_names orgID rows ∅ ;;
  ret (total, rows, names).
Definition List_ (userID orgID : N) (filter : ListFilter) (page : PageRequest)
    : M (list InvitationDTO * Pagination) :=
  _ <- Authorize userID orgID MembersManage ;;
  let sortBy := if is_one_of (LF_Sort filter) sortableFields then LF_Sort filter else defaultSort in
  r <- wrapf "list invitations" (WithTenantTx orgID (list_body orgID filter sortBy page)) ;;
  let '(total, rows, names) := r in
  now <- timeNow ;;
  ret (map (fun row => toDTO row (default "" (names !! Invitation_RoleID row)) now) rows,
       NewPagination page total).

(** ** Preview and accept *)
Definition found_by_token (token : string) : M Invitation :=
  map_err (fun e => if isNoRows e then notFound (Some e) else Errorf "get invitation by token" e)
    (GetInvitationByTokenHash (hashToken token)).
Definition lookup_body (found : Invitation) : M (Invitation * Organization * Role) :=
  invitation <- map_err (no_rows (fun e => notFound (Some e)))
    (GetInvitationByID (Invitation_ID found) (Invitation_OrganizationID found)) ;;
  org <- wrapf "get organization" (GetOrganizationByID (Invitation_OrganizationID invitation)) ;;
  role <- get_role (Invitation_RoleID invitation) (Invitation_OrganizationID invitation) ;;
  ret (invitation, org, role).
Definition lookup_ (token : string) : M (Invitation * Organization * Role) :=
  found <- found_by_token token ;;
  WithTenantTx (Invitation_OrganizationID found) (lookup_body found).
Definition Preview (token : string) : M PreviewDTO :=
  ior <- lookup_ token ;;
  let '(invitation, org, role) := ior in
  r <- attempt (GetUserByEmail (Invitation_Email invitation)) ;;
  accountExists <- match r with
                   | Ok _ => ret true
                   | Err e => if isNoRows e then ret false else fail (Errorf "check invitee account" e)
                   end ;;
  now <- timeNow ;;
  ret {| PD_OrganizationID := Organization_ID org; PD_OrganizationName := Organization_Name org;
         PD_Email := Invitation_Email invitation; PD_RoleName := Role_Name role;
         PD_Status := effectiveStatus invitation now; PD_ExpiresAt := Invitation_ExpiresAt invitation;
         PD_AccountExists := accountExists |}.

(** [resolveUser]: the caller's account, or a new one; [uuid.Nil] is the anonymous caller. *)
Definition email_mismatch : error :=
  NewAPIError 403 "INVITATION_EMAIL_MISMATCH" "This invitation was issued to a different email address" None.
Definition account_exists : error :=
  NewAPIError 409 "ACCOUNT_EXISTS"
    "An account with this email already exists; sign in to accept this invitation" None.
Definition existing_account (invitation : Invitation) (userID : N) : M User :=
  user <- map_err (no_rows (fun _ => Sentinel ErrUnauthorized)) (GetUserByID userID) ;;
  reject_if (negb (User_Status user =?= "active")) (Sentinel ErrUnauthorized) ;;;
  reject_if (negb (normalizeEmail (User_Email user) =?= normalizeEmail (Invitation_Email invitation)))
    email_mismatch ;;;
  ret user.
Definition new_account (invitation : Invitation) (inp : AcceptInput) (passwordHash : string) : M User :=
  r <- attempt (GetUserByEmail (Invitation_Email invitation)) ;;
  match r with
  | Ok existing =>
      if negb (User_Status existing =?= "active") then fail (Sentinel ErrUnauthorized)
      else fail account_exists
  | Err e =>
      if negb (isNoRows e) then fail e else
      map_err mapWriteError
        (CreateUser (normalizeEmail (Invitation_Email invitation)) passwordHash
           (TrimSpace (AI_FirstName inp)) (TrimSpace (AI_LastName inp)) "active")
  end.
Definition resolveUser (invitation : Invitation) (userID : N) (inp : AcceptInput) (passwordHash : string) : M User :=
  if negb (userID =?= uuid_Nil) then existing_account invitation userID
  else new_account invitation inp passwordHash.

(** The tenant transaction of [Accept]: [None] when it committed the expiry transition. *)
Definition join_body (invitation : Invitation) (userID : N) (inp : AcceptInput) (passwordHash : string)
    (now : Z) : M (Organization * Role * User) :=
  role <- get_role (Invitation_RoleID invitation) (Invitation_OrganizationID invitation) ;;
  org <- wrapf "get organization" (GetOrganizationByID (Invitation_OrganizationID invitation)) ;;
  user <- resolveUser invitation userID inp passwordHash ;;
  map_err mapMembershipError
    (CreateMembership (Invitation_OrganizationID invitation) (User_ID user) (Invitation_RoleID invitation)
       "active" (Some now)) ;;;
  wrapf "accept invitation"
    (AcceptInvitation (Invitation_ID invitation) (Invitation_OrganizationID invitation) (Some now)
       (Some (User_ID user))) ;;;
  ret (org, role, user).
Definition accept_body (token : string) (userID : N) (inp : AcceptInput) (passwordHash : string) (now : Z)
    : M (option (Invitation * (Organization * Role * User))) :=
  invitation <- map_err (no_rows (fun e => notFound (Some e)))
    (GetInvitationByTokenHashForUpdate (hashToken token)) ;;
  if negb (isUsable invitation now) then
    reject_if (negb (Invitation_Status invitation =?= StatusPending)) (unusable invitation now) ;;;
    wrapf "mark invitation expired"
      (MarkInvitationExpired (Invitation_ID invitation) (Invitation_OrganizationID invitation)) ;;;
    ret None
  else
    r <- join_body invitation userID inp passwordHash now ;;
    ret (Some (invitation, r)).
(** The credentials are hashed before the transaction. *)
Definition accept_password (userID : N) (inp : AcceptInput) : M string :=
  if userID =?= uuid_Nil then
    if AI_Password inp =?= "" then
      fail (NewValidationError [("password", "is required when accepting without an account")])
    else HashPassword (AI_Password inp)
  else ret "".
Definition Accept (userID : N) (inp : AcceptInput) (meta : RequestMeta) : M AcceptResult :=
  let token := TrimSpace (AI_Token inp) in
  reject_if (token =?= "") (NewValidationError [("token", "is required")]) ;;;
  reject (validateAccount inp) ;;;
  passwordHash <- accept_password userID inp ;;
  found <- found_by_token token ;;
  now <- timeNow ;;
  r <- WithTenantTx (Invitation_OrganizationID found) (accept_body token userID inp passwordHash now) ;;
  match r with
  | None => fail (unusable found now)
  | Some (invitation, (org, role, user)) =>
      Record_ (WithMetadata [("email", JStr (Invitation_Email invitation)); ("role", JStr (Role_Name role))]
        (new_event InvitationAccepted "" TargetInvitation (uuid_String (Invitation_ID found))
           (Some (Organization_ID org)) (Some (User_ID user)))) ;;;
      tokens <- IssueSession (User_ID user) meta ;;
      ret {| AcR_InvitationID := Invitation_ID found; AcR_OrganizationID := Organization_ID org;
             AcR_OrganizationName := Organization_Name org; AcR_RoleName := Role_Name role;
             AcR_User := NewUserDTO user; AcR_Tokens := tokens |}
  end.

(** ** Jobs *)
Definition target_body (invitationID orgID : N) : M (Invitation * string * string) :=
  invitation <- GetInvitationByID invitationID orgID ;;
  org <- orgName (Invitation_OrganizationID invitation) ;;
  role <- GetRoleByID (Invitation_RoleID invitation) (Invitation_OrganizationID invitation) ;;
  ret (invitation, org, Role_Name role).
Definition deliveryTarget (invitationID : N) : M (Invitation * string * string) :=
  row <- GetInvitationByIDForJob invitationID ;;
  WithTenantTx row.2 (target_body invitationID row.2).
Definition EmailJobHandler (job_Payload : string) : M unit :=
  match unmarshal_email job_Payload with
  | None => fail (PermanentError (ErrorsNew "decode invitation.email payload"))
  | Some payload =>
      if ((EP_InvitationID payload =?= uuid_Nil) || (EP_Token payload =?= ""))%bool then
        fail (PermanentError (ErrorsNew "invitation email job is missing its invitation or token"))
      else
        r <- attempt (deliveryTarget (EP_InvitationID payload)) ;;
        match r with
        | Err e => if isNoRows e then ret tt else fail e
        | Ok (invitation, org, roleName) =>
            if negb (Invitation_Status invitation =?= StatusPending) then ret tt else
            now <- timeNow ;;
            sendInvitationEmail invitation (toDTO invitation roleName now) org (EP_Token payload) ;;;
            attempt (markNotified (EP_InvitationID payload) (Invitation_OrganizationID invitation)) ;;;
            ret tt
        end
  end.
Definition undeliveredInvitations (orgID : N) : M (list Invitation) :=
  wrapf "list undelivered invitations" (WithTenantTx orgID (
    now <- timeNow ;;
    ListUndeliveredInvitations orgID 0 (now - redeliveryGracePeriod) redeliveryBatchSize)).
(** [None]: accepted, revoked or delivered in the meantime. *)
Definition rotate_body (orgID id : N) (token : string) : M (option Invitation) :=
  r <- attempt (RotateInvitationForDelivery id orgID (hashToken token)) ;;
  match r with
  | Ok updated => ret (Some updated)
  | Err e => if isNoRows e then ret None else fail e
  end.
Definition redeliver_one (orgID : N) (row : Invitation) : M unit :=
  token <- generateToken ;;
  rotated <- WithTenantTx orgID (rotate_body orgID (Invitation_ID row) token) ;;
  match rotated with
  | None => ret tt
  | Some inv => if Invitation_ID inv =?= uuid_Nil then ret tt else enqueueEmail inv token ;;; ret tt
  end.
Definition redeliver_org (orgID : N) : M unit :=
  rows <- undeliveredInvitations orgID ;;
  for_each rows (redeliver_one orgID).
Definition RedeliverJobHandler (job_Payload : string) : M unit :=
  if job_Payload =?= "" then ForEachActiveOrganization uuid_Nil redeliver_org else
  match unmarshal_redeliver job_Payload with
  | None => fail (PermanentError (ErrorsNew "decode invitations.redeliver payload"))
  | Some only => ForEachActiveOrganization only redeliver_org
  end.
End service.

(** ** Facts: the life of an invitation *)

(** Rows are filed under their id; no two rows store the same digest. *)
Definition inv_wf (d : DB) : Prop :=
  (forall k i, invitations d !! k = Some i -> Invitation_ID i = k) /\
  (forall k1 k2 i1 i2, invitations d !! k1 = Some i1 -> invitations d !! k2 = Some i2 ->
     Invitation_TokenHash i1 = Invitation_TokenHash i2 -> k1 = k2).
(** Who is invited where and as what never changes; an invitation that is no longer pending
    keeps its status, its token and who accepted it when. *)
Definition inv_later (i i' : Invitation) : Prop :=
  Invitation_ID i' = Invitation_ID i /\ Invitation_OrganizationID i' = Invitation_OrganizationID i /\
  Invitation_Email i' = Invitation_Email i /\ Invitation_RoleID i' = Invitation_RoleID i /\
  Invitation_InvitedBy i' = Invitation_InvitedBy i /\ Invitation_CreatedAt i' = Invitation_CreatedAt i /\
  (Invitation_Status i = "pending" \/
   Invitation_Status i' = Invitation_Status i /\ Invitation_TokenHash i' = Invitation_TokenHash i /\
   Invitation_AcceptedAt i' = Invitation_AcceptedAt i /\ Invitation_AcceptedBy i' = Invitation_AcceptedBy i /\
   Invitation_RevokedAt i' = Invitation_RevokedAt i).
Definition evolves (d d' : DB) : Prop := inv_wf d ->
  inv_wf d' /\ forall k i, invitations d !! k = Some i ->
    exists i', invitations d' !! k = Some i' /\ inv_later i i'.
#[export] Instance inv_later_pre : PreOrder inv_later.
Proof.
  split.
  - intros i. unfold inv_later. split_and!; try done. right. by split_and!.
  - intros i1 i2 i3 (?&?&?&?&?&?&Hc) (?&?&?&?&?&?&Hc'). unfold inv_later. split_and!; try congruence.
    destruct Hc as [|(Hs&?&?&?&?)]; [by left|]. destruct Hc' as [Hp|(?&?&?&?&?)]; [left; congruence|].
    right. split_and!; congruence.
Qed.
#[export] Instance evolves_pre : PreOrder evolves.
Proof.
  split.
  - intros d Hwf. split; [done|]. intros k i Hk. by exists i.
  - intros d1 d2 d3 H12 H23 Hwf. destruct (H12 Hwf) as [Hwf2 H2]. destruct (H23 Hwf2) as [Hwf3 H3].
    split; [done|]. intros k i Hk. destruct (H2 _ _ Hk) as (i2 & Hk2 & Hl).
    destruct (H3 _ _ Hk2) as (i3 & Hk3 & Hl'). exists i3. split; [done|]. by etrans.
Qed.
Definition same_invitations (d d' : DB) : Prop := invitations d = invitations d'.
#[export] Instance same_invitations_pre : PreOrder same_invitations.
Proof. split; [by intros ?|]. unfold same_invitations. intros ? ? ?; congruence. Qed.

Section lifecycle.
Context `{Env}.

Lemma same_evolves d d' : same_invitations d d' -> evolves d d'.
Proof. unfold evolves, inv_wf. intros <- ?. split; [done|]. intros k i Hk. by exists i. Qed.

(** One row written: its constraints keep the table well formed. *)
Lemma put_invitation_Ok id i d x d' : put_invitation id i d = Ok (x, d') ->
  x = i /\ d' = set_invitations (<[id := i]> (invitations d)) d /\
  forall k j, invitations d !! k = Some j -> Invitation_ID j <> Invitation_ID i ->
    Invitation_TokenHash j <> Invitation_TokenHash i.
Proof.
  unfold put_invitation. destruct (invitation_checks i); [done|]. intros E. stmt_inv.
  split_and!; [done|done|]. intros k j Hk Hne Hh.
  match goal with Hx : negb (token_conflict _ _) = true |- _ => apply negb_true_iff in Hx;
    unfold token_conflict in Hx; rewrite exists_row_false in Hx; specialize (Hx _ _ Hk) end.
  cbv beta in *. rewrite Hh, beq_refl in *. simpl in *. bool_hyps. done.
Qed.
Lemma put_evolves id i d x d' : put_invitation id i d = Ok (x, d') -> Invitation_ID i = id ->
  match invitations d !! id with Some old => inv_later old i | None => True end -> evolves d d'.
Proof.
  intros (_ & -> & Hu)%put_invitation_Ok Hid Hold [Hkey Huniq]. split; [split|]; simpl.
  - intros k j [[<- <-]|[_ Hj]]%lookup_insert_Some; eauto.
  - assert (Hne : forall k j, invitations d !! k = Some j -> id <> k ->
      Invitation_TokenHash j <> Invitation_TokenHash i).
    { intros k j Hk Hn. apply (Hu _ _ Hk). rewrite (Hkey _ _ Hk). congruence. }
    intros k1 k2 i1 i2 [[<- <-]|[Hn1 H1]]%lookup_insert_Some [[<- <-]|[Hn2 H2]]%lookup_insert_Some Heq;
      [done| | |by eauto].
    + by destruct (Hne _ _ H2 Hn2).
    + by destruct (Hne _ _ H1 Hn1).
  - intros k j Hk. destruct (decide (id = k)) as [<-|Hn].
    + rewrite Hk in Hold. exists i. by rewrite lookup_insert_eq.
    + exists j. by rewrite lookup_insert_ne.
Qed.

Lemma CreateInvitation_evolves o em r h b e : pres evolves (CreateInvitation o em r h b e).
Proof.
  stmt_branches. eapply put_evolves; [eassumption|done|].
  match goal with Hk : invitations _ !! _ = None |- _ => by rewrite Hk end.
Qed.
(** An update of a row that is still pending, or that leaves the closed fields alone. *)
Lemma update_evolves_at id o extra f w :
  (forall now i, inv_wf (w_db w) -> invitations (w_db w) !! id = Some i -> extra i = true ->
     inv_later i (f now i)) -> pres_at evolves (update_invitation id o extra f) w.
Proof.
  intros Hf. apply pres_at_stmt; [apply _|]. intros c a d' Hb. cbv beta in Hb. stmt_inv.
  intros Hwf. pose proof Hwf as [Hkey _].
  match goal with Hk : invitations _ !! id = Some ?i |- _ => rename i into old; rename Hk into Hold end.
  assert (Hl : inv_later old (f (s_now c) old)) by auto. pose proof Hl as [Hid _].
  eapply put_evolves; [eassumption| |by rewrite Hold|done]. rewrite Hid. eauto.
Qed.
Lemma update_evolves id o extra f :
  (forall now i, extra i = true -> inv_later i (f now i)) -> pres evolves (update_invitation id o extra f).
Proof. intros Hf w. apply update_evolves_at. auto. Qed.
Lemma pending_later i i' : Invitation_Status i = "pending" ->
  Invitation_ID i' = Invitation_ID i -> Invitation_OrganizationID i' = Invitation_OrganizationID i ->
  Invitation_Email i' = Invitation_Email i -> Invitation_RoleID i' = Invitation_RoleID i ->
  Invitation_InvitedBy i' = Invitation_InvitedBy i -> Invitation_CreatedAt i' = Invitation_CreatedAt i ->
  inv_later i i'.
Proof. intros. unfold inv_later. split_and!; auto. Qed.
Lemma guarded_evolves id o extra f :
  (forall i, extra i = true -> Invitation_Status i = "pending") ->
  (forall now i, Invitation_ID (f now i) = Invitation_ID i /\
     Invitation_OrganizationID (f now i) = Invitation_OrganizationID i /\
     Invitation_Email (f now i) = Invitation_Email i /\ Invitation_RoleID (f now i) = Invitation_RoleID i /\
     Invitation_InvitedBy (f now i) = Invitation_InvitedBy i /\
     Invitation_CreatedAt (f now i) = Invitation_CreatedAt i) ->
  pres evolves (update_invitation id o extra f).
Proof.
  intros He Hf. apply update_evolves. intros now i Hi. destruct (Hf now i) as (?&?&?&?&?&?).
  apply pending_later; auto.
Qed.
Lemma is_pending_true i : is_pending i = true -> Invitation_Status i = "pending".
Proof. unfold is_pending. by intros ?%beq_eq. Qed.
Lemma RotateInvitationToken_evolves id o h e : pres evolves (RotateInvitationToken id o h e).
Proof. apply guarded_evolves; [apply is_pending_true|]. intros. by split_and!. Qed.
Lemma MarkInvitationExpired_evolves id o : pres evolves (MarkInvitationExpired id o).
Proof. apply guarded_evolves; [apply is_pending_true|]. intros. by split_and!. Qed.
Lemma RotateInvitationForDelivery_evolves id o h : pres evolves (RotateInvitationForDelivery id o h).
Proof.
  apply guarded_evolves; [|intros; by split_and!]. intros i [Hi _]%andb_true_iff. by apply is_pending_true.
Qed.
Lemma MarkInvitationNotified_evolves id o : pres evolves (MarkInvitationNotified id o).
Proof.
  unfold MarkInvitationNotified. pres_step; [|pres_auto]. apply pres_attempt, update_evolves.
  intros now i _. unfold inv_later. split_and!; try done. right. by split_and!.
Qed.
End lifecycle.
#[local] Hint Resolve CreateInvitation_evolves RotateInvitationToken_evolves MarkInvitationExpired_evolves
  RotateInvitationForDelivery_evolves MarkInvitationNotified_evolves : teamflow_frame.

Section service_lifecycle.
Context `{Authorizer} `{!AuthConfig} `{!Sender} `{!InviteConfig}.

Lemma lift_same {A} (m : M A) : pres same_invitations m -> pres evolves m.
Proof. apply pres_weaken, same_evolves. Qed.
Lemma RecordTx_same e : pres same_invitations (RecordTx e).
Proof. apply RecordTx_pres; [apply _|]. intros. by stmt_branches. Qed.
Lemma Record_same e : pres same_invitations (Record_ e).
Proof.
  unfold Record_. pres_step; [|pres_auto]. apply pres_attempt, write_event_pres; [apply _|].
  intros. by stmt_branches.
Qed.
Lemma IssueSession_same u m : pres same_invitations (IssueSession u m).
Proof.
  unfold IssueSession, issueSession, createRefreshToken, generateRefreshToken, GenerateAccessToken, token_pair.
  pres_auto. by stmt_branches.
Qed.
Lemma resolveUser_same i u inp h : pres same_invitations (resolveUser i u inp h).
Proof. unfold resolveUser, existing_account, new_account. pres_auto. by stmt_branches. Qed.
Lemma markNotified_evolves id o : pres evolves (markNotified id o).
Proof. unfold markNotified. pres_auto. Qed.
Lemma enqueueEmail_reads i t : pres evolves (enqueueEmail i t).
Proof. unfold enqueueEmail. destruct invite_queue; [apply reads_pres; [apply _|apply Enqueue_reads]|pres_auto]. Qed.
Lemma dispatchEmail_evolves i d o t : pres evolves (dispatchEmail i d o t).
Proof.
  assert (Hd : pres evolves (deliverInline i d o t)).
  { unfold deliverInline, sendInvitationEmail, markNotified. pres_auto. }
  unfold dispatchEmail. destruct invite_queue; [|done]. pres_step; [apply pres_attempt, enqueueEmail_reads|].
  by pres_auto.
Qed.
Lemma reject_pres R `{!PreOrder R} e : pres R (reject e).
Proof. unfold reject. pres_auto. Qed.
Lemma generateToken_pres R `{!PreOrder R} : pres R generateToken.
Proof. unfold generateToken. pres_auto. Qed.
#[local] Hint Resolve RecordTx_same Record_same IssueSession_same resolveUser_same : teamflow_frame.
#[local] Hint Resolve reject_pres generateToken_pres dispatchEmail_evolves markNotified_evolves enqueueEmail_reads : teamflow_frame.

Lemma Create_evolves u o inp : pres evolves (Create u o inp).
Proof.
  unfold Create, create_body, checkInvitee, get_role, orgName. pres_auto; by apply lift_same, RecordTx_same.
Qed.
Lemma Resend_evolves u o id : pres evolves (Resend u o id).
Proof. unfold Resend, resend_body, get_for_update, get_role, orgName. pres_auto. Qed.

Lemma get_for_update_Ok id o w i w' : get_for_update id o w = (Ok i, w') ->
  w' = next_tick w /\ invitations (w_db w) !! id = Some i /\ Invitation_OrganizationID i = o.
Proof. intros E%map_err_Ok. query_ok E. done. Qed.

(** Revocation and acceptance have no guard in SQL: the check in the code protects them. *)
Lemma Revoke_pres R `{!PreOrder R} u o id : (forall e, pres R (RecordTx e)) ->
  (forall w cur v, invitations (w_db w) !! id = Some cur -> Invitation_Status cur = "pending" ->
     pres_at R (RevokeInvitation id o v) w) -> pres R (Revoke u o id).
Proof.
  intros Hrec Hrev. unfold Revoke. pres_step; [pres_auto|]. apply pres_WithTenantTx; [apply _|]. intros w.
  change (pres_at R (revoke_body u o id) w). unfold revoke_body.
  apply pres_at_bind; [apply _| |intros cur w1 (-> & Hcur & _)%get_for_update_Ok].
  { assert (Hg : pres R (get_for_update id o)) by (unfold get_for_update; pres_auto). exact (Hg w). }
  apply pres_at_bind; [apply _|exact (pres_reject_if R _ _ _)|intros [] w2 [Hst <-]%reject_if_Ok]. bool_hyps.
  apply pres_at_bind; [apply _|exact (pres_timeNow R _)|intros now w3 [-> ->]%timeNow_Ok].
  apply pres_at_bind; [apply _| |intros x w4 _; exact (Hrec _ _)]. by apply (Hrev _ cur).
Qed.
Lemma RevokeInvitation_evolves id o v w cur : invitations (w_db w) !! id = Some cur -> Invitation_Status cur = "pending" ->
  pres_at evolves (RevokeInvitation id o v) w.
Proof.
  intros Hcur Hst. apply update_evolves_at. intros t i _ Hi _. assert (i = cur) as -> by congruence. by apply pending_later.
Qed.
Lemma AcceptInvitation_evolves id o a b w cur : invitations (w_db w) !! id = Some cur -> Invitation_Status cur = "pending" ->
  pres_at evolves (AcceptInvitation id o a b) w.
Proof.
  intros Hcur Hst. apply update_evolves_at. intros t i _ Hi _. assert (i = cur) as -> by congruence. by apply pending_later.
Qed.
Lemma Revoke_evolves u o id : pres evolves (Revoke u o id).
Proof. apply Revoke_pres; [apply _|intros; apply lift_same, RecordTx_same|intros *; apply RevokeInvitation_evolves]. Qed.

Lemma found_in_tx token w i w' :
  map_err (no_rows (fun e => notFound (Some e))) (GetInvitationByTokenHashForUpdate (hashToken token)) w = (Ok i, w') ->
  w' = next_tick w /\ Invitation_TokenHash i = hashToken token /\
  exists k, invitations (w_db w) !! k = Some i.
Proof.
  intros E%map_err_Ok. query_ok E. apply find_row_Some in Hb as [[_ Hh%beq_eq]%andb_true_iff [k Hk]]. eauto.
Qed.
Lemma same_inv_run {A} (m : M A) w r w' : pres same_invitations m -> m w = (r, w') ->
  invitations (w_db w') = invitations (w_db w).
Proof. intros Hm E. destruct (Hm w) as [_ Hs]. rewrite E in Hs. done. Qed.
(** What a user joining leaves of the invitation: its row, accepted. *)
Lemma join_body_evolves i u inp h now w k : invitations (w_db w) !! k = Some i ->
  Invitation_Status i = "pending" -> pres_at evolves (join_body i u inp h now) w.
Proof.
  intros Hk Hp. unfold join_body.
  assert (Hr : forall r o, pres same_invitations (get_role r o)) by (intros; unfold get_role; pres_auto).
  apply pres_at_bind; [apply _|exact (lift_same _ (Hr _ _) _)|intros role w1 E1].
  apply pres_at_bind; [apply _|refine (lift_same _ _ _); pres_auto|intros org w2 E2].
  apply pres_at_bind; [apply _|exact (lift_same _ (resolveUser_same _ _ _ _) _)|intros usr w3 E3].
  assert (Hm : forall o u r, pres same_invitations (map_err mapMembershipError (CreateMembership o u r "active" (Some now)))).
  { intros. apply pres_map_err. by stmt_branches. }
  apply pres_at_bind; [apply _|exact (lift_same _ (Hm _ _ _) _)|intros mem w4 E4].
  apply pres_at_bind; [apply _| |intros x w5 _; split; [reflexivity|reflexivity]].
  apply pres_at_map_err, update_evolves_at. intros t j [Hkey _] Hj _.
  apply same_inv_run in E4; [|apply Hm]. apply same_inv_run in E3; [|apply resolveUser_same].
  apply same_inv_run in E2; [|pres_auto]. apply same_inv_run in E1; [|apply Hr].
  assert (Hi : invitations (w_db w4) !! k = Some i) by congruence.
  rewrite (Hkey _ _ Hi) in Hj. assert (j = i) as -> by congruence. by apply pending_later.
Qed.

Lemma accept_body_evolves token u inp h now : pres evolves (accept_body token u inp h now).
Proof.
  intros w. change (pres_at evolves (accept_body token u inp h now) w). unfold accept_body.
  apply pres_at_bind; [apply _| |intros i w1 (-> & Hh & k & Hk)%found_in_tx].
  { refine (pres_map_err evolves _ _ _ _). pres_auto. }
  destruct (isUsable i now) eqn:Eu; simpl.
  - unfold isUsable in Eu. bool_hyps. apply pres_at_bind; [apply _|by eapply join_body_evolves|].
    intros; split; reflexivity.
  - match goal with |- pres_at _ ?m _ => assert (Hm : pres evolves m) by pres_auto; exact (Hm _) end.
Qed.
Lemma Accept_evolves u inp meta : pres evolves (Accept u inp meta).
Proof.
  assert (Ht : forall e, pres evolves (Record_ e)) by (intros; apply lift_same, Record_same).
  assert (Hs : forall x, pres evolves (IssueSession x meta)) by (intros; apply lift_same, IssueSession_same).
  unfold Accept, found_by_token, accept_password, HashPassword.
  pres_auto. apply accept_body_evolves.
Qed.
Lemma EmailJobHandler_evolves p : pres evolves (EmailJobHandler p).
Proof.
  assert (Hs : forall i d o t, pres evolves (sendInvitationEmail i d o t)).
  { intros. unfold sendInvitationEmail. pres_auto. }
  unfold EmailJobHandler, deliveryTarget, target_body, orgName. pres_auto.
Qed.
Lemma redeliver_org_evolves o : pres evolves (redeliver_org o).
Proof. unfold redeliver_org, undeliveredInvitations, redeliver_one, rotate_body. pres_auto. Qed.
Lemma RedeliverJobHandler_evolves p : pres evolves (RedeliverJobHandler p).
Proof.
  pose proof redeliver_org_evolves as Hr. unfold RedeliverJobHandler, ForEachActiveOrganization. pres_auto.
Qed.

(** The operations of the service and its jobs that write invitations. *)
Inductive invitation_step : World -> World -> Prop :=
| step_create u o inp w : invitation_step w (Create u o inp w).2
| step_resend u o id w : invitation_step w (Resend u o id w).2
| step_revoke u o id w : invitation_step w (Revoke u o id w).2
| step_accept u inp meta w : invitation_step w (Accept u inp meta w).2
| step_email p w : invitation_step w (EmailJobHandler p w).2
| step_redeliver p w : invitation_step w (RedeliverJobHandler p w).2.
Lemma invitation_steps w w' : rtc invitation_step w w' -> evolves (w_db w) (w_db w').
Proof.
  induction 1 as [w|w w1 w2 Hs _ IH]; [reflexivity|]. etrans; [|exact IH].
  destruct Hs; [apply Create_evolves|apply Resend_evolves|apply Revoke_evolves|apply Accept_evolves
    |apply EmailJobHandler_evolves|apply RedeliverJobHandler_evolves].
Qed.

End service_lifecycle.

(** ** Facts: acceptance *)
Section acceptance.
Context `{Authorizer} `{!AuthConfig} `{!Sender} `{!InviteConfig}.

(** The account that joins: the caller's, with the invited address, or a new one for an
    address nobody has. *)
Definition joins (i : Invitation) (u : N) (user : User) (d d' : DB) : Prop :=
  User_Status user = "active" /\
  if u =?= uuid_Nil then
    (forall k x, users d !! k = Some x -> citext_eq (User_Email x) (Invitation_Email i) = false) /\
    User_Email user = normalizeEmail (Invitation_Email i) /\ users d !! User_ID user = None /\
    d' = set_users (<[User_ID user := user]> (users d)) d
  else
    users d !! u = Some user /\ normalizeEmail (User_Email user) = normalizeEmail (Invitation_Email i) /\ d' = d.
Lemma resolveUser_Ok i u inp h w user w' : resolveUser i u inp h w = (Ok user, w') ->
  joins i u user (w_db w) (w_db w').
Proof.
  unfold resolveUser, joins. destruct (u =?= uuid_Nil); simpl; intros E.
  - unfold new_account in E. apply bind_Ok in E as (r & w1 & Eq%attempt_Ok & E).
    destruct r as [ex|e]; [by destruct (negb _)|]. destruct (isNoRows e) eqn:En; [|done]. simpl in E.
    apply map_err_Ok in E. assert (Hno : forall k x, users (w_db w) !! k = Some x ->
      citext_eq (User_Email x) (Invitation_Email i) = false /\ w_db w1 = w_db w).
    { unfold GetUserByEmail, query, stmt in Eq. destruct (w_tx w) as [t|].
      - destruct (tx_aborted t); [by simplify_eq/=|]. destruct (env_fault _); [by simplify_eq/=|].
        destruct (find_row _ _) eqn:Ef; simplify_eq/=. rewrite find_row_None in Ef. eauto.
      - destruct (env_fault _); [by simplify_eq/=|].
        destruct (find_row _ _) eqn:Ef; simplify_eq/=. rewrite find_row_None in Ef. eauto. }
    assert (Hd : w_db w1 = w_db w).
    { assert (Hq : pres eq (GetUserByEmail (Invitation_Email i))) by (apply pres_query; apply _).
      destruct (Hq w) as [_ Hd]. by rewrite Eq in Hd. }
    clear Eq. stmt_ok E. rewrite Hd. split_and!; try done.
    + intros k x Hk. by apply Hno in Hk as [? _].
    + by rewrite <- Hd.
  - unfold existing_account in E. apply bind_Ok in E as (x & w1 & Eu%map_err_Ok & E). query_ok Eu.
    apply bind_Ok in E as ([] & w2 & [Ha <-]%reject_if_Ok & E).
    apply bind_Ok in E as ([] & w3 & [He <-]%reject_if_Ok & E). apply ret_Ok in E as [<- <-]. by bool_hyps.
Qed.

(** The membership that acceptance creates. *)
Definition new_member (i : Invitation) (uid : N) (now : Z) (d d' : DB) : Prop := exists m,
  OrganizationMembership_OrganizationID m = Invitation_OrganizationID i /\
  OrganizationMembership_UserID m = uid /\ OrganizationMembership_RoleID m = Invitation_RoleID i /\
  OrganizationMembership_Status m = "active" /\ OrganizationMembership_JoinedAt m = Some now /\
  (forall k x, memberships d !! k = Some x -> OrganizationMembership_OrganizationID x = Invitation_OrganizationID i ->
     OrganizationMembership_UserID x <> uid) /\
  memberships d !! OrganizationMembership_ID m = None /\
  memberships d' = <[OrganizationMembership_ID m := m]> (memberships d).
Lemma CreateMembership_Ok i uid now w m w' :
  CreateMembership (Invitation_OrganizationID i) uid (Invitation_RoleID i) "active" (Some now) w = (Ok m, w') ->
  new_member i uid now (w_db w) (w_db w') /\ users (w_db w') = users (w_db w) /\
  invitations (w_db w') = invitations (w_db w).
Proof.
  intros E. stmt_ok E. split; [|done].
  match goal with |- context [set_memberships (<[_ := ?m]> _) _] => exists m end. split_and!; try done. simpl.
  intros k x Hk Ho Hu. match goal with Hx : negb (exists_row _ _) = true |- _ =>
    apply negb_true_iff in Hx; rewrite exists_row_false in Hx; specialize (Hx _ _ Hk) end.
  cbv beta in *. rewrite Ho, Hu, !beq_refl in *. done.
Qed.
Lemma AcceptInvitation_Ok id o a b w j w' : AcceptInvitation id o a b w = (Ok j, w') ->
  exists t i, invitations (w_db w) !! id = Some i /\
    w_db w' = set_invitations (<[id := Invitation_accept t a b i]> (invitations (w_db w))) (w_db w).
Proof.
  intros E. stmt_ok E. match goal with Hp : put_invitation _ _ _ = Ok _ |- _ => apply put_invitation_Ok in Hp as (_ & -> & _) end.
  eauto.
Qed.

(** What acceptance did to the tables. *)
Definition accepted_as (i : Invitation) (u : N) (user : User) (now : Z) (d d' : DB) : Prop :=
  (exists d1, joins i u user d d1 /\ users d' = users d1) /\ new_member i (User_ID user) now d d' /\
  exists t, invitations d' !! Invitation_ID i =
    Some (Invitation_accept t (Some now) (Some (User_ID user)) i).
Lemma joins_memberships i u user d d' : joins i u user d d' ->
  memberships d' = memberships d /\ invitations d' = invitations d.
Proof. unfold joins. intros [_ Hj]. destruct (u =?= uuid_Nil); [destruct Hj as (_ & _ & _ & ->)|destruct Hj as (_ & _ & ->)]; done. Qed.
Lemma join_body_Ok i u inp h now w org role user w' : inv_wf (w_db w) ->
  (exists k, invitations (w_db w) !! k = Some i) ->
  join_body i u inp h now w = (Ok (org, role, user), w') -> accepted_as i u user now (w_db w) (w_db w').
Proof.
  intros [Hkey _] [k Hk] E. unfold join_body in E. pose proof (Hkey _ _ Hk) as Hid.
  apply bind_Ok in E as (r & w1 & Er%map_err_Ok & E). query_ok Er.
  apply bind_Ok in E as (o & w2 & Eo%wrapf_Ok & E). query_ok Eo.
  apply bind_Ok in E as (x & w3 & Hj%resolveUser_Ok & E). simpl in Hj.
  apply bind_Ok in E as (m & w4 & Em%map_err_Ok & E). apply CreateMembership_Ok in Em as (Hm & Hu & Hi4).
  apply bind_Ok in E as (a & w5 & Ea%wrapf_Ok & E). apply AcceptInvitation_Ok in Ea as (t & j & Hj' & Hd).
  apply ret_Ok in E as [[= -> -> ->] <-]. pose proof (joins_memberships _ _ _ _ _ Hj) as [Hm3 Hi3].
  simpl in *. unfold new_member in Hm. rewrite Hm3 in Hm. unfold accepted_as, new_member. rewrite Hd. simpl.
  rewrite Hi4, Hi3, Hid, Hk in Hj'. injection Hj' as <-. split_and!; [exists (w_db w3); split; congruence|exact Hm|].
  exists t. apply lookup_insert_eq.
Qed.

Lemma accepted_as_same i u user now d d1 d' : same_accounts d1 d' -> same_invitations d1 d' ->
  accepted_as i u user now d d1 -> accepted_as i u user now d d'.
Proof.
  unfold accepted_as, new_member, same_invitations. intros (-> & _ & -> & _) ->. done.
Qed.
Lemma IssueSession_accounts u m : pres same_accounts (IssueSession u m).
Proof. unfold IssueSession. pres_step; [pres_auto|]. apply issueSession_accounts. Qed.

(** What a successful [Accept] ran. *)
Lemma Accept_inv u inp meta w res w' : inv_wf (w_db w) -> Accept u inp meta w = (Ok res, w') ->
  exists i user now, (exists k, invitations (w_db w) !! k = Some i) /\
    Invitation_TokenHash i = hashToken (TrimSpace (AI_Token inp)) /\
    isUsable i now = true /\ AcR_User res = NewUserDTO user /\
    accepted_as i u user now (w_db w) (w_db w').
Proof.
  intros Hwf E. unfold Accept in E. cbv zeta in E.
  apply bind_Ok in E as ([] & w0 & [_ <-]%reject_if_Ok & E).
  apply bind_Ok in E as ([] & w1 & Ev & E). apply bind_Ok in E as (h & w2 & Eh & E).
  apply bind_Ok in E as (found & w3 & Ef%map_err_Ok & E). query_ok Ef.
  apply bind_Ok in E as (now & w4 & [-> ->]%timeNow_Ok & E).
  apply bind_Ok in E as (r & w5 & Etx & E).
  assert (Hd : w_db w2 = w_db w).
  { assert (w_db w1 = w_db w) as <-.
    { unfold reject in Ev. destruct (validateAccount inp); [done|]. by apply ret_Ok in Ev as [_ <-]. }
    unfold accept_password, HashPassword in Eh. repeat case_match; simplify_eq/=; try done;
      by apply ret_Ok in Eh as [_ <-]. }
  apply WithTenantTx_Ok in Etx as (wa & wb & tx & Eb & Hda & _ & _ & Hdb & _). simpl in Hda.
  unfold accept_body in Eb. apply bind_Ok in Eb as (i & w6 & (-> & Hh & Hk)%found_in_tx & Eb).
  rewrite Hda, Hd in Hk. destruct (isUsable i (env_now (w_tick (next_tick w2)))) eqn:Eu; simpl in Eb.
  2: { apply bind_Ok in Eb as ([] & ? & _ & Eb). apply bind_Ok in Eb as (? & ? & _ & Eb).
       apply ret_Ok in Eb as [<- _]. done. }
  apply bind_Ok in Eb as ([[org role] user] & w7 & Ej & Eb). apply ret_Ok in Eb as [<- ->].
  apply join_body_Ok in Ej; [|by simpl; rewrite Hda, Hd|by simpl; rewrite Hda, Hd]. simpl in Ej. rewrite Hda, Hd in Ej.
  apply bind_Ok in E as ([] & w8 & Er & E). apply bind_Ok in E as (tokens & w9 & Et & E).
  apply ret_Ok in E as [<- <-]. exists i, user, (env_now (w_tick (next_tick w2))). split_and!; try done.
  rewrite <- Hdb in Ej. 
  pose proof (pres_run _ _ _ _ _ (Record_accounts _) Er) as Ha1.
  pose proof (pres_run _ _ _ _ _ (IssueSession_accounts _ _) Et) as Ha2.
  pose proof (pres_run _ _ _ _ _ (Record_same _) Er) as Hs1.
  pose proof (pres_run _ _ _ _ _ (IssueSession_same _ _) Et) as Hs2.
  eapply accepted_as_same; [exact Ha2|exact Hs2|]. eapply accepted_as_same; [exact Ha1|exact Hs1|]. done.
Qed.
End acceptance.

Section acceptance_theorems.
Context `{Authorizer} `{!AuthConfig} `{!Sender} `{!InviteConfig}.

(** C12. Who an invitation lets in: a successful [Accept] presented the token of an invitation
    that was pending and not expired. The account that joined is active and has the invited
    address: the caller's own account, or for an anonymous caller a new one, for an address
    that had no account. It has exactly one new membership, with the invited role, in the
    inviting organization, where it had none; and the invitation is marked accepted by it. *)
Theorem Accept_Ok u inp meta w res w' : inv_wf (w_db w) -> Accept u inp meta w = (Ok res, w') ->
  exists k i user now,
    invitations (w_db w) !! k = Some i /\
    Invitation_TokenHash i = hashToken (TrimSpace (AI_Token inp)) /\
    Invitation_Status i = "pending" /\ (now <= Invitation_ExpiresAt i)%Z /\
    (exists d1, joins i u user (w_db w) d1 /\ users (w_db w') = users d1) /\
    new_member i (User_ID user) now (w_db w) (w_db w') /\
    (exists t, invitations (w_db w') !! k = Some (Invitation_accept t (Some now) (Some (User_ID user)) i)) /\
    AcR_User res = NewUserDTO user.
Proof.
  intros Hwf E. destruct (Accept_inv _ _ _ _ _ _ Hwf E) as (i & user & now & [k Hk] & Hh & Hu & Hr & Hj & Hm & Ht).
  unfold isUsable, time_After in Hu. bool_hyps. destruct Hwf as [Hkey _]. rewrite (Hkey _ _ Hk) in Ht.
  exists k, i, user, now. by split_and!.
Qed.

(** C16. An invitation token works once: after a successful [Accept], no later request with that
    token succeeds, whoever sends it and whatever other invitation requests and jobs happened in
    between. *)
Theorem accept_once u inp meta w res w1 w2 u' inp' meta' :
  inv_wf (w_db w) -> Accept u inp meta w = (Ok res, w1) -> rtc invitation_step w1 w2 ->
  TrimSpace (AI_Token inp') = TrimSpace (AI_Token inp) ->
  exists e, (Accept u' inp' meta' w2).1 = Err e.
Proof.
  intros Hwf E Hs Heq. destruct (Accept_inv _ _ _ _ _ _ Hwf E) as (i & user & now & _ & Hh & _ & _ & _ & _ & t & Ht).
  destruct (pres_run _ _ _ _ _ (Accept_evolves _ _ _) E Hwf) as [Hwf1 _].
  destruct (invitation_steps _ _ Hs Hwf1) as [Hwf2 Hl]. destruct (Hl _ _ Ht) as (i2 & Hi2 & Hl2).
  destruct (Accept u' inp' meta' w2) as [[res2|e] w3] eqn:E2; [|by exists e]. exfalso.
  destruct (Accept_inv _ _ _ _ _ _ Hwf2 E2) as (j & usr & now2 & [k Hk] & Hhj & Huj & _).
  destruct Hl2 as (_ & _ & _ & _ & _ & _ & [Hp|(Hst & Hh2 & _)]); [done|]. simpl in Hst, Hh2.
  assert (k = Invitation_ID i) as ->.
  { destruct Hwf2 as [_ Hu]. apply (Hu _ _ _ _ Hk Hi2). rewrite Hhj, Heq, Hh2. done. }
  assert (j = i2) as -> by congruence. unfold isUsable in Huj. bool_hyps.
  rewrite Hst in *. done.
Qed.

(** ** Resending *)

(** The digests, statuses and expiries of all invitations. *)
Definition credentials (d : DB) : gmap N (string * string * Z) :=
  (fun i => (Invitation_Status i, Invitation_TokenHash i, Invitation_ExpiresAt i)) <$> invitations d.
Definition same_credentials (d d' : DB) : Prop := credentials d = credentials d'.
#[local] Instance same_credentials_pre : PreOrder same_credentials.
Proof. split; [by intros ?|]. unfold same_credentials. intros ? ? ?; congruence. Qed.
Lemma MarkInvitationNotified_credentials id o : pres same_credentials (MarkInvitationNotified id o).
Proof.
  unfold MarkInvitationNotified. pres_step; [apply pres_attempt|pres_auto]. stmt_branches.
  match goal with Hp : put_invitation _ _ _ = Ok _ |- _ => apply put_invitation_Ok in Hp as (_ & -> & _) end.
  unfold same_credentials, credentials. simpl. rewrite fmap_insert. symmetry. apply insert_id.
  by rewrite lookup_fmap; simplify_option_eq.
Qed.
Lemma dispatchEmail_credentials i d o t : pres same_credentials (dispatchEmail i d o t).
Proof.
  assert (Hd : pres same_credentials (deliverInline i d o t)).
  { unfold deliverInline, sendInvitationEmail, markNotified. pres_auto. apply MarkInvitationNotified_credentials. }
  unfold dispatchEmail, enqueueEmail. destruct invite_queue as [q|]; [|done]. pres_step; [|by pres_auto].
  apply pres_attempt, reads_pres; [apply _|apply Enqueue_reads].
Qed.
Lemma update_invitation_Ok id o extra f w j w' : update_invitation id o extra f w = (Ok j, w') ->
  exists t i, invitations (w_db w) !! id = Some i /\ Invitation_OrganizationID i = o /\ extra i = true /\
    j = f t i /\ w_db w' = set_invitations (<[id := f t i]> (invitations (w_db w))) (w_db w) /\
    forall k x, invitations (w_db w) !! k = Some x -> Invitation_ID x <> Invitation_ID (f t i) ->
      Invitation_TokenHash x <> Invitation_TokenHash (f t i).
Proof.
  intros E. unfold update_invitation in E. stmt_ok E.
  match goal with Hp : put_invitation _ _ _ = Ok _ |- _ => apply put_invitation_Ok in Hp as (-> & -> & ?) end.
  eexists _, _. by split_and!.
Qed.

(** Resending replaces the link: after a successful [Resend] the invitation, which was
    pending, stores the digest of a new random token and a new expiry, and no invitation stores
    the digest of the old token any more, unless the two digests collide. *)
Theorem Resend_Ok u o id w dto w' : inv_wf (w_db w) -> Resend u o id w = (Ok dto, w') ->
  exists i token now,
    invitations (w_db w) !! id = Some i /\ Invitation_OrganizationID i = o /\ Invitation_Status i = "pending" /\
    credentials (w_db w') !! id = Some ("pending", hashToken token, (now + invite_ttl)%Z) /\
    (hashToken token <> Invitation_TokenHash i ->
     forall k st h e, credentials (w_db w') !! k = Some (st, h, e) -> h <> Invitation_TokenHash i) /\
    ID_Status dto = (if time_After now (now + invite_ttl) then "expired" else "pending") /\
    ID_ID dto = id.
Proof.
  intros [Hkey Huniq]. unfold Resend. intros (tn & w1 & _ & Hd1 & E)%gate_Ok.
  apply bind_Ok in E as (token & w2 & Et & E). unfold generateToken in Et.
  apply bind_Ok in Et as (buf & wr & [_ ->]%randRead_Ok & Et). apply ret_Ok in Et as [_ <-].
  apply bind_Ok in E as (now & w3 & [-> ->]%timeNow_Ok & E).
  apply bind_Ok in E as ([[inv roleName] org] & w5 & Etx%wrapf_Ok & E).
  apply WithTenantTx_Ok in Etx as (wa & wb & tx & Eb & Hda & _ & _ & Hdb & _). simpl in Hda.
  apply bind_Ok in E as ([] & w6 & Ed & E). apply ret_Ok in E as [<- <-].
  unfold resend_body in Eb. apply bind_Ok in Eb as (cur & w7 & (-> & Hcur & Hco)%get_for_update_Ok & Eb).
  apply bind_Ok in Eb as ([] & w8 & [Hst <-]%reject_if_Ok & Eb). bool_hyps.
  apply bind_Ok in Eb as (role & w9 & Er%map_err_Ok & Eb). query_ok Er.
  apply bind_Ok in Eb as (on & w10 & Eo & Eb). unfold orgName in Eo.
  apply bind_Ok in Eo as (og & w11 & Eo%wrapf_Ok & Eo'). query_ok Eo. apply ret_Ok in Eo' as [_ <-].
  apply bind_Ok in Eb as (iv & w12 & Erot%map_err_Ok & Eb). apply ret_Ok in Eb as [[= <- <- <-] ->].
  apply update_invitation_Ok in Erot as (t & i & Hi & Ho & _ & -> & Hdn & Hu). simpl in Hi, Hdn, Hcur.
  rewrite Hda, Hd1 in Hi, Hdn, Hcur. simpl in Hu. rewrite Hda, Hd1 in Hu.
  assert (cur = i) as -> by congruence. pose proof (Hkey _ _ Hi) as Hid.
  pose proof (pres_run _ _ _ _ _ (dispatchEmail_credentials _ _ _ _) Ed) as Hc. unfold same_credentials in Hc.
  assert (Hw6 : credentials (w_db w6) = <[id := ("pending", hashToken token, (env_now (w_tick (next_tick w1)) + invite_ttl)%Z)]>
    (credentials (w_db w))).
  { rewrite <- Hc, Hdb, Hdn. unfold credentials. simpl. rewrite fmap_insert. simpl. by rewrite Hst. }
  exists i, token, (env_now (w_tick (next_tick w1))). rewrite Hw6. split_and!; try done.
  - apply lookup_insert_eq.
  - intros Hne k st h e [[<- [= <- <- <-]]|[Hn Hk]]%lookup_insert_Some; [done|].
    unfold credentials in Hk. rewrite lookup_fmap in Hk. apply fmap_Some in Hk as (x & Hx & [= -> -> ->]).
    intros Heq. by destruct (Hn (Huniq _ _ _ _ Hi Hx (eq_sym Heq))).
  - unfold effectiveStatus. simpl. rewrite Hst. by destruct (time_After _ _).
Qed.
End acceptance_theorems.

(** ** Facts: expiry *)
Section expiry.
Context `{Authorizer} `{!AuthConfig} `{!Sender} `{!InviteConfig} (Hnf : forall n, env_fault n = false).

Lemma found_row c i k d h : inv_wf d -> invitations d !! k = Some i -> Invitation_TokenHash i = h ->
  rls_visible c (Invitation_OrganizationID i) = true -> find_row (by_token c h) (invitations d) = Some i.
Proof.
  intros [_ Hu] Hk Hh Hv. apply (find_row_unique _ _ k); [done| |].
  - unfold by_token. by rewrite Hv, Hh, beq_refl.
  - intros k' r' Hk' [_ Hr%beq_eq]%andb_true_iff. assert (k' = k) as -> by (eapply Hu; eauto; congruence). congruence.
Qed.
(** Expiring a row that is in the table meets every constraint. *)
Lemma put_expired i d t : inv_wf d -> invitations d !! Invitation_ID i = Some i -> invitation_checks i = None ->
  Invitation_Status i = "pending" -> accepted_by_known d i = true ->
  put_invitation (Invitation_ID i) (Invitation_expire t i) d =
    Ok (Invitation_expire t i, set_invitations (<[Invitation_ID i := Invitation_expire t i]> (invitations d)) d).
Proof.
  intros [Hkey Hu] Hi Hc Hp Hby. unfold put_invitation.
  assert (invitation_checks (Invitation_expire t i) = None) as ->.
  { revert Hc. unfold invitation_checks. simpl. rewrite Hp. simpl.
    destruct (negb (Z.ltb _ _)); [done|]. destruct (is_nil (Invitation_AcceptedAt i)); [|done]. simpl.
    by destruct (is_nil (Invitation_RevokedAt i)). }
  assert (token_conflict d (Invitation_expire t i) = false) as ->.
  { unfold token_conflict. apply exists_row_false. intros k x Hk. simpl.
    destruct (Invitation_TokenHash x =?= Invitation_TokenHash i) eqn:E; [|done]. apply beq_eq in E. simpl.
    rewrite (Hkey _ _ Hk), (Hu _ _ _ _ Hk Hi E). by rewrite beq_refl. }
  unfold require. simpl. change (accepted_by_known d (Invitation_expire t i)) with (accepted_by_known d i).
  by rewrite Hby.
Qed.
Lemma accept_body_expired token u inp h now w i :
  live (Invitation_OrganizationID i) w -> inv_wf (w_db w) ->
  invitations (w_db w) !! Invitation_ID i = Some i -> invitation_checks i = None ->
  Invitation_TokenHash i = hashToken token -> Invitation_Status i = "pending" ->
  (Invitation_ExpiresAt i < now)%Z -> accepted_by_known (w_db w) i = true ->
  exists t w', accept_body token u inp h now w = (Ok None, w') /\ live (Invitation_OrganizationID i) w' /\
    w_db w' = set_invitations (<[Invitation_ID i := Invitation_expire t i]> (invitations (w_db w))) (w_db w).
Proof.
  intros Hl Hwf Hi Hc Hh Hp Hlt Hby. unfold accept_body.
  assert (Hq : GetInvitationByTokenHashForUpdate (hashToken token) w = (Ok i, next_tick w)).
  { apply (query_live Hnf _ (Invitation_OrganizationID i)); [done| |done]. intros c Hcx.
    rewrite (found_row c i (Invitation_ID i)); [done..|]. by apply rls_self. }
  unfold bind at 1, map_err at 1. rewrite Hq. simpl.
  assert (isUsable i now = false) as ->.
  { unfold isUsable, time_After. rewrite Hp. simpl. by apply negb_false_iff, Z.ltb_lt. }
  simpl. rewrite Hp. simpl. apply live_next in Hl. destruct Hl as (t & Ht & Ho & Ha).
  exists (tx_now t), (set_db (set_invitations (<[Invitation_ID i := Invitation_expire (tx_now t) i]>
    (invitations (w_db w))) (w_db w)) (next_tick (next_tick w))).
  unfold bind, wrapf, map_err, MarkInvitationExpired, update_invitation, stmt. simpl. simpl in Ht. rewrite Ht, Ha, Hnf.
  simpl. unfold sel. rewrite Hi. rewrite in_org_live by done. rewrite beq_refl. simpl.
  unfold is_pending. rewrite Hp. simpl. rewrite put_expired by done. split_and!; [done| |done].
  by exists t.
Qed.

(** An expired invitation is refused and closed: when no statement fails, a signed-in
    caller presenting the token of a pending invitation past its expiry gets 410
    INVITATION_EXPIRED, and although the request fails, the committed table marks the invitation
    expired; nothing else of it changes. *)
Theorem Accept_expired u inp meta w i : w_tx w = None -> inv_wf (w_db w) ->
  u <> uuid_Nil -> TrimSpace (AI_Token inp) <> "" -> validateAccount inp = None ->
  invitations (w_db w) !! Invitation_ID i = Some i -> invitation_checks i = None ->
  Invitation_TokenHash i = hashToken (TrimSpace (AI_Token inp)) -> Invitation_Status i = "pending" ->
  (Invitation_ExpiresAt i < env_now (S (w_tick w)))%Z -> accepted_by_known (w_db w) i = true ->
  (exists e, (Accept u inp meta w).1 = Err e /\ status_of e = 410%Z /\ code_of e = "INVITATION_EXPIRED") /\
  exists t, w_db (Accept u inp meta w).2 =
    set_invitations (<[Invitation_ID i := Invitation_expire t i]> (invitations (w_db w))) (w_db w).
Proof.
  intros Hw Hwf Hu Htok Hv Hi Hc Hh Hp Hlt Hby.
  assert (Hq : found_by_token (TrimSpace (AI_Token inp)) w = (Ok i, next_tick w)).
  { unfold found_by_token, map_err, GetInvitationByTokenHash, query, stmt. rewrite Hw, Hnf.
    rewrite (found_row _ i (Invitation_ID i)) by (done || unfold rls_visible; simpl; by rewrite orb_true_r).
    by destruct w. }
  set (w2 := next_tick (next_tick w)).
  destruct (accept_body_expired (TrimSpace (AI_Token inp)) u inp "" (env_now (S (w_tick w)))
    (enter_tx (Invitation_OrganizationID i) w2) i) as (t & w3 & Hb & Hl & Hd); try done.
  { apply live_enter. }
  pose proof (WithTenantTx_run Hnf (Invitation_OrganizationID i) _ w2 _ _ Hw Hb Hl) as Htx. simpl in Htx.
  assert (Hrun : Accept u inp meta w = (Err (unusable i (env_now (S (w_tick w)))), set_tx None (next_tick w3))).
  { unfold Accept.
    unfold bind at 1, reject_if. destruct (TrimSpace (AI_Token inp) =?= "") eqn:Et; [by apply beq_eq in Et|]. simpl.
    unfold bind at 1, reject. rewrite Hv. simpl. unfold bind at 1, accept_password.
    destruct (u =?= uuid_Nil) eqn:Eu; [by apply beq_eq in Eu|]. simpl.
    unfold bind at 1. rewrite Hq. unfold bind at 1, timeNow. simpl. unfold bind at 1.
    fold w2. rewrite Htx. done. }
  rewrite Hrun. split; [|exists t; exact Hd]. eexists. split; [done|].
  unfold unusable, effectiveStatus, time_After. rewrite Hp. apply Z.ltb_lt in Hlt. rewrite Hlt. done.
Qed.
End expiry.

(** ** Facts: the contract of the member-facing operations *)
Section contract.
Context `{Authorizer} `{!AuthConfig} `{!Sender} `{!InviteConfig}.

(** Delivery reports nothing to the caller. *)
Lemma dispatchEmail_total i d o t w : exists w', dispatchEmail i d o t w = (Ok tt, w').
Proof.
  assert (Hd : forall w, exists w', deliverInline i d o t w = (Ok tt, w')).
  { intros v. unfold deliverInline, sendInvitationEmail, bind, attempt.
    destruct (Send _ v) as [[[]|e] v1]; simpl; destruct (markNotified _ _ v1); eauto. }
  unfold dispatchEmail. destruct invite_queue; [|apply Hd]. unfold bind, attempt.
  destruct (enqueueEmail i t w) as [[]]; [eexists; done|apply Hd].
Qed.
Lemma keeps_dispatch {A} (m : M (Invitation * string * string)) (f : Invitation -> string -> A) now token :
  keeps_on_error m -> keeps_on_error (
    r <- m ;;
    let '(inv, roleName, org) := r in
    dispatchEmail inv (toDTO inv roleName now) org token ;;; ret (f inv roleName)).
Proof.
  intros Hm w e w'. unfold bind at 1. destruct (m w) as [[[[inv rn] org]|e0] w1] eqn:E.
  - destruct (dispatchEmail_total inv (toDTO inv rn now) org token w1) as [w2 Hdisp].
    rewrite (bind_run _ _ _ _ _ Hdisp). done.
  - intros [= <- <-]. by eapply Hm.
Qed.

Lemma dispatchEmail_out o i d on t : Invitation_OrganizationID i = o ->
  pres (same_outside o) (dispatchEmail i d on t).
Proof.
  intros Ho. assert (Hd : pres (same_outside o) (deliverInline i d on t)).
  { unfold deliverInline, sendInvitationEmail, markNotified. rewrite Ho. pres_auto. }
  unfold dispatchEmail, enqueueEmail. destruct invite_queue as [q|]; [|done]. pres_step; [|by pres_auto].
  apply pres_attempt, reads_pres; [apply _|apply Enqueue_reads].
Qed.
(** A transaction that returns an invitation of the organization, then its delivery. *)
Lemma out_dispatch {A} o (m : M (Invitation * string * string)) (f : Invitation -> string -> A) now token :
  pres (same_outside o) m ->
  (forall w r w', m w = (Ok r, w') -> Invitation_OrganizationID r.1.1 = o) ->
  pres (same_outside o) (
    r <- m ;;
    let '(inv, roleName, org) := r in
    dispatchEmail inv (toDTO inv roleName now) org token ;;; ret (f inv roleName)).
Proof.
  intros Hm Ho. apply pres_bind_Ok; [apply _|done|]. intros w [[inv rn] org] w1 E. apply Ho in E. simpl in E.
  match goal with |- context [bind ?d ?k] => assert (Hd : pres (same_outside o) (bind d k)) end; [|apply Hd].
  pres_step; [by apply dispatchEmail_out|pres_auto].
Qed.

Lemma create_body_org tn u o inp em tk ex w r w' : create_body tn u o inp em tk ex w = (Ok r, w') ->
  Invitation_OrganizationID r.1.1 = o.
Proof.
  unfold create_body. intros E. apply bind_Ok in E as (? & ? & _ & E). apply bind_Ok in E as (role & ? & _ & E).
  apply bind_Ok in E as (? & ? & _ & E). apply bind_Ok in E as (on & ? & _ & E).
  apply bind_Ok in E as (inv & w1 & Ec%map_err_Ok & E). apply bind_Ok in E as (? & ? & _ & E).
  apply ret_Ok in E as [<- _]. stmt_ok Ec.
  match goal with Hp : put_invitation _ _ _ = Ok _ |- _ => by apply put_invitation_Ok in Hp as (-> & _ & _) end.
Qed.
Lemma resend_body_org o id tk ex w r w' : resend_body o id tk ex w = (Ok r, w') ->
  Invitation_OrganizationID r.1.1 = o.
Proof.
  unfold resend_body. intros E. apply bind_Ok in E as (cur & ? & _ & E). apply bind_Ok in E as (? & ? & _ & E).
  apply bind_Ok in E as (? & ? & _ & E). apply bind_Ok in E as (on & ? & _ & E).
  apply bind_Ok in E as (inv & w1 & Ec%map_err_Ok & E). apply ret_Ok in E as [<- _].
  by apply update_invitation_Ok in Ec as (t & i & _ & Ho & _ & -> & _).
Qed.
Lemma tx_org_Ok {A} o (fn : M A) (P : A -> Prop) p w a w' :
  (forall w a w', fn w = (Ok a, w') -> P a) -> wrapf p (WithTenantTx o fn) w = (Ok a, w') -> P a.
Proof. intros Hf E%wrapf_Ok. apply WithTenantTx_Ok in E as (wa & wb & t & E & _). eauto. Qed.

Lemma create_body_out tn u o inp em tk ex : pres (same_outside o) (create_body tn u o inp em tk ex).
Proof. unfold create_body, checkInvitee, get_role, orgName. pres_auto. Qed.
Lemma resend_body_out o id tk ex : pres (same_outside o) (resend_body o id tk ex).
Proof. unfold resend_body, get_for_update, get_role, orgName. pres_auto. Qed.
Lemma role_names_pres R `{!PreOrder R} o rows names : pres R (role_names o rows names).
Proof. revert names. induction rows as [|row rows IH]; intros names; simpl; pres_auto. Qed.

#[local] Hint Resolve reject_pres generateToken_pres : teamflow_frame.
Lemma invitation_Create_op u o inp : tenant_op u o MembersManage (Create u o inp).
Proof.
  apply tenant_op_gate; intros tn.
  - pres_step; [apply reject_pres, _|]. cbv zeta. pres_step; [apply generateToken_pres, _|]. pres_step; [pres_auto|].
    apply (out_dispatch o _ (fun inv rn => toDTO inv rn _)).
    + pres_step. pres_step. apply create_body_out.
    + intros w r w'. apply (tx_org_Ok _ _ (fun r => Invitation_OrganizationID r.1.1 = o)). intros ? ?; apply create_body_org.
  - apply keeps_bind_reads; [apply reject_pres, _|intros _]. apply keeps_bind_reads; [apply generateToken_pres, _|intros tk].
    apply keeps_bind_reads; [unfold reads; pres_auto|intros now].
    apply (keeps_dispatch _ (fun inv rn => toDTO inv rn now)), keeps_map_err, keeps_tenant_tx, create_body_out.
Qed.
Lemma invitation_Resend_op u o id : tenant_op u o MembersManage (Resend u o id).
Proof.
  apply tenant_op_gate; intros tn.
  - pres_step; [apply generateToken_pres, _|]. pres_step; [pres_auto|].
    apply (out_dispatch o _ (fun inv rn => toDTO inv rn _)).
    + pres_step. pres_step. apply resend_body_out.
    + intros w r w'. apply (tx_org_Ok _ _ (fun r => Invitation_OrganizationID r.1.1 = o)). intros ? ?; apply resend_body_org.
  - apply keeps_bind_reads; [apply generateToken_pres, _|intros tk]. apply keeps_bind_reads; [unfold reads; pres_auto|intros now].
    apply (keeps_dispatch _ (fun inv rn => toDTO inv rn now)), keeps_map_err, keeps_tenant_tx, resend_body_out.
Qed.
Lemma invitation_Revoke_op u o id : tenant_op u o MembersManage (Revoke u o id).
Proof. unfold Revoke, revoke_body, get_for_update. tenant_op_auto. Qed.
Lemma invitation_List_op u o filter page : tenant_op u o MembersManage (List_ u o filter page).
Proof.
  pose proof role_names_pres. apply tenant_op_gate; intros tn; [|apply reads_keeps; unfold reads]; unfold list_body; pres_auto.
Qed.

(** The member-facing invitation operations keep the contract of a tenant operation: only a
    caller with members.manage in the organization gets anything done, other organizations'
    data is out of reach, and an operation that fails has changed nothing (sending the email
    comes after the commit and cannot fail the request). *)
Theorem invitation_ops u o id inp filter page :
  tenant_op u o MembersManage (Create u o inp) /\
  tenant_op u o MembersManage (Resend u o id) /\
  tenant_op u o MembersManage (Revoke u o id) /\
  tenant_op u o MembersManage (List_ u o filter page).
Proof. split_and!; auto using invitation_Create_op, invitation_Resend_op, invitation_Revoke_op, invitation_List_op. Qed.
End contract.
#[export] Hint Resolve invitation_List_op invitation_Create_op invitation_Resend_op invitation_Revoke_op : teamflow_ops.

(** ** Concrete runs *)
Definition demo_invite : @InviteConfig demo :=
  {| invite_ttl := 72 * Hour; invite_baseURL := "https://x.io/"; invite_queue := None;
     format_RFC3339 _ := "t"; unmarshal_email _ := None; unmarshal_redeliver _ := None |}.
Definition demo_invitation (id : N) (email raw : string) (expires : Z) : Invitation :=
  {| Invitation_ID := id; Invitation_OrganizationID := 1; Invitation_Email := email; Invitation_RoleID := 11;
     Invitation_Status := "pending"; Invitation_TokenHash := @hashToken demo raw; Invitation_InvitedBy := 1;
     Invitation_ExpiresAt := expires; Invitation_AcceptedAt := None; Invitation_AcceptedBy := None;
     Invitation_RevokedAt := None; Invitation_CreatedAt := 0; Invitation_UpdatedAt := 0;
     Invitation_NotifiedAt := None; Invitation_DeliveryAttempts := 0 |}.
(** User 4 is invited to organization 1; another invitation has expired. *)
Definition demo_invited : World := demo_world (set_invitations
  {[80%N := demo_invitation 80 "dee@y.io" "tok" 9000000; 81%N := demo_invitation 81 "eve@y.io" "old" 5]} demo_DB).
Lemma demo_invited_wf : inv_wf (w_db demo_invited).
Proof.
  assert (Hall : forall k i, invitations (w_db demo_invited) !! k = Some i ->
    k = 80%N /\ i = demo_invitation 80 "dee@y.io" "tok" 9000000 \/ k = 81%N /\ i = demo_invitation 81 "eve@y.io" "old" 5).
  { intros k i. simpl. intros [[<- <-]|[_ [<- <-]%lookup_singleton_Some]]%lookup_insert_Some; auto. }
  split.
  - intros k i [[-> ->]|[-> ->]]%Hall; done.
  - intros k1 k2 i1 i2 [[-> ->]|[-> ->]]%Hall [[-> ->]|[-> ->]]%Hall; vm_compute; congruence.
Qed.
Definition demo_accept (raw : string) : AcceptInput :=
  {| AI_Token := raw; AI_Password := ""; AI_FirstName := ""; AI_LastName := "" |}.
Abbreviation demo_Accept u raw := (@Accept demo demo_auth u (demo_accept raw) demo_meta).

Lemma Accept_Ok_witness : exists res w', demo_Accept 4 "tok" demo_invited = (Ok res, w') /\
  exists k i, invitations (w_db demo_invited) !! k = Some i /\ Invitation_Status i = "pending".
Proof.
  destruct (demo_Accept 4 "tok" demo_invited) as [r w'] eqn:E.
  assert (Hr : exists res, r = Ok res).
  { apply (f_equal fst) in E. vm_compute in E. subst r. eexists. reflexivity. }
  destruct Hr as [res ->].
  destruct (@Accept_Ok demo demo_auth 4 _ _ _ res w' demo_invited_wf E) as (k & i & _ & _ & Hk & _ & Hp & _).
  exists res, w'. split; [reflexivity|]. exists k, i. split; [exact Hk|exact Hp].
Defined.
Lemma accept_once_witness : exists e,
  (demo_Accept 4 "tok" (demo_Accept 4 "tok" demo_invited).2).1 = Err e.
Proof.
  destruct (demo_Accept 4 "tok" demo_invited) as [r w'] eqn:E.
  assert (Hr : exists res, r = Ok res).
  { apply (f_equal fst) in E. vm_compute in E. subst r. eexists. reflexivity. }
  destruct Hr as [res ->].
  apply (@accept_once demo (@organizations_Authorizer demo) demo_auth (@LogSender demo) demo_invite 4 _ demo_meta demo_invited res w' w'
           4 (demo_accept "tok") demo_meta demo_invited_wf E); [apply rtc_refl|reflexivity].
Defined.
Lemma Accept_expired_witness :
  exists e, (demo_Accept 4 "old" demo_invited).1 = Err e /\ code_of e = "INVITATION_EXPIRED".
Proof.
  destruct (@Accept_expired demo demo_auth (fun _ => eq_refl) 4 (demo_accept "old") demo_meta demo_invited
    (demo_invitation 81 "eve@y.io" "old" 5)) as [(e & He & _ & Hc) _];
    [reflexivity|exact demo_invited_wf|discriminate|vm_compute; discriminate|reflexivity..|].
  exists e. split; [exact He|exact Hc].
Defined.
Lemma Resend_Ok_witness : exists dto w',
  @Resend demo (@organizations_Authorizer demo) (@LogSender demo) demo_invite 1 1 80 demo_invited = (Ok dto, w') /\
  ID_ID dto = 80%N.
Proof.
  destruct (@Resend demo (@organizations_Authorizer demo) (@LogSender demo) demo_invite 1 1 80 demo_invited) as [r w'] eqn:E.
  assert (Hr : exists res, r = Ok res).
  { apply (f_equal fst) in E. vm_compute in E. subst r. eexists. reflexivity. }
  destruct Hr as [dto ->].
  destruct (@Resend_Ok demo (@organizations_Authorizer demo) (@LogSender demo) demo_invite 1 1 80 _ dto w' demo_invited_wf E)
    as (i & tk & now & _ & _ & _ & _ & _ & _ & Hid).
  exists dto, w'. split; [reflexivity|exact Hid].
Defined.

(** An invitation that was never handed to the queue, old enough for the sweep. *)
Definition demo_undelivered : World :=
  let i := demo_invitation 82 "eve@y.io" "lost" 9000000 in
  demo_world (set_invitations {[82%N :=
    {| Invitation_ID := 82; Invitation_OrganizationID := 1; Invitation_Email := "eve@y.io"; Invitation_RoleID := 11;
       Invitation_Status := "pending"; Invitation_TokenHash := Invitation_TokenHash i; Invitation_InvitedBy := 1;
       Invitation_ExpiresAt := 9000000; Invitation_AcceptedAt := None; Invitation_AcceptedBy := None;
       Invitation_RevokedAt := None; Invitation_CreatedAt := -10 * Hour; Invitation_UpdatedAt := 0;
       Invitation_NotifiedAt := None; Invitation_DeliveryAttempts := 0 |}]} demo_DB).
