(* ===== verification/ApiKeys.v ===== *)
(** * API keys

    Models [internal/apikeys/model.go], [service.go] and [job.go], against the authorization
    interface. *)
From S2P Require Import Prelude.
From S2P Require Import GoError.
From S2P Require Import Schema.
From S2P Require Import Store.
From S2P Require Import Logic.
From S2P Require Import GoStrings.
From S2P Require Import Sql.
From S2P Require Import QueriesOrg.
From S2P Require Import QueriesAuth.
From S2P Require Import QueriesInv.
From S2P Require Import Permissions.
From S2P Require Import Pagination.
From S2P Require Import Tenancy.
From S2P Require Import AuditTrail.
From S2P Require Import Authz.
From S2P Require Import Validation.
From S2P Require Import Organizations.
From S2P Require Import Demo.
Local Open Scope string_scope.

Definition keyPrefixMarker := "tfk_".
Definition keySecretBytes : nat := 32.
Definition prefixLength : nat := 12.
Definition lastFourChars : nat := 4.
Definition StatusActive := "active".
Definition StatusExpired := "expired".
Definition StatusRevoked := "revoked".
Definition sortableFields : list string := ["created_at"; "expires_at"; "last_used_at"].
Definition defaultSort := "created_at".
Definition oneTimeWarning := "This key is shown once. Store it now; it cannot be retrieved again.".
Definition expiryGracePeriod : Z := 30 * 24 * Hour.
Definition expirySweepBatchSize : Z := 200.

Record CreateInput := { CI_Name : string; CI_ExpiresInDays : Z }.
Record ListFilter := { LF_IncludeRevoked : bool; LF_Sort : string; LF_Desc : bool }.
(** No secret and no digest. *)
Record APIKeyDTO := {
  KD_ID : N; KD_OrganizationID : N; KD_CreatedBy : N; KD_Name : string; KD_KeyPrefix : string;
  KD_KeyLastFour : string; KD_Status : string; KD_ExpiresAt : Z; KD_RevokedAt : option Z;
  KD_LastUsedAt : option Z; KD_CreatedAt : Z
}.
Record CreatedResult := { CR_APIKey : APIKeyDTO; CR_Key : string; CR_Warning : string }.

(** The lifetimes of [NewService]; the sweep's JSON payload; the number of days in the error
    text, which the code computes in floating point. *)
Class ApiKeyConfig := {
  defaultTTL : Z; maxTTL : Z;
  format_days : Z -> string;
  unmarshal_sweep : string -> option N
}.

(** ** Keys *)
Definition slice (s : string) (lo hi : nat) : string := String.substring lo (hi - lo) s.
Definition isBase64URL (s : string) : bool :=
  forallb (fun r => (between 65 90 r || between 97 122 r || between 48 57 r || (r =? 45)%N || (r =? 95)%N)%bool)
    (runes s).
Definition validKeyFormat (raw : string) : bool :=
  (Z.eqb (len raw) (len keyPrefixMarker + 43) && HasPrefix raw keyPrefixMarker &&
   isBase64URL (slice raw 4 (String.length raw)))%bool.
Definition status (key : ApiKey) (now : Z) : string :=
  if negb (is_nil (ApiKey_RevokedAt key)) then StatusRevoked
  else if time_After now (ApiKey_ExpiresAt key) then StatusExpired else StatusActive.
Definition toDTO (key : ApiKey) (now : Z) : APIKeyDTO :=
  {| KD_ID := ApiKey_ID key; KD_OrganizationID := ApiKey_OrganizationID key; KD_CreatedBy := ApiKey_CreatedBy key;
     KD_Name := ApiKey_Name key; KD_KeyPrefix := ApiKey_KeyPrefix key; KD_KeyLastFour := ApiKey_KeyLastFour key;
     KD_Status := status key now; KD_ExpiresAt := ApiKey_ExpiresAt key; KD_RevokedAt := ApiKey_RevokedAt key;
     KD_LastUsedAt := ApiKey_LastUsedAt key; KD_CreatedAt := ApiKey_CreatedAt key |}.
Definition CreateInput_validate (inp : CreateInput) : option error :=
  ErrOf (Check_ (Z.leb 0 (CI_ExpiresInDays inp)) "expires_in_days" "must not be negative"
    (MaxLen "name" (CI_Name inp) 100 (Required "name" (CI_Name inp) New))).

(** ** Errors *)
Definition keyNotFound (cause : option error) : error :=
  NewAPIError 404 "API_KEY_NOT_FOUND" "API key not found" cause.
Definition invalidKey (cause : option error) : error :=
  NewAPIError 401 "INVALID_API_KEY" "Invalid or expired API key" cause.
Definition mapWriteError (e : error) : error :=
  match asPgError e with
  | Some (code, name) =>
      if ((code =?= "23503") && (name =?= "api_keys_creator_organization_fkey"))%bool then
        NewAPIError 409 "NOT_A_MEMBER" "Your membership in this organization is no longer active" (Some e)
      else e
  | None => e
  end.
Definition no_rows (f : error -> error) (e : error) : error := if isNoRows e then f e else e.
Definition reject (e : option error) : M unit := match e with Some e => fail e | None => ret tt end.

Section keys.
Context `{Env}.
Definition generateKey : M (string * string * string) :=
  buf <- randRead keySecretBytes "generate api key" ;;
  let raw := keyPrefixMarker +:+ RawURLEncoding buf in
  ret (raw, slice raw 0 prefixLength, slice raw (String.length raw - lastFourChars) (String.length raw)).
Definition hashKey (raw : string) : string := hex_EncodeToString (sha256_Sum256 raw).
End keys.

Section service.
Context `{Authorizer} `{!ApiKeyConfig}.

(** [time.Duration(in.ExpiresInDays) * 24 * time.Hour]: two 64-bit multiplications. *)
Definition days_ttl (days : Z) : Z := wrap64 (wrap64 (days * 24) * Hour).
Definition key_ttl (inp : CreateInput) : result Z :=
  if Z.ltb 0 (CI_ExpiresInDays inp) then
    let ttl := days_ttl (CI_ExpiresInDays inp) in
    if Z.ltb maxTTL ttl
    then Err (NewValidationError [("expires_in_days", "must not exceed " +:+ format_days maxTTL +:+ " days")])
    else Ok ttl
  else Ok defaultTTL.
Definition create_body (userID orgID : N) (inp : CreateInput) (raw prefix lastFour : string) (expiresAt : Z)
    : M ApiKey :=
  key <- map_err mapWriteError
    (CreateAPIKey orgID userID (TrimSpace (CI_Name inp)) prefix lastFour (hashKey raw) expiresAt) ;;
  RecordTx (WithMetadata [("key_prefix", JStr prefix); ("name", JStr (ApiKey_Name key))]
    (new_event APIKeyCreated "" TargetAPIKey (uuid_String (ApiKey_ID key)) (Some orgID) (Some userID))) ;;;
  ret key.
Definition Create (userID orgID : N) (inp : CreateInput) : M CreatedResult :=
  _ <- Authorize userID orgID APIKeysManage ;;
  reject (CreateInput_validate inp) ;;;
  ttl <- ret_result (key_ttl inp) ;;
  rpl <- generateKey ;;
  now <- timeNow ;;
  let '(raw, prefix, lastFour) := rpl in
  key <- wrapf "create api key"
    (WithTenantTx orgID (create_body userID orgID inp raw prefix lastFour (now + ttl)%Z)) ;;
  ret {| CR_APIKey := toDTO key now; CR_Key := raw; CR_Warning := oneTimeWarning |}.

Definition list_body (orgID : N) (filter : ListFilter) (sortBy : string) (page : PageRequest) : M (Z * list ApiKey) :=
  total <- CountAPIKeys orgID (LF_IncludeRevoked filter) ;;
  rows <- ListAPIKeys orgID (LF_IncludeRevoked filter) sortBy (LF_Desc filter) (Limit page) (Offset page) ;;
  ret (total, rows).
Definition List_ (userID orgID : N) (filter : ListFilter) (page : PageRequest) : M (list APIKeyDTO * Pagination) :=
  _ <- Authorize userID orgID APIKeysManage ;;
  let sortBy := if is_one_of (LF_Sort filter) sortableFields then LF_Sort filter else defaultSort in
  tr <- wrapf "list api keys" (WithTenantTx orgID (list_body orgID filter sortBy page)) ;;
  now <- timeNow ;;
  ret (map (fun row => toDTO row now) tr.2, NewPagination page tr.1).

Definition revoke_body (userID orgID keyID : N) : M unit :=
  current <- map_err (no_rows (fun e => keyNotFound (Some e))) (GetAPIKeyByIDForUpdate keyID orgID) ;;
  reject_if (negb (is_nil (ApiKey_RevokedAt current))) (keyNotFound None) ;;;
  now <- timeNow ;;
  RevokeAPIKey keyID orgID (Some now) ;;;
  RecordTx (WithMetadata [("key_prefix", JStr (ApiKey_KeyPrefix current)); ("name", JStr (ApiKey_Name current))]
    (new_event APIKeyRevoked "" TargetAPIKey (uuid_String keyID) (Some orgID) (Some userID))).
Definition Revoke (userID orgID keyID : N) : M unit :=
  _ <- Authorize userID orgID APIKeysManage ;;
  WithTenantTx orgID (revoke_body userID orgID keyID).

Definition key_owner (key : ApiKey) : M User :=
  user <- map_err (no_rows (fun e => invalidKey (Some e))) (GetUserByID (ApiKey_CreatedBy key)) ;;
  reject_if (negb (User_Status user =?= "active")) (invalidKey None) ;;;
  ret user.
Definition Authenticate (raw : string) : M Principal :=
  reject_if (negb (validKeyFormat raw)) (invalidKey None) ;;;
  key <- map_err (fun e => if isNoRows e then invalidKey (Some e) else Errorf "get api key" e)
           (GetAPIKeyByHash (hashKey raw)) ;;
  now <- timeNow ;;
  reject_if (negb (status key now =?= StatusActive)) (invalidKey None) ;;;
  user <- WithTenantTx (ApiKey_OrganizationID key) (key_owner key) ;;
  attempt (TouchAPIKey (ApiKey_ID key)) ;;;
  ret {| Principal_UserID := User_ID user; Principal_TokenID := uuid_Nil; Principal_Method := MethodAPIKey;
         Principal_APIKeyID := ApiKey_ID key; Principal_OrganizationID := ApiKey_OrganizationID key |}.

(** ** The expiry sweep *)
Definition sweep_body (orgID : N) : M unit :=
  now <- timeNow ;;
  rows <- ListExpiredAPIKeys orgID (now - expiryGracePeriod) expirySweepBatchSize ;;
  for_each rows (fun row => RevokeAPIKeyByID (ApiKey_ID row) orgID).
Definition revokeExpired (orgID : N) : M unit :=
  wrapf "revoke expired api keys" (WithTenantTx orgID (sweep_body orgID)).
Definition ExpireSweepJobHandler (job_Payload : string) : M unit :=
  if job_Payload =?= "" then ForEachActiveOrganization uuid_Nil revokeExpired else
  match unmarshal_sweep job_Payload with
  | None => fail (PermanentError (ErrorsNew "decode api_keys.expire_sweep payload"))
  | Some only => ForEachActiveOrganization only revokeExpired
  end.
End service.

(** ** Facts *)

Section contract.
Context `{Authorizer} `{!ApiKeyConfig} (u o : N).
Lemma apikey_reject_pres R `{!PreOrder R} e : pres R (reject e).
Proof. destruct e; unfold reject; pres_auto. Qed.
Lemma generateKey_pres R `{!PreOrder R} : pres R generateKey.
Proof. unfold generateKey. pres_auto. Qed.
Lemma key_create_body_out inp raw p l e : pres (same_outside o) (create_body u o inp raw p l e).
Proof. unfold create_body. pres_auto. Qed.
#[local] Hint Resolve apikey_reject_pres generateKey_pres key_create_body_out : teamflow_frame.
Lemma apikey_Create_op inp : tenant_op u o APIKeysManage (Create u o inp).
Proof.
  unfold Create. apply tenant_op_gate; intros tn; [pres_auto|].
  do 2 (apply keeps_bind_reads; [unfold reads; pres_auto|intros ?]).
  apply keeps_bind_reads; [apply generateKey_pres, _|intros [[raw p] l]].
  apply keeps_bind_reads; [unfold reads; pres_auto|intros now].
  apply keeps_bind_ret, keeps_map_err, keeps_tenant_tx, key_create_body_out.
Qed.
Lemma apikey_List_op filter page : tenant_op u o APIKeysManage (List_ u o filter page).
Proof. apply tenant_op_gate; intros tn; [|apply reads_keeps; unfold reads]; unfold list_body; pres_auto. Qed.
Lemma apikey_Revoke_op k : tenant_op u o APIKeysManage (Revoke u o k).
Proof. unfold Revoke, revoke_body. tenant_op_auto. Qed.
End contract.
#[export] Hint Resolve apikey_List_op apikey_Create_op apikey_Revoke_op : teamflow_ops.

(** The key operations keep the contract of a tenant operation. *)
Theorem apikey_ops `{Authorizer} `{!ApiKeyConfig} u o k inp filter page :
  tenant_op u o APIKeysManage (Create u o inp) /\
  tenant_op u o APIKeysManage (List_ u o filter page) /\
  tenant_op u o APIKeysManage (Revoke u o k).
Proof. split_and!; auto with teamflow_ops. Qed.

Section facts.
Context `{Env}.
Lemma runes_ascii s : Forall (fun b => (b < 128)%N) (bytes s) -> runes s = bytes s.
Proof.
  unfold runes. generalize (bytes s) as l. induction l as [|b l IH]; intros Hl; [done|].
  inversion Hl as [|? ? Hb Hl']; subst. apply N.ltb_lt in Hb. simpl. unfold decode_rune. rewrite Hb, IH by done. done.
Qed.
Lemma substring_suffix s t : String.substring (String.length s) (String.length t) (s +:+ t) = t.
Proof.
  induction s as [|c s IH]; simpl; [|done]. change ("" +:+ t) with t.
  induction t as [|c t IH]; simpl; [done|]. by rewrite IH.
Qed.
Lemma length_append s t : String.length (s +:+ t) = (String.length s + String.length t)%nat.
Proof.
  induction s as [|c s IH]; [done|]. change (String c s +:+ t) with (String c (s +:+ t)). simpl. by rewrite IH.
Qed.

(** Every generated key passes the format check of [Authenticate]: with an entropy source
    that returns the bytes asked for, [generateKey] returns a key that [validKeyFormat] accepts,
    with its first 12 and last 4 characters. *)
Theorem generateKey_valid w raw prefix lastFour w' : rand_ok ->
  generateKey w = (Ok (raw, prefix, lastFour), w') ->
  validKeyFormat raw = true /\ String.length raw = 47%nat /\
  prefix = String.substring 0 12 raw /\ lastFour = String.substring 43 4 raw.
Proof.
  intros Hr E. unfold generateKey in E. apply bind_Ok in E as (buf & w1 & [Hb _]%randRead_Ok & E).
  apply ret_Ok in E as [[= <- <- <-] _]. apply Hr in Hb as [Hlen Hbytes].
  set (b := RawURLEncoding buf).
  assert (Hl : String.length b = 43%nat).
  { unfold b, RawURLEncoding. rewrite length_of_bytes. by apply length_base64url_32. }
  assert (Hbb : bytes b = base64url buf /\ Forall (fun x => base64url_alphabet x = true) (base64url buf)).
  { pose proof (base64url_alphabet_ok _ Hbytes) as Ha. split; [|done]. apply bytes_of_bytes.
    eapply Forall_impl; [|exact Ha]. intros x Hx. unfold base64url_alphabet, between in Hx. repeat (rewrite ?orb_true_iff, ?andb_true_iff, ?N.leb_le, ?N.eqb_eq in Hx). lia. }
  destruct Hbb as [Hbb Halpha].
  assert (Hlen2 : String.length (keyPrefixMarker +:+ b) = 47%nat) by (rewrite length_append, Hl; done).
  split_and!; [|done| |].
  - unfold validKeyFormat, len. rewrite Hlen2. simpl.
    assert (slice (keyPrefixMarker +:+ b) 4 47 = b) as ->.
    { unfold slice. pose proof (substring_suffix keyPrefixMarker b) as Hs. rewrite Hl in Hs. exact Hs. }
    unfold isBase64URL. rewrite runes_ascii; rewrite Hbb.
    + apply forallb_forall. intros x Hx. rewrite List.Forall_forall in Halpha. exact (Halpha x Hx).
    + eapply Forall_impl; [|exact Halpha]. intros x Hx. unfold base64url_alphabet, between in Hx.
      repeat (rewrite ?orb_true_iff, ?andb_true_iff, ?N.leb_le, ?N.eqb_eq in Hx). lia.
  - done.
  - unfold slice. change (String.length ("" +:+ b)) with (String.length b). by rewrite Hl.
Qed.

(** ** Lifetimes *)

(** No overflow below 106752 days, about 292 years. *)
Lemma days_ttl_exact days : (0 <= days <= 106751)%Z -> days_ttl days = (days * (24 * Hour))%Z.
Proof.
  intros Hd. unfold days_ttl, Hour, Minute, Second. rewrite (wrap64_id (days * 24)) by lia.
  rewrite wrap64_id by lia. lia.
Qed.

Section ttl.
Context `{!ApiKeyConfig}.

(** The lifetime of a key: an accepted request gets the default lifetime when it names no
    number of days, and otherwise a lifetime of at most the configured maximum, which is exactly
    that many days as long as the number is at most 106751. *)
Theorem key_ttl_bound inp ttl : key_ttl inp = Ok ttl ->
  ((CI_ExpiresInDays inp <= 0)%Z /\ ttl = defaultTTL) \/
  ((0 < CI_ExpiresInDays inp)%Z /\ (ttl <= maxTTL)%Z /\
   ((CI_ExpiresInDays inp <= 106751)%Z -> ttl = (CI_ExpiresInDays inp * (24 * Hour))%Z)).
Proof.
  unfold key_ttl. destruct (Z.ltb_spec 0 (CI_ExpiresInDays inp)) as [Hd|Hd]; [|intros [= <-]; auto].
  destruct (Z.ltb_spec maxTTL (days_ttl (CI_ExpiresInDays inp))) as [Hm|Hm]; [done|]. intros [= <-].
  right. split_and!; [done|done|]. intros Hb. apply days_ttl_exact. lia.
Qed.
End ttl.

(** The maximum is not enforced for large numbers of days: the 64-bit product wraps, so that
    a request for 213504 days (more than 584 years), far over a maximum of 365 days, is accepted
    and gives a key that lives less than half an hour. *)
Theorem key_ttl_overflow cfg name : @maxTTL cfg = (365 * 24 * Hour)%Z ->
  exists ttl, @key_ttl cfg {| CI_Name := name; CI_ExpiresInDays := 213504 |} = Ok ttl /\
    (0 < ttl < 30 * Minute)%Z.
Proof.
  intros Hm. unfold key_ttl. cbn [CI_ExpiresInDays]. rewrite Hm. eexists. split; [vm_compute; reflexivity|].
  vm_compute. by split.
Qed.
End facts.

(** ** Facts: authentication *)
Section authentication.
Context `{Env}.

(** Whom an API key authenticates: a successful [Authenticate] presented a well-formed key
    whose digest is on file for a key that is neither revoked nor expired; the principal is that
    key's creator, an active user, pinned to that key's organization. *)
Theorem Authenticate_Ok raw w p w' : Authenticate raw w = (Ok p, w') ->
  exists k key user,
    validKeyFormat raw = true /\ api_keys (w_db w) !! k = Some key /\ ApiKey_KeyHash key = hashKey raw /\
    ApiKey_RevokedAt key = None /\ (env_now (S (w_tick w)) <= ApiKey_ExpiresAt key)%Z /\
    users (w_db w) !! ApiKey_CreatedBy key = Some user /\ User_Status user = "active" /\
    p = {| Principal_UserID := User_ID user; Principal_TokenID := uuid_Nil; Principal_Method := MethodAPIKey;
           Principal_APIKeyID := ApiKey_ID key; Principal_OrganizationID := ApiKey_OrganizationID key |}.
Proof.
  unfold Authenticate. intros E. apply bind_Ok in E as ([] & w1 & [Hv <-]%reject_if_Ok & E).
  apply bind_Ok in E as (key & w2 & Eg%map_err_Ok & E). query_ok Eg.
  apply find_row_Some in Hb as [[_ Hh%beq_eq]%andb_true_iff [k Hk]].
  apply bind_Ok in E as (now & w3 & [-> ->]%timeNow_Ok & E).
  apply bind_Ok in E as ([] & w4 & [Hs <-]%reject_if_Ok & E). bool_hyps.
  apply bind_Ok in E as (user & w5 & Etx & E). apply bind_Ok in E as (r & w6 & _ & E). apply ret_Ok in E as [<- _].
  apply WithTenantTx_Ok in Etx as (wa & wb & t & Ek & Hda & _). simpl in Hda.
  unfold key_owner in Ek. apply bind_Ok in Ek as (u & w7 & Eu%map_err_Ok & Ek). query_ok Eu.
  apply bind_Ok in Ek as ([] & w8 & [Ha <-]%reject_if_Ok & Ek). apply ret_Ok in Ek as [<- _]. bool_hyps.
  exists k, key, u. unfold status, time_After in Hs. rewrite Hda in *.
  destruct (ApiKey_RevokedAt key); [done|]. simpl in Hs.
  destruct (Z.ltb_spec (ApiKey_ExpiresAt key) (env_now (S (w_tick w)))); [done|]. by split_and!.
Qed.

(** ** The life of a key *)
Definition keys_wf (d : DB) : Prop :=
  (forall k r, api_keys d !! k = Some r -> ApiKey_ID r = k) /\
  (forall k1 k2 r1 r2, api_keys d !! k1 = Some r1 -> api_keys d !! k2 = Some r2 ->
     ApiKey_KeyHash r1 = ApiKey_KeyHash r2 -> k1 = k2).
(** A key keeps its digest, owner, organization and expiry, and stays revoked. *)
Definition key_later (r r' : ApiKey) : Prop :=
  ApiKey_ID r' = ApiKey_ID r /\ ApiKey_KeyHash r' = ApiKey_KeyHash r /\
  ApiKey_OrganizationID r' = ApiKey_OrganizationID r /\ ApiKey_CreatedBy r' = ApiKey_CreatedBy r /\
  ApiKey_ExpiresAt r' = ApiKey_ExpiresAt r /\ (ApiKey_RevokedAt r <> None -> ApiKey_RevokedAt r' <> None).
Definition keys_evolve (d d' : DB) : Prop := keys_wf d ->
  keys_wf d' /\ forall k r, api_keys d !! k = Some r ->
    exists r', api_keys d' !! k = Some r' /\ key_later r r'.
#[export] Instance keys_evolve_pre : PreOrder keys_evolve.
Proof.
  split.
  - intros d Hwf. split; [done|]. intros k r Hk. exists r. split; [done|]. by split_and!.
  - intros d1 d2 d3 H12 H23 Hwf. destruct (H12 Hwf) as [Hwf2 H2]. destruct (H23 Hwf2) as [Hwf3 H3].
    split; [done|]. intros k r Hk. destruct (H2 _ _ Hk) as (r2 & Hk2 & (?&?&?&?&?&?)).
    destruct (H3 _ _ Hk2) as (r3 & Hk3 & (?&?&?&?&?&?)). exists r3. split; [done|].
    unfold key_later. split_and!; try congruence. eauto.
Qed.
Lemma put_key_evolves k r d : ApiKey_ID r = k ->
  (forall k' x, api_keys d !! k' = Some x -> k' <> k -> ApiKey_KeyHash x <> ApiKey_KeyHash r) ->
  match api_keys d !! k with Some old => key_later old r | None => True end ->
  keys_evolve d (set_api_keys (<[k := r]> (api_keys d)) d).
Proof.
  intros Hid Hh Hold [Hkey Hu]. split; [split|]; simpl.
  - intros k' x [[<- <-]|[_ Hx]]%lookup_insert_Some; eauto.
  - intros k1 k2 r1 r2 [[<- <-]|[Hn1 H1]]%lookup_insert_Some [[<- <-]|[Hn2 H2]]%lookup_insert_Some Heq;
      [done| | |by eauto].
    + exfalso. by apply (Hh _ _ H2).
    + exfalso. by apply (Hh _ _ H1).
  - intros k' x Hx. destruct (decide (k = k')) as [<-|Hn].
    + rewrite Hx in Hold. exists r. by rewrite lookup_insert_eq.
    + exists x. rewrite lookup_insert_ne by done. split; [done|]. by split_and!.
Qed.
(** Updating a row of the table that keeps its digest. *)
Lemma update_key_evolves k r r' d : api_keys d !! k = Some r -> key_later r r' ->
  keys_evolve d (set_api_keys (<[k := r']> (api_keys d)) d).
Proof.
  intros Hk Hl Hwf. pose proof Hwf as [Hkey Hu]. pose proof Hl as (Hid & Hh & _).
  apply (put_key_evolves k); [rewrite Hid; eauto| |by rewrite Hk|done].
  intros k' x Hx Hne Heq. apply Hne. eapply Hu; [done..|]. congruence.
Qed.
Lemma CreateAPIKey_evolves o b n p l h e : pres keys_evolve (CreateAPIKey o b n p l h e).
Proof.
  stmt_branches. apply put_key_evolves; [done| |].
  - intros k' x Hx _ Hh. match goal with Hd : negb (exists_row _ (api_keys _)) = true |- _ =>
      apply negb_true_iff in Hd; rewrite exists_row_false in Hd; specialize (Hd _ _ Hx) end.
    simpl in *. rewrite Hh, beq_refl in *. done.
  - match goal with Hk : api_keys _ !! _ = None |- _ => by rewrite Hk end.
Qed.
Lemma RevokeAPIKey_evolves id o a : is_nil a = false -> pres keys_evolve (RevokeAPIKey id o a).
Proof.
  intros Ha. stmt_branches. eapply update_key_evolves; [eassumption|].
  split_and!; try done. all: by destruct a.
Qed.
Lemma RevokeAPIKeyByID_evolves id o : pres keys_evolve (RevokeAPIKeyByID id o).
Proof. stmt_branches; [|reflexivity]. eapply update_key_evolves; [eassumption|]. by split_and!. Qed.
Lemma TouchAPIKey_evolves id : pres keys_evolve (TouchAPIKey id).
Proof. stmt_branches; [|reflexivity]. eapply update_key_evolves; [eassumption|]. by split_and!. Qed.
Definition same_keys (d d' : DB) : Prop := api_keys d = api_keys d'.
#[export] Instance same_keys_pre : PreOrder same_keys.
Proof. split; [by intros ?|]. unfold same_keys. intros ? ? ?; congruence. Qed.
Lemma same_keys_evolve {A} (m : M A) : pres same_keys m -> pres keys_evolve m.
Proof.
  apply pres_weaken. unfold keys_evolve, keys_wf. intros d d' <- ?. split; [done|].
  intros k r Hk. exists r. split; [done|]. by split_and!.
Qed.
Lemma RecordTx_keys e : pres keys_evolve (RecordTx e).
Proof. apply same_keys_evolve, RecordTx_pres; [apply _|]. intros. by stmt_branches. Qed.
End authentication.

Section key_life.
Context `{Authorizer} `{!ApiKeyConfig}.
#[local] Hint Resolve CreateAPIKey_evolves RevokeAPIKeyByID_evolves TouchAPIKey_evolves RecordTx_keys : teamflow_frame.

Lemma Create_keys u o inp : pres keys_evolve (Create u o inp).
Proof. unfold Create, create_body, reject, generateKey. pres_auto. Qed.
Lemma Revoke_keys u o k : pres keys_evolve (Revoke u o k).
Proof. unfold Revoke, revoke_body. pres_auto. by apply RevokeAPIKey_evolves. Qed.
Lemma Authenticate_evolves raw : pres keys_evolve (Authenticate raw).
Proof. unfold Authenticate, key_owner. pres_auto. Qed.
Lemma ExpireSweepJobHandler_evolves p : pres keys_evolve (ExpireSweepJobHandler p).
Proof. unfold ExpireSweepJobHandler, ForEachActiveOrganization, revokeExpired, sweep_body. pres_auto. Qed.

Inductive key_step : World -> World -> Prop :=
| step_create u o inp w : key_step w (Create u o inp w).2
| step_revoke u o k w : key_step w (Revoke u o k w).2
| step_authenticate raw w : key_step w (Authenticate raw w).2
| step_sweep p w : key_step w (ExpireSweepJobHandler p w).2.
Lemma key_steps w w' : rtc key_step w w' -> keys_evolve (w_db w) (w_db w').
Proof.
  induction 1 as [w|w w1 w2 Hs _ IH]; [reflexivity|]. etrans; [|exact IH].
  destruct Hs; [apply Create_keys|apply Revoke_keys|apply Authenticate_evolves|apply ExpireSweepJobHandler_evolves].
Qed.

(** C27. A revoked key stays revoked: once the row of a key is revoked, no sequence of key
    requests, authentications and sweeps, whatever fails in them, makes [Authenticate] accept
    that key again. *)
Theorem revoked_refused raw w w' k key : keys_wf (w_db w) ->
  api_keys (w_db w) !! k = Some key -> ApiKey_KeyHash key = hashKey raw -> ApiKey_RevokedAt key <> None ->
  rtc key_step w w' -> exists e, (Authenticate raw w').1 = Err e.
Proof.
  intros Hwf Hk Hh Hr Hs. destruct (key_steps _ _ Hs Hwf) as [[_ Hu] Hl].
  destruct (Hl _ _ Hk) as (key' & Hk' & _ & Hh' & _ & _ & _ & Hr').
  destruct (Authenticate raw w') as [[p|e] w2] eqn:E; [|by exists e]. exfalso.
  unfold Authenticate in E. apply bind_Ok in E as ([] & w3 & [_ <-]%reject_if_Ok & E).
  apply bind_Ok in E as (found & w4 & Eg%map_err_Ok & E). query_ok Eg.
  apply find_row_Some in Hb as [[_ Hfh%beq_eq]%andb_true_iff [kf Hkf]].
  apply bind_Ok in E as (now & w5 & [-> ->]%timeNow_Ok & E).
  apply bind_Ok in E as ([] & w6 & [Hst _]%reject_if_Ok & E).
  assert (kf = k) as -> by (apply (Hu _ _ _ _ Hkf Hk'); congruence). assert (found = key') as -> by congruence.
  apply Hr' in Hr. unfold status in Hst. by destruct (ApiKey_RevokedAt key').
Qed.

(** Revoking works: when [Revoke] succeeds, the key was an unrevoked key of the caller's
    organization, and it is now revoked, everything else of it unchanged. *)
Theorem Revoke_Ok u o k w w' : Revoke u o k w = (Ok tt, w') ->
  exists key now t, api_keys (w_db w) !! k = Some key /\ ApiKey_OrganizationID key = o /\
    ApiKey_RevokedAt key = None /\
    api_keys (w_db w') = <[k := ApiKey_revoke t (Some now) key]> (api_keys (w_db w)).
Proof.
  unfold Revoke. intros (tn & w1 & _ & Hd1 & E)%gate_Ok.
  apply WithTenantTx_Ok in E as (wa & wb & tx & E & Hda & _ & _ & Hd' & _). rewrite Hd'. unfold revoke_body in E.
  apply bind_Ok in E as (cur & w2 & Ec%map_err_Ok & E). query_ok Ec.
  apply bind_Ok in E as ([] & w3 & [Hr <-]%reject_if_Ok & E).
  apply bind_Ok in E as (now & w4 & [-> ->]%timeNow_Ok & E).
  apply bind_Ok in E as (x & w5 & Er & E). stmt_ok Er.
  assert (Hk : forall e, pres same_keys (RecordTx e)).
  { intros e. apply RecordTx_pres; [apply _|]. intros. by stmt_branches. }
  match type of E with RecordTx ?e ?v = _ => destruct (Hk e v) as [_ Hs] end. rewrite E in Hs. unfold same_keys in Hs. simpl in Hs.
  rewrite <- Hs. simpl. rewrite Hda, Hd1 in *. eexists _, _, _. split_and!; [eassumption|done|done|reflexivity].
Qed.

(** One row of the sweep. *)
Lemma RevokeAPIKeyByID_row id o w k key : api_keys (w_db w) !! k = Some key ->
  api_keys (w_db (RevokeAPIKeyByID id o w).2) !! k = Some key \/ k = id.
Proof.
  intros Hk. destruct (decide (k = id)) as [|Hn]; [by right|left].
  set (R := fun d d' : DB => forall r, api_keys d !! k = Some r -> api_keys d' !! k = Some r).
  assert (PreOrder R) by (split; unfold R; repeat intro; auto).
  assert (Hp : pres R (RevokeAPIKeyByID id o)).
  { stmt_branches; [|reflexivity]. intros r Hr. simpl. by rewrite lookup_insert_ne. }
  destruct (Hp w) as [_ Hr]. by apply Hr.
Qed.
Lemma sweep_rows o rows w k key : api_keys (w_db w) !! k = Some key ->
  (forall r, r ∈ rows -> ApiKey_ID r <> k) ->
  api_keys (w_db (for_each rows (fun r => RevokeAPIKeyByID (ApiKey_ID r) o) w).2) !! k = Some key.
Proof.
  revert w. induction rows as [|r rows IH]; intros w Hk Hn; simpl; [done|]. unfold bind.
  destruct (RevokeAPIKeyByID_row (ApiKey_ID r) o w k key Hk) as [Hk'|Heq].
  2: { exfalso. apply (Hn r); [left|done]. }
  destruct (RevokeAPIKeyByID (ApiKey_ID r) o w) as [[u|e] w1]; simpl in *; [|done].
  apply IH; [done|]. intros r' Hr'. apply Hn. by right.
Qed.

(** The sweep revokes only dead keys: a key that changes expired more than 30 days before
    the sweep, was not revoked, and belongs to the organization that is swept. *)
Theorem revokeExpired_only o w k key : keys_wf (w_db w) -> api_keys (w_db w) !! k = Some key ->
  api_keys (w_db (revokeExpired o w).2) !! k = Some key \/
  (ApiKey_OrganizationID key = o /\ ApiKey_RevokedAt key = None /\
   (ApiKey_ExpiresAt key < env_now (S (S (w_tick w))) - expiryGracePeriod)%Z).
Proof.
  intros [Hkey _] Hk. unfold revokeExpired. rewrite wrapf_snd.
  destruct (WithTenantTx o (sweep_body o) w) as [[u|e] w'] eqn:E; simpl.
  2: { apply WithTenantTx_Err in E; [left; by rewrite E|]. unfold sweep_body. pres_auto. by apply pres_stmt. }
  apply WithTenantTx_Ok in E as (wa & wb & tx & Eb & Hda & _ & _ & Hd' & _ & _ & _ & _ & _ & _ & _ & _ & Ht).
  rewrite Hd'. unfold sweep_body in Eb. apply bind_Ok in Eb as (now & w1 & [-> ->]%timeNow_Ok & Eb).
  apply bind_Ok in Eb as (rows & w2 & Er & Eb). query_ok Er.
  destruct (decide (k ∈ ApiKey_ID <$> rows)) as [Hin|Hnin].
  - right. apply list_elem_of_fmap in Hin as (r & -> & Hr). rewrite <- Hb in Hr. unfold limit_offset in Hr. apply elem_of_take in Hr as (j & Hr & _).
    apply list_elem_of_lookup_2 in Hr. rewrite drop_0, order_by_perm in Hr.
    apply list_elem_of_In, List.filter_In in Hr as [Hr HP]. apply list_elem_of_In, elem_of_rows in Hr as [k' Hk'].
    rewrite Hda in Hk'. rewrite (Hkey _ _ Hk') in *. assert (r = key) as -> by congruence.
    rewrite !andb_true_iff in HP. destruct HP as [[Ho%in_org_true Hn] Hlt]. apply Z.ltb_lt in Hlt. rewrite <- Ht.
    split_and!; [done|by destruct (ApiKey_RevokedAt key)|done].
  - left. pose proof (sweep_rows o rows (next_tick (next_tick wa)) k key) as Hs. rewrite Eb in Hs. apply Hs.
    + simpl. by rewrite Hda.
    + intros r Hr Heq. apply Hnin. apply list_elem_of_fmap. by exists r.
Qed.

(** Only the digest is stored: a successful [Create] files one new key of the caller in the
    organization, unrevoked, with the requested lifetime; the row holds the digest of the key
    that is returned. *)
Theorem mint_Ok u o inp w res w' : Create u o inp w = (Ok res, w') ->
  exists row ttl now, key_ttl inp = Ok ttl /\
    ApiKey_KeyHash row = hashKey (CR_Key res) /\ ApiKey_OrganizationID row = o /\ ApiKey_CreatedBy row = u /\
    ApiKey_Name row = TrimSpace (CI_Name inp) /\ ApiKey_RevokedAt row = None /\
    ApiKey_ExpiresAt row = (now + ttl)%Z /\ CR_APIKey res = toDTO row now /\
    api_keys (w_db w) !! ApiKey_ID row = None /\
    (forall k x, api_keys (w_db w) !! k = Some x -> ApiKey_KeyHash x <> ApiKey_KeyHash row) /\
    api_keys (w_db w') = <[ApiKey_ID row := row]> (api_keys (w_db w)).
Proof.
  unfold Create. intros (tn & w1 & _ & Hd1 & E)%gate_Ok.
  apply bind_Ok in E as ([] & w2 & Ev & E). unfold reject in Ev.
  destruct (CreateInput_validate inp); [done|]. apply ret_Ok in Ev as [_ <-].
  apply bind_Ok in E as (ttl & w3 & [Httl <-]%ret_result_Ok & E).
  apply bind_Ok in E as ([[raw pre] lf] & w4 & Eg & E). unfold generateKey in Eg.
  apply bind_Ok in Eg as (buf & w5 & [_ ->]%randRead_Ok & Eg). apply ret_Ok in Eg as [_ <-].
  apply bind_Ok in E as (now & w6 & [-> ->]%timeNow_Ok & E).
  apply bind_Ok in E as (key & w7 & Etx%wrapf_Ok & E). apply ret_Ok in E as [<- <-].
  apply WithTenantTx_Ok in Etx as (wa & wb & tx & E & Hda & _ & _ & Hd' & _). rewrite Hd'. simpl in Hda.
  unfold create_body in E. apply bind_Ok in E as (row & w8 & Ec%map_err_Ok & E).
  apply bind_Ok in E as ([] & w9 & Er & E). apply ret_Ok in E as [<- <-].
  assert (Hk : forall e, pres same_keys (RecordTx e)).
  { intros e. apply RecordTx_pres; [apply _|]. intros. by stmt_branches. }
  pose proof (pres_run _ _ _ _ _ (Hk _) Er) as Hs. unfold same_keys in Hs. rewrite <- Hs. clear Er Hs.
  stmt_ok Ec. rewrite Hda, Hd1 in *. 
  match goal with |- context [<[_ := ?r]> _] => exists r, ttl, (env_now (S (w_tick w1))) end. split_and!; try done; simpl.
  intros k x Hx Hh. match goal with Hd : negb (exists_row _ (api_keys _)) = true |- _ =>
    apply negb_true_iff in Hd; rewrite exists_row_false in Hd; specialize (Hd _ _ Hx) end.
  simpl in *. rewrite Hh, beq_refl in *. done.
Qed.
End key_life.

(** ** Concrete runs *)
#[local] Instance demo_keys : ApiKeyConfig :=
  {| defaultTTL := 90 * 24 * Hour; maxTTL := 365 * 24 * Hour; format_days _ := "365"; unmarshal_sweep _ := None |}.
Definition demo_raw := "tfk_AAAAAAAAAAAAAAAAAAAAAAAAAAAAAAAAAAAAAAAAAAA".
Definition demo_key (expires : Z) (revoked : option Z) : ApiKey :=
  {| ApiKey_ID := 90; ApiKey_OrganizationID := 1; ApiKey_CreatedBy := 1; ApiKey_Name := "ci";
     ApiKey_KeyPrefix := "tfk_AAAAAAAA"; ApiKey_KeyLastFour := "AAAA"; ApiKey_KeyHash := @hashKey demo demo_raw;
     ApiKey_ExpiresAt := expires; ApiKey_RevokedAt := revoked; ApiKey_LastUsedAt := None; ApiKey_CreatedAt := -100 * Hour;
     ApiKey_UpdatedAt := 0 |}.
Definition demo_keyed (expires : Z) (revoked : option Z) : World :=
  demo_world (set_api_keys {[90%N := demo_key expires revoked]} demo_DB).
Lemma demo_keyed_wf e r : keys_wf (w_db (demo_keyed e r)).
Proof.
  split; simpl.
  - by intros k x [<- <-]%lookup_singleton_Some.
  - by intros k1 k2 x1 x2 [<- <-]%lookup_singleton_Some [<- <-]%lookup_singleton_Some.
Qed.
Lemma Authenticate_Ok_witness : exists p w', @Authenticate demo demo_raw (demo_keyed 9000000 None) = (Ok p, w') /\
  Principal_OrganizationID p = 1%N.
Proof.
  destruct (@Authenticate demo demo_raw (demo_keyed 9000000 None)) as [r w'] eqn:E.
  assert (Hr : exists p, r = Ok p).
  { apply (f_equal fst) in E. vm_compute in E. subst r. eexists. reflexivity. }
  destruct Hr as [p ->]. exists p, w'. split; [reflexivity|].
  destruct (@Authenticate_Ok demo demo_raw _ p w' E) as (k & key & user & _ & Hk & _ & _ & _ & _ & _ & ->).
  simpl in Hk. apply lookup_singleton_Some in Hk as [_ <-]. reflexivity.
Defined.
Lemma revoked_refused_witness : exists e,
  (@Authenticate demo demo_raw (@Revoke demo (@organizations_Authorizer demo) 1 1 90 (demo_keyed 9000000 (Some 7%Z))).2).1 = Err e.
Proof.
  apply (@revoked_refused demo (@organizations_Authorizer demo) demo_keys demo_raw
    (demo_keyed 9000000 (Some 7%Z)) _ 90%N (demo_key 9000000 (Some 7%Z)));
    [apply demo_keyed_wf|reflexivity|reflexivity|discriminate|apply rtc_once, step_revoke].
Defined.
Lemma Revoke_Ok_witness : exists w' key,
  @Revoke demo (@organizations_Authorizer demo) 1 1 90 (demo_keyed 9000000 None) = (Ok tt, w') /\
  api_keys (w_db w') !! 90%N = Some key /\ ApiKey_RevokedAt key <> None.
Proof.
  destruct (@Revoke demo (@organizations_Authorizer demo) 1 1 90 (demo_keyed 9000000 None)) as [r w'] eqn:E.
  assert (Hr : r = Ok tt) by (apply (f_equal fst) in E; vm_compute in E; subst r; reflexivity). subst r.
  destruct (@Revoke_Ok demo (@organizations_Authorizer demo) 1 1 90 _ w' E) as (key & now & t & _ & _ & _ & Hd).
  exists w', (ApiKey_revoke t (Some now) key). split; [reflexivity|]. split; [rewrite Hd; apply lookup_insert_eq|discriminate].
Defined.
Lemma revokeExpired_only_witness :
  api_keys (w_db (@revokeExpired demo 1 (demo_keyed 9000000 None)).2) !! 90%N = Some (demo_key 9000000 None).
Proof.
  destruct (@revokeExpired_only demo 1 (demo_keyed 9000000 None) 90%N (demo_key 9000000 None)
    (demo_keyed_wf _ _) eq_refl) as [Hk|(_ & _ & Hlt)]; [exact Hk|vm_compute in Hlt; discriminate].
Defined.
Lemma generateKey_valid_witness : exists raw prefix lastFour w',
  @generateKey demo (demo_world demo_DB) = (Ok (raw, prefix, lastFour), w') /\ validKeyFormat raw = true.
Proof.
  destruct (@generateKey demo (demo_world demo_DB)) as [r w'] eqn:E.
  assert (Hr : exists raw p l, r = Ok (raw, p, l)).
  { apply (f_equal fst) in E. vm_compute in E. subst r. eexists _, _, _. reflexivity. }
  destruct Hr as (raw & p & l & ->).
  destruct (@generateKey_valid demo (demo_world demo_DB) raw p l w') as [Hv _]; [|exact E|].
  - intros t n b. simpl. intros [= <-]. split; [apply repeat_length|]. apply List.Forall_forall.
    intros x Hx. apply List.repeat_spec in Hx as ->. by apply N.mod_lt.
  - exists raw, p, l, w'. split; [reflexivity|exact Hv].
Defined.
Lemma key_ttl_bound_witness : exists ttl,
  @key_ttl demo_keys {| CI_Name := "ci"; CI_ExpiresInDays := 30 |} = Ok ttl /\ ttl = (30 * (24 * Hour))%Z.
Proof.
  eexists. split; [reflexivity|].
  destruct (@key_ttl_bound demo_keys {| CI_Name := "ci"; CI_ExpiresInDays := 30 |} _ eq_refl)
    as [[Hle _]|(_ & _ & Hex)]; [vm_compute in Hle; congruence|apply Hex; vm_compute; discriminate].
Defined.
Lemma key_ttl_overflow_witness : exists ttl,
  @key_ttl demo_keys {| CI_Name := "ci"; CI_ExpiresInDays := 213504 |} = Ok ttl /\ (0 < ttl < 30 * Minute)%Z.
Proof. apply (key_ttl_overflow demo_keys "ci"). reflexivity. Defined.
Lemma mint_Ok_witness : exists res w',
  @Create demo (@organizations_Authorizer demo) demo_keys 1 1 {| CI_Name := " ci "; CI_ExpiresInDays := 30 |} (demo_keyed 9000000 None)
    = (Ok res, w') /\ KD_Name (CR_APIKey res) = "ci".
Proof.
  destruct (@Create demo (@organizations_Authorizer demo) demo_keys 1 1 {| CI_Name := " ci "; CI_ExpiresInDays := 30 |}
    (demo_keyed 9000000 None)) as [r w'] eqn:E.
  assert (Hr : exists res, r = Ok res).
  { apply (f_equal fst) in E. vm_compute in E. subst r. eexists. reflexivity. }
  destruct Hr as [res ->]. exists res, w'. split; [reflexivity|].
  destruct (@mint_Ok demo (@organizations_Authorizer demo) demo_keys 1 1 _ _ res w' E)
    as (row & ttl & now & _ & _ & _ & _ & Hn & _ & _ & -> & _).
  unfold toDTO, KD_Name. rewrite Hn. reflexivity.
Defined.
