(* ===== verification/Integrity.v ===== *)
(** * Referential integrity: what the tables promise about each other

    The migrations of [migrations/] declare, table by table, primary keys, unique keys,
    CHECK conditions and foreign keys; the statements of the [Queries*] files test the
    constraints their own row takes part in.  [wf] is the whole promise, about every row of
    every table at once.  It also holds what the schema cannot express and only the services
    keep: a membership's role is a role of the same organization (the foreign key is on the
    role alone).

    Each statement is shown to keep [wf] ([pres intact]); the two that write a membership do
    so under the condition their callers establish. *)
From S2P Require Import Prelude.
From S2P Require Import GoError.
From S2P Require Import Schema.
From S2P Require Import Store.
From S2P Require Import Logic.
From S2P Require Import Sql.
From S2P Require Import QueriesOrg.
From S2P Require Import QueriesAuth.
From S2P Require Import QueriesInv.
From S2P Require Import QueriesWork.
From S2P Require Import Tenancy.
From S2P Require Import Organizations.
Local Open Scope string_scope.

(** ** Tables

    A table stores every row under its primary key, every row satisfies [ok], and no two
    rows are the [same] for a unique key. *)
Section table.
Context {R : Type} (key : R -> N).
Implicit Types (t : gmap N R) (ok : R -> Prop) (same : R -> R -> Prop).

Record table_ok ok same t : Prop := {
  t_row : forall k r, t !! k = Some r -> key r = k /\ ok r;
  t_unique : forall k k' r r', t !! k = Some r -> t !! k' = Some r' -> same r r' -> k = k'
}.

Lemma table_put ok same t k r : Symmetric same -> table_ok ok same t -> key r = k -> ok r ->
  (forall k' r', k' <> k -> t !! k' = Some r' -> ~ same r' r) -> table_ok ok same (<[k := r]> t).
Proof.
  intros Hsym [Hrow Huniq] Hk Hok Hnew. split.
  - intros k' r' [[<- <-]|[_ ?]]%lookup_insert_Some; eauto.
  - intros k1 k2 r1 r2 [[<- <-]|[? H1]]%lookup_insert_Some [[<- <-]|[? H2]]%lookup_insert_Some Hs;
      [done| | |by eauto].
    + symmetry in Hs. by destruct (Hnew _ _ ltac:(done) H2).
    + by destruct (Hnew _ _ ltac:(done) H1).
Qed.
Lemma table_sub ok same t t' : t' ⊆ t -> table_ok ok same t -> table_ok ok same t'.
Proof. intros Hsub [Hrow Huniq]. split; eauto using lookup_weaken. Qed.
(** A bulk update that neither moves rows nor touches the unique keys. *)
Lemma table_fmap ok same t (f : R -> R) :
  (forall r, key (f r) = key r) -> (forall r, ok r -> ok (f r)) ->
  (forall r r', same (f r) (f r') -> same r r') -> table_ok ok same t -> table_ok ok same (f <$> t).
Proof.
  intros Hkey Hok Hsame [Hrow Huniq]. split.
  - intros k r' (r & <- & Hr)%lookup_fmap_Some. destruct (Hrow _ _ Hr). rewrite Hkey. eauto.
  - intros k k' r1 r2 (x & <- & Hx)%lookup_fmap_Some (y & <- & Hy)%lookup_fmap_Some Hs. eauto.
Qed.
Lemma table_weaken ok ok' same t :
  (forall k r, t !! k = Some r -> ok r -> ok' r) -> table_ok ok same t -> table_ok ok' same t.
Proof. intros Hok [Hrow Huniq]. split; [|done]. intros k r Hk. destruct (Hrow _ _ Hk). eauto. Qed.
End table.

Definition no_unique {R} (_ _ : R) : Prop := False.
#[export] Instance no_unique_sym {R} : Symmetric (@no_unique R).
Proof. intros ? ? []. Qed.
(** The rows [r], [r'] agree on the columns [f]. *)
Definition agree {R K} (f : R -> K) (r r' : R) : Prop := f r = f r'.
#[export] Instance agree_sym {R K} (f : R -> K) : Symmetric (agree f).
Proof. by intros ? ? ?. Qed.

(** [t] holds a row with key [k] whose [f] is [o]: a foreign key on the pair. *)
Definition holds {R} (t : gmap N R) (f : R -> N) (k o : N) : Prop := exists r, t !! k = Some r /\ f r = o.
Lemma holds_put {R} (t : gmap N R) f k r j o :
  (forall x, t !! k = Some x -> f r = f x) -> holds t f j o -> holds (<[k := r]> t) f j o.
Proof.
  intros Hf (x & Hx & Ho). destruct (decide (k = j)) as [<-|].
  - exists r. split; [apply lookup_insert_eq|]. exact (eq_trans (Hf _ Hx) Ho).
  - exists x. split; [by rewrite lookup_insert_ne|done].
Qed.

(** ** References *)
Definition has_user (d : DB) (u : N) : Prop := is_Some (users d !! u).
Definition has_org (d : DB) (o : N) : Prop := is_Some (organizations d !! o).
Definition has_permission (d : DB) (p : N) : Prop := is_Some (permissions d !! p).
Definition has_token (d : DB) (t : N) : Prop := is_Some (refresh_tokens d !! t).
Definition role_in (d : DB) : N -> N -> Prop := holds (roles d) Role_OrganizationID.
Definition team_in (d : DB) : N -> N -> Prop := holds (teams d) Team_OrganizationID.
Definition project_in (d : DB) : N -> N -> Prop := holds (projects d) Project_OrganizationID.
Definition member_in (d : DB) (u o : N) : Prop := exists k m, memberships d !! k = Some m /\
  OrganizationMembership_UserID m = u /\ OrganizationMembership_OrganizationID m = o.

(** Every reference that resolves in [d] resolves in [d']. *)
Record refs (d d' : DB) : Prop := {
  refs_user : forall u, has_user d u -> has_user d' u;
  refs_org : forall o, has_org d o -> has_org d' o;
  refs_permission : forall p, has_permission d p -> has_permission d' p;
  refs_token : forall t, has_token d t -> has_token d' t;
  refs_role : forall r o, role_in d r o -> role_in d' r o;
  refs_team : forall t o, team_in d t o -> team_in d' t o;
  refs_project : forall p o, project_in d p o -> project_in d' p o;
  refs_member : forall u o, member_in d u o -> member_in d' u o
}.
Definition nullable (P : N -> Prop) (o : option N) : Prop := match o with Some x => P x | None => True end.

(** ** The constraints of one row, its references resolved in [v] *)
Section rows.
Context `{Env}.
Implicit Types v : DB.

Definition user_row (u : User) : Prop :=
  btrim_nonempty (User_FirstName u) = true /\ btrim_nonempty (User_LastName u) = true /\
  User_Status u ∈ ["active"; "suspended"; "pending"; "deleted"].
Definition organization_row (o : Organization) : Prop :=
  btrim_nonempty (Organization_Name o) = true /\
  Organization_Status o ∈ ["active"; "suspended"; "deleted"].
Definition role_row v (r : Role) : Prop :=
  btrim_nonempty (Role_Name r) = true /\ has_org v (Role_OrganizationID r).
Definition membership_row v (m : OrganizationMembership) : Prop :=
  OrganizationMembership_Status m ∈ ["active"; "invited"; "suspended"; "removed"] /\
  has_org v (OrganizationMembership_OrganizationID m) /\ has_user v (OrganizationMembership_UserID m) /\
  role_in v (OrganizationMembership_RoleID m) (OrganizationMembership_OrganizationID m).
Definition permission_row (p : Permission) : Prop :=
  btrim_nonempty (Permission_Key p) = true /\ btrim_nonempty (Permission_Description p) = true.
Definition grant_row v (rp : N * N) : Prop := (exists o, role_in v rp.1 o) /\ has_permission v rp.2.
Definition refresh_token_row v (t : RefreshToken) : Prop :=
  has_user v (RefreshToken_UserID t) /\ nullable (has_token v) (RefreshToken_ReplacedBy t).
Definition team_row v (t : Team) : Prop :=
  btrim_nonempty (Team_Name t) = true /\ has_org v (Team_OrganizationID t) /\ has_user v (Team_CreatedBy t).
Definition team_member_row v (m : TeamMember) : Prop :=
  has_org v (TeamMember_OrganizationID m) /\ has_user v (TeamMember_UserID m) /\
  team_in v (TeamMember_TeamID m) (TeamMember_OrganizationID m).
Definition project_row v (p : Project) : Prop :=
  project_checks v p = None /\ has_org v (Project_OrganizationID p) /\ has_user v (Project_CreatedBy p).
Definition task_row v (t : Task) : Prop :=
  task_checks v t = None /\ has_org v (Task_OrganizationID t) /\ has_user v (Task_CreatedBy t).
Definition activity_row v (a : ActivityLog) : Prop :=
  btrim_nonempty (ActivityLog_Action a) = true /\ btrim_nonempty (ActivityLog_ResourceType a) = true /\
  has_org v (ActivityLog_OrganizationID a) /\ nullable (has_user v) (ActivityLog_ActorUserID a).
Definition invitation_row v (i : Invitation) : Prop :=
  invitation_checks i = None /\ has_org v (Invitation_OrganizationID i) /\
  role_in v (Invitation_RoleID i) (Invitation_OrganizationID i) /\
  has_user v (Invitation_InvitedBy i) /\ nullable (has_user v) (Invitation_AcceptedBy i).
Definition api_key_row v (k : ApiKey) : Prop :=
  btrim_nonempty (ApiKey_Name k) = true /\ (char_length (ApiKey_Name k) <= 100)%Z /\
  (0 < char_length (ApiKey_KeyPrefix k))%Z /\ char_length (ApiKey_KeyLastFour k) = 4%Z /\
  (ApiKey_CreatedAt k < ApiKey_ExpiresAt k)%Z /\ has_org v (ApiKey_OrganizationID k) /\
  member_in v (ApiKey_CreatedBy k) (ApiKey_OrganizationID k).
Definition audit_row v (a : AuditLog) : Prop :=
  btrim_nonempty (AuditLog_Action a) = true /\ AuditLog_Outcome a ∈ ["success"; "failure"; "denied"] /\
  match AuditLog_IpAddress a with Some ip => inet_ok ip | None => true end = true /\
  nullable (has_user v) (AuditLog_ActorUserID a).

(** The partial unique index on pending addresses, beside the one on digests. *)
Definition same_invitation (i j : Invitation) : Prop :=
  Invitation_TokenHash i = Invitation_TokenHash j \/
  Invitation_Status i = "pending" /\ Invitation_Status j = "pending" /\
  Invitation_OrganizationID i = Invitation_OrganizationID j /\
  citext_fold (Invitation_Email i) = citext_fold (Invitation_Email j).
#[global] Instance same_invitation_sym : Symmetric same_invitation.
Proof. intros i j [?|(?&?&?&?)]; [left|right]; by split_and?. Qed.

(** ** All tables *)
Record tables_ok (v d : DB) : Prop := {
  ok_users : table_ok User_ID user_row (agree (fun u => citext_fold (User_Email u))) (users d);
  ok_organizations : table_ok Organization_ID organization_row
    (agree (fun o => citext_fold (Organization_Slug o))) (organizations d);
  ok_roles : table_ok Role_ID (role_row v)
    (agree (fun r => (Role_OrganizationID r, Role_Name r))) (roles d);
  ok_memberships : table_ok OrganizationMembership_ID (membership_row v)
    (agree (fun m => (OrganizationMembership_OrganizationID m, OrganizationMembership_UserID m)))
    (memberships d);
  ok_permissions : table_ok Permission_ID permission_row (agree Permission_Key) (permissions d);
  ok_grants : set_Forall (grant_row v) (role_permissions d);
  ok_refresh_tokens : table_ok RefreshToken_ID (refresh_token_row v) (agree RefreshToken_TokenHash)
    (refresh_tokens d);
  ok_teams : table_ok Team_ID (team_row v) (agree (fun t => (Team_OrganizationID t, Team_Name t))) (teams d);
  ok_team_members : table_ok TeamMember_ID (team_member_row v)
    (agree (fun m => (TeamMember_OrganizationID m, TeamMember_TeamID m, TeamMember_UserID m)))
    (team_members d);
  ok_projects : table_ok Project_ID (project_row v) no_unique (projects d);
  ok_tasks : table_ok Task_ID (task_row v) no_unique (tasks d);
  ok_activity_logs : table_ok ActivityLog_ID (activity_row v) no_unique (activity_logs d);
  ok_invitations : table_ok Invitation_ID (invitation_row v) same_invitation (invitations d);
  ok_api_keys : table_ok ApiKey_ID (api_key_row v) (agree ApiKey_KeyHash) (api_keys d);
  ok_audit_logs : table_ok AuditLog_ID (audit_row v) no_unique (audit_logs d)
}.
(** The tables are well formed: every reference resolves in the tables themselves. *)
Definition wf (d : DB) : Prop := tables_ok d d.
Definition intact (d d' : DB) : Prop := wf d -> wf d'.
#[global] Instance intact_pre : PreOrder intact.
Proof. split; unfold intact; [by intros ? ?|auto]. Qed.
End rows.

(** ** More references, same rows *)
Lemma nullable_mono (P Q : N -> Prop) o : (forall x, P x -> Q x) -> nullable P o -> nullable Q o.
Proof. destruct o; simpl; auto. Qed.
Lemma holds_sel {R} (t : gmap N R) f k o : is_nil (sel t k (fun x => f x =?= o)) = false <-> holds t f k o.
Proof.
  unfold holds. split.
  - destruct (sel t k _) as [r|] eqn:E; [|done]. apply sel_Some in E as [? ?%beq_eq]. eauto.
  - intros (r & Hr & Ho). unfold sel. rewrite Hr, Ho, beq_refl. done.
Qed.
Lemma member_exists d u o : exists_row (fun m => ((OrganizationMembership_UserID m =?= u) &&
  (OrganizationMembership_OrganizationID m =?= o))%bool) (memberships d) = true <-> member_in d u o.
Proof.
  rewrite exists_row_true. unfold member_in. split; intros (k & m & Hk & Hm); exists k, m; (split; [done|]).
  - by bool_hyps.
  - destruct Hm as [-> ->]. by rewrite !beq_refl.
Qed.

(** The constraints of projects and tasks look at the row and at its references only. *)
Ltac skip_checks := repeat match goal with
  | |- context [if negb ?b then Some (check_violation _) else _] =>
      destruct b; cbn [negb]; [|intros Hx; discriminate Hx] end.
Lemma project_checks_by v v' p :
  (forall t, Project_TeamID p = Some t -> team_in v t (Project_OrganizationID p) ->
     team_in v' t (Project_OrganizationID p)) ->
  project_checks v p = None -> project_checks v' p = None.
Proof.
  intros Ht. unfold project_checks. skip_checks. destruct (Project_TeamID p) as [t|]; [|done].
  destruct (is_nil (sel (teams v) _ _)) eqn:E; [done|]. intros _.
  apply holds_sel, (Ht t eq_refl), holds_sel in E. by rewrite E.
Qed.
Lemma task_checks_by v v' t :
  (project_in v (Task_ProjectID t) (Task_OrganizationID t) ->
     project_in v' (Task_ProjectID t) (Task_OrganizationID t)) ->
  (forall u, member_in v u (Task_OrganizationID t) -> member_in v' u (Task_OrganizationID t)) ->
  task_checks v t = None -> task_checks v' t = None.
Proof.
  intros Hp Hm. unfold task_checks. skip_checks.
  destruct (is_nil (sel (projects v) _ _)) eqn:E1; [done|].
  apply holds_sel, Hp, holds_sel in E1. rewrite E1.
  destruct (Task_AssigneeID t) as [u|]; [|done].
  destruct (exists_row _ (memberships v)) eqn:E2; [|done].
  apply member_exists, Hm, member_exists in E2. by rewrite E2.
Qed.

Section growth.
Context `{Env} (v v' : DB) (Hv : refs v v').

Lemma project_checks_mono p : project_checks v p = None -> project_checks v' p = None.
Proof. apply project_checks_by. intros t _. apply (refs_team _ _ Hv). Qed.
Lemma task_checks_mono t : task_checks v t = None -> task_checks v' t = None.
Proof. apply task_checks_by; [apply (refs_project _ _ Hv)|intros u; apply (refs_member _ _ Hv)]. Qed.
Hint Resolve nullable_mono project_checks_mono task_checks_mono : core.

(** The columns of the row do not move, its references still resolve. *)
Ltac row_mono := destruct Hv; intros; destruct_and?; split_and!; eauto.
Lemma role_row_mono r : role_row v r -> role_row v' r.
Proof. unfold role_row. row_mono. Qed.
Lemma membership_row_mono r : membership_row v r -> membership_row v' r.
Proof. unfold membership_row. row_mono. Qed.
Lemma grant_row_mono rp : grant_row v rp -> grant_row v' rp.
Proof. intros [[o Ho] Hp]. destruct Hv. split; [exists o|]; auto. Qed.
Lemma refresh_token_row_mono r : refresh_token_row v r -> refresh_token_row v' r.
Proof. unfold refresh_token_row. row_mono. Qed.
Lemma team_row_mono r : team_row v r -> team_row v' r.
Proof. unfold team_row. row_mono. Qed.
Lemma team_member_row_mono r : team_member_row v r -> team_member_row v' r.
Proof. unfold team_member_row. row_mono. Qed.
Lemma project_row_mono r : project_row v r -> project_row v' r.
Proof. unfold project_row. row_mono. Qed.
Lemma task_row_mono r : task_row v r -> task_row v' r.
Proof. unfold task_row. row_mono. Qed.
Lemma activity_row_mono r : activity_row v r -> activity_row v' r.
Proof. unfold activity_row. row_mono. Qed.
Lemma invitation_row_mono r : invitation_row v r -> invitation_row v' r.
Proof. unfold invitation_row. row_mono. Qed.
Lemma api_key_row_mono r : api_key_row v r -> api_key_row v' r.
Proof. unfold api_key_row. row_mono. Qed.
Lemma audit_row_mono r : audit_row v r -> audit_row v' r.
Proof. unfold audit_row. row_mono. Qed.

Lemma tables_mono d : tables_ok v d -> tables_ok v' d.
Proof.
  intros []. split; try assumption; try (eapply table_weaken; [|eassumption]; intros k r _);
    [apply role_row_mono|apply membership_row_mono|intros rp Hrp; by apply grant_row_mono, ok_grants0
    |apply refresh_token_row_mono|apply team_row_mono|apply team_member_row_mono|apply project_row_mono
    |apply task_row_mono|apply activity_row_mono|apply invitation_row_mono|apply api_key_row_mono
    |apply audit_row_mono].
Qed.
End growth.

(** ** Statements

    One statement writes one table: the other tables are as they were, their references
    still resolve, and the row that is new in its table meets its constraints. *)
Section statements.
Context `{Env}.

Lemma exists_row_not {R} (P : R -> bool) (t : gmap N R) k r :
  negb (exists_row P t) = true -> t !! k = Some r -> P r = true -> False.
Proof. intros Hn Hk HP. apply negb_true_iff in Hn. rewrite exists_row_false in Hn. by rewrite (Hn _ _ Hk) in HP. Qed.
Lemma known {R} (t : gmap N R) k : is_nil (t !! k) = false -> is_Some (t !! k).
Proof. destruct (t !! k); [eauto|done]. Qed.
Lemma known_if {R} (t : gmap N R) o :
  match o with Some k => negb (is_nil (t !! k)) | None => true end = true ->
  nullable (fun k => is_Some (t !! k)) o.
Proof. destruct o; [intros ?%negb_true_iff; by apply known|done]. Qed.
Lemma known_in {R} (t : gmap N R) f k o : is_nil (sel t k (fun x => f x =?= o)) = false -> holds t f k o.
Proof. apply holds_sel. Qed.

Lemma known_member d u o : exists_row (fun m => ((OrganizationMembership_OrganizationID m =?= o) &&
  (OrganizationMembership_UserID m =?= u))%bool) (memberships d) = true -> member_in d u o.
Proof. intros (k & m & Hk & Hm)%exists_row_true. exists k, m. by bool_hyps. Qed.

Lemma is_Some_put {R} (t : gmap N R) k r j : is_Some (t !! j) -> is_Some (<[k := r]> t !! j).
Proof. rewrite lookup_insert_is_Some'. auto. Qed.
Lemma member_put d k m u o :
  match memberships d !! k with
  | Some x => OrganizationMembership_UserID m = OrganizationMembership_UserID x /\
              OrganizationMembership_OrganizationID m = OrganizationMembership_OrganizationID x
  | None => True
  end -> member_in d u o -> member_in (set_memberships (<[k := m]> (memberships d)) d) u o.
Proof.
  intros Hk (j & x & Hj & Hu & Ho). destruct (decide (k = j)) as [->|].
  - rewrite Hj in Hk. destruct Hk. exists j, m. split_and!; [apply lookup_insert_eq|congruence..].
  - exists j, x. split_and!; [simpl; by rewrite lookup_insert_ne|done..].
Qed.
End statements.

(** The references of the changed tables: a row was added or kept its columns. *)
Ltac refs_auto := split; simpl; intros;
  first [ assumption
        | by apply is_Some_put
        | apply holds_put; [intros; simplify_map_eq; done | assumption]
        | apply member_put; [simplify_option_eq; done | assumption] ].
(** A unique key: another row with the same columns was looked for and not found. *)
Ltac cond_auto :=
  unfold citext_eq in *; bool_hyps; simplify_eq/=; rewrite ?andb_true_iff; split_and?;
  first [apply eq_beq; congruence | apply neq_beq; congruence].
Ltac unique_auto :=
  let k := fresh "k" in let r := fresh "r" in let Hne := fresh "Hne" in let Hk := fresh "Hk" in
  let Hs := fresh "Hs" in
  intros k r Hne Hk Hs; unfold agree in Hs; simpl in Hs;
  first [ done
        | match goal with Hn : negb (exists_row _ ?t) = true, Ht : table_ok _ _ _ ?t |- _ =>
            let Hid := fresh "Hid" in
            destruct (t_row _ _ _ _ Ht _ _ Hk) as [Hid _];
            try match goal with Hold : t !! _ = Some ?x |- _ =>
              assert_fails (constr_eq x r); destruct (t_row _ _ _ _ Ht _ _ Hold) as [? _] end;
            apply (exists_row_not _ _ _ _ Hn Hk); cond_auto end
        | match goal with Hold : ?t !! _ = Some _, Ht : table_ok _ _ _ ?t |- _ =>
            exact (Hne (t_unique _ _ _ _ Ht _ _ _ _ Hk Hold Hs)) end ].
(** The key of the written row: the statement's fresh one, or that of the row it replaces. *)
Ltac old_row :=
  match goal with Hold : ?t !! ?k = Some ?x, Ht : table_ok _ _ _ ?t |- _ =>
    let Hid := fresh "Hid" in let Hok := fresh "Hok" in destruct (t_row _ _ _ _ Ht _ _ Hold) as [Hid Hok];
    hnf in Hok end.
Ltac key_auto := first [done | match goal with Hold : ?t !! _ = Some _, Ht : table_ok _ _ _ ?t |- _ =>
  exact (proj1 (t_row _ _ _ _ Ht _ _ Hold)) end].
Ltac cols_auto := try old_row; bool_hyps; destruct_and?; split_and?; simpl;
  first [ assumption | exact I | by apply is_one_of_true | by apply known | by apply known_if | by apply known_in | by apply Z.eqb_eq | by apply known_member | idtac ].
Ltac put_row := apply table_put; [apply _|assumption|key_auto|hnf; simpl; cols_auto|unique_auto].
Ltac wf_put :=
  intros W;
  match goal with W : wf ?d |- wf ?d' => let Hr := fresh "Hrefs" in
    assert (Hr : refs d d') by refs_auto; pose proof (tables_mono _ _ Hr _ W) as W'; destruct W' end;
  split; simpl; try assumption.
Ltac intact_put := stmt_branches; wf_put.
Section wf_statements.
Context `{Env}.
Abbreviation keeps_wf := (pres intact).

Lemma CreateUser_wf e h f l s : keeps_wf (CreateUser e h f l s).
Proof. intact_put. put_row. Qed.
Lemma CreateOrganization_wf n s st : keeps_wf (QueriesOrg.CreateOrganization n s st).
Proof. intact_put. put_row. Qed.
Lemma CreateRole_wf o n ds sys : keeps_wf (QueriesOrg.CreateRole o n ds sys).
Proof. intact_put. put_row. Qed.
Lemma UpdateRole_wf id o n ds : keeps_wf (QueriesOrg.UpdateRole id o n ds).
Proof. intact_put. put_row. Qed.
Lemma rename_active_organization_wf o n : keeps_wf (rename_active_organization o n).
Proof. intact_put. put_row. Qed.
Lemma CreateRefreshToken_wf u f h e ua ip : keeps_wf (CreateRefreshToken u f h e ua ip).
Proof. intact_put. put_row. Qed.
Lemma RevokeRefreshToken_wf id rb : keeps_wf (RevokeRefreshToken id rb).
Proof.
  intact_put. put_row. apply (nullable_mono (has_token d)); [|by apply known_if]. intros x. apply is_Some_put.
Qed.
Lemma CreateAuditLog_wf o a ac oc tt' ti ip ua rq tr md : keeps_wf (CreateAuditLog o a ac oc tt' ti ip ua rq tr md).
Proof. intact_put. put_row. Qed.
Lemma CreateActivityLog_wf o a ac rt ri md : keeps_wf (CreateActivityLog o a ac rt ri md).
Proof. intact_put. put_row. Qed.
Lemma CreateAPIKey_wf o b n p l h e : keeps_wf (CreateAPIKey o b n p l h e).
Proof. intact_put. put_row. Qed.
Lemma RevokeAPIKey_wf id o a : keeps_wf (RevokeAPIKey id o a).
Proof. intact_put. put_row. Qed.
Lemma RevokeAPIKeyByID_wf id o : keeps_wf (RevokeAPIKeyByID id o).
Proof. intact_put. put_row. Qed.
Lemma TouchAPIKey_wf id : keeps_wf (TouchAPIKey id).
Proof. intact_put. put_row. Qed.
Lemma CreateTeam_wf o n ds b : keeps_wf (CreateTeam o n ds b).
Proof. intact_put. put_row. Qed.
Lemma UpdateTeam_wf id o n ds : keeps_wf (UpdateTeam id o n ds).
Proof. intact_put. put_row. Qed.
Lemma AddTeamMember_wf o t u : keeps_wf (AddTeamMember o t u).
Proof. intact_put. put_row. Qed.
Lemma CreateProject_wf o t n ds st pr sd dd b : keeps_wf (CreateProject o t n ds st pr sd dd b).
Proof. intact_put. put_row. Qed.
Lemma UpdateProject_wf id o t n ds st pr sd dd : keeps_wf (UpdateProject id o t n ds st pr sd dd).
Proof. intact_put. put_row. Qed.
Lemma CreateTask_wf o p t ds st pr a dd b : keeps_wf (CreateTask o p t ds st pr a dd b).
Proof. intact_put. put_row. Qed.
Lemma UpdateTask_wf id o t ds st pr a dd : keeps_wf (UpdateTask id o t ds st pr a dd).
Proof. intact_put. put_row. Qed.

(** Bulk updates and deletions. *)
Lemma alter_put {R} (t : gmap N R) f k r : t !! k = Some r -> alter f k t = <[k := f r]> t.
Proof.
  intros Hk. apply map_eq. intros j. destruct (decide (k = j)) as [<-|].
  - by rewrite lookup_alter_eq, lookup_insert_eq, Hk.
  - by rewrite lookup_alter_ne, lookup_insert_ne.
Qed.
Lemma set_users_same d : set_users (users d) d = d.
Proof. by destruct d. Qed.
Lemma UpdateUserLastLogin_wf id : keeps_wf (UpdateUserLastLogin id).
Proof.
  stmt_branches. destruct (users d !! id) as [u|] eqn:Hu.
  - rewrite (alter_put _ _ _ _ Hu). wf_put. put_row.
  - rewrite alter_id' by done. by rewrite set_users_same.
Qed.

Lemma RevokeWhere_wf d now P : intact d (set_refresh_tokens (revoke_where now P <$> refresh_tokens d) d).
Proof.
  intros W. assert (Hr : refs d (set_refresh_tokens (revoke_where now P <$> refresh_tokens d) d)).
  { split; try done. intros t [x Hx]. unfold has_token. simpl. rewrite lookup_fmap, Hx. simpl. eauto. }
  pose proof (tables_mono _ _ Hr _ W) as []. split; simpl; try assumption.
  assert (Hf : forall r, RefreshToken_ID (revoke_where now P r) = RefreshToken_ID r /\
    RefreshToken_UserID (revoke_where now P r) = RefreshToken_UserID r /\
    RefreshToken_ReplacedBy (revoke_where now P r) = RefreshToken_ReplacedBy r /\
    RefreshToken_TokenHash (revoke_where now P r) = RefreshToken_TokenHash r).
  { intros r. unfold revoke_where. by destruct (_ && _)%bool. }
  apply table_fmap; [| | |assumption].
  - intros r. apply Hf.
  - intros r [Hu Hb]. destruct (Hf r) as (_ & E1 & E2 & _). unfold refresh_token_row. by rewrite E1, E2.
  - intros r r'. unfold agree. destruct (Hf r) as (_ & _ & _ & ->), (Hf r') as (_ & _ & _ & ->). done.
Qed.
Lemma RevokeRefreshTokenFamily_wf f : keeps_wf (RevokeRefreshTokenFamily f).
Proof. stmt_branches. apply RevokeWhere_wf. Qed.
Lemma RevokeAllUserRefreshTokens_wf u : keeps_wf (RevokeAllUserRefreshTokens u).
Proof. stmt_branches. apply RevokeWhere_wf. Qed.

Ltac wf_delete := stmt_branches; intros W; try exact W; destruct W; split; simpl; try assumption;
  try (eapply table_sub; [apply delete_subseteq|assumption]).
Lemma DeleteTask_wf id o : keeps_wf (DeleteTask id o).
Proof. wf_delete. Qed.
Lemma RemoveTeamMember_wf id t o : keeps_wf (RemoveTeamMember id t o).
Proof. wf_delete. Qed.

(** The rows that are left do not refer to the deleted one. *)
Lemma rows_left {R} (key : R -> N) ok ok' same (t : gmap N R) (P : R -> Prop) `{!forall r, Decision (P r)} :
  (forall k r, t !! k = Some r -> P r -> ok r -> ok' r) ->
  table_ok key ok same t -> table_ok key ok' same (rows_where P t).
Proof.
  intros Hok [Hrow Hu]. split.
  - intros k r [Hk HP]%rows_where_lookup. destruct (Hrow _ _ Hk). eauto.
  - intros k k' r r' [Hk _]%rows_where_lookup [Hk' _]%rows_where_lookup. eauto.
Qed.
Lemma holds_delete {R} (t : gmap N R) f id x k o : t !! id = Some x -> ~ (k = id /\ o = f x) ->
  holds t f k o -> holds (delete id t) f k o.
Proof.
  intros Hid Hn (r & Hr & <-). exists r. split; [|done]. rewrite lookup_delete_ne; [done|].
  intros ->. simplify_eq. by apply Hn.
Qed.
Lemma DeleteProject_wf id o : keeps_wf (DeleteProject id o).
Proof.
  wf_delete. eapply rows_left; [|eassumption]. intros k t _ Hn (Hc & Ho & Hu). split_and!; [|done..].
  revert Hc. apply task_checks_by; [|done]. apply (holds_delete _ _ _ p); [done|].
  intros [Ei E]. apply Hn. split; congruence.
Qed.
Lemma DeleteTeam_wf id o : keeps_wf (DeleteTeam id o).
Proof.
  wf_delete.
  - eapply rows_left; [|eassumption]. intros k m _ Hn (Ho & Hu & Ht). split_and!; [done..|].
    apply (holds_delete _ _ _ t); [done| |done]. intros [Ei E]. apply Hn. split; congruence.
  - assert (Hf : forall p, Project_ID (unassign_team (s_now c) id o p) = Project_ID p).
    { intros p. unfold unassign_team. by destruct (_ && _)%bool. }
    split.
    + intros k p' (p & <- & Hp)%lookup_fmap_Some.
      destruct (t_row _ _ _ _ ok_projects0 _ _ Hp) as [<- (Hc & Ho & Hu)]. split; [apply Hf|].
      unfold unassign_team. destruct (_ && _)%bool eqn:E; (split_and!; [|done..]).
      * revert Hc. unfold project_checks. simpl. skip_checks. done.
      * revert Hc. apply project_checks_by. intros t' Et. apply (holds_delete _ _ _ t); [done|].
        intros [-> Eo]. rewrite Et, Eo, beq_refl in E. simpl in E. bool_hyps. congruence.
    + intros k k' r r' _ _ [].
  - eapply table_weaken; [|eassumption]. intros k t' _ (Hc & Ho & Hu). split_and!; [|done..].
    revert Hc. apply task_checks_by; [|done]. intros (p & Hp & Hpo).
    exists (unassign_team (s_now c) id o p). simpl. rewrite lookup_fmap, Hp. split; [done|].
    unfold unassign_team. by destruct (_ && _)%bool.
Qed.
Lemma DeleteRole_wf id o : keeps_wf (QueriesOrg.DeleteRole id o).
Proof.
  wf_delete.
  - eapply table_weaken; [|eassumption]. intros k m Hk (Hs & Ho & Hu & Hr). split_and!; [done..|].
    apply (holds_delete _ _ _ r); [done| |done]. intros [Ei _].
    match goal with Hn : negb (exists_row _ _) = true |- _ => apply (exists_row_not _ _ _ _ Hn Hk) end.
    by apply eq_beq.
  - intros [rid p] [Hne Hin]%elem_of_filter. destruct (ok_grants0 _ Hin) as [[o' (x & Hx & Ho)] Hp].
    split; [|done]. exists o', x. split; [|done]. simpl. by rewrite lookup_delete_ne.
  - eapply rows_left; [|eassumption]. intros k i _ Hn (Hc & Ho & Hr & Hb & Ha). split_and!; [done|done| |done..].
    apply (holds_delete _ _ _ r); [done| |done]. intros [Ei Eo]. apply Hn. split; congruence.
Qed.

(** Grants. *)
Lemma SetRolePermissions_wf r : keeps_wf (SetRolePermissions r).
Proof.
  stmt_branches. destruct (grant_visible _ _ _); [|done]. intros W. destruct W. split; simpl; try assumption.
  intros rp [_ Hin]%elem_of_filter. by apply ok_grants0.
Qed.
Lemma AddRolePermission_wf r p : keeps_wf (AddRolePermission r p).
Proof.
  stmt_branches. intros W. destruct W. split; simpl; try assumption.
  intros rp [->%elem_of_singleton|Hin]%elem_of_union; [|by apply ok_grants0]. bool_hyps.
  split; [|by apply known]. destruct (roles d !! r) as [x|] eqn:E; [|done]. by exists (Role_OrganizationID x), x.
Qed.

(** Invitations. *)
Lemma put_invitation_wf id i d j d' : put_invitation id i d = Ok (j, d') -> wf d -> Invitation_ID i = id ->
  has_org d (Invitation_OrganizationID i) -> role_in d (Invitation_RoleID i) (Invitation_OrganizationID i) ->
  has_user d (Invitation_InvitedBy i) -> wf d'.
Proof.
  intros Hput W Hid Ho Hr Hu. unfold put_invitation in Hput.
  destruct (invitation_checks i) eqn:Hc; [done|]. stmt_inv. destruct W. split; simpl; try assumption.
  apply table_put; [apply _|assumption|done|..].
  - split_and!; [done..|]. by apply known_if.
  - intros k x Hne Hk [Ht|(Hp & Hp' & Hoe & He)].
    + destruct (t_row _ _ _ _ ok_invitations0 _ _ Hk) as [Hxid _].
      match goal with Hn : negb (token_conflict _ _) = true |- _ => apply (exists_row_not _ _ _ _ Hn Hk) end.
      rewrite Ht, beq_refl. apply neq_beq. congruence.
    + destruct (t_row _ _ _ _ ok_invitations0 _ _ Hk) as [Hxid _]. unfold pending_conflict in *.
      rewrite Hp', beq_refl in *. simpl in *.
      match goal with Hn : negb (exists_row _ (invitations _)) = true |- _ => apply (exists_row_not _ _ _ _ Hn Hk) end.
      unfold citext_eq. rewrite Hoe, He, Hp, !beq_refl. apply neq_beq. congruence.
Qed.
Lemma CreateInvitation_wf o em r h b e : keeps_wf (CreateInvitation o em r h b e).
Proof.
  stmt_branches. intros W. bool_hyps. eapply put_invitation_wf; try eassumption; simpl; try done;
    [by apply known|by apply known_in|by apply known].
Qed.
Lemma update_invitation_wf id o extra f :
  (forall now i, Invitation_ID (f now i) = Invitation_ID i /\
     Invitation_OrganizationID (f now i) = Invitation_OrganizationID i /\
     Invitation_RoleID (f now i) = Invitation_RoleID i /\
     Invitation_InvitedBy (f now i) = Invitation_InvitedBy i) ->
  keeps_wf (update_invitation id o extra f).
Proof.
  intros Hf. stmt_branches. intros W. 
  match goal with Hput : put_invitation _ (f ?now ?i) _ = _ |- _ => destruct (Hf now i) as (E1 & E2 & E3 & E4);
    apply (put_invitation_wf _ _ _ _ _ Hput W) end;
  rewrite ?E1, ?E2, ?E3, ?E4; destruct W; old_row; destruct_and?; done.
Qed.
Lemma RotateInvitationToken_wf id o h e : keeps_wf (RotateInvitationToken id o h e).
Proof. by apply update_invitation_wf. Qed.
Lemma AcceptInvitation_wf id o a b : keeps_wf (AcceptInvitation id o a b).
Proof. by apply update_invitation_wf. Qed.
Lemma RevokeInvitation_wf id o a : keeps_wf (RevokeInvitation id o a).
Proof. by apply update_invitation_wf. Qed.
Lemma MarkInvitationExpired_wf id o : keeps_wf (MarkInvitationExpired id o).
Proof. by apply update_invitation_wf. Qed.
Lemma RotateInvitationForDelivery_wf id o h : keeps_wf (RotateInvitationForDelivery id o h).
Proof. by apply update_invitation_wf. Qed.
Lemma MarkInvitationNotified_wf id o : keeps_wf (MarkInvitationNotified id o).
Proof.
  unfold MarkInvitationNotified. pres_step; [apply pres_attempt; by apply update_invitation_wf|]. pres_auto.
Qed.

(** Memberships: the foreign key does not tie the role to the organization; the caller's
    check does. *)
Lemma CreateMembership_wf o u r st j w : role_in (w_db w) r o ->
  pres_at intact (CreateMembership o u r st j) w.
Proof.
  intros Hr. apply pres_at_stmt; [apply _|]. intros c m d' Hb. cbv beta zeta in Hb. stmt_inv.
  set (d := w_db w) in *. wf_put. put_row.
Qed.
Lemma set_RoleID_wf d id m now r : memberships d !! id = Some m ->
  role_in d r (OrganizationMembership_OrganizationID m) ->
  intact d (set_memberships (<[id := OrganizationMembership_set_RoleID now r m]> (memberships d)) d).
Proof. intros Hm Hr. wf_put. put_row. Qed.
End wf_statements.

#[export] Hint Resolve CreateUser_wf CreateOrganization_wf CreateRole_wf UpdateRole_wf
  rename_active_organization_wf CreateRefreshToken_wf RevokeRefreshToken_wf CreateAuditLog_wf
  CreateActivityLog_wf CreateAPIKey_wf RevokeAPIKey_wf RevokeAPIKeyByID_wf TouchAPIKey_wf
  CreateTeam_wf UpdateTeam_wf AddTeamMember_wf CreateProject_wf UpdateProject_wf CreateTask_wf
  UpdateTask_wf UpdateUserLastLogin_wf RevokeRefreshTokenFamily_wf RevokeAllUserRefreshTokens_wf
  DeleteTask_wf RemoveTeamMember_wf DeleteProject_wf DeleteTeam_wf DeleteRole_wf
  SetRolePermissions_wf AddRolePermission_wf CreateInvitation_wf RotateInvitationToken_wf
  AcceptInvitation_wf RevokeInvitation_wf MarkInvitationExpired_wf
  RotateInvitationForDelivery_wf MarkInvitationNotified_wf : teamflow_frame.
