(* ===== verification/Lifecycle.v ===== *)
(** * The life of an invitation

    An invitation is written by the operations of [internal/invitations] and by nothing else,
    with one exception: the foreign key of its role cascades, so deleting a role deletes the
    invitations for it (migration 000015).  [life] is one step of the table: either every row
    stays and evolves as [inv_later] allows, or a role without members was dropped, with its
    invitations.  Every statement, and every operation whose statements rely on what the code
    checked before, runs through such steps ([lives_on]); [life_run] says what that means for one
    invitation. *)
From S2P Require Import Prelude.
From S2P Require Import GoError.
From S2P Require Import Schema.
From S2P Require Import Store.
From S2P Require Import Logic.
From S2P Require Import Sql.
From S2P Require Import QueriesOrg.
From S2P Require Import QueriesAuth.
From S2P Require Import QueriesInv.
From S2P Require Import QueriesWork.
From S2P Require Import Tenancy.
From S2P Require Import Authz.
From S2P Require Import Invitations.
From S2P Require Import Integrity.
Local Open Scope string_scope.

Definition kept (d d' : DB) : Prop := forall k i, invitations d !! k = Some i ->
  exists i', invitations d' !! k = Some i' /\ inv_later i i'.
(** Nobody has the role, which is not a system role. *)
Definition unused_role (d : DB) (id : N) : Prop := (exists r, roles d !! id = Some r /\ Role_IsSystem r = false) /\
  forall k m, memberships d !! k = Some m -> OrganizationMembership_RoleID m <> id.
Definition role_dropped (d d' : DB) : Prop := exists id, unused_role d id /\ roles d' !! id = None /\
  forall k i, invitations d !! k = Some i ->
    invitations d' !! k = Some i \/ Invitation_RoleID i = id /\ invitations d' !! k = None.
Definition life (d d' : DB) : Prop := kept d d' \/ role_dropped d d'.
Definition lives_on (d d' : DB) : Prop := inv_wf d -> inv_wf d' /\ rtc life d d'.
#[export] Instance lives_pre : PreOrder lives_on.
Proof.
  split; [by intros d|]. intros d1 d2 d3 H12 H23 H1. destruct (H12 H1) as [H2 Hl]. destruct (H23 H2) as [H3 Hl'].
  split; [done|by etrans].
Qed.

(** The invitation went with its role: on the way there it was still itself, and its role
    was without members; right after that neither was there. *)
Definition lost_with_role (k : N) (i : Invitation) (d d' : DB) : Prop := exists d1 d2 i1,
  rtc life d d1 /\ invitations d1 !! k = Some i1 /\ inv_later i i1 /\ unused_role d1 (Invitation_RoleID i) /\
  role_dropped d1 d2 /\ roles d2 !! Invitation_RoleID i = None /\ invitations d2 !! k = None /\ rtc life d2 d'.
Lemma lost_later k i i1 d d1 d' : life d d1 -> inv_later i i1 -> lost_with_role k i1 d1 d' -> lost_with_role k i d d'.
Proof.
  intros Hs Hl (d2 & d3 & i2 & Hr & Hi & Hl2 & Hu & Hd). pose proof Hl as (_ & _ & _ & Hrole & _). rewrite Hrole in Hu, Hd.
  exists d2, d3, i2. split_and!; [by eapply rtc_l|done|by etrans|done|apply Hd..].
Qed.
Lemma life_run d d' k i : rtc life d d' -> invitations d !! k = Some i ->
  (exists i', invitations d' !! k = Some i' /\ inv_later i i') \/ lost_with_role k i d d'.
Proof.
  intros Hr. revert i. induction Hr as [d|d d1 d' Hs Hr IH]; intros i Hi; [left; by exists i|].
  assert (Hstep : (exists i1, invitations d1 !! k = Some i1 /\ inv_later i i1) \/
    unused_role d (Invitation_RoleID i) /\ role_dropped d d1 /\ roles d1 !! Invitation_RoleID i = None /\ invitations d1 !! k = None).
  { destruct Hs as [Hk|Hd]; [left; by apply Hk|]. pose proof Hd as (id & Hu & Hroles & Hrows).
    destruct (Hrows k i Hi) as [Hi'|[<- Hi']]; [left; by exists i|by right]. }
  destruct Hstep as [(i1 & Hi1 & Hl)|(Hu & Hd & Hro & Hn)].
  - destruct (IH i1 Hi1) as [(i2 & Hi2 & Hl2)|Hlost]; [left; exists i2; split; [done|by etrans]|right; by eapply lost_later].
  - right. exists d, d1, i. split_and!; [apply rtc_refl|done|done|done|done|done|done|done].
Qed.

Lemma evolves_lives d d' : evolves d d' -> lives_on d d'.
Proof. intros He Hwf. destruct (He Hwf) as [Hwf' Hk]. split; [done|]. by apply rtc_once; left. Qed.
Lemma same_lives d d' : same_invitations d d' -> lives_on d d'.
Proof. intros Hs. by apply evolves_lives, same_evolves. Qed.
Lemma wf_invitations `{Env} d : wf d -> inv_wf d.
Proof.
  intros W. split.
  - intros k i Hk. by destruct (t_row _ _ _ _ (ok_invitations _ _ W) _ _ Hk).
  - intros k1 k2 i1 i2 H1 H2 Ht. eapply (t_unique _ _ _ _ (ok_invitations _ _ W)); [done..|by left].
Qed.

Section statements.
Context `{Env}.
Lemma pres_evolves {A} (m : M A) : pres evolves m -> pres lives_on m.
Proof. apply pres_weaken, evolves_lives. Qed.
Lemma pres_same {A} (m : M A) : pres same_invitations m -> pres lives_on m.
Proof. apply pres_weaken, same_lives. Qed.
Lemma SetRolePermissions_same rid : pres same_invitations (SetRolePermissions rid).
Proof. stmt_branches. by destruct (grant_visible _ _ _). Qed.
(** Deleting a role deletes its invitations, and only those. *)
Lemma DeleteRole_lives id o : pres lives_on (QueriesOrg.DeleteRole id o).
Proof.
  stmt_branches; [|reflexivity]. intros [Hkey Hu]. bool_hyps. split; [split|].
  - intros k i [Hi _]%map_lookup_filter_Some. eauto.
  - intros k1 k2 i1 i2 [Ha _]%map_lookup_filter_Some [Hb _]%map_lookup_filter_Some. eauto.
  - apply rtc_once. right. exists id. split_and!; [split| |]; simpl.
    + eexists. split; [eassumption|done].
    + intros k m Hk. match goal with Hx : exists_row _ _ = false |- _ => rewrite exists_row_false in Hx; specialize (Hx _ _ Hk) end.
      by apply beq_false.
    + apply lookup_delete_eq.
    + intros k i Hk. unfold rows_where. destruct (decide (invitation_for_role id o i)) as [Hr|Hr].
      * right. split; [by destruct Hr|]. apply map_lookup_filter_None. right. intros x Hx Hf. simplify_eq. by apply Hf.
      * left. by apply map_lookup_filter_Some.
Qed.
End statements.
#[export] Existing Instances same_invitations_pre evolves_pre inv_later_pre.
#[export] Hint Resolve DeleteRole_lives : teamflow_frame.
(** The statements of the other tables. *)
#[export] Hint Extern 3 (pres lives_on _) => solve [apply pres_same; first [by stmt_branches | by apply SetRolePermissions_same]] : teamflow_frame.
#[export] Hint Extern 3 (pres lives_on _) => (apply pres_evolves; first
  [apply CreateInvitation_evolves|apply RotateInvitationToken_evolves|apply MarkInvitationExpired_evolves
  |apply RotateInvitationForDelivery_evolves|apply MarkInvitationNotified_evolves]) : teamflow_frame.
