(* ===== verification/Roster.v ===== *)
(** * The roster: an abstract specification of membership

    Who belongs to which organization, in which role, who is an Owner there, and which
    invitations are open: all that a customer of the program has to know about membership,
    without tables, transactions, sessions or tokens.  A step of the roster is taken by
    somebody, [Some u], or by nobody ([None], a caller without credentials or a job):

    - anyone founds an organization, for themselves or for a new user, as its first Owner;
    - an active member offers a role to somebody; an Owner role only an Owner can offer;
    - an open offer is taken once, by someone who is no member yet, and only for its role;
    - an active member gives another one a new role, the last Owner excepted; if the old or the
      new role is an Owner role, only an Owner does;
    - offers are closed or dropped.

    Nobody ever leaves, and nobody's status changes.  Nothing here knows of permissions other
    than the Owner's.

    [roster d] is the roster of the tables [d].  That every operation of the program moves it
    by these steps, taken by its caller, is proved with the operations ([Ownership],
    [Services]), for the two processes in [System]. *)
From S2P Require Import Prelude.
From S2P Require Import Schema.
From S2P Require Import Store.
From S2P Require Import Organizations.
From S2P Require Import Authz.
From S2P Require Import Integrity.
Local Open Scope string_scope.

(** ** The abstract machine *)
Record Standing := { st_org : N; st_user : N; st_role : N; st_active : bool }.
Record Offer := { of_org : N; of_role : N; of_open : bool }.
(** [r_owners]: the roles that are Owner roles. *)
Record Roster := {
  r_orgs : gset N; r_owners : gset N; r_members : gmap N Standing; r_offers : gmap N Offer
}.
Definition no_roster : Roster := {| r_orgs := ∅; r_owners := ∅; r_members := ∅; r_offers := ∅ |}.
Definition enrol (k : N) (s : Standing) (r : Roster) : Roster :=
  {| r_orgs := r_orgs r; r_owners := r_owners r; r_members := <[k := s]> (r_members r); r_offers := r_offers r |}.
Definition with_offers (t : gmap N Offer) (r : Roster) : Roster :=
  {| r_orgs := r_orgs r; r_owners := r_owners r; r_members := r_members r; r_offers := t |}.
Definition found (o owner : N) (r : Roster) : Roster :=
  {| r_orgs := {[o]} ∪ r_orgs r; r_owners := {[owner]} ∪ r_owners r; r_members := r_members r; r_offers := r_offers r |}.
Definition with_role (role : N) (s : Standing) : Standing :=
  {| st_org := st_org s; st_user := st_user s; st_role := role; st_active := st_active s |}.
Definition is_owner (r : Roster) (o : N) (s : Standing) : Prop :=
  st_org s = o /\ st_active s = true /\ st_role s ∈ r_owners r.
(** [who] is an active member of [o], and an Owner if one of the roles is an Owner role. *)
Definition entitled (r : Roster) (who : option N) (o : N) (old new : N) : Prop :=
  exists k a, who = Some (st_user a) /\ r_members r !! k = Some a /\ st_org a = o /\ st_active a = true /\
    (old ∈ r_owners r \/ new ∈ r_owners r -> is_owner r o a).
(** Offers dropped or closed, none opened or changed. *)
Definition narrowed (t t' : gmap N Offer) : Prop := forall i x', t' !! i = Some x' ->
  exists x, t !! i = Some x /\ of_org x' = of_org x /\ of_role x' = of_role x /\ (of_open x' = true -> of_open x = true).
#[export] Instance narrowed_pre : PreOrder narrowed.
Proof.
  split; [intros t i x Hx; by exists x|]. intros t1 t2 t3 H12 H23 i x3 H3.
  destruct (H23 i x3 H3) as (x2 & H2 & E1 & E2 & E3). destruct (H12 i x2 H2) as (x1 & H1 & F1 & F2 & F3).
  exists x1. split_and!; [done|congruence|congruence|auto].
Qed.

Section machine.
Variable who : option N.
Inductive roster_step : Roster -> Roster -> Prop :=
  | roster_found r k s : st_org s ∉ r_orgs r -> r_members r !! k = None -> st_active s = true ->
      (forall j x, r_members r !! j = Some x -> st_role x <> st_role s) ->
      (forall i x, r_offers r !! i = Some x -> of_role x <> st_role s) ->
      (who = Some (st_user s) \/ forall j x, r_members r !! j = Some x -> st_user x <> st_user s) ->
      roster_step r (enrol k s (found (st_org s) (st_role s) r))
  | roster_offer r i x : r_offers r !! i = None -> of_org x ∈ r_orgs r ->
      entitled r who (of_org x) (of_role x) (of_role x) ->
      roster_step r (with_offers (<[i := x]> (r_offers r)) r)
  | roster_take r k s i x t : r_offers r !! i = Some x -> of_open x = true ->
      of_org x = st_org s -> of_role x = st_role s -> st_org s ∈ r_orgs r ->
      r_members r !! k = None -> st_active s = true ->
      (forall j y, r_members r !! j = Some y -> st_org y = st_org s -> st_user y <> st_user s) ->
      narrowed (r_offers r) t -> (forall y, t !! i = Some y -> of_open y = false) ->
      roster_step r (enrol k s (with_offers t r))
  | roster_assign r k s role : r_members r !! k = Some s -> st_active s = true ->
      entitled r who (st_org s) (st_role s) role ->
      (st_role s ∈ r_owners r -> role ∉ r_owners r ->
         exists j x, j <> k /\ r_members r !! j = Some x /\ is_owner r (st_org s) x) ->
      roster_step r (enrol k (with_role role s) r)
  | roster_close r t : narrowed (r_offers r) t -> roster_step r (with_offers t r).

(** What the machine promises: organizations stay owned, members stay members. *)
Definition roster_owned (r : Roster) : Prop := forall o, o ∈ r_orgs r ->
  exists k s, r_members r !! k = Some s /\ is_owner r o s.
Definition member_still (s s' : Standing) : Prop :=
  st_org s' = st_org s /\ st_user s' = st_user s /\ st_active s' = st_active s.
Definition roster_grows (r r' : Roster) : Prop := r_orgs r ⊆ r_orgs r' /\
  forall k s, r_members r !! k = Some s -> exists s', r_members r' !! k = Some s' /\ member_still s s'.
#[export] Instance member_still_pre : PreOrder member_still.
Proof. split; [by intros ?|]. intros ? ? ? (?&?&?) (?&?&?). split_and!; congruence. Qed.
#[export] Instance roster_grows_pre : PreOrder roster_grows.
Proof.
  split; [intros r; split; [done|]; intros k s Hk; by exists s|].
  intros r1 r2 r3 [Ho1 Hm1] [Ho2 Hm2]. split; [by etrans|]. intros k s Hk.
  destruct (Hm1 k s Hk) as (s2 & Hk2 & Hs2). destruct (Hm2 k s2 Hk2) as (s3 & Hk3 & Hs3). exists s3. split; [done|by etrans].
Qed.
Lemma enrol_grows k s r r' : r_orgs r ⊆ r_orgs r' -> r_members r' = <[k := s]> (r_members r) ->
  (forall s0, r_members r !! k = Some s0 -> member_still s0 s) -> roster_grows r r'.
Proof.
  intros Ho Hm Hs. split; [done|]. intros j x Hj. rewrite Hm. destruct (decide (k = j)) as [<-|].
  - exists s. split; [apply lookup_insert_eq|by apply Hs].
  - exists x. by rewrite lookup_insert_ne.
Qed.
Lemma roster_step_grows r r' : roster_step r r' -> roster_grows r r'.
Proof.
  intros [r0 k s Hn Hk|r0 i x|r0 k s i x t _ _ _ _ _ Hk|r0 k s role Hk|r0 t].
  - apply (enrol_grows k s); simpl; [apply union_subseteq_r|done|intros; congruence].
  - split; [done|]. intros j y Hj. by exists y.
  - apply (enrol_grows k s); simpl; [done|done|intros; congruence].
  - apply (enrol_grows k (with_role role s)); simpl; [done|done|]. intros s0 Hs0. by simplify_eq.
  - split; [done|]. intros j y Hj. by exists y.
Qed.
Lemma roster_step_owned r r' : roster_step r r' -> roster_owned r -> roster_owned r'.
Proof.
  intros [r0 k s Hn Hk Ha|r0 i x|r0 k s i x t _ _ _ _ _ Hk _|r0 k s role Hk Ha _ Hl|r0 t] Hr o Hin; simpl in *;
    [|by apply Hr| | |by apply Hr].
  - apply elem_of_union in Hin as [->%elem_of_singleton|Ho].
    { exists k, s. rewrite lookup_insert_eq. split; [done|]. split_and!; simpl; [done|done|set_solver]. }
    destruct (Hr o Ho) as (j & x & Hj & Hxo & Hxa & Hx). exists j, x.
    rewrite lookup_insert_ne by (intros ->; congruence). split; [done|]. split_and!; simpl; [done|done|set_solver].
  - destruct (Hr o Hin) as (j & y & Hj & Hy). exists j, y. by rewrite lookup_insert_ne by (intros ->; congruence).
  - destruct (Hr o Hin) as (j & x & Hj & Hx). destruct (decide (k = j)) as [<-|]; [|exists j, x; by rewrite lookup_insert_ne].
    simplify_eq. destruct Hx as (<- & Hxa & Hxw). destruct (decide (role ∈ r_owners r0)) as [Hro|Hno].
    + eexists k, _. rewrite lookup_insert_eq. split; [done|]. by split_and!.
    + destruct (Hl Hxw Hno) as (k' & s' & Hne & Hk' & Hs'). exists k', s'. by rewrite lookup_insert_ne.
Qed.
Lemma roster_run_grows r r' : rtc roster_step r r' -> roster_grows r r'.
Proof. induction 1 as [|r r1 r2 Hs _ IH]; [reflexivity|]. etrans; [by apply roster_step_grows|done]. Qed.
Lemma roster_run_owned r r' : rtc roster_step r r' -> roster_owned r -> roster_owned r'.
Proof. induction 1 as [|r r1 r2 Hs _ IH]; [done|]. intros Hr. apply IH. by eapply roster_step_owned. Qed.
End machine.

(** ** The roster of the tables *)
Definition owner_role (r : Role) : Prop := Role_IsSystem r = true /\ Role_Name r = "Owner".
Definition owner_roles (d : DB) : gset N := dom (filter (fun kr => owner_role kr.2) (roles d)).
Definition standing (m : OrganizationMembership) : Standing := {|
  st_org := OrganizationMembership_OrganizationID m; st_user := OrganizationMembership_UserID m;
  st_role := OrganizationMembership_RoleID m; st_active := OrganizationMembership_Status m =?= "active"
|}.
Definition offer (i : Invitation) : Offer := {|
  of_org := Invitation_OrganizationID i; of_role := Invitation_RoleID i; of_open := Invitation_Status i =?= "pending"
|}.
Definition offers (d : DB) : gmap N Offer := offer <$> invitations d.
Definition roster (d : DB) : Roster := {|
  r_orgs := dom (organizations d); r_owners := owner_roles d;
  r_members := standing <$> memberships d; r_offers := offers d
|}.

Lemma elem_of_owner_roles d k : k ∈ owner_roles d <-> exists r, roles d !! k = Some r /\ owner_role r.
Proof.
  unfold owner_roles. rewrite elem_of_dom. split.
  - intros [r Hr]. apply map_lookup_filter_Some in Hr as [Hr Ho]. by exists r.
  - intros (r & Hr & Ho). exists r. by apply map_lookup_filter_Some.
Qed.
Lemma roster_member d k m : memberships d !! k = Some m -> r_members (roster d) !! k = Some (standing m).
Proof. intros Hk. simpl. by rewrite lookup_fmap, Hk. Qed.
Lemma roster_absent d k : memberships d !! k = None -> r_members (roster d) !! k = None.
Proof. intros Hk. simpl. by rewrite lookup_fmap, Hk. Qed.
Lemma standing_active m : OrganizationMembership_Status m = "active" -> st_active (standing m) = true.
Proof. intros Ha. simpl. by rewrite Ha, beq_refl. Qed.
Lemma member_of_roster d k s : r_members (roster d) !! k = Some s -> exists m, memberships d !! k = Some m /\ s = standing m.
Proof. intros (m & <- & Hm)%lookup_fmap_Some. by exists m. Qed.
Lemma offer_of_roster d i x : r_offers (roster d) !! i = Some x -> exists j, invitations d !! i = Some j /\ x = offer j.
Proof. intros (j & <- & Hj)%lookup_fmap_Some. by exists j. Qed.

(** One role added or changed. *)
Lemma owner_roles_put d k r : (owner_role r -> k ∈ owner_roles d) -> (k ∈ owner_roles d -> owner_role r) ->
  owner_roles (set_roles (<[k := r]> (roles d)) d) = owner_roles d.
Proof.
  intros H1 H2. apply set_eq. intros j. rewrite !elem_of_owner_roles. simpl. destruct (decide (k = j)) as [<-|].
  - rewrite lookup_insert_eq, <- elem_of_owner_roles. split; [by intros (x & [= <-] & Hx); auto|]. intros Hk. exists r. auto.
  - by rewrite lookup_insert_ne.
Qed.
Lemma owner_roles_delete d d' k : roles d' = delete k (roles d) -> k ∉ owner_roles d -> owner_roles d' = owner_roles d.
Proof.
  intros Hd Hk. apply set_eq. intros j. rewrite !elem_of_owner_roles, Hd. destruct (decide (k = j)) as [<-|].
  - rewrite lookup_delete_eq. split; [by intros (x & [=] & _)|]. intros Hx. by destruct Hk; apply elem_of_owner_roles.
  - by rewrite lookup_delete_ne.
Qed.

(** One invitation written over an older one. *)
Lemma narrowed_put d i j j' : invitations d !! i = Some j ->
  Invitation_OrganizationID j' = Invitation_OrganizationID j -> Invitation_RoleID j' = Invitation_RoleID j ->
  (Invitation_Status j' = "pending" -> Invitation_Status j = "pending") ->
  narrowed (offers d) (offer <$> <[i := j']> (invitations d)).
Proof.
  intros Hi Ho Hr Hp k x (y & <- & Hy)%lookup_fmap_Some. unfold offers. rewrite lookup_fmap.
  apply lookup_insert_Some in Hy as [[<- <-]|[Hne Hy]].
  - rewrite Hi. exists (offer j). split_and!; simpl; [done|done|done|]. intros Hs%beq_eq. rewrite Hp by done. apply beq_refl.
  - rewrite Hy. by exists (offer y).
Qed.
Lemma narrowed_sub d t : t ⊆ invitations d -> narrowed (offers d) (offer <$> t).
Proof.
  intros Ht k x (y & <- & Hy)%lookup_fmap_Some. exists (offer y). unfold offers. rewrite lookup_fmap.
  by rewrite (lookup_weaken _ _ _ _ Hy Ht).
Qed.

(** ** The steps on the tables *)
Section steps.
Context `{Env} (who : option N).

(** What the statements around a new organization leave alone: invitations and the roles of
    other organizations. *)
Definition seeding (o : N) (d d' : DB) : Prop := invitations d' = invitations d /\
  forall k r, roles d' !! k = Some r -> roles d !! k = Some r \/ Role_OrganizationID r = o.
#[export] Instance seeding_pre o : PreOrder (seeding o).
Proof.
  split; [intros d; split; [done|]; auto|]. intros d1 d2 d3 [I12 R12] [I23 R23]. split; [congruence|].
  intros k r Hr. destruct (R23 k r Hr); auto.
Qed.
Lemma founded_owners u o d d' : wf d -> wf d' -> founded u o d d' -> seeding o d d' -> exists own,
  owner_ready o own d' /\ owner_roles d' = {[own]} ∪ owner_roles d /\ roles d !! own = None.
Proof.
  intros W W' (org & m & Hno & _ & _ & _ & _ & _ & _ & _ & _ & Hr & _ & Hready) [_ Hroles].
  exists (OrganizationMembership_RoleID m). split; [done|]. pose proof Hready as (r & Hk & Ho & Hn & Hs & _).
  assert (Hold : forall k x, roles d !! k = Some x -> Role_OrganizationID x <> o).
  { intros k x Hx Hxo. destruct (t_row _ _ _ _ (ok_roles _ _ W) _ _ Hx) as [_ [_ [y Hy]]]. rewrite Hxo in Hy. congruence. }
  split.
  - apply set_eq. intros k. rewrite elem_of_union, elem_of_singleton, !elem_of_owner_roles. split.
    + intros (x & Hx & Hxs & Hxn). destruct (Hroles k x Hx) as [Hd|Hxo]; [right; by exists x|left].
      eapply (t_unique _ _ _ _ (ok_roles _ _ W')); [done..|]. unfold agree. congruence.
    + intros [->|(x & Hx & Hxo)]; [by exists r|]. exists x. split; [by eapply lookup_weaken|done].
  - destruct (roles d !! _) as [x|] eqn:Hx; [|done]. destruct (Hold _ _ Hx).
    pose proof (lookup_weaken _ _ _ _ Hx Hr). congruence.
Qed.
Lemma founded_step u o d d' : wf d -> wf d' -> founded u o d d' -> seeding o d d' ->
  (who = Some u \/ forall k m, memberships d !! k = Some m -> OrganizationMembership_UserID m <> u) ->
  roster_step who (roster d) (roster d').
Proof.
  intros W W' Hf Hs Hwho. destruct (founded_owners _ _ _ _ W W' Hf Hs) as (own & Hready & Hown & Hfresh).
  destruct Hf as (org & m & Hno & Horg & _ & Hk & Hmem & Hmo & Hmu & Hma & _ & _ & _ & Hready').
  assert (OrganizationMembership_RoleID m = own) as Hm.
  { destruct Hready as (r1 & ? & ? & ? & _), Hready' as (r2 & ? & ? & ? & _).
    eapply (t_unique _ _ _ _ (ok_roles _ _ W')); [done..|]. unfold agree. congruence. }
  assert (roster d' = enrol (OrganizationMembership_ID m) (standing m) (found (st_org (standing m)) (st_role (standing m)) (roster d))) as ->.
  { unfold roster, enrol, found, offers. simpl. rewrite Horg, Hmem, Hown, fmap_insert, dom_insert_L, Hmo, Hm.
    by rewrite (proj1 Hs). }
  apply roster_found; simpl.
  - rewrite Hmo. by apply not_elem_of_dom.
  - by apply roster_absent.
  - by apply standing_active.
  - intros j x (y & Hy & ->)%member_of_roster. simpl. rewrite Hm. intros Hr.
    destruct (t_row _ _ _ _ (ok_memberships _ _ W) _ _ Hy) as [_ (_ & _ & _ & (r & Hx & _))]. congruence.
  - intros i x (y & Hy & ->)%offer_of_roster. simpl. rewrite Hm. intros Hr.
    destruct (t_row _ _ _ _ (ok_invitations _ _ W) _ _ Hy) as [_ (_ & _ & (r & Hx & _) & _)]. congruence.
  - rewrite Hmu. destruct Hwho as [?|Hnew]; [by left|right]. intros j x (y & Hy & ->)%member_of_roster. by eapply Hnew.
Qed.

(** The invitation [i] was taken for the new membership [m]. *)
Lemma taken_step d d' k m i j :
  dom (organizations d') = dom (organizations d) -> owner_roles d' = owner_roles d ->
  memberships d' = <[k := m]> (memberships d) -> narrowed (offers d) (offers d') ->
  (forall y, offers d' !! i = Some y -> of_open y = false) ->
  memberships d !! k = None -> OrganizationMembership_Status m = "active" ->
  (forall k' x, memberships d !! k' = Some x ->
     OrganizationMembership_OrganizationID x = OrganizationMembership_OrganizationID m ->
     OrganizationMembership_UserID x <> OrganizationMembership_UserID m) ->
  has_org d (OrganizationMembership_OrganizationID m) ->
  invitations d !! i = Some j -> Invitation_Status j = "pending" ->
  Invitation_OrganizationID j = OrganizationMembership_OrganizationID m ->
  Invitation_RoleID j = OrganizationMembership_RoleID m ->
  roster_step who (roster d) (roster d').
Proof.
  intros Ho Hw Hm Hn Hclosed Hk Ha Hu Horg Hj Hp Hjo Hjr.
  assert (roster d' = enrol k (standing m) (with_offers (offers d') (roster d))) as ->.
  { unfold roster, enrol, with_offers. simpl. by rewrite Ho, Hw, Hm, fmap_insert. }
  apply (roster_take who _ k _ i (offer j)); simpl; [|by rewrite Hp, beq_refl|done|done| | | | |done|done].
  - unfold offers. by rewrite lookup_fmap, Hj.
  - by apply elem_of_dom.
  - by apply roster_absent.
  - by apply standing_active.
  - intros k' y (x & Hx & ->)%member_of_roster. simpl. by apply (Hu k').
Qed.
Lemma assigned_step d k m m' : memberships d !! k = Some m -> OrganizationMembership_Status m = "active" ->
  OrganizationMembership_OrganizationID m' = OrganizationMembership_OrganizationID m ->
  OrganizationMembership_UserID m' = OrganizationMembership_UserID m ->
  OrganizationMembership_Status m' = OrganizationMembership_Status m ->
  entitled (roster d) who (OrganizationMembership_OrganizationID m) (OrganizationMembership_RoleID m)
    (OrganizationMembership_RoleID m') ->
  (OrganizationMembership_RoleID m ∈ owner_roles d -> OrganizationMembership_RoleID m' ∉ owner_roles d ->
     exists j x, j <> k /\ memberships d !! j = Some x /\
       is_owner (roster d) (OrganizationMembership_OrganizationID m) (standing x)) ->
  roster_step who (roster d) (roster (set_memberships (<[k := m']> (memberships d)) d)).
Proof.
  intros Hk Ha Ho Hu Hst He Hl.
  assert (roster (set_memberships (<[k := m']> (memberships d)) d) =
    enrol k (with_role (OrganizationMembership_RoleID m') (standing m)) (roster d)) as ->.
  { unfold roster, enrol. simpl. rewrite fmap_insert. do 2 f_equal. unfold standing, with_role. simpl. by rewrite Ho, Hu, Hst. }
  apply roster_assign; [by apply roster_member|by apply standing_active|done|].
  intros H1 H2. destruct (Hl H1 H2) as (j & x & Hne & Hx & Hown). exists j, (standing x).
  split_and!; [done|by apply roster_member|done].
Qed.
Lemma offered_step d i j : invitations d !! i = None -> has_org d (Invitation_OrganizationID j) ->
  entitled (roster d) who (Invitation_OrganizationID j) (Invitation_RoleID j) (Invitation_RoleID j) ->
  roster_step who (roster d) (roster (set_invitations (<[i := j]> (invitations d)) d)).
Proof.
  intros Hi Ho He.
  assert (roster (set_invitations (<[i := j]> (invitations d)) d) = with_offers (<[i := offer j]> (r_offers (roster d))) (roster d)) as ->.
  { unfold roster, with_offers, offers. simpl. by rewrite fmap_insert. }
  apply roster_offer; [|by apply elem_of_dom|done]. simpl. unfold offers. by rewrite lookup_fmap, Hi.
Qed.
End steps.
