(* ===== verification/Ownership.v ===== *)
(** * Every organization keeps an owner

    An organization whose last Owner is gone can never be administered again: only an Owner
    makes an Owner ([AssignMemberRole]).  [owned d o] is what must not be lost: an active
    member of [o] with the system role named Owner, holding every permission of the
    catalogue.

    A statement that leaves memberships, system roles, their grants and open invitations
    alone keeps it ([steady]): every statement of [queries/] but the four that create an
    organization, a membership or an invitation or change a membership's role, and
    [CreateRole] and [SetRolePermissions] for a role that is not a system role.  Joining only
    adds a member.  Assigning a role keeps an owner by the check of [AssignMemberRole]; creating
    an organization establishes it for the new one.  Both hold for a transaction that
    committed, not for each of its states, so they are proved of the whole operation: an error
    rolls everything back.

    [good] tables are well formed and every organization is owned; an operation is [sound who]
    when it leads from good tables to good tables, moves the roster by steps that [who]
    takes ([Roster]) and the invitations by steps of their [life] ([Lifecycle]). *)
From S2P Require Import Prelude.
From S2P Require Import GoError.
From S2P Require Import Schema.
From S2P Require Import Store.
From S2P Require Import Logic.
From S2P Require Import Sql.
From S2P Require Import QueriesOrg.
From S2P Require Import QueriesAuth.
From S2P Require Import QueriesInv.
From S2P Require Import QueriesWork.
From S2P Require Import Permissions.
From S2P Require Import Tenancy.
From S2P Require Import Slug.
From S2P Require Import AuditTrail.
From S2P Require Import Authz.
From S2P Require Import Organizations.
From S2P Require Import Integrity.
From S2P Require Import Lifecycle.
From S2P Require Import Roster.
Local Open Scope string_scope.

(** The organization has an active member with the complete Owner role. *)
Definition owned (d : DB) (o : N) : Prop := exists k m,
  memberships d !! k = Some m /\ OrganizationMembership_OrganizationID m = o /\
  OrganizationMembership_Status m = "active" /\ owner_ready o (OrganizationMembership_RoleID m) d.
Definition all_owned (d : DB) : Prop := forall o, has_org d o -> owned d o.

(** Organizations, memberships and owner roles stay, and so do system roles and their grants;
    invitations are at most closed. *)
Record steady (d d' : DB) : Prop := {
  st_orgs : dom (organizations d') = dom (organizations d);
  st_permissions : permissions d' = permissions d;
  st_members : memberships d' = memberships d;
  st_roles : forall k r, roles d !! k = Some r -> Role_IsSystem r = true -> roles d' !! k = Some r;
  st_owners : owner_roles d' = owner_roles d;
  st_grants : forall k r p, roles d !! k = Some r -> Role_IsSystem r = true ->
    (k, p) ∈ role_permissions d -> (k, p) ∈ role_permissions d';
  st_offers : narrowed (offers d) (offers d')
}.
#[export] Instance steady_pre : PreOrder steady.
Proof.
  split.
  - intros d. split; done.
  - intros d1 d2 d3 [] []. split; try congruence; [auto|eauto|by etrans].
Qed.
Lemma steady_step who d d' : steady d d' -> roster_step who (roster d) (roster d').
Proof.
  intros [Ho _ Hm _ Hw _ Hn]. assert (roster d' = with_offers (offers d') (roster d)) as ->.
  { unfold roster, with_offers. simpl. by rewrite Ho, Hm, Hw. }
  by apply roster_close.
Qed.
Lemma steady_ready o rid d d' : steady d d' -> owner_ready o rid d -> owner_ready o rid d'.
Proof.
  intros [] (r & Hr & Ho & Hn & Hs & Hg). exists r. split_and!; auto. intros key Hkey.
  destruct (Hg key Hkey) as (pid & p & Hp & Hk & Hin). exists pid, p. rewrite st_permissions0. eauto.
Qed.
Lemma steady_owned d d' : steady d d' -> all_owned d -> all_owned d'.
Proof.
  intros Hs Hall o Ho. unfold has_org in Ho. rewrite <- elem_of_dom, (st_orgs _ _ Hs), elem_of_dom in Ho.
  destruct (Hall o Ho) as (k & m & Hk & Hm & Ha & Hr).
  exists k, m. split_and!; [by rewrite (st_members _ _ Hs)|done..|by eapply steady_ready].
Qed.

(** ** Statements *)
(** A role that is not a system role is no owner role, before or after. *)
Lemma custom_not_owner d k r : roles d !! k = Some r -> Role_IsSystem r = false -> k ∉ owner_roles d.
Proof. intros Hr Hs (x & Hx & Ho & _)%elem_of_owner_roles. congruence. Qed.
Lemma unknown_not_owner d k : roles d !! k = None -> k ∉ owner_roles d.
Proof. intros Hr (x & Hx & _)%elem_of_owner_roles. congruence. Qed.
Lemma custom_put d k r : k ∉ owner_roles d -> Role_IsSystem r = false ->
  owner_roles (set_roles (<[k := r]> (roles d)) d) = owner_roles d.
Proof. intros Hk Hr. apply owner_roles_put; [intros [? _]; congruence|done]. Qed.
Ltac steady_auto :=
  stmt_branches; first [reflexivity | split; simpl; try done];
  intros; simpl in *;
  first [ eassumption
        | reflexivity
        | rewrite dom_insert_lookup_L; [done|eauto]
        | rewrite lookup_insert_ne; [done | intros ?; subst; congruence]
        | rewrite lookup_insert_ne; [done | intros ?; subst; bool_hyps; simplify_map_eq; congruence]
        | rewrite lookup_delete_ne; [done | intros ?; subst; bool_hyps; simplify_map_eq; congruence]
        | apply elem_of_filter; split; [simpl; intros ?; subst; bool_hyps; simplify_map_eq; congruence | done]
        | set_solver
        | idtac ].
Section statements.
Context `{Env}.
Abbreviation is_steady := (pres steady).
Lemma CreateUser_steady e h f l s : is_steady (CreateUser e h f l s).
Proof. steady_auto. Qed.
Lemma CreateRole_steady o n ds : is_steady (QueriesOrg.CreateRole o n ds false).
Proof. steady_auto. apply custom_put; [by apply unknown_not_owner|done]. Qed.
Lemma UpdateRole_steady id o n ds : is_steady (QueriesOrg.UpdateRole id o n ds).
Proof. steady_auto. bool_hyps. apply custom_put; [by eapply custom_not_owner|done]. Qed.
Lemma rename_active_organization_steady o n : is_steady (rename_active_organization o n).
Proof. steady_auto. Qed.
Lemma CreateRefreshToken_steady u f h e ua ip : is_steady (CreateRefreshToken u f h e ua ip).
Proof. steady_auto. Qed.
Lemma RevokeRefreshToken_steady id rb : is_steady (RevokeRefreshToken id rb).
Proof. steady_auto. Qed.
Lemma CreateAuditLog_steady o a ac oc tt' ti ip ua rq tr md : is_steady (CreateAuditLog o a ac oc tt' ti ip ua rq tr md).
Proof. steady_auto. Qed.
Lemma CreateActivityLog_steady o a ac rt ri md : is_steady (CreateActivityLog o a ac rt ri md).
Proof. steady_auto. Qed.
Lemma CreateAPIKey_steady o b n p l h e : is_steady (CreateAPIKey o b n p l h e).
Proof. steady_auto. Qed.
Lemma RevokeAPIKey_steady id o a : is_steady (RevokeAPIKey id o a).
Proof. steady_auto. Qed.
Lemma RevokeAPIKeyByID_steady id o : is_steady (RevokeAPIKeyByID id o).
Proof. steady_auto. Qed.
Lemma TouchAPIKey_steady id : is_steady (TouchAPIKey id).
Proof. steady_auto. Qed.
Lemma CreateTeam_steady o n ds b : is_steady (CreateTeam o n ds b).
Proof. steady_auto. Qed.
Lemma UpdateTeam_steady id o n ds : is_steady (UpdateTeam id o n ds).
Proof. steady_auto. Qed.
Lemma AddTeamMember_steady o t u : is_steady (AddTeamMember o t u).
Proof. steady_auto. Qed.
Lemma CreateProject_steady o t n ds st pr sd dd b : is_steady (CreateProject o t n ds st pr sd dd b).
Proof. steady_auto. Qed.
Lemma UpdateProject_steady id o t n ds st pr sd dd : is_steady (UpdateProject id o t n ds st pr sd dd).
Proof. steady_auto. Qed.
Lemma CreateTask_steady o p t ds st pr a dd b : is_steady (CreateTask o p t ds st pr a dd b).
Proof. steady_auto. Qed.
Lemma UpdateTask_steady id o t ds st pr a dd : is_steady (UpdateTask id o t ds st pr a dd).
Proof. steady_auto. Qed.
Lemma UpdateUserLastLogin_steady id : is_steady (UpdateUserLastLogin id).
Proof. steady_auto. Qed.
Lemma RevokeRefreshTokenFamily_steady f : is_steady (RevokeRefreshTokenFamily f).
Proof. steady_auto. Qed.
Lemma RevokeAllUserRefreshTokens_steady u : is_steady (RevokeAllUserRefreshTokens u).
Proof. steady_auto. Qed.
Lemma DeleteTask_steady id o : is_steady (DeleteTask id o).
Proof. steady_auto. Qed.
Lemma RemoveTeamMember_steady id t o : is_steady (RemoveTeamMember id t o).
Proof. steady_auto. Qed.
Lemma DeleteProject_steady id o : is_steady (DeleteProject id o).
Proof. steady_auto. Qed.
Lemma DeleteTeam_steady id o : is_steady (DeleteTeam id o).
Proof. steady_auto. Qed.
Lemma DeleteRole_steady id o : is_steady (QueriesOrg.DeleteRole id o).
Proof.
  steady_auto.
  - bool_hyps. eapply owner_roles_delete; [done|by eapply custom_not_owner].
  - apply narrowed_sub, map_filter_subseteq.
Qed.
Lemma AddRolePermission_steady r p : is_steady (AddRolePermission r p).
Proof. steady_auto. Qed.
(** An update of an invitation that neither moves nor reopens it. *)
Definition no_reopen (f : Z -> Invitation -> Invitation) : Prop := forall now i,
  Invitation_OrganizationID (f now i) = Invitation_OrganizationID i /\ Invitation_RoleID (f now i) = Invitation_RoleID i /\
  (Invitation_Status (f now i) = "pending" -> Invitation_Status i = "pending").
Lemma update_invitation_steady id o extra f : no_reopen f -> is_steady (update_invitation id o extra f).
Proof.
  intros Hf. stmt_branches. unfold put_invitation in *. stmt_inv. split; try done.
  match goal with |- context [f ?now ?x] => destruct (Hf now x) as (Hf1 & Hf2 & Hf3) end. by eapply narrowed_put.
Qed.
Lemma RotateInvitationToken_steady id o h e : is_steady (RotateInvitationToken id o h e).
Proof. by apply update_invitation_steady. Qed.
Lemma AcceptInvitation_steady id o a b : is_steady (AcceptInvitation id o a b).
Proof. by apply update_invitation_steady. Qed.
Lemma RevokeInvitation_steady id o a : is_steady (RevokeInvitation id o a).
Proof. by apply update_invitation_steady. Qed.
Lemma MarkInvitationExpired_steady id o : is_steady (MarkInvitationExpired id o).
Proof. by apply update_invitation_steady. Qed.
Lemma RotateInvitationForDelivery_steady id o h : is_steady (RotateInvitationForDelivery id o h).
Proof. by apply update_invitation_steady. Qed.
Lemma MarkInvitationNotified_steady id o : is_steady (MarkInvitationNotified id o).
Proof.
  unfold MarkInvitationNotified. pres_step; [by apply pres_attempt, update_invitation_steady|]. pres_auto.
Qed.
(** The grants of a role that is not a system role are the organization's to change. *)
Definition custom_role (d : DB) (rid : N) : Prop := forall r, roles d !! rid = Some r -> Role_IsSystem r = false.
Lemma SetRolePermissions_steady rid w : custom_role (w_db w) rid -> pres_at steady (SetRolePermissions rid) w.
Proof.
  intros Hc. apply pres_at_stmt; [apply _|]. intros c x d' Hb. apply Ok_tt in Hb as <-.
  destruct (grant_visible _ _ _); [|done]. split; simpl; try done. intros k r p Hk Hs Hin.
  apply elem_of_filter. split; [|done]. simpl. intros ->. by rewrite (Hc _ Hk) in Hs.
Qed.
End statements.
#[export] Hint Resolve CreateUser_steady CreateRole_steady UpdateRole_steady
  rename_active_organization_steady CreateRefreshToken_steady RevokeRefreshToken_steady
  CreateAuditLog_steady CreateActivityLog_steady CreateAPIKey_steady RevokeAPIKey_steady
  RevokeAPIKeyByID_steady TouchAPIKey_steady CreateTeam_steady UpdateTeam_steady
  AddTeamMember_steady CreateProject_steady UpdateProject_steady CreateTask_steady
  UpdateTask_steady UpdateUserLastLogin_steady RevokeRefreshTokenFamily_steady
  RevokeAllUserRefreshTokens_steady DeleteTask_steady RemoveTeamMember_steady
  DeleteProject_steady DeleteTeam_steady DeleteRole_steady AddRolePermission_steady
  RotateInvitationToken_steady AcceptInvitation_steady
  RevokeInvitation_steady MarkInvitationExpired_steady RotateInvitationForDelivery_steady
  MarkInvitationNotified_steady : teamflow_frame.

Section ops.
Context `{Env}.
Lemma setPermissions_steady rid ps w : custom_role (w_db w) rid -> pres_at steady (setPermissions rid ps) w.
Proof.
  intros Hc. apply pres_at_bind; [apply _|by apply SetRolePermissions_steady|]. intros x w1 _.
  assert (Hp : pres steady (for_each ps (fun key =>
    p <- no_rows_as (fun _ => NewAPIError 400 "UNKNOWN_PERMISSION" "Unknown permission" None)
           (GetPermissionByKey key) ;; AddRolePermission rid (Permission_ID p))))
    by (unfold no_rows_as; pres_auto). exact (Hp w1).
Qed.
Lemma setPermissions_wf rid ps : pres intact (setPermissions rid ps).
Proof. unfold setPermissions, no_rows_as. pres_auto. Qed.
Lemma setPermissions_lives rid ps : pres lives_on (setPermissions rid ps).
Proof. unfold setPermissions, no_rows_as. pres_auto. Qed.
End ops.

(** ** Good tables, and steps of the roster taken by [who] *)
Section good.
Context `{Env}.
Definition good (d : DB) : Prop := wf d /\ all_owned d.
(** How the roster moved, and what became of the invitations. *)
Definition moves (who : option N) (d d' : DB) : Prop := rtc (roster_step who) (roster d) (roster d') /\ rtc life d d'.
#[global] Instance moves_pre who : PreOrder (moves who).
Proof. split; [by intros d|]. intros d1 d2 d3 [] []. split; by etrans. Qed.
Definition sound (who : option N) (d d' : DB) : Prop := good d -> good d' /\ moves who d d'.
#[global] Instance sound_pre who : PreOrder (sound who).
Proof.
  split; [by intros d|].
  intros d1 d2 d3 H12 H23 H1. destruct (H12 H1) as [H2 Hr]. destruct (H23 H2) as [H3 Hr']. split; [done|by etrans].
Qed.
(** One step of the roster, and tables that are well formed again. *)
Lemma sound_step who d d' : intact d d' -> lives_on d d' -> (good d -> all_owned d') ->
  (good d -> wf d' -> roster_step who (roster d) (roster d')) -> sound who d d'.
Proof.
  intros Hw Hl Ho Hs Hg. assert (W' : wf d') by apply Hw, Hg. split; [split; [done|by apply Ho]|].
  split; [by apply rtc_once, Hs|]. apply Hl, wf_invitations, Hg.
Qed.
Lemma sound_steady who d d' : intact d d' -> steady d d' -> lives_on d d' -> sound who d d'.
Proof. intros Hw Hs Hl. apply sound_step; [done..|intros [_ Ho]; by eapply steady_owned|intros _ _; by apply steady_step]. Qed.
Lemma sound_at {A} who (m : M A) w : pres_at intact m w -> pres_at steady m w -> pres_at lives_on m w -> pres_at (sound who) m w.
Proof. intros [Ht Hw] [_ Hs] [_ Hl]. split; [done|by apply sound_steady]. Qed.
Lemma pres_sound {A} who (m : M A) : pres intact m -> pres steady m -> pres lives_on m -> pres (sound who) m.
Proof. intros Hw Hs Hl w. exact (sound_at who m w (Hw w) (Hs w) (Hl w)). Qed.
End good.
#[export] Hint Extern 4 (pres (sound _) _) => (apply pres_sound;
  [solve [eauto 2 with teamflow_frame] | solve [eauto 2 with teamflow_frame] | solve [eauto 2 with teamflow_frame]]) : teamflow_frame.

(** ** The operations on organizations *)
Section organizations.
Context `{Env} (who : option N).
#[local] Hint Resolve ResolveTenant_pres requirePermission_pres : teamflow_frame.

Lemma setPermissions_sound rid ps w : custom_role (w_db w) rid -> pres_at (sound who) (setPermissions rid ps) w.
Proof. intros Hc. apply sound_at; [apply (setPermissions_wf rid ps w)|by apply setPermissions_steady|apply (setPermissions_lives rid ps w)]. Qed.
(** [role, err := ...; setPermissions(role.ID, ...)] for a role that is not a system role. *)
Lemma with_grants_sound (m : M Role) ps :
  pres (sound who) m -> (forall w r w', m w = (Ok r, w') -> custom_role (w_db w') (Role_ID r)) ->
  pres (sound who) (r <- m ;; setPermissions (Role_ID r) ps ;;; ret r).
Proof.
  intros Hm Hc. apply pres_bind_Ok; [apply _|done|]. intros w r w1 E. apply pres_at_bind; [apply _| |].
  - apply setPermissions_sound. by eapply Hc.
  - intros x w2 _. exact (pres_ret (sound who) r w2).
Qed.
Lemma create_role_body_sound o n ds ps : pres (sound who) (create_role_body o n ds ps).
Proof.
  apply with_grants_sound; [unfold unique_as; pres_auto|]. intros w r w' (_ & _ & _ & Hs & Hd)%unique_as_Ok%CreateRole_Ok.
  intros x. rewrite Hd. simpl. rewrite lookup_insert_eq. congruence.
Qed.
Lemma UpdateRole_custom id o n ds w r w' : QueriesOrg.UpdateRole id o n ds w = (Ok r, w') ->
  custom_role (w_db w') (Role_ID r).
Proof.
  intros E. stmt_ok E. bool_hyps. intros x. subst. simpl. rewrite lookup_insert_eq. by intros [= <-].
Qed.
Lemma update_role_body_sound o rid n ds ps : pres (sound who) (update_role_body o rid n ds ps).
Proof.
  unfold update_role_body, no_rows_as. pres_step; [pres_auto|]. pres_step; [pres_auto|].
  apply with_grants_sound; [unfold unique_as; pres_auto|].
  intros w r w' E%unique_as_Ok. by eapply UpdateRole_custom.
Qed.
Lemma list_role_dtos_pres R `{!PreOrder R} rs : pres R (list_role_dtos rs).
Proof. induction rs as [|r rs IH]; simpl; pres_auto. Qed.
#[local] Hint Resolve create_role_body_sound update_role_body_sound list_role_dtos_pres : teamflow_frame.

Lemma GetOrganization_sound u o : pres (sound who) (GetOrganization u o).
Proof. unfold GetOrganization. pres_auto. Qed.
Lemma ListMyOrganizations_sound u : pres (sound who) (ListMyOrganizations u).
Proof. unfold ListMyOrganizations. pres_auto. Qed.
Lemma UpdateOrganization_sound u o n : pres (sound who) (UpdateOrganization u o n).
Proof. unfold UpdateOrganization, on_no_rows. pres_auto. Qed.
Lemma ListMembers_sound u o : pres (sound who) (ListMembers u o).
Proof. unfold ListMembers. pres_auto. Qed.
Lemma ListRoles_sound u o : pres (sound who) (ListRoles u o).
Proof. unfold ListRoles. pres_auto. Qed.
Lemma CreateRole_sound u o n ds ps : pres (sound who) (CreateRole u o n ds ps).
Proof. unfold CreateRole. pres_auto. Qed.
Lemma UpdateRole_sound u o r n ds ps : pres (sound who) (UpdateRole u o r n ds ps).
Proof. unfold UpdateRole. pres_auto. Qed.
Lemma DeleteRole_sound u o r : pres (sound who) (DeleteRole u o r).
Proof. unfold DeleteRole, no_rows_as. pres_auto. Qed.
End organizations.

(** ** Assigning roles *)
Lemma role_unique `{Env} d a b r r' : wf d -> roles d !! a = Some r -> roles d !! b = Some r' ->
  Role_OrganizationID r = Role_OrganizationID r' -> Role_Name r = Role_Name r' -> a = b.
Proof. intros W Ha Hb Ho Hn. eapply (t_unique _ _ _ _ (ok_roles _ _ W)); [done..|]. unfold agree. congruence. Qed.
Lemma member_role `{Env} d k m : wf d -> memberships d !! k = Some m ->
  role_in d (OrganizationMembership_RoleID m) (OrganizationMembership_OrganizationID m).
Proof. intros W Hk. by destruct (t_row _ _ _ _ (ok_memberships _ _ W) _ _ Hk) as [_ (_ & _ & _ & Hr)]. Qed.

(** In an owned organization a role named Owner is its owner role: names are unique. *)
Lemma named_owner `{Env} d o rid r : good d -> has_org d o -> roles d !! rid = Some r ->
  Role_OrganizationID r = o -> Role_Name r = "Owner" -> rid ∈ owner_roles d.
Proof.
  intros [W Hall] Ho Hr Hro Hn. destruct (Hall o Ho) as (k & m & _ & _ & _ & x & Hx & Hxo & Hxn & Hxs & _).
  assert (rid = OrganizationMembership_RoleID m) as -> by (eapply role_unique; [done..|congruence|congruence]).
  apply elem_of_owner_roles. by exists x.
Qed.
(** The caller whose tenant was resolved may do what the roster asks an Owner or a member for. *)
Lemma tenant_entitled `{Env} d u o t old new : good d -> member_tenant d u o t ->
  (old ∈ owner_roles d \/ new ∈ owner_roles d -> Tenant_RoleName t = "Owner") ->
  entitled (roster d) (Some u) o old new.
Proof.
  intros Hg (k & m & org & r & Hk & Hmo & Hmu & Ha & Horg & _ & Hr & Hro & ->) Hown. exists k, (standing m).
  split_and!; [by rewrite <- Hmu|by apply roster_member|done|by apply standing_active|].
  intros Hw%Hown. split_and!; [done|by apply standing_active|]. eapply named_owner; [done|by exists org|done..].
Qed.

(** The owners of the tables are the Owners of the roster. *)
Lemma owned_roster `{Env} d : good d -> roster_owned (roster d).
Proof.
  intros Hg o Ho. simpl in Ho. apply elem_of_dom in Ho. destruct Hg as [W Hall].
  destruct (Hall o Ho) as (k & m & Hk & Hmo & Ha & r & Hr & Hro & Hn & Hs & _). exists k, (standing m).
  split; [by apply roster_member|]. split_and!; [done|by apply standing_active|]. apply elem_of_owner_roles. by exists r.
Qed.

Section assign.
Context `{Env}.
#[local] Hint Resolve ResolveTenant_pres requirePermission_pres : teamflow_frame.

(** When an Owner gets another role, someone else is an Owner. *)
Lemma other_owner d k m r0 roleID r1 :
  wf d -> memberships d !! k = Some m -> roles d !! OrganizationMembership_RoleID m = Some r0 ->
  roles d !! roleID = Some r1 -> Role_OrganizationID r1 = OrganizationMembership_OrganizationID m ->
  (Role_Name r0 = "Owner" -> Role_Name r1 <> "Owner" ->
     exists j m' r, j <> k /\ memberships d !! j = Some m' /\
       OrganizationMembership_OrganizationID m' = OrganizationMembership_OrganizationID m /\
       OrganizationMembership_Status m' = "active" /\
       roles d !! OrganizationMembership_RoleID m' = Some r /\ Role_Name r = "Owner") ->
  Role_Name r0 = "Owner" ->
  roleID = OrganizationMembership_RoleID m \/
  exists j m', j <> k /\ memberships d !! j = Some m' /\
    OrganizationMembership_OrganizationID m' = OrganizationMembership_OrganizationID m /\
    OrganizationMembership_Status m' = "active" /\ OrganizationMembership_RoleID m' = OrganizationMembership_RoleID m.
Proof.
  intros W Hk Hr0 Hr1 Ho Hother Hn. destruct (member_role _ _ _ W Hk) as (? & Hx & Hro). simplify_eq.
  destruct (decide (Role_Name r1 = "Owner")) as [Hn1|Hn1].
  - left. eapply role_unique; [done..|congruence|congruence].
  - right. destruct (Hother Hn Hn1) as (j & m' & r & Hne & Hm & Hmo & Hma & Hmr & Hrn). exists j, m'.
    split_and!; [done..|]. destruct (member_role _ _ _ W Hm) as (r' & Hr' & Hro'). simplify_eq.
    eapply role_unique; [done..|congruence|congruence].
Qed.
(** One membership moved to another role: by the last-owner check the organization is
    still owned, and no other organization is concerned. *)
Lemma assign_body_sound u t o mid roleID w md w' : member_tenant (w_db w) u o t ->
  assign_body (Tenant_RoleName t) o mid roleID w = (Ok md, w') -> sound (Some u) (w_db w) (w_db w').
Proof.
  intros Ht (m0 & m & r0 & r1 & now & Hm0 & Ho & Ha & Hr0 & Hr1 & Hr1o & -> & -> & Hcr & Hother)%assign_body_Ok.
  rewrite <- Ho in Ht, Hr1o, Hother.
  assert (Hname : forall rid r, roles (w_db w) !! rid = Some r -> rid ∈ owner_roles (w_db w) -> Role_Name r = "Owner").
  { intros rid r Hr (x & Hx & _ & Hn)%elem_of_owner_roles. congruence. }
  apply sound_step.
  - intros W. by apply set_RoleID_wf; [|exists r1|].
  - by apply same_lives.
  - intros [W Hall] o' Ho'. destruct (Hall o' Ho') as (k & x & Hk & Hxo & Hxa & Hready). unfold owned. simpl.
    destruct (decide (k = mid)) as [->|Hne]; [|exists k, x; by rewrite lookup_insert_ne].
    assert (x = m0) as -> by congruence. pose proof Hready as (r & Hr & _ & Hn & _). assert (r = r0) as -> by congruence.
    destruct (other_owner _ _ _ _ _ _ W Hm0 Hr0 Hr1 Hr1o Hother Hn) as [->|(k & m & Hne & Hm & Hmo & Hma & Hmr)].
    + eexists mid, _. by rewrite lookup_insert_eq.
    + exists k, m. rewrite lookup_insert_ne by done. split_and!; [done|congruence|done|]. rewrite Hmr. by rewrite <- Hxo in Hready |- *.
  - intros Hg _. eapply assigned_step; [done..| |]; simpl.
    + eapply tenant_entitled; [done..|]. intros [Hw|Hw]; apply Hcr; [left|right]; by eapply Hname.
    + intros Hown Hnot. destruct (other_owner _ _ _ _ _ _ (proj1 Hg) Hm0 Hr0 Hr1 Hr1o Hother (Hname _ _ Hr0 Hown))
        as [->|(k & m & Hne & Hm & Hmo & Hma & Hmr)]; [done|].
      exists k, m. split_and!; [done..|]. split_and!; simpl; [done|by rewrite Hma, beq_refl|by rewrite Hmr].
Qed.
Lemma AssignMemberRole_sound who u o mid r : who = Some u -> pres (sound who) (AssignMemberRole u o mid r).
Proof.
  intros -> w. unfold AssignMemberRole. apply pres_at_bind; [apply _|apply ResolveTenant_pres; apply _|].
  intros t w1 [Ht Hd1]%ResolveTenant_Ok. apply pres_at_bind; [apply _|apply requirePermission_pres; apply _|].
  intros [] w2 [_ Hd2]%requirePermission_Ok. apply pres_at_map_err, committed_at; [apply _| |].
  - unfold assign_body, no_rows_as. pres_auto. by apply pres_stmt.
  - intros w3 md w4 Hd3 Hb. rewrite <- Hd3. eapply assign_body_sound; [|exact Hb]. by rewrite Hd3, Hd2, Hd1.
Qed.
End assign.

(** ** Creating organizations *)
Lemma gains_ready o rid (d d' : DB) : permissions d' = permissions d -> roles d ⊆ roles d' ->
  (forall rid p, roles d !! rid <> None -> (rid, p) ∈ role_permissions d -> (rid, p) ∈ role_permissions d') ->
  owner_ready o rid d -> owner_ready o rid d'.
Proof.
  intros Hp Hr Hg (r & Hrid & Ho & Hn & Hs & Hk). exists r. split_and!; [by eapply lookup_weaken|done..|].
  intros key Hkey. destruct (Hk key Hkey) as (pid & p & Hpid & Hpk & Hin). exists pid, p. rewrite Hp.
  split_and!; [done..|]. apply Hg; [by rewrite Hrid|done].
Qed.
Lemma founded_owned u o d d' : founded u o d d' -> all_owned d -> all_owned d'.
Proof.
  intros (org & m & Hno & Horg & _ & Hfresh & Hmem & Hmo & _ & Hma & Hp & Hr & Hg & Hready) Hall o' Ho'.
  destruct (decide (o' = o)) as [->|Hne].
  - exists (OrganizationMembership_ID m), m. rewrite Hmem, lookup_insert_eq. done.
  - destruct (Hall o') as (k & x & Hk & Hxo & Hxa & Hx).
    { unfold has_org in *. by rewrite Horg, lookup_insert_ne in Ho' by done. }
    exists k, x. rewrite Hmem. split_and!; [|done..|by eapply gains_ready].
    rewrite lookup_insert_ne; [done|]. intros Heq. rewrite <- Heq in Hk. congruence.
Qed.
Lemma founded_sound `{Env} who u o d d' : founded u o d d' -> intact d d' -> seeding o d d' ->
  (wf d -> who = Some u \/ forall k m, memberships d !! k = Some m -> OrganizationMembership_UserID m <> u) ->
  sound who d d'.
Proof.
  intros Hf Hw Hs Hwho. apply sound_step; [done|apply same_lives; symmetry; apply Hs|intros [_ Hall]; by eapply founded_owned|].
  intros [W _] W'. eapply founded_step; eauto.
Qed.
(** The statements around a new organization. *)
Section seeding_statements.
Context `{Env} (o : N).
Ltac seeding_auto := stmt_branches; first [reflexivity | split; [done|by left]].
Lemma CreateRole_seeding n ds sys : pres (seeding o) (QueriesOrg.CreateRole o n ds sys).
Proof. stmt_branches. split; [done|]. simpl. intros k r [[<- <-]|[_ ?]]%lookup_insert_Some; [by right|by left]. Qed.
Lemma SetRolePermissions_seeding r : pres (seeding o) (SetRolePermissions r).
Proof. stmt_branches. destruct (grant_visible _ _ _); [split; [done|by left]|reflexivity]. Qed.
Lemma AddRolePermission_seeding r p : pres (seeding o) (AddRolePermission r p).
Proof. seeding_auto. Qed.
Lemma CreateOrganization_seeding n sl st : pres (seeding o) (QueriesOrg.CreateOrganization n sl st).
Proof. seeding_auto. Qed.
Lemma CreateMembership_seeding o' u r st j : pres (seeding o) (CreateMembership o' u r st j).
Proof. seeding_auto. Qed.
#[local] Hint Resolve CreateRole_seeding SetRolePermissions_seeding AddRolePermission_seeding : teamflow_frame.
Lemma setPermissions_seeding r ps : pres (seeding o) (setPermissions r ps).
Proof. unfold setPermissions, no_rows_as. pres_auto. Qed.
Lemma seed_roles_seeding rs own : pres (seeding o) (seed_roles o rs own).
Proof.
  revert own. induction rs as [|[n ds] rs IH]; intros own; simpl; [apply pres_ret; apply _|].
  pose proof setPermissions_seeding. pres_auto.
Qed.
End seeding_statements.
Lemma founding_wf `{Env} u name slug own w0 org w1 w2 j m w3 :
  QueriesOrg.CreateOrganization name slug "active" w0 = (Ok org, w1) ->
  intact (w_db w1) (w_db w2) -> owner_ready (Organization_ID org) own (w_db w2) ->
  CreateMembership (Organization_ID org) u own "active" j w2 = (Ok m, w3) ->
  intact (w_db w0) (w_db w3).
Proof.
  intros Eo Hi (r & Hr & Ho & _) Em.
  etrans; [eapply pres_run; [apply CreateOrganization_wf|exact Eo]|]. etrans; [exact Hi|].
  assert (Hat : pres_at intact (CreateMembership (Organization_ID org) u own "active" j) w2)
    by (apply CreateMembership_wf; by exists r). destruct Hat as [_ Hat]. by rewrite Em in Hat.
Qed.

Section founding.
Context `{Env}.
Lemma seed_roles_wf o rs own : pres intact (seed_roles o rs own).
Proof.
  revert own. induction rs as [|[n ds] rs IH]; intros own; simpl; [apply pres_ret; apply _|].
  pose proof setPermissions_wf. pres_auto.
Qed.
(** The transaction of [CreateOrganization]. *)
Definition create_organization_tx (userID : N) (name slug : string) : M OrganizationDTO :=
  org <- wrapf "create organization" (QueriesOrg.CreateOrganization name slug "active") ;;
  ownerID <- seed_roles (Organization_ID org) defaultRoles uuid_Nil ;;
  now <- timeNow ;;
  wrapf "create membership"
    (CreateMembership (Organization_ID org) userID ownerID "active" (Some now)) ;;;
  wrapf "commit tx" Commit ;;;
  ret (orgDTO org "Owner").
Lemma CreateOrganization_tx u name : CreateOrganization u name =
  (slug <- uniqueSlug name ;; in_plain_tx "begin tx" (create_organization_tx u name slug)).
Proof. reflexivity. Qed.
Lemma create_organization_tx_sound u name slug w dto w' :
  create_organization_tx u name slug w = (Ok dto, w') -> sound (Some u) (w_db w) (w_db w').
Proof.
  unfold create_organization_tx. intros E. apply bind_Ok in E as (org & w4 & Eo%wrapf_Ok & E).
  apply bind_Ok in E as (own & w5 & Es & E). pose proof (pres_run _ _ _ _ _ (seed_roles_wf _ _ _) Es) as Hi.
  pose proof (pres_run _ _ _ _ _ (CreateOrganization_seeding (Organization_ID org) _ _ _) Eo) as Hs1.
  pose proof (pres_run _ _ _ _ _ (seed_roles_seeding (Organization_ID org) _ _) Es) as Hs2.
  apply seed_roles_Ok in Es as (Hg & _ & Hready).
  apply bind_Ok in E as (now & w6 & [-> ->]%timeNow_Ok & E).
  apply bind_Ok in E as (m & w7 & Ecm%wrapf_Ok & E).
  pose proof (pres_run _ _ _ _ _ (CreateMembership_seeding (Organization_ID org) _ _ _ _ _) Ecm) as Hs3.
  apply bind_Ok in E as ([] & w8 & [Hc _]%wrapf_Ok%Commit_Ok & E). apply ret_Ok in E as [<- <-]. rewrite Hc.
  assert (Hown : owner_ready (Organization_ID org) own (w_db w5)) by (apply Hready; left).
  pose proof (founding_Ok u _ _ own _ _ _ (next_tick w5) _ _ _ _ Eo Hg Hown eq_refl Ecm) as Hf.
  eapply founded_sound; [exact Hf| | |by left].
  - exact (founding_wf u _ _ own _ _ _ (next_tick w5) _ _ _ Eo Hi Hown Ecm).
  - etrans; [exact Hs1|]. etrans; [exact Hs2|exact Hs3].
Qed.
Lemma seed_roles_any o rs own : pres (fun _ _ => True) (seed_roles o rs own).
Proof. eapply pres_weaken; [|apply seed_roles_wf]. done. Qed.
Lemma CreateOrganization_sound who u name : who = Some u -> pres (sound who) (CreateOrganization u name).
Proof.
  intros ->.  rewrite CreateOrganization_tx. pres_step; [apply uniqueSlug_pres; apply _|].
  apply pres_plain_committed; [apply _| |intros w dto w'; apply create_organization_tx_sound].
  unfold create_organization_tx. commits_auto; [..|pres_auto; by apply pres_stmt].
  - apply pres_wrapf. by apply pres_stmt.
  - apply seed_roles_any.
  - pres_auto.
Qed.
End founding.

(** ** What well-formed tables mean for a caller *)
Section resolving.
Context `{Env}.
(** An active member of an active organization resolves to its membership's role: neither
    the organization nor the role can be missing. *)
Lemma tenant_of_member d k m org : wf d -> memberships d !! k = Some m ->
  OrganizationMembership_Status m = "active" ->
  organizations d !! OrganizationMembership_OrganizationID m = Some org -> Organization_Status org = "active" ->
  exists r, roles d !! OrganizationMembership_RoleID m = Some r /\
    tenant_of d (OrganizationMembership_UserID m) (OrganizationMembership_OrganizationID m) =
      Ok {| Tenant_OrganizationID := OrganizationMembership_OrganizationID m; Tenant_MembershipID := k;
            Tenant_RoleID := OrganizationMembership_RoleID m; Tenant_RoleName := Role_Name r |}.
Proof.
  intros W Hk Ha Horg Hs. destruct (member_role _ _ _ W Hk) as (r & Hr & Hro). exists r. split; [done|].
  destruct (t_row _ _ _ _ (ok_organizations _ _ W) _ _ Horg) as [Hoid _].
  destruct (t_row _ _ _ _ (ok_memberships _ _ W) _ _ Hk) as [Hmid _].
  unfold tenant_of. rewrite (find_row_unique _ _ k m); [|done|by rewrite !beq_refl|].
  2: { intros k' m' Hk' Hm'. bool_hyps. assert (k' = k) as ->; [|congruence].
       eapply (t_unique _ _ _ _ (ok_memberships _ _ W)); [done..|]. unfold agree. congruence. }
  rewrite Ha, beq_refl. cbn [negb].
  replace (sel (organizations d) _ _) with (Some org) by (symmetry; apply sel_Some; split; [done|by rewrite Hoid, beq_refl]).
  rewrite Hs. cbn [negb]. rewrite beq_refl, Hmid. cbn [negb].
  replace (sel (roles d) _ _) with (Some r) by (symmetry; apply sel_Some; split; [done|by rewrite Hro, beq_refl]).
  done.
Qed.
Lemma granted_spec d rid p : granted d rid p = true <-> grants d rid p.
Proof.
  unfold granted, grants. rewrite exists_row_true. split.
  - intros (pid & x & Hx & [Hp%beq_eq Hg%bool_decide_eq_true]%andb_true_iff). by exists pid, x.
  - intros (pid & x & Hx & Hp & Hg). exists pid, x. split; [done|]. by rewrite Hp, beq_refl, (bool_decide_eq_true_2 _ Hg).
Qed.
(** Someone may do everything in an owned organization. *)
Lemma owned_authorized d o org : wf d -> owned d o -> organizations d !! o = Some org -> Organization_Status org = "active" ->
  exists u t, has_user d u /\ Tenant_RoleName t = "Owner" /\ forall p, p ∈ All -> authorize_spec d u o p = Ok t.
Proof.
  intros W (k & m & Hk & <- & Ha & r & Hr & _ & Hn & _ & Hg) Horg Hs.
  destruct (tenant_of_member d k m org W Hk Ha Horg Hs) as (r' & Hr' & Ht). simplify_eq.
  exists (OrganizationMembership_UserID m). match type of Ht with _ = Ok ?t => exists t end. split_and!; [|exact Hn|].
  - by destruct (t_row _ _ _ _ (ok_memberships _ _ W) _ _ Hk) as [_ (_ & _ & Hu & _)].
  - intros p Hp. unfold authorize_spec. rewrite Ht. cbn [Tenant_RoleID].
    by rewrite (proj2 (granted_spec d _ p) (Hg p Hp)).
Qed.
End resolving.
