(* ===== verification/GoNet.v ===== *)
(** * The parts of [net] and [net/url] the program asks

    URL and address syntax is the standard library's; the program only looks at the scheme,
    the host and one query value of a URL, at the host of an address, and at whether an
    address is loopback, private or link-local. *)
From S2P Require Import Prelude.
From S2P Require Import GoStrings.
Local Open Scope string_scope.

Record URL := { URL_Scheme : string; URL_Host : string; URL_Query : string -> string }.
Class GoNet := {
  url_Parse : string -> option URL;
  net_SplitHostPort : string -> option (string * string);
  net_ParseIP : string -> bool;
  ip_IsLoopback : string -> bool;
  ip_IsPrivate : string -> bool;
  ip_IsLinkLocalUnicast : string -> bool
}.

(** ** A concrete instance, for the witnesses

    Enough of the syntax for URLs [scheme://host/path?key=value] and dotted addresses. *)
Definition demo_url (s : string) : option URL :=
  '(scheme, rest) ← (match cut "://" s with (u, Some r) => Some (u, r) | _ => None end);
  let (hostpath, query) := cut "?" rest in
  let (key, value) := cut "=" (default "" query) in
  Some {| URL_Scheme := scheme; URL_Host := fst (cut "/" hostpath);
          URL_Query k := if k =?= key then default "" value else "" |}.
Definition demo_net : GoNet := {|
  url_Parse := demo_url;
  net_SplitHostPort s := match cut ":" s with (h, Some p) => Some (h, p) | _ => None end;
  net_ParseIP s := negb (s =?= "") && forallb (fun b => between 46 57 b) (bytes s);
  ip_IsLoopback s := HasPrefix s "127.";
  ip_IsPrivate s := HasPrefix s "10." || HasPrefix s "192.168.";
  ip_IsLinkLocalUnicast s := HasPrefix s "169.254."
|}.
