(* ===== verification/Config.v ===== *)
(** * Configuration

    Models [internal/config/config.go]: reading the environment, and the validation that
    decides whether a process starts.  The environment is a function from names to values;
    [Load] collects every problem it finds, in the order of the code. *)
From S2P Require Import Prelude.
From S2P Require Import GoError.
From S2P Require Import Schema.
From S2P Require Import Store.
From S2P Require Import GoStrings.
From S2P Require Import Strconv.
From S2P Require Import Utf8.
From S2P Require Import Demo.
From S2P Require Import QueueDemo.
From S2P Require Import Pagination.
From S2P Require Import Jobs.
From S2P Require Import GoNet.
From stdpp Require Import pretty.
Local Open Scope string_scope.

Definition maxInvitationTTL : Z := 30 * 24 * Hour.
Definition EnvDevelopment : string := "development".
Definition EnvTest : string := "test".
Definition EnvProduction : string := "production".
Definition MailTransportLog : string := "log".
Definition MailTransportNone : string := "none".

Record HTTPConfig := {
  HTTP_Port : Z; HTTP_ReadTimeout : Z; HTTP_WriteTimeout : Z; HTTP_IdleTimeout : Z;
  HTTP_ShutdownTimeout : Z; HTTP_MaxBodyBytes : Z
}.
Record DatabaseConfig := {
  Database_URL : string; Database_MaxConns : Z; Database_MinConns : Z;
  Database_MaxConnLifetime : Z; Database_MaxConnIdleTime : Z
}.
Record JWTConfig := { JWT_Secret : string; JWT_Issuer : string; JWT_AccessTTL : Z; JWT_RefreshTTL : Z }.
Record InvitationConfig := { Invite_TTL : Z; Invite_BaseURL : string }.
Record APIKeyConfig := { APIKey_DefaultTTL : Z; APIKey_MaxTTL : Z }.
Record WorkerConfig := {
  Worker_Concurrency : Z; Worker_BlockTimeout : Z; Worker_StaleAfter : Z; Worker_ShutdownTimeout : Z
}.
Record JobsConfig := {
  Jobs_MaxAttempts : Z; Jobs_RetryBaseDelay : Z; Jobs_RetryMaxDelay : Z; Jobs_EncryptionKey : string
}.
Record MetricsConfig := { Metrics_Enabled : bool; Metrics_Addr : string }.
Record RateLimitPolicyConfig := { RL_Limit : Z; RL_Period : Z }.
Record RateLimitConfig := {
  RateLimit_Enabled : bool; RateLimit_FailOpen : bool; RateLimit_Auth : RateLimitPolicyConfig;
  RateLimit_User : RateLimitPolicyConfig; RateLimit_APIKey : RateLimitPolicyConfig
}.
Record Config := {
  App_Env : string; HTTP : HTTPConfig; Database : DatabaseConfig; Redis_URL : string;
  Log_Level : string; JWT : JWTConfig; Invite : InvitationConfig; Mail_Transport : string;
  APIKey : APIKeyConfig; Worker_ : WorkerConfig; Jobs_ : JobsConfig; RateLimit : RateLimitConfig;
  Metrics : MetricsConfig
}.
Definition IsProduction (c : Config) : bool := App_Env c =?= EnvProduction.

(** ** The environment *)
Definition Environ : Type := string -> option string.
(** A variable that is set to something. *)
Definition set_value (env : Environ) (key : string) : option string :=
  match env key with Some v => if v =?= "" then None else Some v | None => None end.
Definition getEnv (env : Environ) (key fallback : string) : string := default fallback (set_value env key).
Definition get_parsed {A} (parse : string -> option A) (env : Environ) (key : string) (fallback : A) : A :=
  match set_value env key with Some v => default fallback (parse v) | None => fallback end.
Definition getEnvBool : Environ -> string -> bool -> bool := get_parsed ParseBool.
Definition getEnvInt : Environ -> string -> Z -> Z := get_parsed Atoi.
Definition getEnvInt64 : Environ -> string -> Z -> Z := get_parsed (ParseInt 64).
Definition getEnvDuration : Environ -> string -> Z -> Z := get_parsed ParseDuration.

(** ** Malformed values *)
Definition int_keys : list string :=
  ["APP_PORT"; "DATABASE_MAX_CONNS"; "DATABASE_MIN_CONNS";
   "RATE_LIMIT_AUTH_LIMIT"; "RATE_LIMIT_USER_LIMIT"; "RATE_LIMIT_API_KEY_LIMIT";
   "WORKER_CONCURRENCY"; "WORKER_MAX_ATTEMPTS"].
Definition int64_keys : list string := ["HTTP_MAX_BODY_BYTES"].
Definition duration_keys : list string :=
  ["HTTP_READ_TIMEOUT"; "HTTP_WRITE_TIMEOUT"; "HTTP_IDLE_TIMEOUT"; "HTTP_SHUTDOWN_TIMEOUT";
   "DATABASE_MAX_CONN_LIFETIME"; "DATABASE_MAX_CONN_IDLE_TIME";
   "JWT_ACCESS_TTL"; "JWT_REFRESH_TTL"; "API_KEY_DEFAULT_TTL"; "API_KEY_MAX_TTL";
   "WORKER_BLOCK_TIMEOUT"; "WORKER_STALE_AFTER"; "WORKER_SHUTDOWN_TIMEOUT";
   "WORKER_RETRY_BASE_DELAY"; "WORKER_RETRY_MAX_DELAY";
   "RATE_LIMIT_AUTH_PERIOD"; "RATE_LIMIT_USER_PERIOD"; "RATE_LIMIT_API_KEY_PERIOD";
   "INVITATION_TTL"].
Definition bool_keys : list string := ["METRICS_ENABLED"; "RATE_LIMIT_ENABLED"; "RATE_LIMIT_FAIL_OPEN"].
Definition malformed {A} (parse : string -> option A) (env : Environ) (keys : list string) : list string :=
  map (fun key => key +:+ " is invalid")
    (List.filter (fun key => match set_value env key with
                             | Some v => is_nil (parse v)
                             | None => false
                             end) keys).
Definition env_problems (env : Environ) : list string :=
  malformed Atoi env int_keys ++ malformed (ParseInt 64) env int64_keys ++
  malformed ParseDuration env duration_keys ++ malformed ParseBool env bool_keys.
Definition newline : string := String (Ascii.ascii_of_nat 10) EmptyString.
Definition problem_list (title : string) (problems : list string) : error :=
  ErrorsNew (title +:+ ":" +:+ String.concat "" (map (fun p => newline +:+ "  - " +:+ p) problems)).
Definition validateEnvOverrides (env : Environ) : option error :=
  match env_problems env with
  | [] => None
  | problems => Some (problem_list "invalid environment configuration" problems)
  end.

(** ** The configuration an environment describes *)
Definition read_config `{Env} (env : Environ) : Config := {|
  App_Env := getEnv env "APP_ENV" EnvDevelopment;
  HTTP := {| HTTP_Port := getEnvInt env "APP_PORT" 8080;
             HTTP_ReadTimeout := getEnvDuration env "HTTP_READ_TIMEOUT" (15 * Second);
             HTTP_WriteTimeout := getEnvDuration env "HTTP_WRITE_TIMEOUT" (15 * Second);
             HTTP_IdleTimeout := getEnvDuration env "HTTP_IDLE_TIMEOUT" (60 * Second);
             HTTP_ShutdownTimeout := getEnvDuration env "HTTP_SHUTDOWN_TIMEOUT" (15 * Second);
             HTTP_MaxBodyBytes := getEnvInt64 env "HTTP_MAX_BODY_BYTES" (2 ^ 20) |};
  Database := {| Database_URL := getEnv env "DATABASE_URL" "";
                 Database_MaxConns := wrap32 (getEnvInt env "DATABASE_MAX_CONNS" 20);
                 Database_MinConns := wrap32 (getEnvInt env "DATABASE_MIN_CONNS" 2);
                 Database_MaxConnLifetime := getEnvDuration env "DATABASE_MAX_CONN_LIFETIME" Hour;
                 Database_MaxConnIdleTime := getEnvDuration env "DATABASE_MAX_CONN_IDLE_TIME" (30 * Minute) |};
  Redis_URL := getEnv env "REDIS_URL" "";
  Log_Level := getEnv env "LOG_LEVEL" "info";
  JWT := {| JWT_Secret := getEnv env "JWT_SECRET" ""; JWT_Issuer := getEnv env "JWT_ISSUER" "teamflow";
            JWT_AccessTTL := getEnvDuration env "JWT_ACCESS_TTL" (15 * Minute);
            JWT_RefreshTTL := getEnvDuration env "JWT_REFRESH_TTL" (720 * Hour) |};
  Mail_Transport := ToLower (getEnv env "MAIL_TRANSPORT" MailTransportLog);
  APIKey := {| APIKey_DefaultTTL := getEnvDuration env "API_KEY_DEFAULT_TTL" (90 * 24 * Hour);
               APIKey_MaxTTL := getEnvDuration env "API_KEY_MAX_TTL" (365 * 24 * Hour) |};
  Worker_ := {| Worker_Concurrency := getEnvInt env "WORKER_CONCURRENCY" 4;
                Worker_BlockTimeout := getEnvDuration env "WORKER_BLOCK_TIMEOUT" (2 * Second);
                Worker_StaleAfter := getEnvDuration env "WORKER_STALE_AFTER" (5 * Minute);
                Worker_ShutdownTimeout := getEnvDuration env "WORKER_SHUTDOWN_TIMEOUT" (15 * Second) |};
  Jobs_ := {| Jobs_MaxAttempts := getEnvInt env "WORKER_MAX_ATTEMPTS" 5;
              Jobs_RetryBaseDelay := getEnvDuration env "WORKER_RETRY_BASE_DELAY" (30 * Second);
              Jobs_RetryMaxDelay := getEnvDuration env "WORKER_RETRY_MAX_DELAY" Hour;
              Jobs_EncryptionKey := getEnv env "JOB_ENCRYPTION_KEY" "" |};
  RateLimit := {|
    RateLimit_Enabled := getEnvBool env "RATE_LIMIT_ENABLED" (getEnv env "APP_ENV" EnvDevelopment =?= EnvProduction);
    RateLimit_FailOpen := getEnvBool env "RATE_LIMIT_FAIL_OPEN" true;
    RateLimit_Auth := {| RL_Limit := getEnvInt env "RATE_LIMIT_AUTH_LIMIT" 10;
                         RL_Period := getEnvDuration env "RATE_LIMIT_AUTH_PERIOD" Minute |};
    RateLimit_User := {| RL_Limit := getEnvInt env "RATE_LIMIT_USER_LIMIT" 300;
                         RL_Period := getEnvDuration env "RATE_LIMIT_USER_PERIOD" Minute |};
    RateLimit_APIKey := {| RL_Limit := getEnvInt env "RATE_LIMIT_API_KEY_LIMIT" 600;
                           RL_Period := getEnvDuration env "RATE_LIMIT_API_KEY_PERIOD" Minute |} |};
  Invite := {| Invite_TTL := getEnvDuration env "INVITATION_TTL" (168 * Hour);
               Invite_BaseURL := TrimRight 47 (getEnv env "INVITATION_BASE_URL" "http://localhost:3000") |};
  Metrics := {| Metrics_Enabled := getEnvBool env "METRICS_ENABLED" true;
                Metrics_Addr := getEnv env "METRICS_ADDR" ":9091" |}
|}.

Section validate.
Context `{Env} `{Platform} `{GoNet}.

(** One rule: the message, if the condition for it holds. *)
Definition problem_if (b : bool) (text : string) : list string := if b then [text] else [].
Definition positive (name : string) (v : Z) : list string := problem_if (Z.leb v 0) (name +:+ " must be positive").

Definition validateAbsoluteURL (name raw : string) : option error :=
  match url_Parse raw with
  | Some u =>
      if (URL_Host u =?= "") || negb ((URL_Scheme u =?= "http") || (URL_Scheme u =?= "https"))
      then Some (ErrorsNew (name +:+ " must be an absolute http(s) URL")) else None
  | None => Some (ErrorsNew (name +:+ " must be an absolute http(s) URL"))
  end.

Definition app_problems (c : Config) : list string :=
  problem_if (negb (existsb (beq (App_Env c)) [EnvDevelopment; EnvTest; EnvProduction]))
    ("APP_ENV " +:+ strconv_Quote (App_Env c) +:+ " is invalid (want development|test|production)").
Definition http_problems (h : HTTPConfig) : list string :=
  problem_if (Z.ltb (HTTP_Port h) 1 || Z.ltb 65535 (HTTP_Port h))
    ("APP_PORT " +:+ pretty (HTTP_Port h) +:+ " is out of range") ++
  positive "HTTP_READ_TIMEOUT" (HTTP_ReadTimeout h) ++ positive "HTTP_WRITE_TIMEOUT" (HTTP_WriteTimeout h) ++
  positive "HTTP_IDLE_TIMEOUT" (HTTP_IdleTimeout h) ++
  positive "HTTP_SHUTDOWN_TIMEOUT" (HTTP_ShutdownTimeout h) ++
  problem_if (Z.ltb (HTTP_MaxBodyBytes h) 1) "HTTP_MAX_BODY_BYTES must be positive".
Definition database_problems (d : DatabaseConfig) : list string :=
  problem_if (Z.ltb (Database_MaxConns d) 1) "DATABASE_MAX_CONNS must be at least 1" ++
  problem_if (Z.ltb (Database_MinConns d) 0 || Z.ltb (Database_MaxConns d) (Database_MinConns d))
    "DATABASE_MIN_CONNS must be between 0 and DATABASE_MAX_CONNS".
Definition metrics_problems (m : MetricsConfig) : list string :=
  if TrimSpace (Metrics_Addr m) =?= "" then ["METRICS_ADDR is required when METRICS_ENABLED is set"]
  else problem_if (is_nil (net_SplitHostPort (Metrics_Addr m))) "METRICS_ADDR must be host:port".
Definition url_problems (c : Config) : list string :=
  problem_if (TrimSpace (Database_URL (Database c)) =?= "") "DATABASE_URL is required" ++
  problem_if (TrimSpace (Redis_URL c) =?= "") "REDIS_URL is required" ++
  (if App_Env c =?= EnvProduction then
     (if Database_URL (Database c) =?= "" then [] else
      match url_Parse (Database_URL (Database c)) with
      | Some u =>
          if negb ((URL_Scheme u =?= "postgres") || (URL_Scheme u =?= "postgresql"))
          then ["DATABASE_URL must use the postgres scheme in production"]
          else problem_if (negb ((URL_Query u "sslmode" =?= "verify-ca") || (URL_Query u "sslmode" =?= "verify-full")))
                 "DATABASE_URL sslmode must be verify-ca or verify-full in production"
      | None => ["DATABASE_URL must use the postgres scheme in production"]
      end) ++
     (if Redis_URL c =?= "" then [] else
      match url_Parse (Redis_URL c) with
      | Some u => problem_if (negb (URL_Scheme u =?= "rediss")) "REDIS_URL must use rediss in production"
      | None => ["REDIS_URL must use rediss in production"]
      end)
   else []).
Definition log_problems (c : Config) : list string :=
  problem_if (negb (existsb (beq (ToLower (Log_Level c))) ["debug"; "info"; "warn"; "error"]))
    ("LOG_LEVEL " +:+ strconv_Quote (Log_Level c) +:+ " is invalid (want debug|info|warn|error)").
Definition jwt_problems (c : Config) : list string :=
  let secret := JWT_Secret (JWT c) in
  (if TrimSpace secret =?= "" then ["JWT_SECRET is required"]
   else if (App_Env c =?= EnvProduction) && Z.ltb (len secret) 32
   then ["JWT_SECRET must be at least 32 characters in production"]
   else problem_if ((App_Env c =?= EnvProduction) && (secret =?= "dev-only-change-me-to-a-long-random-secret"))
          "JWT_SECRET must not use the development example value in production") ++
  problem_if (Z.leb (JWT_AccessTTL (JWT c)) 0) "JWT_ACCESS_TTL must be positive" ++
  problem_if (Z.leb (JWT_RefreshTTL (JWT c)) (JWT_AccessTTL (JWT c)))
    "JWT_REFRESH_TTL must be greater than JWT_ACCESS_TTL".
Definition invite_problems (c : Config) : list string :=
  let i := Invite c in
  problem_if (Z.leb (Invite_TTL i) 0) "INVITATION_TTL must be positive" ++
  problem_if (Z.ltb maxInvitationTTL (Invite_TTL i)) "INVITATION_TTL must not exceed 720h0m0s" ++
  match validateAbsoluteURL "INVITATION_BASE_URL" (Invite_BaseURL i) with Some e => [Error e] | None => [] end ++
  problem_if ((App_Env c =?= EnvProduction) && negb (HasPrefix (ToLower (Invite_BaseURL i)) "https://"))
    "INVITATION_BASE_URL must use https in production".
Definition job_key_problems (c : Config) : list string :=
  let key := Jobs_EncryptionKey (Jobs_ c) in
  if negb (App_Env c =?= EnvProduction) then []
  else if TrimSpace key =?= "" then ["JOB_ENCRYPTION_KEY is required in production"]
  else if Z.ltb (len key) 32 then ["JOB_ENCRYPTION_KEY must be at least 32 characters in production"]
  else if key =?= "use-a-long-random-job-encryption-secret"
  then ["JOB_ENCRYPTION_KEY must not use the development example value in production"]
  else problem_if (key =?= JWT_Secret (JWT c)) "JOB_ENCRYPTION_KEY must be independent from JWT_SECRET in production".
Definition policy_problems (label : string) (p : RateLimitPolicyConfig) : list string :=
  problem_if (Z.ltb (RL_Limit p) 1) (label +:+ " must be at least 1") ++
  problem_if (Z.leb (RL_Period p) 0) ("rate limit period for " +:+ label +:+ " must be positive").
Definition rate_problems (r : RateLimitConfig) : list string :=
  policy_problems "RATE_LIMIT_AUTH_LIMIT" (RateLimit_Auth r) ++
  policy_problems "RATE_LIMIT_USER_LIMIT" (RateLimit_User r) ++
  policy_problems "RATE_LIMIT_API_KEY_LIMIT" (RateLimit_APIKey r).
Definition worker_problems (w : WorkerConfig) : list string :=
  problem_if (Z.ltb (Worker_Concurrency w) 1) "WORKER_CONCURRENCY must be at least 1" ++
  positive "WORKER_BLOCK_TIMEOUT" (Worker_BlockTimeout w) ++
  positive "WORKER_STALE_AFTER" (Worker_StaleAfter w) ++
  positive "WORKER_SHUTDOWN_TIMEOUT" (Worker_ShutdownTimeout w).
Definition jobs_problems (j : JobsConfig) : list string :=
  problem_if (Z.ltb (Jobs_MaxAttempts j) 1) "WORKER_MAX_ATTEMPTS must be at least 1" ++
  positive "WORKER_RETRY_BASE_DELAY" (Jobs_RetryBaseDelay j) ++
  problem_if (Z.ltb (Jobs_RetryMaxDelay j) (Jobs_RetryBaseDelay j))
    "WORKER_RETRY_MAX_DELAY must be greater than or equal to WORKER_RETRY_BASE_DELAY".
Definition apikey_problems (a : APIKeyConfig) : list string :=
  positive "API_KEY_DEFAULT_TTL" (APIKey_DefaultTTL a) ++ positive "API_KEY_MAX_TTL" (APIKey_MaxTTL a) ++
  problem_if (Z.ltb (APIKey_MaxTTL a) (APIKey_DefaultTTL a))
    "API_KEY_MAX_TTL must be greater than or equal to API_KEY_DEFAULT_TTL".
Definition mail_problems (c : Config) : list string :=
  problem_if (negb (existsb (beq (Mail_Transport c)) [MailTransportLog; MailTransportNone]))
    ("MAIL_TRANSPORT " +:+ strconv_Quote (Mail_Transport c) +:+ " is invalid (want log|none)") ++
  problem_if ((App_Env c =?= EnvProduction) && (Mail_Transport c =?= MailTransportLog))
    "MAIL_TRANSPORT must not be log in production; configure a real email sender".

Definition problems (c : Config) : list string :=
  app_problems c ++ http_problems (HTTP c) ++ database_problems (Database c) ++
  metrics_problems (Metrics c) ++ url_problems c ++ log_problems c ++ jwt_problems c ++
  invite_problems c ++ job_key_problems c ++ rate_problems (RateLimit c) ++
  worker_problems (Worker_ c) ++ jobs_problems (Jobs_ c) ++ apikey_problems (APIKey c) ++ mail_problems c.
Definition validate (c : Config) : option error :=
  match problems c with [] => None | ps => Some (problem_list "invalid configuration" ps) end.

Definition Load (env : Environ) : result Config :=
  match validateEnvOverrides env with
  | Some e => Err e
  | None =>
      let cfg := read_config env in
      match validate cfg with Some e => Err e | None => Ok cfg end
  end.
End validate.

(** ** What a loaded configuration guarantees *)
Section facts.
Context `{Env} `{Platform} `{GoNet}.

Lemma problem_if_nil b text : problem_if b text = [] <-> b = false.
Proof. by destruct b. Qed.
Lemma problem_list_nil title ps : match ps with [] => None | ps => Some (problem_list title ps) end = None -> ps = [].
Proof. by destruct ps. Qed.

Lemma Load_Ok_inv env c : Load env = Ok c -> env_problems env = [] /\ c = read_config env /\ problems c = [].
Proof.
  unfold Load, validateEnvOverrides, validate. intros Hl.
  destruct (env_problems env); [|done]. cbv zeta in Hl.
  destruct (problems (read_config env)) eqn:Hp; [|done]. by injection Hl as <-.
Qed.

(** A variable with a value that parses is read as that value, never as its default. *)
Lemma malformed_nil {A} (parse : string -> option A) env keys key v :
  malformed parse env keys = [] -> key ∈ keys -> set_value env key = Some v -> is_Some (parse v).
Proof.
  unfold malformed. intros Hm%List.map_eq_nil Hk Hv.
  destruct (parse v) eqn:E; [done|]. exfalso. apply list_elem_of_In in Hk.
  assert (Hin : In key []); [|done]. rewrite <- Hm. apply filter_In. by rewrite Hv, E.
Qed.
Lemma get_parsed_set {A} (parse : string -> option A) env key fallback v :
  set_value env key = Some v -> is_Some (parse v) -> parse v = Some (get_parsed parse env key fallback).
Proof. unfold get_parsed. intros -> [x ->]. done. Qed.

(** The rules [validate] checked, as one conjunction over the parts of the configuration. *)
Lemma problems_nil c : problems c = [] ->
  app_problems c = [] /\ http_problems (HTTP c) = [] /\ database_problems (Database c) = [] /\
  metrics_problems (Metrics c) = [] /\ url_problems c = [] /\ log_problems c = [] /\ jwt_problems c = [] /\
  invite_problems c = [] /\ job_key_problems c = [] /\ rate_problems (RateLimit c) = [] /\
  worker_problems (Worker_ c) = [] /\ jobs_problems (Jobs_ c) = [] /\ apikey_problems (APIKey c) = [] /\
  mail_problems c = [].
Proof. unfold problems. intros Hp. by rewrite !app_nil in Hp. Qed.
End facts.

Lemma beq_either (x a b : string) : ((x =?= a) || (x =?= b)) = true -> x = a \/ x = b.
Proof. rewrite orb_true_iff, !beq_true. done. Qed.

Ltac config_rules :=
  repeat match goal with
  | H : (_ ++ _)%list = [] |- _ => apply app_eq_nil in H as [? ?]
  | H : problem_if _ _ = [] |- _ => apply problem_if_nil in H
  end; bool_hyps.

(** The secrets and URLs of production, rule by rule. *)
Section production.
Context `{Env} `{Platform} `{GoNet} (c : Config) (Hprod : App_Env c = EnvProduction).

Lemma jwt_production : jwt_problems c = [] ->
  (32 <= len (JWT_Secret (JWT c)))%Z /\ JWT_Secret (JWT c) <> "dev-only-change-me-to-a-long-random-secret".
Proof.
  unfold jwt_problems. rewrite Hprod, beq_refl. cbn [andb negb]. intros Hj. config_rules. split_ifs; config_rules; done.
Qed.
Lemma job_key_production : job_key_problems c = [] ->
  (32 <= len (Jobs_EncryptionKey (Jobs_ c)))%Z /\
  Jobs_EncryptionKey (Jobs_ c) <> "use-a-long-random-job-encryption-secret" /\
  Jobs_EncryptionKey (Jobs_ c) <> JWT_Secret (JWT c).
Proof.
  unfold job_key_problems. rewrite Hprod, beq_refl. cbn [andb negb]. intros Hj. split_ifs; config_rules; done.
Qed.
Lemma mail_production : mail_problems c = [] -> Mail_Transport c = MailTransportNone.
Proof.
  unfold mail_problems. rewrite Hprod, beq_refl. cbn [andb negb existsb]. intros Hm. config_rules.
  match goal with H : (_ || _)%bool = true |- _ => apply orb_true_iff in H as [Hx|Hx] end; bool_hyps; [done|].
  rewrite orb_false_r in Hx. by bool_hyps.
Qed.
Lemma invite_production : invite_problems c = [] -> HasPrefix (ToLower (Invite_BaseURL (Invite c))) "https://" = true.
Proof. unfold invite_problems. rewrite Hprod, beq_refl. cbn [andb negb]. intros Hi. by config_rules. Qed.
Lemma url_production : url_problems c = [] ->
  (exists u, url_Parse (Database_URL (Database c)) = Some u /\
     (URL_Scheme u = "postgres" \/ URL_Scheme u = "postgresql") /\
     (URL_Query u "sslmode" = "verify-ca" \/ URL_Query u "sslmode" = "verify-full")) /\
  (exists u, url_Parse (Redis_URL c) = Some u /\ URL_Scheme u = "rediss").
Proof.
  unfold url_problems. rewrite Hprod, beq_refl. cbn [andb negb]. intros Hu. config_rules.
  assert (Hblank : TrimSpace "" = "") by reflexivity.
  split_ifs; config_rules; try congruence.
  split; eexists; (split; [reflexivity|]); [|assumption].
  split; by apply beq_either.
Qed.
End production.

(** C29. What a process that starts in production can rely on: the signing secret has at
    least 32 bytes and is not the documented example; the key that encrypts queued jobs has
    at least 32 bytes, is not the example and differs from the signing secret; mail is not
    written to the log; invitation links are https; the database is reached over postgres
    with a verified certificate and Redis over TLS. *)
Theorem Load_production `{Env} `{Platform} `{GoNet} (env : Environ) (c : Config) :
  Load env = Ok c -> App_Env c = EnvProduction ->
  (32 <= len (JWT_Secret (JWT c)))%Z /\ JWT_Secret (JWT c) <> "dev-only-change-me-to-a-long-random-secret" /\
  (32 <= len (Jobs_EncryptionKey (Jobs_ c)))%Z /\
  Jobs_EncryptionKey (Jobs_ c) <> "use-a-long-random-job-encryption-secret" /\
  Jobs_EncryptionKey (Jobs_ c) <> JWT_Secret (JWT c) /\
  Mail_Transport c = MailTransportNone /\
  HasPrefix (ToLower (Invite_BaseURL (Invite c))) "https://" = true /\
  (exists u, url_Parse (Database_URL (Database c)) = Some u /\
     (URL_Scheme u = "postgres" \/ URL_Scheme u = "postgresql") /\
     (URL_Query u "sslmode" = "verify-ca" \/ URL_Query u "sslmode" = "verify-full")) /\
  (exists u, url_Parse (Redis_URL c) = Some u /\ URL_Scheme u = "rediss").
Proof.
  intros (_ & _ & Hp)%Load_Ok_inv Hprod.
  apply problems_nil in Hp as (_ & _ & _ & _ & Hurl & _ & Hjwt & Hinv & Hkey & _ & _ & _ & _ & Hmail).
  apply jwt_production in Hjwt; [|done]. apply job_key_production in Hkey; [|done].
  apply mail_production in Hmail; [|done]. apply invite_production in Hinv; [|done].
  apply url_production in Hurl; [|done]. tauto.
Qed.

Definition example_env : Environ := fun key => snd <$> List.find (fun kv => kv.1 =?= key) [
  ("APP_ENV", "production"); ("DATABASE_URL", "postgres://db/teamflow?sslmode=verify-full");
  ("REDIS_URL", "rediss://cache:6379"); ("JWT_SECRET", "0123456789abcdef0123456789abcdef");
  ("JOB_ENCRYPTION_KEY", "fedcba9876543210fedcba9876543210"); ("MAIL_TRANSPORT", "none");
  ("INVITATION_BASE_URL", "https://app.example.com/"); ("DATABASE_MAX_CONNS", "4294967316")].
Lemma Load_production_witness :
  let c := @read_config demo example_env in
  @Load demo demo_platform demo_net example_env = Ok c /\ (32 <= len (Jobs_EncryptionKey (Jobs_ c)))%Z.
Proof.
  assert (Hl : @Load demo demo_platform demo_net example_env = Ok (@read_config demo example_env)) by (vm_compute; reflexivity).
  split; [exact Hl|].
  destruct (@Load_production demo demo_platform demo_net _ _ Hl) as (_ & _ & Hk & _); [vm_compute; reflexivity|exact Hk].
Defined.

(** [DATABASE_MAX_CONNS] is read as an [int] and converted to [int32] before it is
    checked: in an environment whose every other value is sound, a bound of 2^32 + 20
    connections passes validation and the pool gets 20. *)
Theorem max_conns_wrap :
  example_env "DATABASE_MAX_CONNS" = Some "4294967316" /\ Atoi "4294967316" = Some (2 ^ 32 + 20)%Z /\
  exists c, @Load demo demo_platform demo_net example_env = Ok c /\ Database_MaxConns (Database c) = 20%Z.
Proof. split; [reflexivity|]. split; [reflexivity|]. eexists. split; [vm_compute; reflexivity|reflexivity]. Qed.

(** No value of the environment is silently replaced by a default: in a configuration
    [Load] returns, every numeric, duration and boolean variable that is set has the value
    its text denotes. *)
Theorem Load_no_fallback `{Env} `{Platform} `{GoNet} (env : Environ) (c : Config) (key v : string) :
  Load env = Ok c -> set_value env key = Some v ->
  (key ∈ int_keys -> forall d, Atoi v = Some (getEnvInt env key d)) /\
  (key ∈ int64_keys -> forall d, ParseInt 64 v = Some (getEnvInt64 env key d)) /\
  (key ∈ duration_keys -> forall d, ParseDuration v = Some (getEnvDuration env key d)) /\
  (key ∈ bool_keys -> forall d, ParseBool v = Some (getEnvBool env key d)).
Proof.
  intros (He & _)%Load_Ok_inv Hv. unfold env_problems in He. rewrite !app_nil in He.
  destruct He as (Hi & H64 & Hd & Hb).
  split_and!; intros Hk d; apply get_parsed_set; eauto using malformed_nil.
Qed.
Lemma Load_no_fallback_witness : Atoi "4294967316" = Some (getEnvInt example_env "DATABASE_MAX_CONNS" 7).
Proof.
  assert (Hl : @Load demo demo_platform demo_net example_env = Ok (@read_config demo example_env)) by (vm_compute; reflexivity).
  refine (proj1 (@Load_no_fallback demo demo_platform demo_net _ _ "DATABASE_MAX_CONNS" _ Hl _) _ _); [reflexivity|].
  right. left.
Defined.

(** The number a getter returns fits its type when the default does. *)
Lemma get_parsed_in {A} (P : A -> Prop) parse env key fallback :
  P fallback -> (forall s x, parse s = Some x -> P x) -> P (get_parsed parse env key fallback).
Proof.
  intros Hf Hp. unfold get_parsed. destruct (set_value env key) as [v|]; [|done].
  destruct (parse v) eqn:E; [by eapply Hp|done].
Qed.
Definition int64 (z : Z) : Prop := (- 2 ^ 63 <= z < 2 ^ 63)%Z.
Lemma getEnvInt_int64 env key d : int64 d -> int64 (getEnvInt env key d).
Proof. intros Hd. apply (get_parsed_in int64); [done|apply Atoi_range]. Qed.
Lemma getEnvDuration_int64 env key d : int64 d -> int64 (getEnvDuration env key d).
Proof. intros Hd. apply (get_parsed_in int64); [done|apply ParseDuration_range]. Qed.
Lemma wrap32_range z : (- 2 ^ 31 <= wrap32 z < 2 ^ 31)%Z.
Proof. unfold wrap32. pose proof (Z.mod_pos_bound z (2 ^ 32) eq_refl). split_ifs; lia. Qed.

(** The bounds every started process can rely on: the port, the pool, the timeouts, the
    lifetimes of sessions, invitations and keys, the worker, the queue's retry budget and
    the three rate limits are all inside their ranges. *)
Theorem Load_ranges `{Env} `{Platform} `{GoNet} (env : Environ) (c : Config) :
  Load env = Ok c ->
  (1 <= HTTP_Port (HTTP c) <= 65535)%Z /\ (1 <= HTTP_MaxBodyBytes (HTTP c))%Z /\
  (0 < HTTP_ReadTimeout (HTTP c) /\ 0 < HTTP_WriteTimeout (HTTP c) /\
   0 < HTTP_IdleTimeout (HTTP c) /\ 0 < HTTP_ShutdownTimeout (HTTP c))%Z /\
  (0 <= Database_MinConns (Database c) <= Database_MaxConns (Database c))%Z /\
  (1 <= Database_MaxConns (Database c) < 2 ^ 31)%Z /\
  (0 < JWT_AccessTTL (JWT c) < JWT_RefreshTTL (JWT c))%Z /\
  (0 < Invite_TTL (Invite c) <= maxInvitationTTL)%Z /\
  (0 < APIKey_DefaultTTL (APIKey c) <= APIKey_MaxTTL (APIKey c))%Z /\
  (1 <= Worker_Concurrency (Worker_ c) /\ 0 < Worker_BlockTimeout (Worker_ c) /\
   0 < Worker_StaleAfter (Worker_ c) /\ 0 < Worker_ShutdownTimeout (Worker_ c))%Z /\
  (1 <= Jobs_MaxAttempts (Jobs_ c) < 2 ^ 63)%Z /\
  (0 < Jobs_RetryBaseDelay (Jobs_ c) <= Jobs_RetryMaxDelay (Jobs_ c))%Z /\ (Jobs_RetryMaxDelay (Jobs_ c) < 2 ^ 63)%Z /\
  Forall (fun p => 1 <= RL_Limit p /\ 0 < RL_Period p)%Z
    [RateLimit_Auth (RateLimit c); RateLimit_User (RateLimit c); RateLimit_APIKey (RateLimit c)].
Proof.
  intros (_ & Hc & Hp)%Load_Ok_inv.
  assert (Hmax : (Database_MaxConns (Database c) < 2 ^ 31)%Z) by (rewrite Hc; apply wrap32_range).
  assert (Ha : int64 (Jobs_MaxAttempts (Jobs_ c))) by (rewrite Hc; by apply getEnvInt_int64).
  assert (Hd : int64 (Jobs_RetryMaxDelay (Jobs_ c))) by (rewrite Hc; by apply getEnvDuration_int64).
  apply problems_nil in Hp as (_ & Hh & Hdb & _ & _ & _ & Hj & Hi & _ & Hr & Hw & Hq & Hk & _). clear Hc.
  unfold http_problems, database_problems, jwt_problems, invite_problems, rate_problems, policy_problems,
    worker_problems, jobs_problems, apikey_problems, positive in *.
  config_rules. unfold int64 in *. repeat (apply conj || apply Forall_cons_2 || apply Forall_nil_2); lia.
Qed.
Lemma Load_ranges_witness : (0 < Jobs_RetryBaseDelay (Jobs_ (@read_config demo example_env)))%Z.
Proof.
  assert (Hl : @Load demo demo_platform demo_net example_env = Ok (@read_config demo example_env)) by (vm_compute; reflexivity).
  destruct (@Load_ranges demo demo_platform demo_net _ _ Hl) as (_ & _ & _ & _ & _ & _ & _ & _ & _ & _ & Hb & _).
  apply Hb.
Defined.
