(* ===== verification/WorkerMain.v ===== *)
(** * The worker process

    Models [cmd/worker/main.go]: the queue and the worker built from the configuration, the
    handlers it registers, the periodic jobs that re-schedule themselves, and the decoders
    of their payloads.  The invitation service of this process has no queue; what follows for
    its sweeps is in [Periodic]. *)
From S2P Require Import Prelude.
From S2P Require Import GoError.
From S2P Require Import Schema.
From S2P Require Import Store.
From S2P Require Import Logic.
From S2P Require Import GoStrings.
From S2P Require Import Utf8.
From S2P Require Import Json.
From S2P Require Import JsonDecode.
From S2P Require Import Jobs.
From S2P Require Import QueueFacts.
From S2P Require Import Worker.
From S2P Require Import Decode.
From S2P Require Import Organizations.
From S2P Require Import Authz.
From S2P Require Import Delivery.
From S2P Require Import Invitations.
From S2P Require Import ApiKeys.
From S2P Require Import GoNet.
From S2P Require Import Config.
From S2P Require Import Demo.
From S2P Require Import QueueDemo.
Local Open Scope string_scope.

Definition invitationRedeliveryInterval : Z := 5 * Minute.
Definition apiKeyExpirySweepInterval : Z := 6 * Hour.

(** ** Payload decoders *)
Section decoders.
Context `{Env}.
Definition email_fields : list (Field EmailJobPayload) :=
  [mk_field "invitation_id" uuid_field EP_InvitationID (fun v p => {| EP_InvitationID := v; EP_Token := EP_Token p |});
   mk_field "token" string_field EP_Token (fun v p => {| EP_InvitationID := EP_InvitationID p; EP_Token := v |})].
Definition decode_email : string -> option EmailJobPayload :=
  UnmarshalStruct email_fields {| EP_InvitationID := uuid_Nil; EP_Token := "" |}.
(** [RedeliverJobPayload] and [ExpireSweepJobPayload] have the same one field. *)
Definition organization_fields : list (Field N) := [mk_field "organization_id" uuid_field (fun o => o) (fun v _ => v)].
Definition decode_organization : string -> option N := UnmarshalStruct organization_fields uuid_Nil.
End decoders.

Section main.
Context `{Env} `{AEAD} `{Platform} `{RedisServer} `{GoNet}.

(** [jobEncryptionKey] *)
Definition jobEncryptionKey (cfg : Config) : string :=
  if negb (Jobs_EncryptionKey (Jobs_ cfg) =?= "") then Jobs_EncryptionKey (Jobs_ cfg) else "jwt/" +:+ JWT_Secret (JWT cfg).
(** The queue and the worker [run] builds. *)
Definition queue_options (cfg : Config) : Options := {|
  Opt_EncryptionKey := jobEncryptionKey cfg; Opt_MaxAttempts := Jobs_MaxAttempts (Jobs_ cfg);
  Opt_RetryBaseDelay := Jobs_RetryBaseDelay (Jobs_ cfg); Opt_RetryMaxDelay := Jobs_RetryMaxDelay (Jobs_ cfg)
|}.
Definition worker_options (cfg : Config) : WorkerOptions := {|
  Concurrency := Worker_Concurrency (Worker_ cfg); BlockTimeout := Worker_BlockTimeout (Worker_ cfg);
  StaleAfter := Worker_StaleAfter (Worker_ cfg); ShutdownTimeout := Worker_ShutdownTimeout (Worker_ cfg);
  ConsumerName := ""; PromoteInterval := 0
|}.
(** The mail transport: nothing is sent when it is "none". *)
Definition mail_sender (cfg : Config) : Sender :=
  if Mail_Transport cfg =?= MailTransportNone then DiscardSender else LogSender.
Definition worker_invitations (cfg : Config) (rfc3339 : Z -> string) : InviteConfig := {|
  invite_ttl := Invite_TTL (Invite cfg); invite_baseURL := Invite_BaseURL (Invite cfg); invite_queue := None;
  format_RFC3339 := rfc3339; unmarshal_email := decode_email; unmarshal_redeliver := decode_organization
|}.
Definition worker_apikeys (cfg : Config) (days : Z -> string) : ApiKeyConfig := {|
  defaultTTL := APIKey_DefaultTTL (APIKey cfg); maxTTL := APIKey_MaxTTL (APIKey cfg);
  format_days := days; unmarshal_sweep := decode_organization
|}.

(** [json.RawMessage] as the handlers see it. *)
Definition payload_text (j : Job) : string := match Job_Payload j with None => "" | Some p => Marshal p end.
(** [reschedule]: a raw message without a value is marshalled as [null]. *)
Definition reschedule (q : Queue) (interval : Z) (handler : string -> M unit) : Handler := fun ctx job =>
  handler (payload_text job) ;;;
  EnqueueIn q ctx interval (Job_Type job) (Some (default JNull (Job_Payload job))) ;;;
  ret tt.
(** [seed]: a failure is logged. *)
Definition seed (ctx : Ctx) (q : Queue) (jobType : string) (interval : Z) : M unit :=
  attempt (EnqueueIn q ctx interval jobType None) ;;; ret tt.

(** [registerHandlers] *)
Definition JobTypeRedeliver : string := "invitations.redeliver".
Definition JobTypeExpireSweep : string := "api_keys.expire_sweep".
Definition register_all (cfg : Config) (rfc3339 days : Z -> string) (q : Queue) (wk : Worker) : Worker :=
  let inv := worker_invitations cfg rfc3339 in
  Register JobTypeExpireSweep
    (reschedule q apiKeyExpirySweepInterval (@ExpireSweepJobHandler _ (worker_apikeys cfg days)))
  (Register JobTypeRedeliver (reschedule q invitationRedeliveryInterval (@RedeliverJobHandler _ inv))
  (Register JobTypeEmail (fun _ job => @EmailJobHandler _ (mail_sender cfg) inv (payload_text job)) wk)).
Definition registerHandlers (ctx : Ctx) (cfg : Config) (rfc3339 days : Z -> string) (q : Queue) (wk : Worker) : M Worker :=
  seed ctx q JobTypeRedeliver invitationRedeliveryInterval ;;;
  seed ctx q JobTypeExpireSweep apiKeyExpirySweepInterval ;;;
  ret (register_all cfg rfc3339 days q wk).
(** [run], up to the consumers: the queue, the worker with its handlers, the consumer group
    and the jobs promoted at startup. *)
Definition run_start (ctx : Ctx) (cfg : Config) (rfc3339 days : Z -> string) (hostname_pid : string) : M Worker :=
  q <- wrapf "build job queue" (ret_result (NewQueue true (queue_options cfg))) ;;
  wk <- registerHandlers ctx cfg rfc3339 days q (NewWorker q (worker_options cfg) hostname_pid) ;;
  wrapf "prepare job queue" (EnsureGroup ctx) ;;;
  attempt (PromoteDue q ctx 100) ;;;
  ret wk.
End main.

(** ** The handlers and the queue *)

(** Statements and transactions never touch the queue. *)
Section frame.
Context `{Env} (R : relation Redis) `{!PreOrder R}.
Lemma rpres_stmt {A} (body : StmtCtx -> DB -> result (A * DB)) : rpres R (stmt body).
Proof.
  intros w. unfold stmt. destruct (w_tx w) as [t|]; [destruct (tx_aborted t); [simpl; reflexivity|]|];
    destruct (env_fault _); try (simpl; reflexivity); destruct (body _ _) as [[a d]|e]; try (simpl; reflexivity);
    destruct (aborts e); simpl; reflexivity.
Qed.
Lemma rpres_query {A} (f : StmtCtx -> DB -> result A) : rpres R (query f).
Proof. apply rpres_stmt. Qed.
Lemma rpres_Begin : rpres R Begin.
Proof. intros w. unfold Begin. destruct (w_tx w); [simpl; reflexivity|]. destruct (env_fault _); simpl; reflexivity. Qed.
Lemma rpres_Rollback : rpres R Rollback.
Proof. intros w. unfold Rollback. destruct (w_tx w); simpl; reflexivity. Qed.
Lemma rpres_Commit : rpres R Commit.
Proof.
  intros w. unfold Commit. destruct (w_tx w) as [t|]; [|simpl; reflexivity].
  destruct (tx_aborted t); [simpl; reflexivity|]. destruct (env_fault _); simpl; reflexivity.
Qed.
Lemma rpres_set_config_org o : rpres R (set_config_org o).
Proof.
  intros w. unfold set_config_org. destruct (w_tx w) as [t|]; [destruct (tx_aborted t); [simpl; reflexivity|]|];
    destruct (env_fault _); simpl; reflexivity.
Qed.
Lemma rpres_defer {A} c (m : M A) : rpres R c -> rpres R m -> rpres R (defer c m).
Proof.
  intros Hc Hm w. unfold defer. specialize (Hm w). destruct (m w) as [r w1]. simpl in *. etrans; [done|apply Hc].
Qed.
Lemma rpres_WithTenantTx {A} o (fn : M A) : rpres R fn -> rpres R (WithTenantTx o fn).
Proof.
  intros Hf. unfold WithTenantTx. rpres_step; [apply rpres_wrapf, rpres_Begin|]. apply rpres_defer; [apply rpres_Rollback|].
  rpres_step; [apply rpres_wrapf, rpres_set_config_org|]. rpres_step; [done|]. rpres_step; [apply rpres_wrapf, rpres_Commit|].
  rpres_auto.
Qed.
Lemma rpres_LogSender m : rpres R (LogSender_Send m).
Proof. intros w. simpl. reflexivity. Qed.
Lemma rpres_ForEach o (fn : N -> M unit) : (forall o, rpres R (fn o)) -> rpres R (ForEachActiveOrganization o fn).
Proof.
  intros Hf. unfold ForEachActiveOrganization. destruct (negb _); [done|]. rpres_step; [apply rpres_wrapf, rpres_query|].
  apply rpres_for_each; [apply _|done].
Qed.
End frame.
Ltac rpres_db :=
  repeat first
    [ rpres_step
    | apply rpres_WithTenantTx; [typeclasses eauto|]
    | apply rpres_for_each; [typeclasses eauto|intros]
    | apply rpres_stmt; typeclasses eauto
    | apply rpres_query; typeclasses eauto
    | solve [eauto 3 with teamflow_redis] ].

Section handlers.
Context `{Env} `{AEADLaws} `{PlatformLaws} `{RedisLaws} `{GoNet} (cfg : Config) (rfc3339 days : Z -> string).

Lemma sender_queue (R : relation Redis) `{!PreOrder R} m : rpres R (@Send _ (mail_sender cfg) m).
Proof.
  unfold mail_sender. destruct (_ =?= _); [apply rpres_ret; apply _|]. by apply rpres_LogSender.
Qed.
Lemma EmailJobHandler_queue (R : relation Redis) `{!PreOrder R} p :
  rpres R (@EmailJobHandler _ (mail_sender cfg) (worker_invitations cfg rfc3339) p).
Proof.
  unfold EmailJobHandler, deliveryTarget, target_body, orgName, sendInvitationEmail, markNotified.
  destruct (unmarshal_email p); [|rpres_auto]. destruct (_ || _); [rpres_auto|]. rpres_db.
  all: try apply sender_queue; try apply _. unfold QueriesInv.MarkInvitationNotified. rpres_db.
Qed.
Lemma RedeliverJobHandler_queue (R : relation Redis) `{!PreOrder R} p :
  rpres R (@RedeliverJobHandler _ (worker_invitations cfg rfc3339) p).
Proof.
  assert (Ho : forall o, rpres R (@redeliver_org _ (worker_invitations cfg rfc3339) o)).
  { intros o. unfold redeliver_org, undeliveredInvitations, redeliver_one, rotate_body, generateToken, enqueueEmail.
    cbn [invite_queue worker_invitations]. rpres_db. }
  unfold RedeliverJobHandler. destruct (_ =?= ""); [by apply rpres_ForEach|].
  destruct (unmarshal_redeliver p); [by apply rpres_ForEach|rpres_auto].
Qed.
Lemma ExpireSweepJobHandler_queue (R : relation Redis) `{!PreOrder R} p :
  rpres R (@ExpireSweepJobHandler _ (worker_apikeys cfg days) p).
Proof.
  assert (Ho : forall o, rpres R (revokeExpired o)) by (intros o; unfold revokeExpired, sweep_body; rpres_db).
  unfold ExpireSweepJobHandler. destruct (_ =?= ""); [by apply rpres_ForEach|].
  destruct (unmarshal_sweep p); [by apply rpres_ForEach|rpres_auto].
Qed.
End handlers.

Section started.
Context `{Env} `{AEADLaws} `{PlatformLaws} `{RedisLaws} `{GoNet} (cfg : Config) (rfc3339 days : Z -> string).

(** A loaded configuration gives a queue with exactly the configured retry budget. *)
Lemma configured_queue (env : Environ) : Load env = Ok cfg ->
  exists q, NewQueue true (queue_options cfg) = Ok q /\ queue_ok q /\
    q_maxAttempts q = Jobs_MaxAttempts (Jobs_ cfg) /\
    q_baseDelay q = Jobs_RetryBaseDelay (Jobs_ cfg) /\ q_maxDelay q = Jobs_RetryMaxDelay (Jobs_ cfg).
Proof.
  intros (_ & Hc & Hp)%Load_Ok_inv.
  assert (Ha : int64 (Jobs_MaxAttempts (Jobs_ cfg))) by (rewrite Hc; by apply getEnvInt_int64).
  assert (Hd : int64 (Jobs_RetryMaxDelay (Jobs_ cfg))) by (rewrite Hc; by apply getEnvDuration_int64).
  apply problems_nil in Hp as (_ & _ & _ & _ & _ & _ & _ & _ & _ & _ & _ & Hj & _). clear Hc.
  unfold jobs_problems, positive, int64 in *. config_rules.
  unfold NewQueue, newAEAD, queue_options. cbn [negb Opt_EncryptionKey Opt_MaxAttempts Opt_RetryBaseDelay Opt_RetryMaxDelay].
  assert (Hk : (jobEncryptionKey cfg =?= "") = false).
  { apply beq_false. unfold jobEncryptionKey. destruct (_ =?= "") eqn:E; [done|]. by apply beq_neq in E. }
  rewrite Hk. destruct (Z.leb_spec (Jobs_RetryBaseDelay (Jobs_ cfg)) 0); [lia|].
  destruct (Z.ltb_spec (Jobs_MaxAttempts (Jobs_ cfg)) 1); [lia|].
  destruct (Z.ltb_spec (Jobs_RetryMaxDelay (Jobs_ cfg)) (Jobs_RetryBaseDelay (Jobs_ cfg))); [lia|].
  eexists. split; [done|]. unfold queue_ok. cbn. lia.
Qed.

Lemma registered_ok q wk : rand_ok -> wk_queue wk = q -> wk_handlers wk = ∅ -> queue_ok q ->
  handlers_ok (register_all cfg rfc3339 days q wk).
Proof.
  intros Hr Hwq Hwh Hq t h c j Ht.
  assert (Hq' : wk_queue (register_all cfg rfc3339 days q wk) = q) by done. rewrite Hq'.
  unfold handler_for, register_all, Register in Ht. cbn [wk_handlers wk_queue] in Ht. rewrite Hwh in Ht.
  assert (Hre : forall i m, rpres (safe q) m -> rpres (safe q) (reschedule q i (fun _ => m) c j)).
  { intros i m Hm. unfold reschedule. rpres_step; [done|]. rpres_step; [by apply enqueue_safe|]. apply rpres_ret. apply _. }
  apply lookup_insert_Some in Ht as [[_ <-]|[_ Ht]].
  { apply (Hre _ (@ExpireSweepJobHandler _ (worker_apikeys cfg days) (payload_text j))), ExpireSweepJobHandler_queue. apply _. }
  apply lookup_insert_Some in Ht as [[_ <-]|[_ Ht]].
  { apply (Hre _ (@RedeliverJobHandler _ (worker_invitations cfg rfc3339) (payload_text j))), RedeliverJobHandler_queue. apply _. }
  apply lookup_insert_Some in Ht as [[_ <-]|[_ Ht]]; [apply EmailJobHandler_queue; apply _|done].
Qed.

(** The worker [run_start] hands to its consumers. *)
Lemma run_start_Ok env ctx host w wk w' : rand_ok -> Load env = Ok cfg ->
  run_start ctx cfg rfc3339 days host w = (Ok wk, w') ->
  queue_ok (wk_queue wk) /\ handlers_ok wk /\ q_maxAttempts (wk_queue wk) = Jobs_MaxAttempts (Jobs_ cfg).
Proof.
  intros Hr Hl Hs. destruct (configured_queue env Hl) as (q & Hq & Hok & Hma & _). unfold run_start in Hs. rewrite Hq in Hs.
  apply bind_Ok in Hs as (q' & w1 & Eq%wrapf_Ok & Hs). apply ret_result_Ok in Eq as [[= <-] _].
  apply bind_Ok in Hs as (wk' & w2 & Ewk & Hs). unfold registerHandlers in Ewk.
  apply bind_Ok in Ewk as ([] & w3 & _ & Ewk). apply bind_Ok in Ewk as ([] & w4 & _ & Ewk). apply ret_Ok in Ewk as [<- _].
  apply bind_Ok in Hs as ([] & w5 & _ & Hs). apply bind_Ok in Hs as (r & w6 & _ & Hs). apply ret_Ok in Hs as [<- _].
  split; [done|]. split; [by apply registered_ok|done].
Qed.
End started.

(** C10. The worker the binary starts loses no job unless Redis refuses a command: for every
    environment whose configuration loads, with the handlers it registers (invitation email,
    redelivery sweep, key expiry sweep) and whatever commands fail in transport, consumers crash
    and steps interleave, a job waiting in the queue waits there until its handler succeeded or
    it is in the dead-letter stream, or until Redis answers a command with an error in the very
    pipeline that records its failure or promotes it; and a waiting job records fewer attempts
    than its maximum.  (An attempt whose outcome was never recorded is not counted.) *)
Theorem worker_keeps_jobs `{Env} `{AEADLaws} `{PlatformLaws} `{RedisLaws} `{GoNet} (env : Environ) (cfg : Config)
    (rfc3339 days : Z -> string) ctx host w wk w' p p' id :
  rand_ok -> Load env = Ok cfg -> run_start ctx cfg rfc3339 days host w = (Ok wk, w') ->
  pool_inv wk p -> rtc (pool_step wk (fun _ => True)) p p' -> utf8_valid id ->
  (accounted wk p id -> accounted wk p' id) /\
  (forall s j, stored (w_redis (p_world p')) s -> open (wk_queue wk) s = Ok j ->
     (0 <= Job_Attempts j < Job_MaxAttempts j)%Z).
Proof.
  intros Hr Hl Hs Hp Hst Hv. destruct (run_start_Ok cfg rfc3339 days env ctx host w wk w' Hr Hl Hs) as (Hq & Hh & _).
  destruct (pool_steps wk _ p p' Hr Hq Hh Hst Hp) as [[[_ Hb] _] Ha].
  split; [by apply Ha|]. intros s j Hstored Ho. by apply (Hb s).
Qed.

(** ** An email job from the service to the handler *)
Section roundtrip.
Context `{Env} `{AEADLaws} `{PlatformLaws} `{RedisLaws}.

Lemma clean_valid_payload id token : utf8_valid (uuid_String id) -> utf8_valid token ->
  clean_json (email_payload id token) = email_payload id token.
Proof. unfold utf8_valid. intros Hi Ht. cbn [clean_json email_payload map fst snd]. by rewrite Hi, Ht. Qed.
Lemma decode_email_payload id token : uuid_Parse (uuid_String id) = Some id ->
  utf8_valid (uuid_String id) -> utf8_valid token ->
  decode_email (Marshal (email_payload id token)) = Some {| EP_InvitationID := id; EP_Token := token |}.
Proof.
  intros Hu Hi Ht. unfold decode_email, UnmarshalStruct. rewrite Unmarshal_Marshal, clean_valid_payload by done.
  assert (Hid : find_field email_fields "invitation_id" = Some (List.nth 0 email_fields (Build_Field "" (fun _ _ => None)))) by reflexivity.
  assert (Htok : find_field email_fields "token" = Some (List.nth 1 email_fields (Build_Field "" (fun _ _ => None)))) by reflexivity.
  cbn [mbind option_bind decode_struct email_payload set_members set_member fst snd].
  unfold set_member. cbn [fst snd]. rewrite Hid, Htok. cbn. by rewrite Hu.
Qed.

(** C30. What the service queues is what the worker delivers: after an invitation email job
    was enqueued, the stream holds an entry that opens, under the queue's key, to a job of
    the email type whose payload decodes to exactly the invitation and the token that were
    given. *)
Theorem email_job_roundtrip (q : Queue) (c : Ctx) (id : N) (token : string) (w w' : World) (j : Job) :
  rand_ok -> queue_ok q -> uuid_Parse (uuid_String id) = Some id -> utf8_valid (uuid_String id) -> utf8_valid token ->
  Jobs.Enqueue q c JobTypeEmail (Some (email_payload id token)) w = (Ok j, w') ->
  exists eid sealed j', (eid, Some sealed) ∈ rd_stream (w_redis w') /\ open q sealed = Ok j' /\
    Job_Type j' = JobTypeEmail /\ decode_email (payload_text j') = Some {| EP_InvitationID := id; EP_Token := token |}.
Proof.
  intros Hr [Hq _] Hu Hi Ht E. unfold Jobs.Enqueue, enqueue in E.
  apply bind_Ok in E as ([] & w1 & [_ <-]%reject_if_Ok & E). apply bind_Ok in E as (jid & w2 & _ & E).
  apply bind_Ok in E as (now & w3 & _ & E). cbv zeta in E. apply bind_Ok in E as (sealed & w4 & Es & E).
  change (Z.ltb 0 0) with false in E. cbv iota in E.
  apply bind_Ok in E as ([] & w5 & [_ Hx]%wrapf_Ok%run_command_Ok & E). apply ret_Ok in E as [_ <-].
  apply open_seal in Es; [|done|split; unfold int64_range; cbn; lia].
  destruct (XADD_entry sealed (w_redis w4)) as (eid & _ & Hst & _). cbn [wrote snd] in Hx.
  eexists eid, sealed, _. split; [rewrite Hx, Hst; apply elem_of_app; right; by left|]. split; [exact Es|].
  split; [reflexivity|]. unfold payload_text, clean_job. cbn [Job_Payload fmap option_fmap option_map].
  rewrite clean_valid_payload by done. by apply decode_email_payload.
Qed.
End roundtrip.

(** ** Concrete runs *)
#[local] Existing Instances demo_web demo_aead demo_platform demo_redis demo_net.
Definition example_config : Config := read_config example_env.
Definition no_text (t : Z) : string := "".
#[local] Notation demo_start :=
  (run_start Background example_config no_text no_text "host-1" (demo_world demo_DB)).
Lemma example_loads : Load example_env = Ok example_config.
Proof. vm_compute. reflexivity. Qed.
Lemma web_rand_ok : @rand_ok demo_web.
Proof. exact demo_rand_ok. Qed.
Definition start_pool : Pool := {| p_world := demo_world demo_DB; p_held := []; p_done := []; p_dead := []; p_lost := [] |}.
Definition queued_pool (wk : Worker) : Pool :=
  pool_after wk (enqueue (wk_queue wk) Background JobTypeEmail None 0 (demo_world demo_DB)).2 [] [] [] start_pool.
Lemma queued_inv (wk : Worker) : queue_ok (wk_queue wk) -> handlers_ok wk -> pool_inv wk (queued_pool wk).
Proof.
  intros Hq Hh. refine (proj1 (pool_steps wk (fun _ => True) start_pool (queued_pool wk) web_rand_ok Hq Hh _ _)); [|by apply empty_inv].
  eapply rtc_once. exact (step_enqueue wk (fun _ => True) start_pool Background JobTypeEmail None 0 I).
Qed.
Definition job_1 : string := "00000000-0000-4000-8000-1000".
Definition stream_ids (wk : Worker) : list (option string) :=
  map (fun e => mbind (opened_id wk) (snd e)) (rd_stream (w_redis (p_world (queued_pool wk)))).
Lemma queued_id : match demo_start.1 with Ok wk => stream_ids wk | Err _ => [] end = [Some job_1].
Proof. vm_compute. reflexivity. Qed.
Lemma queued_accounted wk w' : demo_start = (Ok wk, w') -> accounted wk (queued_pool wk) job_1.
Proof.
  intros E. pose proof queued_id as Hi. rewrite E in Hi. cbn [fst] in Hi. unfold stream_ids in Hi.
  destruct (rd_stream _) as [|[id [s|]] [|]] eqn:Er; cbn in Hi; try discriminate. injection Hi as Hi.
  left. exists s. split; [left; exists id; rewrite Er; by left|exact Hi].
Qed.
Lemma demo_starts : exists wk w', demo_start = (Ok wk, w').
Proof.
  pose proof queued_id as Hi. destruct demo_start as [[wk|e] w']; [by exists wk, w'|done].
Qed.
Lemma worker_keeps_jobs_witness : exists wk w', demo_start = (Ok wk, w') /\ accounted wk (queued_pool wk) job_1.
Proof.
  destruct demo_starts as (wk & w' & E). exists wk, w'. split; [exact E|].
  destruct (run_start_Ok example_config no_text no_text example_env Background "host-1" _ wk w' web_rand_ok example_loads E)
    as (Hq & Hh & _).
  refine (proj1 (worker_keeps_jobs example_env example_config no_text no_text Background "host-1" _ wk w' _ _ job_1
    web_rand_ok example_loads E (queued_inv wk Hq Hh) (rtc_refl _ _) _) (queued_accounted wk w' E)). vm_compute. reflexivity.
Defined.

#[local] Notation email_queued :=
  (Jobs.Enqueue demo_queue Background JobTypeEmail (Some (email_payload 1 "tok")) (demo_world demo_DB)).
Lemma email_accepted : exists j w', email_queued = (Ok j, w').
Proof.
  assert (Hk : match email_queued.1 with Ok _ => true | Err _ => false end = true) by (vm_compute; reflexivity).
  destruct email_queued as [[j|e] w']; [by exists j, w'|done].
Qed.
Lemma email_job_roundtrip_witness : exists j w', email_queued = (Ok j, w') /\
  exists eid sealed j', (eid, Some sealed) ∈ rd_stream (w_redis w') /\ open demo_queue sealed = Ok j' /\
    Job_Type j' = JobTypeEmail /\ decode_email (payload_text j') = Some {| EP_InvitationID := 1; EP_Token := "tok" |}.
Proof.
  destruct email_accepted as (j & w' & E). exists j, w'. split; [exact E|].
  refine (email_job_roundtrip demo_queue Background 1 "tok" _ w' j web_rand_ok demo_queue_ok _ _ _ E);
    vm_compute; reflexivity.
Defined.

