(* ===== verification/Periodic.v ===== *)
(** * Periodic jobs

    The redelivery sweep and the key expiry sweep of [cmd/worker/main.go] as a chain of jobs:
    each run that succeeds schedules the next one.  Shows that the chain goes on after a
    success, and that once the last attempt of a run has failed no job of that type appears in
    the queue again, whatever the workers do, until something enqueues one; and what the
    redelivery sweep does in this process, whose invitation service has no queue. *)
From S2P Require Import Prelude.
From S2P Require Import GoError.
From S2P Require Import Schema.
From S2P Require Import Sql.
From S2P Require Import Store.
From S2P Require Import Logic.
From S2P Require Import GoStrings.
From S2P Require Import Utf8.
From S2P Require Import Json.
From S2P Require Import JsonDecode.
From S2P Require Import Jobs.
From S2P Require Import QueueFacts.
From S2P Require Import Worker.
From S2P Require Import WorkerLife.
From S2P Require Import Delivery.
From S2P Require Import QueriesOrg.
From S2P Require Import QueriesInv.
From S2P Require Import Organizations.
From S2P Require Import Invitations.
From S2P Require Import ApiKeys.
From S2P Require Import GoNet.
From S2P Require Import Config.
From S2P Require Import Demo.
From S2P Require Import QueueDemo.
From S2P Require Import WorkerMain.
Local Open Scope string_scope.

(** ** Jobs of one type *)
Section typed.
Context `{Env} `{AEADLaws} `{PlatformLaws} `{RedisLaws} (wk : Worker) (T : string).
Let q := wk_queue wk.

(** Types are compared as they come back from the queue. *)
Definition not_of (s : string) : Prop := forall j, open q s = Ok j -> utf8_clean (Job_Type j) <> T.
Definition brings_none (r r' : Redis) : Prop := forall s, stored r' s -> stored r s \/ not_of s.
#[local] Instance brings_none_pre : PreOrder brings_none.
Proof.
  split; [intros r s Hs; by left|]. intros r1 r2 r3 H12 H23 s [Hs|Hs]%H23; [by apply H12|by right].
Qed.
(** No job of type [T] waits, and no consumer holds one. *)
Definition no_such (p : Pool) : Prop :=
  (forall s, stored (w_redis (p_world p)) s -> not_of s) /\
  Forall (fun d => utf8_clean (Job_Type (Delivery_Job d)) <> T) (p_held p).
(** The handlers of other types do not enqueue jobs of type [T]. *)
Definition typed_handlers : Prop := forall t h c j, handler_for wk t = Some h -> Job_Type j = t ->
  utf8_clean t <> T -> rpres brings_none (h c j).

Lemma same_jobs_none r r' : same_jobs r r' -> brings_none r r'.
Proof. intros (Hs & Hr & _) s. unfold stored, members. rewrite Hs, Hr. by left. Qed.
Lemma claim_none {A} c (f : Redis -> reply A * Redis) : (forall r, same_jobs r (f r).2) -> rpres brings_none (command c f).
Proof. intros Hf. apply rpres_command; [apply _|]. intros r. apply same_jobs_none, Hf. Qed.
Lemma enqueue_none c t p d : rand_ok -> queue_ok q -> utf8_clean t <> T -> rpres brings_none (enqueue q c t p d).
Proof.
  intros Hr Hq Ht. unfold enqueue. do 3 (apply rpres_bind; [apply _|eauto with teamflow_redis|intros ?]).
  cbv zeta. apply rpres_bind_Ok; [apply _|eauto with teamflow_redis|].
  intros w sealed w1 Hs.
  assert (Hb : not_of sealed).
  { apply open_seal in Hs; [|done|destruct Hq; split; unfold int64_range; cbn; lia].
    intros j Hj Hty. rewrite Hs in Hj. injection Hj as <-. exact (Ht (eq_trans (eq_sym (utf8_clean_idem _)) Hty)). }
  clear Hs.
  enough (Hg : forall m : M Job, rpres brings_none m -> brings_none (w_redis w1) (w_redis (m w1).2)).
  { apply Hg. destruct (Z.ltb 0 d); rpres_auto; apply rpres_run_command; [apply _| |apply _|]; intros r s; cbn [wrote snd].
    - intros [->|Hs]%stored_ZADD; [by right|by left].
    - intros [->|Hs]%stored_XADD; [by right|by left]. }
  intros m Hm. apply Hm.
Qed.
Lemma Fail_none c d e w : rand_ok -> job_ints (Delivery_Job d) -> utf8_clean (Job_Type (Delivery_Job d)) <> T ->
  brings_none (w_redis w) (w_redis (Fail_ q c d e w).2).
Proof.
  intros Hr Hi Ht. destruct (Fail_run q c d e w Hr Hi) as [_ [->|[(sealed & Ho & Hx)|[_ Hb]]]].
  - intros s Hs. by left.
  - destruct (exhausted _ _); destruct Hx as [_ Hx]; intros s Hs; [left; by apply Hx|].
    destruct (Hx s Hs) as [->|]; [right|by left]. intros j Hj Hty. rewrite Ho in Hj. injection Hj as <-.
    exact (Ht (eq_trans (eq_sym (utf8_clean_idem _)) Hty)).
  - intros s Hs. left. by apply Hb.
Qed.
Lemma handle_none c d w : rand_ok -> typed_handlers -> job_ints (Delivery_Job d) ->
  utf8_clean (Job_Type (Delivery_Job d)) <> T -> brings_none (w_redis w) (w_redis (handle wk c d w).2).
Proof.
  intros Hr Hh Hi Ht. unfold handle. destruct (_ =?= ""); [rewrite attempt_world; by apply Fail_none|].
  destruct (handler_for wk _) as [h|] eqn:Eh; [|rewrite attempt_world; by apply Fail_none].
  rewrite bind_attempt. pose proof (Hh _ _ c _ Eh eq_refl Ht w) as Hs.
  destruct (h c (Delivery_Job d) w) as [[[]|e] w1]; cbn [fst snd] in *; rewrite attempt_world; (etrans; [exact Hs|]).
  - destruct (Ack_run c d w1) as (_ & Hb & _). intros s Hx. left. by apply Hb.
  - by apply Fail_none.
Qed.

(** A claimed entry that opens to no job of type [T]. *)
Lemma claimed_none c (f : Redis -> reply (list (N * option string)) * Redis) w ds w' : "" <> T ->
  (forall r l, (f r).1 = Reply l -> l ⊆ rd_stream r) -> (forall s, stored (w_redis w) s -> not_of s) ->
  (r <- command c f ;; claimed q r) w = (Ok ds, w') ->
  Forall (fun d => utf8_clean (Job_Type (Delivery_Job d)) <> T) ds.
Proof.
  intros HT Hin Hno E. apply bind_Ok in E as (r & w1 & Ec & E).
  apply command_reply in Ec as [[-> _]|[[t ->] _]]; [|done].
  unfold claimed in E. destruct ((f (w_redis w)).1) as [l| |t] eqn:Ef; [| |done]; apply ret_Ok in E as [<- _]; [|constructor].
  apply List.Forall_forall. intros d Hd%list_elem_of_In. apply list_elem_of_omap in Hd as ([id o] & He & Hd).
  destruct o as [s|]; [|done]. unfold delivery in Hd. cbn in Hd. injection Hd as <-. cbn.
  destruct (open q s) as [j|e] eqn:Ho; [|exact HT]. apply (Hno s); [|done]. left. exists id. by apply (Hin _ _ Ef).
Qed.
Lemma none_after p w held done lost : brings_none (w_redis (p_world p)) (w_redis w) -> no_such p ->
  Forall (fun d => utf8_clean (Job_Type (Delivery_Job d)) <> T) held -> no_such (pool_after wk w held done lost p).
Proof. intros Hb [Hs _] Hd. split; [|done]. intros s [Hx|Hx]%Hb; [by apply Hs|done]. Qed.
Lemma Forall_shrink {A} (P : A -> Prop) l l' : l' ⊆ l -> Forall P l -> Forall P l'.
Proof. intros Hs. rewrite !List.Forall_forall. intros Hl x Hx%list_elem_of_In. apply Hl, list_elem_of_In. auto. Qed.

Lemma pool_step_none p p' : rand_ok -> queue_ok q -> typed_handlers -> "" <> T -> pool_inv wk p ->
  pool_step wk (fun t => utf8_clean t <> T) p p' -> no_such p -> no_such p'.
Proof.
  intros Hr Hq Hh HT Hp Hs Hno. pose proof Hno as [Hst Hheld].
  destruct Hs as [p c t pl d Ht|p c consumer n|p c consumer i n|p c limit|p c d held Hd Hsub|p held Hsub|p w Hw].
  - apply none_after; [by apply enqueue_none|done|done].
  - apply none_after; [|done|apply Forall_app; split; [done|]].
    + unfold Read. apply rpres_bind; [apply _|apply claim_none, XREADGROUP_jobs|intros r; unfold claimed; rpres_auto].
    + destruct (Read (wk_queue wk) c consumer n (p_world p)) as [[ds|e] w'] eqn:E; [|constructor].
      eapply claimed_none; [done|apply XREADGROUP_entries|done|exact E].
  - apply none_after; [|done|apply Forall_app; split; [done|]].
    + unfold RecoverStale. apply rpres_bind; [apply _|apply claim_none, XAUTOCLAIM_jobs|intros r; unfold claimed; rpres_auto].
    + destruct (RecoverStale (wk_queue wk) c consumer i n (p_world p)) as [[ds|e] w'] eqn:E; [|constructor].
      eapply claimed_none; [done|apply XAUTOCLAIM_entries|done|exact E].
  - apply none_after; [|done|done]. destruct (PromoteDue_run q c limit (p_world p)) as (_ & Hb & _).
    intros s Hx. left. by apply Hb.
  - assert (Hdn : utf8_clean (Job_Type (Delivery_Job d)) <> T)
      by (apply (proj1 (List.Forall_forall _ _) Hheld); by apply list_elem_of_In).
    assert (Hdi : held_ok wk (w_redis (p_world p)) d)
      by (apply (proj1 (List.Forall_forall _ _) (proj2 Hp)); by apply list_elem_of_In).
    apply none_after; [apply handle_none; [done|done|apply Hdi|done]|done|by eapply Forall_shrink].
  - apply none_after; [by intros s Hx; left|done|by eapply Forall_shrink].
  - apply none_after; [rewrite Hw; by intros s Hx; left|done|done].
Qed.
Lemma pool_steps_none p p' : rand_ok -> queue_ok q -> handlers_ok wk -> typed_handlers -> "" <> T -> pool_inv wk p ->
  rtc (pool_step wk (fun t => utf8_clean t <> T)) p p' -> no_such p -> no_such p'.
Proof.
  intros Hr Hq Hh Hty HT Hp Hs. revert Hp. induction Hs as [p|p p1 p2 Hst _ IH]; intros Hp Hno; [done|].
  destruct (pool_step_good wk _ _ _ Hr Hq Hh Hst Hp) as [Hp1 _]. apply IH; [done|]. by apply (pool_step_none p p1).
Qed.
End typed.

(** ** The two chains *)
Section chains.
Context `{Env} `{AEADLaws} `{PlatformLaws} `{RedisLaws} `{GoNet} (cfg : Config) (rfc3339 days : Z -> string).

(** The periodic jobs of the binary: type, interval, and what one run does. *)
Definition sweeps : list (string * Z * (string -> M unit)) :=
  [(JobTypeRedeliver, invitationRedeliveryInterval, @RedeliverJobHandler _ (worker_invitations cfg rfc3339));
   (JobTypeExpireSweep, apiKeyExpirySweepInterval, @ExpireSweepJobHandler _ (worker_apikeys cfg days))].
Section sweep.
Context (q : Queue) (host : string) (T : string) (i : Z) (m : string -> M unit) (Hin : (T, i, m) ∈ sweeps).
Let wk := register_all cfg rfc3339 days q (NewWorker q (worker_options cfg) host).

Lemma sweep_facts : handler_for wk T = Some (reschedule q i m) /\ (0 < i)%Z /\ utf8_valid T /\ "" <> T /\
  (T =?= "") = false /\ forall (R : relation Redis), PreOrder R -> forall p, rpres R (m p).
Proof.
  unfold sweeps in Hin. rewrite !elem_of_cons in Hin. destruct Hin as [[= -> -> ->]|[[= -> -> ->]|Hn]].
  - split_and!; [|done|done|done|done|intros R HR p; by apply RedeliverJobHandler_queue].
    unfold wk, handler_for, register_all, Register. cbn [wk_handlers]. rewrite lookup_insert_ne by done. apply lookup_insert_eq.
  - split_and!; [|done|done|done|done|intros R HR p; by apply ExpireSweepJobHandler_queue].
    unfold wk, handler_for, register_all, Register. cbn [wk_handlers]. apply lookup_insert_eq.
  - by apply not_elem_of_nil in Hn.
Qed.
Lemma registered_typed : rand_ok -> queue_ok q -> typed_handlers wk T.
Proof.
  intros Hr Hq t h c j Ht Hj Hne. pose proof (brings_none_pre wk T) as Hpre.
  unfold handler_for, wk, register_all, Register in Ht. cbn [wk_handlers] in Ht.
  assert (Hre : forall i m, rpres (brings_none wk T) m -> rpres (brings_none wk T) (reschedule q i (fun _ => m) c j)).
  { intros i0 m0 Hm. unfold reschedule. rpres_step; [done|]. rpres_step; [|apply rpres_ret, Hpre].
    apply (enqueue_none wk T); [done|done|by rewrite Hj]. }
  apply lookup_insert_Some in Ht as [[_ <-]|[_ Ht]].
  { apply (Hre _ (@ExpireSweepJobHandler _ (worker_apikeys cfg days) (payload_text j))), ExpireSweepJobHandler_queue, Hpre. }
  apply lookup_insert_Some in Ht as [[_ <-]|[_ Ht]].
  { apply (Hre _ (@RedeliverJobHandler _ (worker_invitations cfg rfc3339) (payload_text j))), RedeliverJobHandler_queue, Hpre. }
  apply lookup_insert_Some in Ht as [[_ <-]|[_ Ht]]; [apply EmailJobHandler_queue, Hpre|done].
Qed.

(** A new job of the type waits in the retry set, due one interval after the clock was read. *)
Definition scheduled (r : Redis) : Prop := exists sealed j n, (sealed, UnixMilli (env_now n + i)) ∈ rd_retry r /\
  open q sealed = Ok j /\ Job_Type j = T /\ Job_Attempts j = 0%Z /\ Job_MaxAttempts j = q_maxAttempts q.
Lemma EnqueueIn_scheduled c p w j w' : rand_ok -> queue_ok q -> EnqueueIn q c i T p w = (Ok j, w') -> scheduled (w_redis w').
Proof.
  destruct sweep_facts as (_ & Hi & Hv & _). intros Hr [Hq _] E. unfold EnqueueIn, enqueue in E.
  apply bind_Ok in E as ([] & w1 & [_ <-]%reject_if_Ok & E). apply bind_Ok in E as (jid & w2 & _ & E).
  apply bind_Ok in E as (now & w3 & _ & E). cbv zeta in E. apply bind_Ok in E as (sealed & w4 & Es & E).
  destruct (Z.ltb_spec i 0); [lia|]. destruct (Z.ltb_spec 0 i); [|lia].
  apply bind_Ok in E as (now' & w5 & [-> ->]%timeNow_Ok & E). apply bind_Ok in E as ([] & w6 & [_ Hx]%wrapf_Ok%run_command_Ok & E).
  apply ret_Ok in E as [_ <-]. apply open_seal in Es; [|done|split; unfold int64_range; cbn; lia].
  exists sealed. eexists _, (w_tick w4). rewrite Hx. cbn [wrote snd]. split_and!; [apply ZADD_score|exact Es|exact Hv|done|done].
Qed.
Lemma sweep_continues c d w : rand_ok -> queue_ok q -> Job_Type (Delivery_Job d) = T -> completes wk c d w = true ->
  scheduled (w_redis (handle wk c d w).2).
Proof.
  destruct sweep_facts as (Hh & _ & _ & _ & Hne & _). intros Hr Hq Ht. unfold completes, handle.
  rewrite Ht, Hne, Hh. rewrite bind_attempt.
  destruct (reschedule q i m c (Delivery_Job d) w) as [[[]|e] w1] eqn:E; [intros _|done]. cbn [fst snd]. rewrite attempt_world.
  destruct (Ack_run c d w1) as (_ & _ & Hret). unfold scheduled. rewrite Hret.
  unfold reschedule in E. apply bind_Ok in E as ([] & w2 & _ & E). apply bind_Ok in E as (j & w3 & E & E3).
  apply ret_Ok in E3 as [_ <-]. rewrite Ht in E. by eapply EnqueueIn_scheduled.
Qed.

(** The delivery is the only job of its type: nothing else that waits, and no other delivery in
    a consumer's hands, is of type [T]. *)
Definition only_job (d : Delivery) (others : list Delivery) (r : Redis) : Prop :=
  (forall k s, (k, Some s) ∈ rd_stream r -> k <> Delivery_ID d -> not_of wk T s) /\
  (forall s, s ∈ members r -> not_of wk T s) /\
  Forall (fun x => utf8_clean (Job_Type (Delivery_Job x)) <> T) others.
Lemma failed_sweep c d w e : Job_Type (Delivery_Job d) = T ->
  (m (payload_text (Delivery_Job d)) w).1 = Err e -> exists w1, w_redis w1 = w_redis w /\
    (handle wk c d w).2 = (Fail_ q c d e w1).2.
Proof.
  destruct sweep_facts as (Hh & _ & _ & _ & Hne & Hm). intros Ht He. unfold handle. rewrite Ht, Hne, Hh, bind_attempt.
  pose proof (Hm eq _ (payload_text (Delivery_Job d)) w) as Hsame.
  destruct (m (payload_text (Delivery_Job d)) w) as [[[]|e'] w1] eqn:Em; [done|]. cbn [fst snd] in *. injection He as ->.
  assert (Hrs : reschedule q i m c (Delivery_Job d) w = (Err e, w1)) by (unfold reschedule, bind; by rewrite Em).
  rewrite Hrs. cbn [fst snd]. exists w1. split; [done|]. by rewrite attempt_world.
Qed.
Lemma sweep_stops c d p others done lost e : rand_ok -> up c -> queue_ok q -> (q_maxDelay q <= 2 ^ 62)%Z -> pool_inv wk p ->
  d ∈ p_held p -> others ⊆ p_held p -> counting (Delivery_Job d) -> is_Some (time_MarshalText (Job_EnqueuedAt (Delivery_Job d))) ->
  Job_Type (Delivery_Job d) = T -> only_job d others (w_redis (p_world p)) ->
  (m (payload_text (Delivery_Job d)) (p_world p)).1 = Err e -> final (Delivery_Job d) e ->
  let p1 := pool_after wk (handle wk c d (p_world p)).2 others done lost p in
  dead_lettered q (Delivery_Job d) (Error e) (w_redis (p_world p1)) /\
  forall p2, rtc (pool_step wk (fun t => utf8_clean t <> T)) p1 p2 -> no_such wk T p2.
Proof.
  intros Hr Hup Hq Hmax Hp Hd Hsub Hc Htime Ht (Hs & Hmem & Hoth) He Hf p1.
  destruct (failed_sweep c d (p_world p) e Ht He) as (w1 & Hw1 & Hw). destruct (Fail_up q c d e w1 Hup Htime) as [w2 E].
  assert (Hend : (handle wk c d (p_world p)).2 = w2) by (by rewrite Hw, E).
  assert (Hok : handlers_ok wk) by (by apply registered_ok).
  pose proof (pool_step_good wk _ _ _ Hr Hq Hok (step_handle wk (fun _ => True) p c d others Hd Hsub) Hp) as [Hp1 _].
  split.
  - cbn. rewrite Hend. destruct (Fail_settled q c d e w1 Hr Hup Hq Hmax Hc Htime) as (_ & Hdl & _). rewrite E in Hdl. by apply Hdl.
  - intros p2 Hst. apply (pool_steps_none wk T p1 p2); [done|done|done|by apply registered_typed|apply sweep_facts|exact Hp1|done|].
    split; [|exact Hoth]. cbn. rewrite Hend. destruct (Fail_final q c d e w1 w2 Hr Hc Hf E) as [Hst2 Hret2].
    intros s [[k Hk]|Hx].
    + rewrite Hst2, Hw1 in Hk. apply list_elem_of_filter in Hk as [Hne Hk]. by eapply Hs.
    + unfold members in Hx. rewrite Hret2, Hw1 in Hx. by apply Hmem.
Qed.
End sweep.
End chains.

Section periodic.
Context `{Env} `{AEADLaws} `{PlatformLaws} `{RedisLaws} `{GoNet}.

(** C32. The chain of a periodic job, for each of the two sweeps the binary registers.  A run that
    succeeds leaves a next job of its type, with a full budget of attempts, due one interval
    later.  A run that fails for good (permanently, or at its last attempt) while it is the only
    job of its type, and Redis works, ends the chain: the job is dead-lettered, and in every
    state the pool can reach from then on, whatever the workers do and whatever jobs of other
    types are enqueued, no job of that type waits and no consumer holds one; so the sweep does
    not run again until a process enqueues it, which only a start of the worker does. *)
Theorem periodic_chain (cfg : Config) (rfc3339 days : Z -> string) (q : Queue) (host : string) T i m :
  rand_ok -> queue_ok q -> (q_maxDelay q <= 2 ^ 62)%Z -> (T, i, m) ∈ sweeps cfg rfc3339 days ->
  let wk := register_all cfg rfc3339 days q (NewWorker q (worker_options cfg) host) in
  (forall c d w, Job_Type (Delivery_Job d) = T -> completes wk c d w = true ->
     scheduled q T i (w_redis (handle wk c d w).2)) /\
  (forall c d p others done lost e, up c -> pool_inv wk p -> d ∈ p_held p -> others ⊆ p_held p ->
     counting (Delivery_Job d) -> is_Some (time_MarshalText (Job_EnqueuedAt (Delivery_Job d))) ->
     Job_Type (Delivery_Job d) = T -> only_job cfg rfc3339 days q host T d others (w_redis (p_world p)) ->
     (m (payload_text (Delivery_Job d)) (p_world p)).1 = Err e -> final (Delivery_Job d) e ->
     let p1 := pool_after wk (handle wk c d (p_world p)).2 others done lost p in
     dead_lettered q (Delivery_Job d) (Error e) (w_redis (p_world p1)) /\
     forall p2, rtc (pool_step wk (fun t => utf8_clean t <> T)) p1 p2 -> no_such wk T p2).
Proof.
  intros Hr Hq Hmax Hin wk. split.
  - intros c d w. by apply (sweep_continues cfg rfc3339 days q host T i m Hin).
  - intros c d p others done lost e. intros. by apply (sweep_stops cfg rfc3339 days q host T i m Hin).
Qed.
End periodic.

(** ** The redelivery sweep of the worker

    The worker builds its invitation service without a queue. *)
Definition still {A} (m : M A) : Prop := forall w, w_mail (m w).2 = w_mail w.
Section still.
Context `{Env}.
Lemma still_bind {A B} (m : M A) (k : A -> M B) : still m -> (forall a, still (k a)) -> still (bind m k).
Proof. intros Hm Hk w. specialize (Hm w). unfold bind. destruct (m w) as [[a|e] w1]; simpl in *; [|done]. by rewrite Hk. Qed.
Lemma still_ret {A} (a : A) : still (ret a).
Proof. done. Qed.
Lemma still_fail {A} e : still (@fail A e).
Proof. done. Qed.
Lemma still_map_err {A} f (m : M A) : still m -> still (map_err f m).
Proof. intros Hm w. specialize (Hm w). unfold map_err. by destruct (m w) as [[]]. Qed.
Lemma still_attempt {A} (m : M A) : still m -> still (attempt m).
Proof. intros Hm w. specialize (Hm w). unfold attempt. by destruct (m w). Qed.
Lemma still_for_each {A} (l : list A) (f : A -> M unit) : (forall x, still (f x)) -> still (for_each l f).
Proof. intros Hf. induction l; [done|]. by apply still_bind. Qed.
Lemma still_stmt {A} (body : StmtCtx -> DB -> result (A * DB)) : still (stmt body).
Proof.
  intros w. unfold stmt. destruct (w_tx w) as [t|]; [destruct (tx_aborted t); [done|]|];
    destruct (env_fault _); try done; destruct (body _ _) as [[a d]|e]; try done; by destruct (aborts e).
Qed.
Lemma still_query {A} (f : StmtCtx -> DB -> result A) : still (query f).
Proof. apply still_stmt. Qed.
Lemma still_timeNow : still timeNow.
Proof. done. Qed.
Lemma still_randRead n t : still (randRead n t).
Proof. intros w. unfold randRead. by destruct (env_rand _ _). Qed.
Lemma still_WithTenantTx {A} o (fn : M A) : still fn -> still (WithTenantTx o fn).
Proof.
  assert (Hroll : still Rollback) by (intros w; unfold Rollback; by destruct (w_tx w)).
  intros Hf. unfold WithTenantTx. apply still_bind; [apply still_map_err|intros _].
  { intros w. unfold Begin. destruct (w_tx w); [done|]. by destruct (env_fault _). }
  assert (Hb : still (wrapf "set tenant context" (set_config_org o) ;;; a <- fn ;; wrapf "commit tx" Commit ;;; ret a)).
  { apply still_bind; [apply still_map_err|intros _].
    { intros w. unfold set_config_org. destruct (w_tx w) as [t|]; [destruct (tx_aborted t); [done|]|]; by destruct (env_fault _). }
    apply still_bind; [done|intros a]. apply still_bind; [apply still_map_err|done].
    intros w. unfold Commit. destruct (w_tx w) as [t|]; [|done]. destruct (tx_aborted t); [done|]. by destruct (env_fault _). }
  intros w. unfold defer. specialize (Hb w). destruct (bind _ _ w) as [r w1]. cbn [snd] in *. by rewrite Hroll.
Qed.
End still.
#[local] Hint Resolve still_ret still_fail still_map_err still_attempt still_stmt still_query still_timeNow still_randRead : core.

Section without_queue.
Context `{Env} `{!InviteConfig} (no_queue : invite_queue = None).
Definition no_queue_error : error := ErrorsNew "jobs: no queue configured".

(** One pending, undelivered invitation got the digest of a new token; nothing else of the table
    changed. *)
Definition link_destroyed (d d' : DB) : Prop := exists id i t token,
  invitations d !! id = Some i /\ Invitation_Status i = "pending" /\ Invitation_NotifiedAt i = None /\
  invitations d' = <[id := Invitation_rotate t (hashToken token) i]> (invitations d).
(** No invitation has the nil identifier, under which a sweep takes a row for absent. *)
Definition identified (d : DB) : Prop := inv_wf d /\ invitations d !! uuid_Nil = None.
(** A run changed no invitation, or it destroyed one link and failed for want of a queue. *)
Definition destroys {A} (m : M A) : Prop := forall w, identified (w_db w) ->
  invitations (w_db (m w).2) = invitations (w_db w) \/
  (m w).1 = Err no_queue_error /\ link_destroyed (w_db w) (w_db (m w).2).

Lemma destroys_same {A} (m : M A) : pres same_invitations m -> destroys m.
Proof. intros Hm w _. left. destruct (Hm w) as [_ Hs]. by symmetry. Qed.
Lemma destroys_bind {A B} (m : M A) (k : A -> M B) : destroys m -> (forall a, destroys (k a)) -> destroys (bind m k).
Proof.
  intros Hm Hk w Hid. specialize (Hm w Hid). unfold bind. destruct (m w) as [[a|e] w1]; cbn [fst snd] in *.
  - destruct Hm as [Hm|[? _]]; [|done]. assert (Hid1 : identified (w_db w1)) by (unfold identified, inv_wf in *; by rewrite Hm).
    specialize (Hk a w1 Hid1). unfold link_destroyed in *. by rewrite Hm in Hk.
  - destruct Hm as [Hm|[[= ->] Hm]]; [by left|by right].
Qed.
Lemma destroys_for_each {A} (l : list A) (f : A -> M unit) : (forall x, destroys (f x)) -> destroys (for_each l f).
Proof. intros Hf. induction l as [|x l IH]; [by intros w _; left|]. by apply destroys_bind. Qed.

Lemma failed_statement {A} (body : StmtCtx -> DB -> result (A * DB)) w e w' : stmt body w = (Err e, w') -> w_db w' = w_db w.
Proof.
  unfold stmt. destruct (w_tx w) as [t|]; [destruct (tx_aborted t); [by intros [= _ <-]|]|];
    destruct (env_fault _); try (by intros [= _ <-]); destruct (body _ _) as [[a d]|x]; try done; intros [= _ <-]; by try destruct (aborts x).
Qed.
(** What the rotation of one invitation did: nothing, or it returned the row it rewrote. *)
Lemma rotate_body_Ok o id token w r w' : rotate_body o id token w = (Ok r, w') ->
  (r = None /\ w_db w' = w_db w) \/
  exists i t, invitations (w_db w) !! id = Some i /\ Invitation_Status i = "pending" /\ Invitation_NotifiedAt i = None /\
    r = Some (Invitation_rotate t (hashToken token) i) /\
    invitations (w_db w') = <[id := Invitation_rotate t (hashToken token) i]> (invitations (w_db w)).
Proof.
  unfold rotate_body. intros (x & w1 & Ex%attempt_Ok & E)%bind_Ok. destruct x as [inv|e].
  - apply ret_Ok in E as [<- <-]. right. apply update_invitation_Ok in Ex as (t & i & Hi & _ & Hg & -> & Hd & _).
    apply andb_true_iff in Hg as [Hp Hn]. exists i, t. rewrite Hd. split_and!; [done|by apply is_pending_true| |done|done].
    by destruct (Invitation_NotifiedAt i).
  - destruct (isNoRows e); [|done]. apply ret_Ok in E as [<- <-]. left. split; [done|]. by apply failed_statement in Ex.
Qed.
Lemma redeliver_one_destroys o row : destroys (redeliver_one o row).
Proof.
  unfold redeliver_one. apply destroys_bind; [apply destroys_same; unfold generateToken; pres_auto|intros token].
  intros w [[Hkey _] Hnil]. destruct (WithTenantTx o (rotate_body o (Invitation_ID row) token) w) as [[r|e] w1] eqn:E; cycle 1.
  { left. assert (Hb : (bind (WithTenantTx o (rotate_body o (Invitation_ID row) token)) (fun rotated => match rotated with
        None => ret tt | Some inv => if Invitation_ID inv =?= uuid_Nil then ret tt else enqueueEmail inv token ;;; ret tt end)) w
        = (Err e, w1)) by (unfold bind; by rewrite E).
    rewrite Hb. apply WithTenantTx_Err in E; [by cbn; rewrite E|]. unfold rotate_body. pres_auto. by apply pres_stmt. }
  rewrite (bind_run _ _ _ _ _ E). apply WithTenantTx_Ok in E as (wa & wb & tx & E & Hda & _ & _ & Hdb & _).
  apply rotate_body_Ok in E as [[-> Hd]|(i & t & Hi & Hp & Hn & -> & Hd)]; [left; cbn; congruence|].
  rewrite Hda in Hi, Hd. assert (Hid : Invitation_ID i <> uuid_Nil) by (intros Hx; rewrite (Hkey _ _ Hi) in Hx; congruence).
  change (Invitation_ID (Invitation_rotate t (hashToken token) i)) with (Invitation_ID i).
  rewrite (proj2 (beq_false _ _) Hid). unfold enqueueEmail. rewrite no_queue. right. split; [done|].
  exists (Invitation_ID row), i, t, token. cbn. rewrite Hdb. by split_and!.
Qed.
Lemma redeliver_one_still o row : still (redeliver_one o row).
Proof.
  unfold redeliver_one, generateToken, enqueueEmail. rewrite no_queue. apply still_bind; [apply still_bind; auto|intros token].
  apply still_bind; [apply still_WithTenantTx|intros [inv|]; [destruct (_ =?= _)|]; auto; by apply still_bind; auto].
  unfold rotate_body. apply still_bind; [apply still_attempt, still_stmt|intros [inv|e]; [auto|destruct (isNoRows e); auto]].
Qed.
Lemma redeliver_org_destroys o : destroys (redeliver_org o).
Proof.
  unfold redeliver_org. apply destroys_bind; [|intros rows; apply destroys_for_each, redeliver_one_destroys].
  apply destroys_same. unfold undeliveredInvitations. pres_auto.
Qed.
Lemma redeliver_org_still o : still (redeliver_org o).
Proof.
  unfold redeliver_org, undeliveredInvitations. apply still_bind; [|intros rows; apply still_for_each, redeliver_one_still].
  apply still_map_err, still_WithTenantTx, still_bind; [done|intros now; apply still_query].
Qed.
Lemma RedeliverJobHandler_destroys p : destroys (RedeliverJobHandler p) /\ still (RedeliverJobHandler p).
Proof.
  assert (Hd : forall only, destroys (ForEachActiveOrganization only redeliver_org)).
  { intros only. unfold ForEachActiveOrganization. destruct (negb _); [apply redeliver_org_destroys|].
    apply destroys_bind; [apply destroys_same; pres_auto|intros ids; apply destroys_for_each, redeliver_org_destroys]. }
  assert (Hs : forall only, still (ForEachActiveOrganization only redeliver_org)).
  { intros only. unfold ForEachActiveOrganization. destruct (negb _); [apply redeliver_org_still|].
    apply still_bind; [apply still_map_err, still_query|intros ids; apply still_for_each, redeliver_org_still]. }
  unfold RedeliverJobHandler. destruct (_ =?= ""); [by split|]. destruct (unmarshal_redeliver p); [by split|].
  split; [intros w _; by left|apply still_fail].
Qed.
(** A rotated invitation is listed by no sweep any more. *)
Lemma rotated_unlisted o w rows w' t h i : (0 <= Invitation_DeliveryAttempts i)%Z ->
  undeliveredInvitations o w = (Ok rows, w') -> Invitation_rotate t h i ∉ rows.
Proof.
  intros Ha E%wrapf_Ok. apply WithTenantTx_Ok in E as (wa & wb & tx & E & _).
  apply bind_Ok in E as (now & w1 & _ & E). apply query_Ok in E as (_ & c & Hr & _). injection Hr as <-.
  unfold limit_offset. intros Hin%subseteq_take%subseteq_drop. rewrite order_by_perm in Hin. apply list_elem_of_In, List.filter_In in Hin as [_ Hf].
  repeat (apply andb_true_iff in Hf as [Hf ?]). bool_hyps. cbn in *. lia.
Qed.
End without_queue.

(** C39. The redelivery sweep as the worker runs it.  [cmd/worker/main.go] builds the invitation
    service of the worker without a queue, whatever the configuration, so no run of the sweep
    ever delivers anything: it puts nothing on the queue and sends no mail.  A run that succeeds
    has changed no invitation; a run that changes one fails with "no queue configured", after it
    committed a new token digest for exactly one pending invitation that was never delivered:
    the link that was sent for it, if any, no longer works, the new token is known to nobody, and
    no later sweep lists the invitation. *)
Theorem redeliver_without_queue `{Env} `{AEADLaws} `{PlatformLaws} `{RedisLaws} `{GoNet} (cfg : Config)
    (rfc3339 : Z -> string) (payload : string) (w : World) : identified (w_db w) ->
  let run := @RedeliverJobHandler _ (worker_invitations cfg rfc3339) payload w in
  w_redis run.2 = w_redis w /\ w_mail run.2 = w_mail w /\
  (invitations (w_db run.2) = invitations (w_db w) \/
   run.1 = Err (ErrorsNew "jobs: no queue configured") /\
   exists id i i', invitations (w_db w) !! id = Some i /\ Invitation_Status i = "pending" /\ Invitation_NotifiedAt i = None /\
     invitations (w_db run.2) = <[id := i']> (invitations (w_db w)) /\
     (exists token, Invitation_TokenHash i' = hashToken token) /\
     Invitation_Status i' = "pending" /\ Invitation_NotifiedAt i' = None /\
     ((0 <= Invitation_DeliveryAttempts i)%Z -> forall o v rows v', undeliveredInvitations o v = (Ok rows, v') -> i' ∉ rows)).
Proof.
  intros Hid run. destruct (@RedeliverJobHandler_destroys _ (worker_invitations cfg rfc3339) eq_refl payload) as [Hd Hs].
  split; [symmetry; exact (RedeliverJobHandler_queue cfg rfc3339 eq payload w)|]. split; [exact (Hs w)|].
  destruct (Hd w Hid) as [Hsame|[He (id & i & t & token & Hi & Hp & Hn & Hd')]]; [by left|right]. split; [exact He|].
  exists id, i, (Invitation_rotate t (hashToken token) i). split_and!; [done|done|done|done|by exists token|done|done|].
  intros Ha o v rows v'. by apply rotated_unlisted.
Qed.

(** ** A concrete chain

    The redelivery sweep at its last attempt, in a database with an invitation it cannot
    deliver. *)
#[local] Existing Instances demo_web demo_aead demo_platform demo_redis demo_net.
Definition sweep_job : Job :=
  {| Job_ID := job_1; Job_Type := JobTypeRedeliver; Job_Payload := None;
     Job_Attempts := 1; Job_MaxAttempts := 2; Job_EnqueuedAt := 0; Job_LastError := "" |}.
Definition sweep_sealed : string :=
  Eval vm_compute in match (seal demo_queue sweep_job (demo_world demo_DB)).1 with Ok s => s | Err _ => "" end.
Definition sweep_delivery : Delivery := {| Delivery_ID := 0; Delivery_Job := sweep_job |}.
Definition sweep_pool : Pool := {|
  p_world := set_redis (redis_with 1 [(0%N, Some sweep_sealed)] 0 [] [] [] true) demo_undelivered;
  p_held := [sweep_delivery]; p_done := []; p_dead := []; p_lost := []
|}.
#[local] Notation demo_chain :=
  (register_all example_config no_text no_text demo_queue (NewWorker demo_queue (worker_options example_config) "host-1")).
Lemma sweep_opens : open demo_queue sweep_sealed = Ok sweep_job.
Proof. vm_compute. reflexivity. Qed.
Lemma sweep_inv : pool_inv demo_chain sweep_pool.
Proof.
  split; [split; [split|]|].
  - intros e [->|Hn]%elem_of_cons; [vm_compute; reflexivity|by apply not_elem_of_nil in Hn].
  - intros e e' [->|Hn]%elem_of_cons; [|by apply not_elem_of_nil in Hn].
    intros [->|Hn]%elem_of_cons; [done|by apply not_elem_of_nil in Hn].
  - intros s [[k [[= -> ->]|Hn]%elem_of_cons]|Hn]; [|by apply not_elem_of_nil in Hn..].
    intros j Hj. change (wk_queue demo_chain) with demo_queue in Hj. rewrite sweep_opens in Hj. injection Hj as <-.
    split; vm_compute; [discriminate|reflexivity].
  - constructor; [|constructor]. split_and!; [vm_compute; reflexivity|split; vm_compute; reflexivity| |].
    + intros s [[= ->]|Hn]%elem_of_cons; [|by apply not_elem_of_nil in Hn]. unfold delivery. cbn [snd fst].
      change (wk_queue demo_chain) with demo_queue. by rewrite sweep_opens.
    + left. split; vm_compute; [discriminate|reflexivity].
Qed.
Lemma periodic_chain_witness : exists e,
  let p1 := pool_after demo_chain (handle demo_chain Background sweep_delivery (p_world sweep_pool)).2 [] [] [] sweep_pool in
  dead_lettered demo_queue sweep_job (Error e) (w_redis (p_world p1)) /\ no_such demo_chain JobTypeRedeliver p1.
Proof.
  exists (ErrorsNew "jobs: no queue configured").
  destruct (proj2 (periodic_chain example_config no_text no_text demo_queue "host-1" JobTypeRedeliver
      invitationRedeliveryInterval _ web_rand_ok demo_queue_ok ltac:(vm_compute; discriminate) (list_elem_of_here _ _))
    Background sweep_delivery sweep_pool [] [] [] (ErrorsNew "jobs: no queue configured")) as [Hd Hn].
  - exact demo_up.
  - exact sweep_inv.
  - left.
  - intros x Hx. by apply not_elem_of_nil in Hx.
  - split; [split; vm_compute; reflexivity|vm_compute; split; [discriminate|reflexivity]].
  - eexists. vm_compute. reflexivity.
  - reflexivity.
  - split_and!; [|intros s Hs; by apply not_elem_of_nil in Hs|constructor].
    intros k s [[= -> ->]|Hk]%elem_of_cons Hne; [by destruct Hne|by apply not_elem_of_nil in Hk].
  - vm_compute. reflexivity.
  - right. vm_compute. discriminate.
  - split; [exact Hd|]. apply Hn. apply rtc_refl.
Defined.

(** The sweep of that worker on that invitation. *)
Lemma undelivered_identified : identified (w_db demo_undelivered).
Proof.
  assert (Hall : forall k i, invitations (w_db demo_undelivered) !! k = Some i -> k = 82%N /\ Invitation_ID i = 82%N).
  { intros k i. simpl. by intros [<- <-]%lookup_singleton_Some. }
  split; [split|].
  - intros k i [-> ->]%Hall. done.
  - by intros k1 k2 i1 i2 [-> _]%Hall [-> _]%Hall.
  - destruct (invitations _ !! _) as [i|] eqn:E; [|done]. by apply Hall in E as [? _].
Qed.
Lemma redeliver_without_queue_witness :
  let run := @RedeliverJobHandler _ (worker_invitations example_config no_text) "{}" demo_undelivered in
  run.1 = Err (ErrorsNew "jobs: no queue configured") /\ w_redis run.2 = w_redis demo_undelivered /\
  exists i i' token, invitations (w_db demo_undelivered) !! 82%N = Some i /\ invitations (w_db run.2) !! 82%N = Some i' /\
    Invitation_TokenHash i' = hashToken token /\ Invitation_TokenHash i' <> Invitation_TokenHash i.
Proof.
  intros run. destruct (redeliver_without_queue example_config no_text "{}" demo_undelivered undelivered_identified)
    as (Hr & _ & [Hs|[He (id & i & i' & Hi & _ & _ & Hd & [token Ht] & _)]]).
  - exfalso. apply (f_equal (fun m => Invitation_TokenHash <$> m !! 82%N)) in Hs. vm_compute in Hs. discriminate.
  - split; [exact He|]. split; [exact Hr|].
    assert (id = 82%N) as -> by (pose proof Hi as Hk; simpl in Hk; by apply lookup_singleton_Some in Hk as [<- _]).
    exists i, i', token. assert (Hl : invitations (w_db run.2) !! 82%N = Some i') by (unfold run; rewrite Hd; apply lookup_insert_eq).
    split_and!; [exact Hi|exact Hl|exact Ht|]. vm_compute in Hi, Hl. injection Hi as <-. injection Hl as <-. vm_compute. discriminate.
Defined.
