(* ===== verification/Http.v ===== *)
(** * Requests and responses

    Models [internal/httpx/response.go] and [internal/httpx/client.go], and the part of
    [net/http] and the router the middleware and handlers use: a request with its headers,
    its path parameters and the values the middleware chain put in its context; a response
    as the status, headers and body that were written.  A handler maps a request to a
    response over a state [S]. *)
From S2P Require Import Prelude.
From S2P Require Import GoError.
From S2P Require Import Schema.
From S2P Require Import Store.
From S2P Require Import GoStrings.
From S2P Require Import Permissions.
From S2P Require Import Pagination.
From S2P Require Import GoNet.
Local Open Scope string_scope.

Record Request := {
  Req_Method : string; Req_Path : string; Req_RemoteAddr : string;
  Header_Get : string -> string; URLParam : string -> string; Req_Query : list (string * string);
  Req_Body : string; Req_MaxBytes : option Z;
  ctx_Principal : option Principal; ctx_Tenant : option Tenant;
  ctx_RequestID : string; ctx_TraceID : string
}.
Definition update_ctx (p : option Principal) (t : option Tenant) (rid : string) (r : Request) : Request := {|
  Req_Method := Req_Method r; Req_Path := Req_Path r; Req_RemoteAddr := Req_RemoteAddr r;
  Header_Get := Header_Get r; URLParam := URLParam r; Req_Query := Req_Query r; Req_Body := Req_Body r;
  Req_MaxBytes := Req_MaxBytes r; ctx_Principal := p; ctx_Tenant := t; ctx_RequestID := rid; ctx_TraceID := ctx_TraceID r
|}.
(** [authctx.WithPrincipal], [authctx.WithTenant] and [observability.ContextWithRequestID] *)
Definition WithPrincipal (p : Principal) (r : Request) : Request :=
  update_ctx (Some p) (ctx_Tenant r) (ctx_RequestID r) r.
Definition WithTenant (t : Tenant) (r : Request) : Request :=
  update_ctx (ctx_Principal r) (Some t) (ctx_RequestID r) r.
Definition WithRequestID (id : string) (r : Request) : Request :=
  update_ctx (ctx_Principal r) (ctx_Tenant r) id r.

(** The bodies: none, [SuccessResponse], [PageResponse] and [ErrorResponse]. *)
Inductive Body := NoBody | Data (v : json) | Paged (v : json) (p : Pagination) | ErrorResponse (e : ErrorBody).
Record Response := { Status : Z; Headers : gmap string string; Resp_Body : Body }.

Definition content_type : gmap string string := {["Content-Type" := "application/json; charset=utf-8"]}.
(** [WriteData] and [WriteError] *)
Definition WriteData (status : Z) (v : json) : Response :=
  {| Status := status; Headers := content_type; Resp_Body := Data v |}.
Definition WriteErrorResponse (r : Request) (e : error) : Response :=
  let (status, body) := WriteError (ctx_RequestID r) e in
  {| Status := status; Headers := content_type; Resp_Body := ErrorResponse body |}.

(** Headers a middleware set on the writer before the handler wrote its response: the
    handler's own values win. *)
Definition with_headers (hs : gmap string string) (r : Response) : Response :=
  {| Status := Status r; Headers := Headers r ∪ hs; Resp_Body := Resp_Body r |}.

Definition Handler (S : Type) : Type := Request -> S -> Response * S.
Definition Middleware (S : Type) : Type := Handler S -> Handler S.
(** [r.Use]: the first middleware of the list runs first. *)
Definition chain {S} (mws : list (Middleware S)) (h : Handler S) : Handler S := foldr (fun mw next => mw next) h mws.
(** A handler of the services, beside state it does not know. *)
Definition on_fst {S L} (h : Handler S) : Handler (S * L) := fun r s =>
  let (resp, s1) := h r s.1 in (resp, (s1, s.2)).

(** ** The client's address *)
Section client.
Context `{GoNet}.
(** [remoteIP] *)
Definition remoteIP (remoteAddr : string) : string :=
  match net_SplitHostPort remoteAddr with
  | Some (host, _) => host
  | None => if net_ParseIP remoteAddr then remoteAddr else ""
  end.
(** [isTrustedProxy] *)
Definition isTrustedProxy (ip : string) : bool :=
  net_ParseIP ip && (ip_IsLoopback ip || ip_IsPrivate ip || ip_IsLinkLocalUnicast ip).
(** [strings.Split(s, ",")[0]] *)
Definition first_item (s : string) : string := fst (cut "," s).
(** [ClientIP] *)
Definition ClientIP (r : Request) : string :=
  let peer := remoteIP (Req_RemoteAddr r) in
  if negb (peer =?= "") && isTrustedProxy peer then
    let forwarded := Header_Get r "X-Forwarded-For" in
    if negb (forwarded =?= "") then
      let first := TrimSpace (first_item forwarded) in
      if net_ParseIP first then first else peer
    else peer
  else peer.

(** A peer that connects from an address that is not loopback, private or link-local
    is always keyed by that address, whatever headers it sends: two of its requests with
    different headers have the same client address. *)
Theorem ClientIP_public (r r' : Request) :
  Req_RemoteAddr r' = Req_RemoteAddr r -> isTrustedProxy (remoteIP (Req_RemoteAddr r)) = false ->
  ClientIP r = remoteIP (Req_RemoteAddr r) /\ ClientIP r' = ClientIP r.
Proof. unfold ClientIP. cbv zeta. intros -> ->. by rewrite andb_false_r. Qed.

Lemma cut_at_first b l r n : (length l < n)%nat -> b ∉ l -> cut_at [b] (l ++ b :: r)%list n = (l, Some r).
Proof.
  revert l. induction n as [|n IH]; intros l Hn Hb; [lia|].
  destruct l as [|x l]; cbn -[N.eqb] in *; [by rewrite N.eqb_refl|].
  apply not_elem_of_cons in Hb as [Hx Hb]. destruct (N.eqb_spec b x); [done|].
  rewrite IH; [done|lia|done].
Qed.
Lemma first_item_app a c : 44%N ∉ bytes a -> first_item (a +:+ "," +:+ c) = a.
Proof.
  intros Ha. unfold first_item, cut. rewrite !bytes_append.
  change (bytes "," ++ bytes c)%list with (44%N :: bytes c). change (bytes ",") with [44%N]. rewrite cut_at_first; [apply of_bytes_bytes| |done].
  rewrite <- length_bytes, !bytes_append, !length_app. cbn. lia.
Qed.

(** Behind a proxy on a private network that appends the address it saw to
    [X-Forwarded-For], the client is keyed by the first element of the header, which the
    client wrote itself: whatever address [claimed] it sends becomes its address. *)
Theorem ClientIP_claimed (r : Request) (claimed seen : string) :
  remoteIP (Req_RemoteAddr r) <> "" -> isTrustedProxy (remoteIP (Req_RemoteAddr r)) = true ->
  Header_Get r "X-Forwarded-For" = claimed +:+ "," +:+ seen ->
  44%N ∉ bytes claimed -> TrimSpace claimed = claimed -> net_ParseIP claimed = true ->
  ClientIP r = claimed.
Proof.
  intros Hne Ht Hh Hc Hs Hip. unfold ClientIP. cbv zeta. rewrite Ht, Hh, first_item_app, Hs, Hip by done.
  rewrite (proj2 (beq_false _ _) Hne). destruct (_ =?= "") eqn:E; [|done].
  apply beq_eq, (f_equal bytes) in E. rewrite bytes_append in E. by destruct (bytes claimed).
Qed.
End client.

Definition demo_request (peer forwarded : string) : Request := {|
  Req_Method := "GET"; Req_Path := "/api/v1/auth/login"; Req_RemoteAddr := peer;
  Header_Get k := if k =?= "X-Forwarded-For" then forwarded else "";
  URLParam _ := ""; Req_Query := []; Req_Body := ""; Req_MaxBytes := None;
  ctx_Principal := None; ctx_Tenant := None; ctx_RequestID := "req_1"; ctx_TraceID := ""
|}.
Lemma ClientIP_public_witness :
  @ClientIP demo_net (demo_request "8.8.8.8:4000" "1.2.3.4") = "8.8.8.8".
Proof.
  exact (proj1 (@ClientIP_public demo_net (demo_request "8.8.8.8:4000" "1.2.3.4")
    (demo_request "8.8.8.8:4000" "") eq_refl ltac:(vm_compute; reflexivity))).
Defined.
Lemma ClientIP_claimed_witness :
  @ClientIP demo_net (demo_request "10.0.0.2:4000" "1.2.3.4,8.8.8.8") = "1.2.3.4".
Proof.
  refine (@ClientIP_claimed demo_net _ "1.2.3.4" "8.8.8.8" _ _ _ _ _ _);
    try (vm_compute; reflexivity); [vm_compute; discriminate|].
  intros Hin. by repeat (apply elem_of_cons in Hin as [Hx|Hin]; [discriminate Hx|]); apply not_elem_of_nil in Hin.
Defined.
