(* ===== verification/RateLimit.v ===== *)
(** * Rate limiting

    Models [internal/ratelimit/ratelimit.go] and [internal/ratelimit/middleware.go]: token
    buckets kept in Redis and evaluated by a Lua script, and the middleware that keys
    requests by address, user or API key.  The script computes in [float64]; its numbers are
    rationals and every operation rounds its exact result with [fl]. *)
From S2P Require Import Prelude.
From S2P Require Import GoError.
From S2P Require Import Schema.
From S2P Require Import Store.
From S2P Require Import GoStrings.
From S2P Require Import Strconv.
From S2P Require Import Permissions.
From S2P Require Import GoNet.
From S2P Require Import Http.
From stdpp Require Import pretty.
From Stdlib Require Import QArith Qabs Qround Qpower Lqa.
Local Open Scope string_scope.
Local Open Scope Z_scope.

(** ** Floating point

    Rounding to nearest in IEEE 754 double precision, for results that do not overflow:
    it is monotone, exact on integers up to 2^53 and on powers of two, and errs by at most
    one part in 2^53 (or half the smallest subnormal). *)
Definition huge : Q := inject_Z (2 ^ 1000).
Definition unit_roundoff : Q := 1 # (2 ^ 53).
Definition tiny : Q := 1 # (2 ^ 1075).
Definition in_range (x : Q) : Prop := (Qabs x <= huge)%Q.
Class Float64 := fl : Q -> Q.
Class Float64Laws `{Float64} : Prop := {
  fl_mono x y : in_range x -> in_range y -> (x <= y)%Q -> (fl x <= fl y)%Q;
  fl_int z : Z.abs z <= 2 ^ 53 -> (fl (inject_Z z) == inject_Z z)%Q;
  fl_pow2 k : Z.abs k <= 1000 -> (fl (2 ^ k) == 2 ^ k)%Q;
  fl_error x : in_range x -> (Qabs (fl x - x) <= unit_roundoff * Qabs x + tiny)%Q
}.

Definition keyPrefix : string := "teamflow:ratelimit:".
Record Policy := { Policy_Name : string; Limit_ : Z; Period : Z }.
Record Policies := { Policies_Auth : Policy; Policies_User : Policy; Policies_APIKey : Policy }.
Record Decision := { Allowed : bool; Decision_Limit : Z; Remaining : Z; RetryAfter : Z }.

Section limiter.
Context `{Env} `{Float64}.

(** [Duration.Seconds] *)
Definition Seconds (d : Z) : Q :=
  fl (fl (inject_Z (Z.quot d Second)) + fl (inject_Z (Z.rem d Second) / inject_Z Second)).
Definition Capacity (p : Policy) : Z := Limit_ p.
Definition RefillPerSecond (p : Policy) : Q :=
  if Z.leb (Period p) 0 then 0%Q else fl (fl (inject_Z (Limit_ p)) / Seconds (Period p)).
Definition TTL (p : Policy) : Z := if Z.leb (Period p) 0 then Minute else wrap64 (2 * Period p).
Definition Policy_validate (p : Policy) : option error :=
  if Policy_Name p =?= "" then
    Some (ErrorsNew ("ratelimit: policy " +:+ pretty (Limit_ p) +:+ "/" +:+ Duration_String (Period p) +:+ " has no name"))
  else if Z.ltb (Limit_ p) 1 then
    Some (ErrorsNew ("ratelimit: policy " +:+ Policy_Name p +:+ " must allow at least one request"))
  else if Z.leb (Period p) 0 then
    Some (ErrorsNew ("ratelimit: policy " +:+ Policy_Name p +:+ " must have a positive period"))
  else None.
Definition Key (p : Policy) (identifier : string) : string :=
  keyPrefix +:+ Policy_Name p +:+ ":" +:+ hex_EncodeToString (take 16 (sha256_Sum256 identifier)).

(** ** The script

    The hash at a key holds [tokens] and [ts]; Redis drops it when its own clock passes the
    expiry [PEXPIRE] set. *)
Record Bucket := { b_tokens : Q; b_ts : Q; b_expires : Z }.
Definition Qlt_bool (x y : Q) : bool := negb (Qle_bool y x).
Definition math_min (x y : Q) : Q := if Qlt_bool y x then y else x.

(** The balance after the refill. *)
Definition refilled (capacity refill now : Q) (state : option Bucket) : Q :=
  let '(tokens, ts) := match state with Some b => (b_tokens b, b_ts b) | None => (capacity, now) end in
  let elapsed := fl (now - ts) in
  let elapsed := if Qlt_bool elapsed 0 then 0%Q else elapsed in
  math_min capacity (fl (tokens + fl (fl (elapsed / 1000) * refill))).
(** [{allowed, tokens, retry_after_ms}] before the result is floored. *)
Definition consume (refill tokens : Q) : bool * Q * Z :=
  if Qle_bool 1 tokens then (true, fl (tokens - 1), 0)
  else (false, tokens, Qceiling (fl (fl (fl (1 - tokens) / refill) * 1000))).
(** [PEXPIRE] with a time that is not positive deletes the key. *)
Definition store_bucket (server ttl : Z) (now tokens : Q) : option Bucket :=
  if Z.leb ttl 0 then None else Some {| b_tokens := tokens; b_ts := now; b_expires := server + ttl |}.
Definition live (server : Z) (state : option Bucket) : option Bucket :=
  match state with Some b => if Z.leb (b_expires b) server then None else Some b | None => None end.
Definition bucketScript (server : Z) (capacity refill now : Q) (ttl : Z) (state : option Bucket)
    : (Z * Z * Z) * option Bucket :=
  let '(allowed, tokens, retry) := consume refill (refilled capacity refill now (live server state)) in
  ((if allowed : bool then 1 else 0, Qfloor tokens, retry), store_bucket server ttl now tokens).

(** ** The limiter

    The state a request meets: the buckets, the clock of the process, the clock of the
    Redis server (milliseconds), and whether Redis fails this command, before or after it
    took effect. *)
Record Limits := {
  lm_buckets : gmap string Bucket; lm_now : Z; lm_server : Z; lm_fault : option (bool * error)
}.
Definition set_buckets (m : gmap string Bucket) (l : Limits) : Limits :=
  {| lm_buckets := m; lm_now := lm_now l; lm_server := lm_server l; lm_fault := lm_fault l |}.
Definition UnixMilli (t : Z) : Z := t / Millisecond.
(** [RedisLimiter.Allow] *)
Definition Allow (p : Policy) (identifier : string) (s : Limits) : result Decision * Limits :=
  match Policy_validate p with
  | Some e => (Err e, s)
  | None =>
      let key := Key p identifier in
      let '((allowed, remaining, retryMS), bucket) :=
        bucketScript (lm_server s) (fl (inject_Z (Capacity p))) (RefillPerSecond p)
          (fl (inject_Z (UnixMilli (lm_now s)))) (Z.quot (TTL p) Millisecond) (lm_buckets s !! key) in
      let s' := set_buckets (partial_alter (fun _ => bucket) key (lm_buckets s)) s in
      match lm_fault s with
      | Some (took_effect, e) =>
          (Err (Errorf "ratelimit: evaluate bucket" e), if took_effect : bool then s' else s)
      | None =>
          (Ok {| Allowed := Z.eqb allowed 1; Decision_Limit := Capacity p;
                 Remaining := Z.max 0 remaining;
                 RetryAfter := if negb (Z.eqb allowed 1) && Z.ltb 0 retryMS then wrap64 (retryMS * Millisecond) else 0 |}, s')
      end
  end.
End limiter.

(** ** The middleware

    Against any [Limiter], as in the code: [RedisLimiter] or the one of [NopMiddleware]. *)
Class Limiter (S : Type) := {
  limiter_Allow : Policy -> string -> S -> result Decision * S;
  limiter_now : S -> Z
}.
#[export] Instance RedisLimiter `{Env} `{Float64} : Limiter Limits :=
  {| limiter_Allow := Allow; limiter_now := lm_now |}.
Definition noopLimiter (S : Type) (now : S -> Z) : Limiter S := {|
  limiter_Allow _ _ s := (Ok {| Allowed := true; Decision_Limit := 0; Remaining := 0; RetryAfter := 0 |}, s);
  limiter_now := now
|}.
(** A limiter beside state it does not know. *)
#[export] Instance limiter_beside {W L} `{Limiter L} : Limiter (W * L) := {|
  limiter_Allow p i s := let (d, l) := limiter_Allow p i s.2 in (d, (s.1, l));
  limiter_now s := limiter_now s.2
|}.
Lemma limiter_beside_fst {W L} `{Limiter L} p i (s : W * L) : (limiter_Allow p i s).2.1 = s.1.
Proof. cbn. by destruct (limiter_Allow p i s.2). Qed.

Section middleware.
Context `{Env} `{Float64} `{GoNet} {S : Type} `{Limiter S} (failOpen : bool).

Definition Unix (t : Z) : Z := t / Second.
Definition resetAt (now : Z) (d : Decision) : Z := if Allowed d then Unix now else Unix (now + RetryAfter d).
(** [int(f)] of a number that is in range: towards zero. *)
Definition int_of_float (x : Q) : Z := if Qle_bool 0 x then Qfloor x else Qceiling x.
Definition retry_seconds (d : Decision) : Z := let s := int_of_float (Seconds (RetryAfter d)) in if Z.ltb s 1 then 1 else s.
Definition limit_headers (now : Z) (d : Decision) : gmap string string :=
  <["X-RateLimit-Limit" := pretty (Decision_Limit d)]> (
  <["X-RateLimit-Remaining" := pretty (Remaining d)]> (
  <["X-RateLimit-Reset" := pretty (resetAt now d)]> ∅)).

(** [serve] *)
Definition serve (next : Handler S) (policy : Policy) (identifier : string) : Handler S := fun r s =>
  let (decision, s1) := limiter_Allow policy identifier s in
  match decision with
  | Err e =>
      if failOpen then next r s1 else (WriteErrorResponse r (Sentinel ErrRateLimited), s1)
  | Ok d =>
      let hs := limit_headers (limiter_now s1) d in
      if Allowed d then let (resp, s2) := next r s1 in (with_headers hs resp, s2)
      else (with_headers (<["Retry-After" := pretty (retry_seconds d)]> hs)
              (WriteErrorResponse r (Sentinel ErrRateLimited)), s1)
  end.
(** [Limit] and [LimitAuthenticated] *)
Definition Limit (policy : Policy) (next : Handler S) : Handler S := fun r s =>
  let ip := ClientIP r in
  if ip =?= "" then next r s else serve next policy ip r s.
Definition LimitAuthenticated (userPolicy apiKeyPolicy : Policy) (next : Handler S) : Handler S := fun r s =>
  match ctx_Principal r with
  | None => next r s
  | Some p =>
      if IsAPIKey p then serve next apiKeyPolicy (uuid_String (Principal_APIKeyID p)) r s
      else serve next userPolicy (uuid_String (Principal_UserID p)) r s
  end.
End middleware.
