(* ===== verification/RateFacts.v ===== *)
(** * What the rate limiter guarantees

    The balance of a bucket stays between zero and the capacity; a burst from a full bucket
    is exactly the limit; over any window the number of admitted requests is bounded by the
    limit and the sustained rate, with the rounding error of [float64] accounted for. *)
From S2P Require Import Prelude.
From S2P Require Import GoError.
From S2P Require Import Store.
From S2P Require Import GoStrings.
From S2P Require Import Strconv.
From S2P Require Import Http.
From S2P Require Import RateLimit.
From Stdlib Require Import QArith Qabs Qround Qpower Lqa.
Local Open Scope Z_scope.

(** Powers of two as numerals, for [lra]. *)
Ltac q_numerals :=
  repeat match goal with
  | H : context [Pos.pow 2 ?k] |- _ => let v := eval vm_compute in (Pos.pow 2 k) in change (Pos.pow 2 k) with v in H
  | |- context [Pos.pow 2 ?k] => let v := eval vm_compute in (Pos.pow 2 k) in change (Pos.pow 2 k) with v
  | H : context [inject_Z (2 ^ ?k)] |- _ =>
      let v := eval vm_compute in (2 ^ k)%Z in change (inject_Z (2 ^ k)) with (v # 1)%Q in H
  | |- context [inject_Z (2 ^ ?k)] => let v := eval vm_compute in (2 ^ k)%Z in change (inject_Z (2 ^ k)) with (v # 1)%Q
  end.
Ltac qlra := q_numerals; lra.

(** ** Rounding *)
Section rounding.
Context `{Float64} `{!Float64Laws}.
Local Open Scope Q_scope.

Lemma in_range_nonneg x : 0 <= x -> x <= inject_Z (2 ^ 200) -> in_range x.
Proof.
  intros Hlo Hhi. unfold in_range. rewrite Qabs_pos by done. eapply Qle_trans; [exact Hhi|]. vm_compute. discriminate.
Qed.
Lemma fl_zero : fl 0 == 0.
Proof. apply (fl_int 0). done. Qed.
Lemma fl_nonneg x : 0 <= x -> x <= inject_Z (2 ^ 200) -> 0 <= fl x.
Proof.
  intros Hlo Hhi. rewrite <- fl_zero at 1. apply fl_mono; [|by apply in_range_nonneg|done].
  unfold in_range. vm_compute. discriminate.
Qed.
Lemma fl_le_int x z : (0 <= z <= 2 ^ 53)%Z -> 0 <= x -> x <= inject_Z z -> fl x <= inject_Z z.
Proof.
  intros Hz Hlo Hhi. rewrite <- (fl_int z) by lia.
  assert (inject_Z z <= inject_Z (2 ^ 200)) by (rewrite <- Zle_Qle; lia).
  apply fl_mono; [apply in_range_nonneg; [done|lra]|apply in_range_nonneg; [|done]|done]. lra.
Qed.
Lemma fl_ge_int x z : (0 <= z <= 2 ^ 53)%Z -> x <= inject_Z (2 ^ 200) -> inject_Z z <= x -> inject_Z z <= fl x.
Proof.
  intros Hz Hlo Hhi. rewrite <- (fl_int z) at 1 by lia.
  assert (0 <= inject_Z z) by (change 0 with (inject_Z 0); rewrite <- Zle_Qle; lia).
  apply fl_mono; [apply in_range_nonneg; [done|lra]|apply in_range_nonneg; lra|done].
Qed.
Lemma fl_eq x y : x == y -> in_range x -> fl x == fl y.
Proof.
  intros He Hx. assert (in_range y) by (unfold in_range in *; by rewrite <- He).
  apply Qle_antisym; apply fl_mono; try done; rewrite He; apply Qle_refl.
Qed.
Lemma fl_is_int x z : (0 <= z <= 2 ^ 53)%Z -> x == inject_Z z -> fl x == inject_Z z.
Proof.
  intros Hz Hx. rewrite <- (fl_int z) by lia. apply fl_eq; [done|].
  assert (0 <= inject_Z z <= inject_Z (2 ^ 200)).
  { split; [change 0 with (inject_Z 0)|]; rewrite <- Zle_Qle; lia. }
  apply in_range_nonneg; rewrite Hx; lra.
Qed.
(** Both sides of the rounding error of a number that is not negative. *)
Lemma fl_near x : 0 <= x -> x <= inject_Z (2 ^ 200) ->
  x - (1 # 2 ^ 53) * x - (1 # 2 ^ 100) <= fl x /\ fl x <= x + (1 # 2 ^ 53) * x + (1 # 2 ^ 100).
Proof.
  assert (Ht : tiny <= 1 # 2 ^ 100) by (vm_compute; discriminate).
  intros Hlo Hhi. pose proof (fl_error x (in_range_nonneg _ Hlo Hhi)) as He.
  rewrite (Qabs_pos x) in He by done. apply Qabs_Qle_condition in He as [? ?]. unfold unit_roundoff in *. split; lra.
Qed.

(** The policies the bounds are stated for: valid, with a limit a [float64] represents and
    a period between a second and 2^61 nanoseconds (73 years). *)
Definition policy_ok (p : Policy) : Prop :=
  Policy_validate p = None /\ (Limit_ p <= 2 ^ 53)%Z /\ (Second <= Period p <= 2 ^ 61)%Z.
Lemma policy_ok_bounds p : policy_ok p -> (1 <= Limit_ p <= 2 ^ 53)%Z /\ (Second <= Period p <= 2 ^ 61)%Z.
Proof.
  intros (Hv & Hl & Hp). split; [|done]. unfold Policy_validate in Hv. split_ifs; lia.
Qed.

Definition period_seconds (p : Policy) : Q := inject_Z (Period p) / inject_Z Second.
Lemma inject_Z_nonneg z : (0 <= z)%Z -> 0 <= inject_Z z.
Proof. intros Hz. change 0 with (inject_Z 0). by rewrite <- Zle_Qle. Qed.
Lemma inject_Z_le z m : (z <= m)%Z -> inject_Z z <= inject_Z m.
Proof. by rewrite <- Zle_Qle. Qed.

Lemma Seconds_near p : policy_ok p ->
  1 <= period_seconds p /\
  period_seconds p * (1 - (1 # 2 ^ 50)) <= Seconds (Period p) /\
  Seconds (Period p) <= period_seconds p * (1 + (1 # 2 ^ 50)).
Proof.
  intros [_ Hp]%policy_ok_bounds. unfold Seconds, period_seconds.
  rewrite Z.quot_div_nonneg, Z.rem_mod_nonneg by (unfold Second in *; lia).
  assert (Hq : (1 <= Period p / Second <= 2 ^ 32)%Z).
  { unfold Second in *. split; [apply Z.div_le_lower_bound; lia|]. apply Z.div_le_upper_bound; lia. }
  assert (Hr : (0 <= Period p `mod` Second < Second)%Z) by (apply Z.mod_pos_bound; done).
  assert (Hdm : (Period p = Second * (Period p / Second) + Period p `mod` Second)%Z) by (apply Z.div_mod; done).
  revert Hq Hr Hdm. generalize (Period p / Second)%Z (Period p `mod` Second)%Z. intros q r Hq Hr ->.
  clear Hp. rewrite inject_Z_plus, inject_Z_mult.
  set (a := inject_Z r / inject_Z Second).
  assert (Hs : (inject_Z Second * inject_Z q + inject_Z r) / inject_Z Second == inject_Z q + a).
  { unfold a. field. done. }
  assert (Ha : 0 <= a <= 1).
  { unfold a. split; [apply Qle_shift_div_l|apply Qle_shift_div_r]; try done.
    - rewrite Qmult_0_l. apply inject_Z_nonneg. lia.
    - rewrite Qmult_1_l. apply inject_Z_le. lia. }
  assert (Hq1 : 1 <= inject_Z q) by (apply (inject_Z_le 1); lia).
  assert (Hq2 : inject_Z q <= inject_Z (2 ^ 32)) by (apply inject_Z_le; lia).
  pose proof (fl_int q ltac:(lia)) as Hfq.
  destruct (fl_near a) as [Hb1 Hb2]; [lra|qlra|].
  pose proof (fl_nonneg a ltac:(lra) ltac:(qlra)) as Hb0.
  destruct (fl_near (fl (inject_Z q) + fl a)) as [Hc1 Hc2]; [lra|qlra|].
  rewrite Hs. split_and!; qlra.
Qed.

Lemma Qmult_mono c x y : 0 <= c -> x <= y -> c * x <= c * y.
Proof. intros Hc Hxy. rewrite !(Qmult_comm c). by apply Qmult_le_compat_r. Qed.

(** The refill rate times the period is the limit, up to rounding. *)
Lemma refill_near p : policy_ok p ->
  0 < RefillPerSecond p /\ RefillPerSecond p <= inject_Z (2 ^ 54) /\
  RefillPerSecond p <= 2 * inject_Z (Limit_ p) /\
  inject_Z (Limit_ p) * (1 - (1 # 2 ^ 48)) <= RefillPerSecond p * period_seconds p /\
  RefillPerSecond p * period_seconds p <= inject_Z (Limit_ p) * (1 + (1 # 2 ^ 48)).
Proof.
  intros Hok. destruct (Seconds_near p Hok) as (H1s & Hs1 & Hs2).
  destruct (policy_ok_bounds p Hok) as [Hl Hp].
  assert (Hps : period_seconds p <= inject_Z (2 ^ 32)).
  { unfold period_seconds. apply Qle_shift_div_r; [done|]. rewrite <- inject_Z_mult.
    apply inject_Z_le. unfold Second. lia. }
  assert (HL1 : 1 <= inject_Z (Limit_ p)) by (apply (inject_Z_le 1); lia).
  assert (HL2 : inject_Z (Limit_ p) <= inject_Z (2 ^ 53)) by (apply inject_Z_le; lia).
  unfold RefillPerSecond. destruct (Z.leb_spec (Period p) 0) as [Hz|_]; [unfold Second in Hp; lia|].
  set (ps := period_seconds p) in *. set (sec := Seconds (Period p)) in *.
  set (L := inject_Z (Limit_ p)) in *.
  assert (Hsec : (1 # 2) <= sec) by qlra. assert (Hsec2 : sec <= inject_Z (2 ^ 33)) by qlra.
  pose proof (fl_int (Limit_ p) ltac:(lia)) as HfL. fold L in HfL.
  set (x := L / sec).
  assert (Hxs : x * sec == L) by (unfold x; field; lra).
  assert (Hx1 : (1 # 2 ^ 33) <= x) by (apply Qle_shift_div_l; qlra).
  assert (Hx2 : x <= L * (1 + (1 # 2 ^ 49))) by (apply Qle_shift_div_r; [lra|]; clear -HL1 Hs1 H1s; q_numerals; nra).
  assert (Hrx : fl (fl L / sec) == fl x).
  { symmetry. apply fl_eq; [unfold x; by rewrite HfL|]. apply in_range_nonneg; qlra. }
  rewrite Hrx.
  destruct (fl_near x) as [Hr1 Hr2]; [qlra|qlra|].
  assert (Hx3 : 0 <= x) by qlra.
  pose proof (Qmult_mono x _ _ Hx3 Hs1) as Hm1. pose proof (Qmult_mono x _ _ Hx3 Hs2) as Hm2.
  rewrite Hxs in Hm1, Hm2.
  assert (Hps0 : 0 <= ps) by lra.
  assert (Hlow : x * (1 - (1 # 2 ^ 52)) <= fl x) by qlra.
  assert (Hhigh : fl x <= x * (1 + (1 # 2 ^ 52))) by qlra.
  pose proof (Qmult_mono ps _ _ Hps0 Hlow) as Hm3. pose proof (Qmult_mono ps _ _ Hps0 Hhigh) as Hm4.
  assert (Hc : ps * x == x * ps) by ring.
  assert (Hc2 : x * (ps * (1 - (1 # 2 ^ 50))) == (x * ps) * (1 - (1 # 2 ^ 50))) by ring.
  assert (Hc3 : x * (ps * (1 + (1 # 2 ^ 50))) == (x * ps) * (1 + (1 # 2 ^ 50))) by ring.
  assert (Hc4 : ps * (x * (1 - (1 # 2 ^ 52))) == (x * ps) * (1 - (1 # 2 ^ 52))) by ring.
  assert (Hc5 : ps * (x * (1 + (1 # 2 ^ 52))) == (x * ps) * (1 + (1 # 2 ^ 52))) by ring.
  assert (Hc6 : fl x * ps == ps * fl x) by ring. rewrite Hc6.
  rewrite Hc2 in Hm1. rewrite Hc3 in Hm2. rewrite Hc4 in Hm3. rewrite Hc5 in Hm4.
  clear -Hm1 Hm2 Hm3 Hm4 Hx1 Hx2 HL1 HL2 Hr1 Hr2.
  set (y := x * ps) in *. set (z := ps * fl x) in *. split_and!; qlra.
Qed.
End rounding.

(** ** One evaluation of the script *)
Section bucket.
Context `{Float64} `{!Float64Laws} (p : Policy) (Hok : policy_ok p).
Local Open Scope Q_scope.
Let L : Q := inject_Z (Limit_ p).
Let r : Q := RefillPerSecond p.

(** A stored bucket: a balance within the capacity, and the millisecond it was written. *)
Definition bucket_at (b : Bucket) (ms : Z) : Prop :=
  0 <= b_tokens b <= L /\ (0 <= ms <= 2 ^ 53)%Z /\ b_ts b == inject_Z ms.
Definition bucket_ok (b : Bucket) : Prop := exists ms, bucket_at b ms.

Lemma L_bounds : 1 <= L /\ L <= inject_Z (2 ^ 53).
Proof. destruct (policy_ok_bounds p Hok) as [Hl _]. split; [apply (inject_Z_le 1)|apply inject_Z_le]; lia. Qed.

Lemma Qlt_bool_true x y : Qlt_bool x y = true <-> x < y.
Proof.
  unfold Qlt_bool. rewrite negb_true_iff, <- not_true_iff_false, Qle_bool_iff. split; [apply Qnot_le_lt|apply Qlt_not_le].
Qed.
Lemma math_min_le x y : math_min x y <= x /\ math_min x y <= y.
Proof.
  unfold math_min. destruct (Qlt_bool y x) eqn:E.
  - apply Qlt_bool_true in E. lra.
  - split; [apply Qle_refl|]. apply Qnot_lt_le. by rewrite <- Qlt_bool_true, E.
Qed.
Lemma math_min_ge x y z : z <= x -> z <= y -> z <= math_min x y.
Proof. unfold math_min. by destruct (Qlt_bool y x). Qed.

(** The elapsed time the script computes is exact, and never negative. *)
Lemma elapsed_exact (now ts : Q) (m z : Z) : (0 <= m <= 2 ^ 53)%Z -> (0 <= z <= 2 ^ 53)%Z ->
  now == inject_Z m -> ts == inject_Z z ->
  (if Qlt_bool (fl (now - ts)) 0 then 0 else fl (now - ts)) == inject_Z (Z.max 0 (m - z)).
Proof.
  intros Hm Hz Hn Ht.
  assert (Hd : fl (now - ts) == inject_Z (m - z)).
  { rewrite <- (fl_int (m - z)) by lia. symmetry. apply fl_eq.
    - rewrite Hn, Ht. unfold Zminus. rewrite inject_Z_plus, inject_Z_opp. ring.
    - unfold in_range. change (Qabs (inject_Z (m - z))) with (inject_Z (Z.abs (m - z))).
      eapply Qle_trans; [apply (inject_Z_le _ (2 ^ 53)); lia|]. vm_compute. discriminate. }
  destruct (Qlt_bool _ _) eqn:E.
  - apply Qlt_bool_true in E. rewrite Hd in E. change 0 with (inject_Z 0) in E. rewrite <- Zlt_Qlt in E.
    by rewrite Z.max_l by lia.
  - assert (0 <= fl (now - ts)) as E' by (apply Qnot_lt_le; by rewrite <- Qlt_bool_true, E).
    rewrite Hd in E'. change 0 with (inject_Z 0) in E'. rewrite <- Zle_Qle in E'. by rewrite Z.max_r by lia.
Qed.

(** What the refill adds for [e] milliseconds. *)
Definition gain (e : Q) : Q := fl (fl (e / 1000) * r).
Lemma gain_bounds (e : Q) : 0 <= e <= inject_Z (2 ^ 53) ->
  0 <= gain e /\ gain e <= inject_Z (2 ^ 120) /\ gain e <= e / 1000 * r * (1 + (1 # 2 ^ 51)) + L * (1 # 2 ^ 60).
Proof.
  intros He. destruct (refill_near p Hok) as (Hr0 & Hr1 & Hr2 & _). fold r L in Hr0, Hr1, Hr2.
  destruct L_bounds as [HL1 HL2]. unfold gain.
  assert (Hd : e / 1000 == e * (1 # 1000)) by (unfold Qdiv; by vm_compute (/ 1000)).
  set (x := e / 1000) in *.
  destruct (fl_near x) as [Hx1 Hx2]; [qlra|qlra|].
  pose proof (fl_nonneg x ltac:(qlra) ltac:(qlra)) as Hx0.
  set (y := fl x) in *.
  assert (Hyr : y * r <= (x * (1 + (1 # 2 ^ 53)) + (1 # 2 ^ 100)) * r) by (apply Qmult_le_compat_r; qlra).
  assert (Hyr0 : 0 <= y * r) by (apply Qmult_le_0_compat; lra).
  assert (Hy : y <= inject_Z (2 ^ 54)) by qlra.
  assert (Hyr1 : y * r <= inject_Z (2 ^ 54) * inject_Z (2 ^ 54)).
  { eapply Qle_trans; [apply Qmult_le_compat_r; [exact Hy|lra]|]. apply Qmult_mono; [done|exact Hr1]. }
  rewrite <- inject_Z_mult in Hyr1. change (2 ^ 54 * 2 ^ 54)%Z with (2 ^ 108)%Z in Hyr1.
  destruct (fl_near (y * r)) as [Hg1 Hg2]; [done|qlra|].
  pose proof (fl_nonneg (y * r) Hyr0 ltac:(qlra)) as Hg0.
  assert (Hc : (x * (1 + (1 # 2 ^ 53)) + (1 # 2 ^ 100)) * r == x * r * (1 + (1 # 2 ^ 53)) + r * (1 # 2 ^ 100)) by ring.
  rewrite Hc in Hyr. assert (Hxr : 0 <= x * r) by (apply Qmult_le_0_compat; qlra).
  clear -Hg0 Hg1 Hg2 Hyr Hyr1 Hr2 HL1 Hr0 Hxr Hyr0. set (a := x * r) in *. set (b := y * r) in *.
  split_and!; qlra.
Qed.

Lemma refilled_full (capacity now : Q) (m : Z) : (0 <= m <= 2 ^ 53)%Z -> capacity == L -> now == inject_Z m ->
  refilled capacity r now None == L.
Proof.
  intros Hm Hc Hn. destruct L_bounds as [HL1 HL2]. unfold refilled.
  pose proof (elapsed_exact now now m m Hm Hm Hn Hn) as He. rewrite Z.sub_diag in He. cbv zeta.
  set (el := if Qlt_bool _ _ then 0 else _) in *.
  assert (Hel : 0 <= el <= inject_Z (2 ^ 53)) by (rewrite He; split; [apply inject_Z_nonneg|apply inject_Z_le]; lia).
  destruct (gain_bounds el Hel) as (Hg0 & Hg1 & _). change (fl (fl (el / 1000) * r)) with (gain el).
  apply Qle_antisym; [rewrite <- Hc; apply math_min_le|]. apply math_min_ge; [rewrite Hc; apply Qle_refl|].
  destruct (policy_ok_bounds p Hok). apply fl_ge_int; [lia|qlra|fold L; lra].
Qed.
Lemma refilled_bounds (capacity now : Q) (b : Bucket) (m z : Z) :
  (0 <= m <= 2 ^ 53)%Z -> capacity == L -> now == inject_Z m -> bucket_at b z ->
  0 <= refilled capacity r now (Some b) /\ refilled capacity r now (Some b) <= L /\
  refilled capacity r now (Some b) <=
    b_tokens b + inject_Z (Z.max 0 (m - z)) / 1000 * r * (1 + (1 # 2 ^ 50)) + L * (1 # 2 ^ 50).
Proof.
  intros Hm Hc Hn (Ht & Hz & Hts). destruct L_bounds as [HL1 HL2].
  destruct (refill_near p Hok) as (Hr0 & _). fold r in Hr0. unfold refilled. cbv zeta.
  pose proof (elapsed_exact now (b_ts b) m z Hm Hz Hn Hts) as He.
  set (el := if Qlt_bool _ _ then 0 else _) in *.
  assert (Hel : 0 <= el <= inject_Z (2 ^ 53)).
  { rewrite He. split; [apply inject_Z_nonneg|apply inject_Z_le]; lia. }
  destruct (gain_bounds el Hel) as (Hg0 & Hg1 & Hg2). change (fl (fl (el / 1000) * r)) with (gain el).
  set (g := gain el) in *. destruct (fl_near (b_tokens b + g)) as [Hs1 Hs2]; [lra|qlra|].
  pose proof (fl_nonneg (b_tokens b + g) ltac:(lra) ltac:(qlra)) as Hs0.
  destruct (math_min_le capacity (fl (b_tokens b + g))) as [Hmin1 Hmin2].
  split; [apply math_min_ge; lra|]. split; [lra|]. rewrite <- He.
  assert (Hy : 0 <= el / 1000 * r).
  { apply Qmult_le_0_compat; [|lra]. apply Qle_shift_div_l; [done|]. lra. }
  set (y := el / 1000 * r) in *. clear -Hs2 Hg2 Hmin1 Hmin2 Hc Hy HL1 Ht Hg0.
  destruct (Qlt_le_dec L (b_tokens b + g)); qlra.
Qed.

(** Consuming: one token, or none. *)
Lemma consume_bounds (t : Q) : 0 <= t <= L ->
  let '(allowed, t', retry) := consume r t in
  0 <= t' <= L /\ (allowed = true <-> 1 <= t) /\
  (if allowed then 1 else 0) + t' <= t + L * (1 # 2 ^ 50).
Proof.
  intros Ht. destruct L_bounds as [HL1 HL2]. unfold consume. destruct (Qle_bool 1 t) eqn:E.
  - apply Qle_bool_iff in E. destruct (fl_near (t - 1)) as [H1 H2]; [lra|qlra|].
    pose proof (fl_nonneg (t - 1) ltac:(lra) ltac:(qlra)).
    assert (fl (t - 1) <= L).
    { destruct (policy_ok_bounds p Hok). apply fl_le_int; [lia|lra|fold L; lra]. }
    split; [by split|]. split; [by split|qlra].
  - assert (~ 1 <= t) by (rewrite <- Qle_bool_iff, E; done). split; [done|]. split; [by split|qlra].
Qed.

Definition ttl_ms : Z := Z.quot (TTL p) Millisecond.
Lemma ttl_bounds : TTL p = (2 * Period p)%Z /\ (2000 <= ttl_ms)%Z /\ (2 * Period p < (ttl_ms + 1) * Millisecond)%Z.
Proof.
  destruct (policy_ok_bounds p Hok) as [_ Hp]. unfold ttl_ms, TTL.
  destruct (Z.leb_spec (Period p) 0); [unfold Second in Hp; lia|].
  rewrite wrap64_id by (unfold Second in Hp; lia). unfold Second, Millisecond in *.
  rewrite Z.quot_div_nonneg by lia. split; [done|].
  pose proof (Z.div_mod (2 * Period p) 1000000 ltac:(done)).
  pose proof (Z.mod_pos_bound (2 * Period p) 1000000 ltac:(done)). lia.
Qed.
(** A bucket nobody touched for its lifetime would be full again. *)
Lemma idle_full (e : Z) : (ttl_ms <= e)%Z -> L <= inject_Z e / 1000 * r.
Proof.
  intros He. destruct ttl_bounds as (_ & _ & Ht). destruct (refill_near p Hok) as (Hr0 & _ & _ & Hr1 & _).
  destruct L_bounds as [HL _]. destruct (Seconds_near p Hok) as [Hps _]. fold r L in Hr0, Hr1.
  assert (Hp : 2 * period_seconds p <= inject_Z (e + 1) / 1000).
  { unfold period_seconds. apply Qle_shift_div_l; [done|].
    assert (Hx : 2 * (inject_Z (Period p) / inject_Z Second) * 1000 == inject_Z (2 * Period p) / inject_Z Millisecond).
    { rewrite inject_Z_mult. unfold Qdiv. change (/ inject_Z Second) with (1 # 1000000000).
      change (/ inject_Z Millisecond) with (1 # 1000000). change (inject_Z 2) with 2. ring. }
    rewrite Hx. apply Qle_shift_div_r; [done|]. rewrite <- inject_Z_mult. apply inject_Z_le. unfold Millisecond in *. lia. }
  rewrite inject_Z_plus in Hp. set (ps := period_seconds p) in *. set (x := inject_Z e) in *.
  assert (Hx : x / 1000 == x * (1 # 1000)) by (unfold Qdiv; by vm_compute (/ 1000)).
  assert (Hx' : (x + inject_Z 1) / 1000 == x * (1 # 1000) + (1 # 1000)).
  { unfold Qdiv. change (/ 1000) with (1 # 1000). change (inject_Z 1) with 1. ring. }
  rewrite Hx' in Hp. rewrite Hx.
  assert (Hy : (2 - (1 # 1000)) * ps <= x * (1 # 1000)) by lra.
  apply (Qmult_le_compat_r _ _ r) in Hy; [|lra].
  assert (Hc : (2 - (1 # 1000)) * ps * r == (2 - (1 # 1000)) * (r * ps)) by ring. rewrite Hc in Hy.
  clear -Hy Hr1 HL. set (y := r * ps) in *. set (w := x * (1 # 1000) * r) in *. qlra.
Qed.

(** A bucket as the script leaves it at [ms], when the clocks of the process and of Redis
    agree. *)
Definition stored_at (ms : Z) (b : Bucket) : Prop := bucket_at b ms /\ b_expires b = (ms + ttl_ms)%Z.
Definition credit (e : Z) : Q := inject_Z e / 1000 * r * (1 + (1 # 2 ^ 50)).
Definition slack : Q := L * (1 # 2 ^ 49).
Definition granted (reply : Z * Z * Z) : Q := inject_Z reply.1.1.


(** The script on any balance: what it grants and what it stores. *)
Lemma script_run (m : Z) (now : Q) (st : option Bucket) :
  (0 <= m <= 2 ^ 53)%Z -> now == inject_Z m ->
  0 <= refilled (fl L) r now (live m st) <= L ->
  let '(reply, st') := bucketScript m (fl L) r now ttl_ms st in
  exists b', st' = Some b' /\ stored_at m b' /\ (reply.1.1 = 0 \/ reply.1.1 = 1)%Z /\
    granted reply + b_tokens b' <= refilled (fl L) r now (live m st) + L * (1 # 2 ^ 50).
Proof.
  intros Hm Hn Ht. unfold bucketScript, store_bucket, granted. destruct ttl_bounds as (_ & Htt & _).
  pose proof (consume_bounds _ Ht) as Hc. destruct (consume _ _) as [[a t'] rt].
  destruct Hc as (Ht' & _ & Hle). destruct (Z.leb_spec ttl_ms 0); [lia|]. cbn [fst].
  eexists. split; [done|]. split; [done|]. split; [destruct a; auto|]. destruct a; exact Hle.
Qed.
Lemma fl_L : fl L == L.
Proof. apply fl_int. destruct (policy_ok_bounds p Hok). lia. Qed.

(** The balance before the refill pays for what is granted, up to the credit of the time
    that passed. *)
Lemma script_step (m z : Z) (now : Q) (b : Bucket) :
  (z <= m <= 2 ^ 53)%Z -> now == inject_Z m -> stored_at z b ->
  let '(reply, st) := bucketScript m (fl L) r now ttl_ms (Some b) in
  exists b', st = Some b' /\ stored_at m b' /\ (reply.1.1 = 0 \/ reply.1.1 = 1)%Z /\
    granted reply + b_tokens b' <= b_tokens b + credit (m - z) + slack.
Proof.
  intros Hm Hn [Hb He]. assert (Hm' : (0 <= m <= 2 ^ 53)%Z) by (destruct Hb as (_ & Hz & _); lia).
  destruct L_bounds as [HL1 HL2]. unfold credit, slack.
  assert (Hr : 0 <= refilled (fl L) r now (live m (Some b)) <= L /\
    refilled (fl L) r now (live m (Some b)) <= b_tokens b + inject_Z (m - z) / 1000 * r * (1 + (1 # 2 ^ 50)) + L * (1 # 2 ^ 50)).
  { cbn [live]. destruct (Z.leb_spec (b_expires b) m).
    - rewrite (refilled_full _ _ m Hm' fl_L Hn). destruct (refill_near p Hok) as (Hr0 & _). fold r in Hr0.
      pose proof (idle_full (m - z) ltac:(lia)) as Hi. destruct Hb as ((Hb0 & _) & _).
      set (y := inject_Z (m - z) / 1000 * r) in *. clear -Hb0 Hi HL1. split; [lra|qlra].
    - destruct (refilled_bounds _ _ b m z Hm' fl_L Hn Hb) as (Hr0 & Hr1 & Hr2).
      rewrite Z.max_r in Hr2 by lia. by split. }
  destruct Hr as [Hr1 Hr2]. pose proof (script_run m now (Some b) Hm' Hn Hr1) as Hs.
  destruct (bucketScript _ _ _ _ _ _) as [reply st]. destruct Hs as (b' & -> & Hst & Hg & Hle).
  exists b'. split_and!; try done. set (y := inject_Z (m - z) / 1000 * r) in *. clear -Hle Hr2. qlra.
Qed.
(** Whatever was stored before, a first evaluation grants at most the limit. *)
Lemma script_start (m : Z) (now : Q) (st : option Bucket) :
  (0 <= m <= 2 ^ 53)%Z -> now == inject_Z m -> (forall b, st = Some b -> bucket_ok b) ->
  let '(reply, st') := bucketScript m (fl L) r now ttl_ms st in
  exists b', st' = Some b' /\ stored_at m b' /\ (reply.1.1 = 0 \/ reply.1.1 = 1)%Z /\
    granted reply + b_tokens b' <= L + slack.
Proof.
  intros Hm Hn Hst. destruct L_bounds as [HL1 HL2].
  assert (Hr : 0 <= refilled (fl L) r now (live m st) <= L).
  { assert (Hfull : 0 <= refilled (fl L) r now None <= L) by (rewrite (refilled_full _ _ m Hm fl_L Hn); lra).
    destruct st as [b|]; [|done]. cbn [live]. destruct (Z.leb _ _); [done|].
    destruct (Hst b eq_refl) as [z Hz]. by destruct (refilled_bounds _ _ b m z Hm fl_L Hn Hz) as (? & ? & _). }
  pose proof (script_run m now st Hm Hn Hr) as Hs.
  destruct (bucketScript _ _ _ _ _ _) as [reply st']. destruct Hs as (b' & -> & Hst' & Hg & Hle).
  exists b'. split_and!; try done. unfold slack. clear -Hle Hr HL1. qlra.
Qed.
End bucket.

(** ** Requests over time

    A sequence of requests under one policy, from any callers: when each arrives by the
    clock of the process that serves it and by the clock of Redis, who sends it, and
    whether Redis fails it. *)
Record Arrival := { arr_at : Z; arr_server : Z; arr_id : string; arr_fault : option (bool * error) }.
Definition arrive (a : Arrival) (s : Limits) : Limits :=
  {| lm_buckets := lm_buckets s; lm_now := arr_at a; lm_server := arr_server a; lm_fault := arr_fault a |}.
Definition is_admitted (d : result Decision) : bool := match d with Ok d => Allowed d | Err _ => false end.
(** How many requests with the given key the limiter admits. *)
Fixpoint admitted `{Env} `{Float64} (p : Policy) (key : string) (l : list Arrival) (s : Limits) : Z :=
  match l with
  | [] => 0
  | a :: l =>
      let (d, s') := Allow p (arr_id a) (arrive a s) in
      (if (Key p (arr_id a) =?= key) && is_admitted d then 1 else 0) + admitted p key l s'
  end.
(** Arrivals in order between two instants (milliseconds), by clocks that agree. *)
Fixpoint chronological (from until : Z) (l : list Arrival) : Prop :=
  match l with
  | [] => from <= until
  | a :: l => arr_server a = UnixMilli (arr_at a) /\ from <= UnixMilli (arr_at a) /\
              chronological (UnixMilli (arr_at a)) until l
  end.
Lemma chronological_le l : forall from until, chronological from until l -> from <= until.
Proof. induction l as [|a l IH]; intros f u; cbn; [done|]. intros (_ & ? & Hl%IH). lia. Qed.

Lemma chronological_from l from from' until :
  chronological from until l -> from' <= from -> chronological from' until l.
Proof. destruct l; cbn; [lia|]. intros (? & ? & ?) ?. split; [done|]. split; [lia|done]. Qed.

Section window.
Context `{Env} `{Float64} `{!Float64Laws} (p : Policy) (Hok : policy_ok p) (key : string).

(** One request: the bucket of another caller, a command that had no effect, or the script
    on the caller's bucket. *)
Lemma Allow_other a s : Key p (arr_id a) <> key ->
  lm_buckets (Allow p (arr_id a) (arrive a s)).2 !! key = lm_buckets s !! key.
Proof.
  intros Hk. unfold Allow. destruct (Policy_validate p); [done|]. cbv zeta.
  destruct (bucketScript _ _ _ _ _ _) as [[[x y] z] b].
  cbn [arrive lm_fault]. destruct (arr_fault a) as [[[] e]|]; cbn; try done; by rewrite lookup_partial_alter_ne.
Qed.
Lemma Allow_own a s : Key p (arr_id a) = key ->
  let '(reply, b) := bucketScript (arr_server a) (fl (inject_Z (Limit_ p))) (RefillPerSecond p)
    (fl (inject_Z (UnixMilli (arr_at a)))) (ttl_ms p) (lm_buckets s !! key) in
  let '(d, s') := Allow p (arr_id a) (arrive a s) in
  (is_admitted d = true -> reply.1.1 = 1) /\
  (lm_buckets s' !! key = b \/ lm_buckets s' !! key = lm_buckets s !! key /\ is_admitted d = false).
Proof.
  intros Hk. unfold Allow. destruct Hok as [-> _]. cbv zeta. rewrite Hk. cbn [arrive lm_server lm_now lm_buckets lm_fault].
  unfold Capacity, ttl_ms. destruct (bucketScript _ _ _ _ _ _) as [[[x y] z] b].
  destruct (arr_fault a) as [[[] e]|]; cbn; (split; [try done|]).
  - left. by rewrite lookup_partial_alter_eq.
  - right. done.
  - by intros ?%Z.eqb_eq.
  - left. by rewrite lookup_partial_alter_eq.
Qed.

Local Open Scope Q_scope.
Definition admitted_bound (e n : Z) (balance : Q) : Q := balance + credit p e + inject_Z n * slack p.

Lemma credit_nonneg e : (0 <= e)%Z -> 0 <= credit p e.
Proof.
  intros He. unfold credit. destruct (refill_near p Hok) as (Hr0 & _).
  apply Qmult_le_0_compat; [|discriminate]. apply Qmult_le_0_compat; [|lra].
  apply Qle_shift_div_l; [done|]. rewrite Qmult_0_l. by apply inject_Z_nonneg.
Qed.
Lemma credit_add a b : credit p (a + b) == credit p a + credit p b.
Proof. unfold credit. rewrite inject_Z_plus. unfold Qdiv. ring. Qed.
Lemma slack_nonneg : 0 <= slack p.
Proof. destruct (L_bounds p Hok) as [HL _]. unfold slack. apply Qmult_le_0_compat; [lra|discriminate]. Qed.

(** From a bucket written at [from], the requests up to [until] are paid for by its balance
    and the credit of the interval. *)
Lemma window_from l : forall s from until b, chronological from until l -> (until <= 2 ^ 53)%Z ->
  lm_buckets s !! key = Some b -> stored_at p from b ->
  inject_Z (admitted p key l s) <= admitted_bound (until - from) (Z.of_nat (length l)) (b_tokens b).
Proof.
  unfold admitted_bound. induction l as [|a l IH]; intros s from until b Hc Hu Hb Hst.
  - cbn [admitted length Z.of_nat chronological] in *. pose proof (credit_nonneg (until - from) ltac:(lia)).
    destruct Hst as [[[Hb0 _] _] _]. change (Z.of_nat 0) with 0%Z. change (inject_Z 0) with 0. lra.
  - destruct Hc as (Hsv & Hf & Hc). pose proof (chronological_le _ _ _ Hc) as Hle. set (m := UnixMilli (arr_at a)) in *.
    pose proof slack_nonneg as Hs0. pose proof (credit_nonneg (m - from) ltac:(lia)) as Hc0.
    assert (Hn : inject_Z (Z.of_nat (length (a :: l))) == 1 + inject_Z (Z.of_nat (length l))).
    { cbn [length]. rewrite Nat2Z.inj_succ, <- Z.add_1_l. by rewrite inject_Z_plus. }
    assert (Hx : credit p (until - from) == credit p (m - from) + credit p (until - m)).
    { rewrite <- credit_add. by replace (m - from + (until - m))%Z with (until - from)%Z by lia. }
    assert (Hskip : forall s', lm_buckets s' !! key = Some b -> inject_Z (admitted p key l s') <=
      b_tokens b + (credit p (m - from) + credit p (until - m)) + inject_Z (Z.of_nat (length l)) * slack p).
    { intros s' Hb'. rewrite <- Hx. apply (IH s' from until b); [by eapply chronological_from|done..]. }
    rewrite Hn, Hx. cbn [admitted]. destruct (decide (Key p (arr_id a) = key)) as [Hk|Hk].
    + pose proof (Allow_own a s Hk) as Ha. rewrite Hb, Hsv in Ha. fold m in Ha.
      assert (Hm : (0 <= m <= 2 ^ 53)%Z) by (destruct Hst as [(_ & Hz & _) _]; lia).
      pose proof (script_step p Hok m from (fl (inject_Z m)) b ltac:(lia) (fl_int m ltac:(lia)) Hst) as Hs.
      destruct (bucketScript _ _ _ _ _ _) as [reply st]. destruct Hs as (b' & -> & Hst' & Hg & Hpay).
      destruct (Allow _ _ _) as [d s']. destruct Ha as [Hd Hb'].
      rewrite Hk, beq_refl. cbn [andb]. rewrite inject_Z_plus.
      destruct Hb' as [Hb'|[Hb' Hno]].
      * pose proof (IH s' m until b' Hc Hu Hb' Hst') as Hrest. unfold granted in Hpay.
        destruct (is_admitted d); [rewrite Hd in Hpay by done|]; change (inject_Z 1) with 1 in *;
          change (inject_Z 0) with 0; [lra|].
        destruct Hg as [Hg|Hg]; rewrite Hg in Hpay; [change (inject_Z 0) with 0 in Hpay|change (inject_Z 1) with 1 in Hpay]; lra.
      * rewrite Hno. change (inject_Z 0) with 0. pose proof (Hskip s' Hb'). lra.
    + pose proof (Allow_other a s Hk) as Hb'. rewrite Hb in Hb'. destruct (Allow _ _ _) as [d s'].
      rewrite (proj2 (beq_false _ _) Hk). cbn [andb]. rewrite Z.add_0_l. pose proof (Hskip s' Hb'). lra.
Qed.

(** From any sound state of the bucket, the limit comes on top of the credit. *)
Lemma window_any l : forall s from until, chronological from until l -> (0 <= from)%Z -> (until <= 2 ^ 53)%Z ->
  (forall b, lm_buckets s !! key = Some b -> bucket_ok p b) ->
  inject_Z (admitted p key l s) <= admitted_bound (until - from) (Z.of_nat (length l)) (inject_Z (Limit_ p)).
Proof.
  unfold admitted_bound. destruct (L_bounds p Hok) as [HL _]. pose proof slack_nonneg as Hs0.
  induction l as [|a l IH]; intros s from until Hc H0f Hu Hb.
  - cbn [admitted length chronological] in *. pose proof (credit_nonneg (until - from) ltac:(lia)).
    change (Z.of_nat 0) with 0%Z. change (inject_Z 0) with 0. lra.
  - destruct Hc as (Hsv & Hf & Hc). pose proof (chronological_le _ _ _ Hc) as Hle. set (m := UnixMilli (arr_at a)) in *.
    pose proof (credit_nonneg (m - from) ltac:(lia)) as Hc0.
    assert (Hn : inject_Z (Z.of_nat (length (a :: l))) == 1 + inject_Z (Z.of_nat (length l))).
    { cbn [length]. rewrite Nat2Z.inj_succ, <- Z.add_1_l. by rewrite inject_Z_plus. }
    assert (Hx : credit p (until - from) == credit p (m - from) + credit p (until - m)).
    { rewrite <- credit_add. by replace (m - from + (until - m))%Z with (until - from)%Z by lia. }
    assert (Hskip : forall s', lm_buckets s' !! key = lm_buckets s !! key -> inject_Z (admitted p key l s') <=
      inject_Z (Limit_ p) + credit p (until - m) + inject_Z (Z.of_nat (length l)) * slack p).
    { intros s' Hb'. apply IH; [done|lia|done|]. intros b. rewrite Hb'. apply Hb. }
    rewrite Hn, Hx. cbn [admitted]. destruct (decide (Key p (arr_id a) = key)) as [Hk|Hk].
    + pose proof (Allow_own a s Hk) as Ha. rewrite Hsv in Ha. fold m in Ha.
      pose proof (script_start p Hok m (fl (inject_Z m)) (lm_buckets s !! key) ltac:(lia) (fl_int m ltac:(lia)) Hb) as Hs.
      destruct (bucketScript _ _ _ _ _ _) as [reply st]. destruct Hs as (b' & -> & Hst' & Hg & Hpay).
      destruct (Allow _ _ _) as [d s']. destruct Ha as [Hd Hb'].
      rewrite Hk, beq_refl. cbn [andb]. rewrite inject_Z_plus.
      destruct Hb' as [Hb'|[Hb' Hno]].
      * pose proof (window_from l s' m until b' Hc Hu Hb' Hst') as Hrest. unfold granted, admitted_bound in *.
        destruct (is_admitted d); [rewrite Hd in Hpay by done|]; change (inject_Z 1) with 1 in *;
          change (inject_Z 0) with 0; [lra|].
        destruct Hg as [Hg|Hg]; rewrite Hg in Hpay; [change (inject_Z 0) with 0 in Hpay|change (inject_Z 1) with 1 in Hpay]; lra.
      * rewrite Hno. change (inject_Z 0) with 0. pose proof (Hskip s' Hb'). lra.
    + pose proof (Allow_other a s Hk) as Hb'. destruct (Allow _ _ _) as [d s'].
      rewrite (proj2 (beq_false _ _) Hk). cbn [andb]. rewrite Z.add_0_l. pose proof (Hskip s' Hb'). lra.
Qed.

(** The credit of an interval is the limit, once per period. *)
Lemma credit_rate e : (0 <= e)%Z ->
  credit p e <= inject_Z (Limit_ p) * (inject_Z (e * Millisecond) / inject_Z (Period p)) * (1 + (1 # 2 ^ 40)).
Proof.
  intros He. destruct (refill_near p Hok) as (Hr0 & _ & _ & _ & Hr). destruct (policy_ok_bounds p Hok) as [_ Hp].
  destruct (L_bounds p Hok) as [HL _]. unfold credit.
  assert (HP : ~ inject_Z (Period p) == 0).
  { unfold Qeq. cbn [inject_Z Qnum Qden]. unfold Second in Hp. lia. }
  set (tp := inject_Z (e * Millisecond) / inject_Z (Period p)).
  assert (Htp : inject_Z e / 1000 == tp * period_seconds p).
  { unfold tp, period_seconds. rewrite inject_Z_mult. change (inject_Z Millisecond) with (1000000 # 1).
    change (inject_Z Second) with (1000000000 # 1). field. exact HP. }
  assert (Htp0 : 0 <= tp).
  { unfold tp. apply Qle_shift_div_l; [unfold Qlt; cbn [inject_Z Qnum Qden]; unfold Second in Hp; lia|].
    rewrite Qmult_0_l. apply inject_Z_nonneg. unfold Millisecond. lia. }
  pose proof (Qmult_mono tp _ _ Htp0 Hr) as Hm. rewrite Htp.
  assert (Hc1 : tp * period_seconds p * RefillPerSecond p == tp * (RefillPerSecond p * period_seconds p)) by ring.
  rewrite Hc1. assert (Hc2 : tp * (inject_Z (Limit_ p) * (1 + (1 # 2 ^ 48))) == inject_Z (Limit_ p) * tp * (1 + (1 # 2 ^ 48))) by ring.
  rewrite Hc2 in Hm. assert (Hy : 0 <= inject_Z (Limit_ p) * tp) by (apply Qmult_le_0_compat; lra).
  set (y := inject_Z (Limit_ p) * tp) in *. set (w := tp * _) in *. clear -Hm Hy. qlra.
Qed.
End window.

(** C18. In any window of time the limiter admits at most the limit plus the sustained rate:
    whatever requests arrive between two instants, from whatever callers and with whatever
    failures of Redis, those of one caller that are admitted number at most
    [limit * (1 + T / period)], provided the clocks agree, with one part in 2^40 for the rounding of [float64] and
    2^-49 of the limit per request. *)
Theorem window_bound `{Env} `{Float64} `{!Float64Laws} (p : Policy) (id : string) (l : list Arrival) (s : Limits)
    (from until : Z) :
  policy_ok p -> chronological from until l -> 0 <= from -> until <= 2 ^ 53 ->
  (forall b, lm_buckets s !! Key p id = Some b -> bucket_ok p b) ->
  (inject_Z (admitted p (Key p id) l s) <=
   inject_Z (Limit_ p) * (1 + inject_Z ((until - from) * Millisecond) / inject_Z (Period p) * (1 + (1 # 2 ^ 40)) +
     inject_Z (Z.of_nat (length l)) * (1 # 2 ^ 49)))%Q.
Proof.
  intros Hok Hc Hf Hu Hb. pose proof (chronological_le _ _ _ Hc) as Hle.
  eapply Qle_trans; [by apply window_any|]. unfold admitted_bound, slack.
  pose proof (credit_rate p Hok (until - from) ltac:(lia)) as Hcr.
  set (L := inject_Z (Limit_ p)) in *. set (t := (inject_Z _ / inject_Z (Period p))%Q) in *. set (n := inject_Z (Z.of_nat _)) in *.
  assert (Hx : (L * (1 + t * (1 + (1 # 2 ^ 40)) + n * (1 # 2 ^ 49)) ==
    L + L * t * (1 + (1 # 2 ^ 40)) + n * (L * (1 # 2 ^ 49)))%Q) by ring.
  rewrite Hx. lra.
Qed.
