(* ===== verification/RateProps.v ===== *)
(** * Bursts, clocks and rejections

    The exact burst, the bounds of every decision, what clocks that disagree do to a bucket,
    and how the middleware answers. *)
From S2P Require Import Prelude.
From S2P Require Import GoError.
From S2P Require Import Store.
From S2P Require Import GoStrings.
From S2P Require Import Strconv.
From S2P Require Import Permissions.
From S2P Require Import GoNet.
From S2P Require Import Http.
From S2P Require Import Demo.
From S2P Require Import RateLimit.
From S2P Require Import RateFacts.
From stdpp Require Import pretty.
From Stdlib Require Import QArith Qabs Qround Qpower Lqa.
Local Open Scope Z_scope.

Section bucket.
Context `{Float64} `{!Float64Laws} (p : Policy) (Hok : policy_ok p).
Local Open Scope Q_scope.
Let L : Q := inject_Z (Limit_ p).
Let r : Q := RefillPerSecond p.

(** Nothing is added when no time passed, or the clock went back. *)
Lemma refilled_still (b : Bucket) (now : Q) (m z k : Z) :
  (0 <= m <= z)%Z -> now == inject_Z m -> bucket_at p b z -> (0 <= k <= Limit_ p)%Z ->
  b_tokens b == inject_Z k -> refilled (fl L) r now (Some b) == inject_Z k.
Proof.
  intros Hm Hn (_ & Hz & Hts) Hk Ht. destruct (policy_ok_bounds p Hok) as [Hl _].
  unfold refilled. cbv zeta. pose proof (elapsed_exact now (b_ts b) m z ltac:(lia) Hz Hn Hts) as He.
  set (el := if Qlt_bool _ _ then 0 else _) in *. rewrite Z.max_l in He by lia.
  assert (H1000 : fl (el / 1000) == inject_Z 0) by (apply fl_is_int; [lia|]; rewrite He; done).
  assert (Hg : fl (fl (el / 1000) * r) == inject_Z 0) by (apply fl_is_int; [lia|]; rewrite H1000; change (inject_Z 0) with 0; ring).
  assert (Hs : fl (b_tokens b + fl (fl (el / 1000) * r)) == inject_Z k).
  { apply fl_is_int; [lia|]. rewrite Hg, Ht. change (inject_Z 0) with 0. ring. }
  assert (Hkl : inject_Z k <= L) by (apply inject_Z_le; lia).
  pose proof (fl_L p Hok) as HfL. fold L in HfL.
  apply Qle_antisym; [rewrite <- Hs; apply math_min_le|]. apply math_min_ge; [by rewrite HfL|]. rewrite Hs. apply Qle_refl.
Qed.
Lemma consume_int (t : Q) (k : Z) : (1 <= k <= Limit_ p)%Z -> t == inject_Z k ->
  exists t', consume r t = (true, t', 0%Z) /\ t' == inject_Z (k - 1).
Proof.
  intros Hk Ht. destruct (policy_ok_bounds p Hok) as [Hl _]. unfold consume.
  assert (E : Qle_bool 1 t = true) by (apply Qle_bool_iff; rewrite Ht; apply (inject_Z_le 1); lia).
  rewrite E. eexists. split; [done|]. apply fl_is_int; [lia|].
  rewrite Ht. unfold Zminus. rewrite inject_Z_plus, inject_Z_opp. change (inject_Z 1) with 1. ring.
Qed.
Lemma consume_none (t : Q) : t == 0 -> exists retry, consume r t = (false, t, retry).
Proof.
  intros Ht. unfold consume. destruct (Qle_bool 1 t) eqn:E; [|by eexists].
  apply Qle_bool_iff in E. rewrite Ht in E. by exfalso.
Qed.
End bucket.

(** ** The burst *)
Section burst.
Context `{Env} `{Float64} `{!Float64Laws} (p : Policy) (Hok : policy_ok p) (id : string) (t : Z).
Definition burst_arrival : Arrival := {| arr_at := t; arr_server := UnixMilli t; arr_id := id; arr_fault := None |}.
Let m := UnixMilli t.
Definition holds (s : Limits) (k : Z) : Prop :=
  exists b, lm_buckets s !! Key p id = Some b /\ stored_at p m b /\ (b_tokens b == inject_Z k)%Q.

(** The outcome of one request on a balance of [k]: with no time passed. *)
Lemma burst_step s k : 0 <= m <= 2 ^ 53 -> 0 <= k <= Limit_ p ->
  (refilled (fl (inject_Z (Limit_ p))) (RefillPerSecond p) (fl (inject_Z m)) (live m (lm_buckets s !! Key p id)) == inject_Z k)%Q ->
  let '(d, s') := Allow p id (arrive burst_arrival s) in
  is_admitted d = Z.leb 1 k /\ holds s' (Z.max 0 (k - 1)).
Proof.
  intros Hm Hk Ht. unfold Allow. destruct Hok as [-> _]. cbn [arrive burst_arrival lm_server lm_now lm_buckets lm_fault arr_at arr_server].
  fold m. unfold bucketScript, Capacity. change (Z.quot (TTL p) Millisecond) with (ttl_ms p).
  destruct (ttl_bounds p Hok) as (_ & Htt & _). unfold store_bucket. destruct (Z.leb_spec (ttl_ms p) 0); [lia|].
  assert (Hfm : (fl (inject_Z m) == inject_Z m)%Q) by (apply fl_int; lia).
  assert (Hst : forall t' j, 0 <= j <= Limit_ p -> (t' == inject_Z j)%Q ->
    stored_at p m {| b_tokens := t'; b_ts := fl (inject_Z m); b_expires := m + ttl_ms p |}).
  { intros t' j Hj Ht'. split; [|done]. split_and!; try done; try lia; cbn [b_tokens]; rewrite Ht'.
    - apply inject_Z_nonneg. lia.
    - apply inject_Z_le. lia. }
  destruct (Z.leb_spec 1 k) as [Hone|Hone].
  - destruct (consume_int p Hok _ k ltac:(lia) Ht) as (t' & -> & Ht'). cbn. split; [done|].
    eexists. split; [exact (lookup_partial_alter_eq (fun _ => Some _) _ _)|]. replace (Z.max 0 (k - 1)) with (k - 1) by lia.
    split; [|done]. apply (Hst t' (k - 1)); [lia|done].
  - replace k with 0 in * by lia. destruct (consume_none p _ Ht) as [rt ->]. split; [done|].
    eexists. split; [exact (lookup_partial_alter_eq (fun _ => Some _) _ _)|]. split; [|done]. by apply (Hst _ 0); [lia|].
Qed.
Lemma burst_from n : forall s k, 0 <= m <= 2 ^ 53 -> 0 <= k <= Limit_ p -> holds s k ->
  admitted p (Key p id) (repeat burst_arrival n) s = Z.min (Z.of_nat n) k.
Proof.
  induction n as [|n IH]; intros s k Hm Hk Hh; [cbn; lia|].
  destruct Hh as (b & Hb & [Hat Hexp] & Ht). cbn [repeat admitted].
  pose proof (burst_step s k Hm Hk) as Hs. rewrite Hb in Hs. cbn [live] in Hs. destruct (ttl_bounds p Hok) as (_ & Htt & _).
  destruct (Z.leb_spec (b_expires b) m); [lia|].
  specialize (Hs (refilled_still p Hok b (fl (inject_Z m)) m m k ltac:(lia) (fl_int m ltac:(lia)) Hat Hk Ht)).
  change (arr_id burst_arrival) with id. destruct (Allow _ _ _) as [d s']. destruct Hs as [-> Hh'].
  rewrite beq_refl. cbn [andb]. rewrite (IH s' (Z.max 0 (k - 1))) by (done || lia). destruct (Z.leb_spec 1 k); lia.
Qed.
End burst.

(** C35. A burst is exactly the limit: of [n] requests one caller sends at one instant to a
    bucket nobody has touched, the first [limit] are admitted and no others. *)
Theorem burst_exact `{Env} `{Float64} `{!Float64Laws} (p : Policy) (id : string) (t : Z) (n : nat) (s : Limits) :
  policy_ok p -> 0 <= UnixMilli t <= 2 ^ 53 -> lm_buckets s !! Key p id = None ->
  admitted p (Key p id) (repeat (burst_arrival id t) n) s = Z.min (Z.of_nat n) (Limit_ p).
Proof.
  intros Hok Hm Hb. destruct (policy_ok_bounds p Hok) as [Hl _]. destruct n as [|n]; [cbn; lia|]. cbn [repeat admitted].
  pose proof (burst_step p Hok id t s (Limit_ p) Hm ltac:(lia)) as Hs. rewrite Hb in Hs.
  specialize (Hs (refilled_full p Hok _ _ _ Hm (fl_L p Hok) (fl_int (UnixMilli t) ltac:(lia)))).
  change (arr_id (burst_arrival id t)) with id. destruct (Allow _ _ _) as [d s']. destruct Hs as [-> Hh'].
  rewrite beq_refl. cbn [andb]. rewrite (burst_from p Hok id t n s' (Z.max 0 (Limit_ p - 1))) by (done || lia).
  destruct (Z.leb_spec 1 (Limit_ p)); lia.
Qed.

(** Every evaluation leaves a sound bucket and reports a sound budget, whatever the two
    clocks say: the stored balance is between zero and the limit, the remaining budget is
    too, and an admitted request is never told to wait. *)
Theorem Allow_sound `{Env} `{Float64} `{!Float64Laws} (p : Policy) (id : string) (s : Limits) :
  policy_ok p -> 0 <= UnixMilli (lm_now s) <= 2 ^ 53 ->
  (forall b, lm_buckets s !! Key p id = Some b -> bucket_ok p b) ->
  (forall b, lm_buckets (Allow p id s).2 !! Key p id = Some b -> bucket_ok p b) /\
  (forall d, (Allow p id s).1 = Ok d ->
     0 <= Remaining d <= Limit_ p /\ Decision_Limit d = Limit_ p /\ (Allowed d = true -> RetryAfter d = 0)).
Proof.
  intros Hok Hm Hb. destruct (policy_ok_bounds p Hok) as [Hl _]. unfold Allow. destruct Hok as [Hv Hok']. rewrite Hv.
  pose proof (conj Hv Hok' : policy_ok p) as Hok. clear Hv Hok'.
  unfold bucketScript, Capacity. cbv zeta. set (m := UnixMilli (lm_now s)) in *.
  assert (Hfm : (fl (inject_Z m) == inject_Z m)%Q) by (apply fl_int; lia).
  assert (Hr : (0 <= refilled (fl (inject_Z (Limit_ p))) (RefillPerSecond p) (fl (inject_Z m))
      (live (lm_server s) (lm_buckets s !! Key p id)) <= inject_Z (Limit_ p))%Q).
  { pose proof (refilled_full p Hok _ _ m Hm (fl_L p Hok) Hfm) as Hfull.
    destruct (L_bounds p Hok) as [HL _].
    destruct (lm_buckets s !! Key p id) as [b|]; cbn [live]; [destruct (Z.leb (b_expires b) (lm_server s))|].
    1, 3: rewrite Hfull; split; [lra|apply Qle_refl].
    destruct (Hb b eq_refl) as [z Hz]. by destruct (refilled_bounds p Hok _ _ b m z Hm (fl_L p Hok) Hfm Hz) as (? & ? & _). }
  pose proof (consume_bounds p Hok _ Hr) as Hc. destruct (consume _ _) as [[a t'] rt].
  destruct Hc as (Ht' & _ & _).
  assert (Hst : forall b, store_bucket (lm_server s) (Z.quot (TTL p) Millisecond) (fl (inject_Z m)) t' = Some b -> bucket_ok p b).
  { intros b. unfold store_bucket. destruct (Z.leb _ _); intros [= <-]. by exists m. }
  assert (Hfloor : 0 <= Qfloor t' <= Limit_ p).
  { split; [change 0 with (Qfloor 0)|rewrite <- (Qfloor_Z (Limit_ p))]; apply Qfloor_resp_le, Ht'. }
  split.
  - intros b. destruct (lm_fault s) as [[[] e]|]; cbn [snd set_buckets lm_buckets]; try apply Hb.
    all: rewrite lookup_partial_alter_eq; apply Hst.
  - intros d. destruct (lm_fault s) as [[took e]|]; cbn [fst]; [done|]. intros [= <-]. cbn.
    split; [lia|]. split; [done|]. by destruct a.
Qed.

(** ** Clocks that disagree

    One request served by a process whose clock is [skew] milliseconds ahead, then one by a
    process whose clock is right: the first finds the time that "passed", the second writes
    the clock back. *)
Definition skewed_pair (id : string) (ahead now server : Z) : list Arrival :=
  [{| arr_at := ahead * Millisecond; arr_server := server; arr_id := id; arr_fault := None |};
   {| arr_at := now * Millisecond; arr_server := server; arr_id := id; arr_fault := None |}].
Fixpoint skewed_pairs (id : string) (ahead now server : Z) (n : nat) : list Arrival :=
  match n with O => [] | S n => skewed_pair id ahead now server ++ skewed_pairs id ahead now server n end.

Section skew.
Context `{Env} `{Float64} `{!Float64Laws} (p : Policy) (Hok : policy_ok p) (id : string) (ahead now server : Z).
Local Open Scope Q_scope.
Let L : Q := inject_Z (Limit_ p).

(** One request at a balance that covers it. *)
Lemma covered_step (m : Z) (s : Limits) (k : Z) : (0 <= m <= 2 ^ 53)%Z -> (1 <= k)%Z ->
  inject_Z k <= refilled (fl L) (RefillPerSecond p) (fl (inject_Z m)) (live server (lm_buckets s !! Key p id)) <= L ->
  let a := {| arr_at := m * Millisecond; arr_server := server; arr_id := id; arr_fault := None |} in
  let '(d, s') := Allow p id (arrive a s) in
  is_admitted d = true /\
  exists b, lm_buckets s' !! Key p id = Some b /\ bucket_at p b m /\ b_expires b = (server + ttl_ms p)%Z /\
    inject_Z (k - 1) <= b_tokens b.
Proof.
  intros Hm Hk Ht. destruct (policy_ok_bounds p Hok) as [Hl _]. cbv zeta. unfold Allow. destruct Hok as [-> _].
  cbn [arrive lm_server lm_now lm_buckets lm_fault arr_at arr_server arr_fault].
  replace (UnixMilli (m * Millisecond)) with m by (unfold UnixMilli; by rewrite Z.div_mul).
  unfold bucketScript, Capacity. fold L. change (Z.quot (TTL p) Millisecond) with (ttl_ms p).
  set (t := refilled _ _ _ _) in *. destruct (ttl_bounds p Hok) as (_ & Htt & _).
  unfold store_bucket. destruct (Z.leb_spec (ttl_ms p) 0); [lia|]. unfold consume.
  assert (H1k : inject_Z 1 <= inject_Z k) by (apply inject_Z_le; lia). change (inject_Z 1) with 1 in H1k.
  assert (E : Qle_bool 1 t = true) by (apply Qle_bool_iff; lra). rewrite E. split; [done|].
  eexists. split; [exact (lookup_partial_alter_eq (fun _ => Some _) _ _)|].
  assert (HL : L <= inject_Z (2 ^ 53)) by (apply inject_Z_le; lia).
  assert (Hlow : inject_Z (k - 1) <= fl (t - 1)).
  { assert (inject_Z k <= L) by lra. assert (k <= Limit_ p)%Z by (rewrite Zle_Qle; done).
    apply fl_ge_int; [lia|qlra|]. unfold Zminus. rewrite inject_Z_plus, inject_Z_opp. change (inject_Z 1) with 1. lra. }
  assert (Hhigh : fl (t - 1) <= L) by (apply fl_le_int; [lia|lra|fold L; lra]).
  assert (0 <= fl (t - 1)) by (apply fl_nonneg; [lra|qlra]).
  split; [|by split]. split; [by split|]. split; [done|]. cbn [b_ts]. apply fl_int. lia.
Qed.
(** A refill that brings the balance to [k] or more. *)
Lemma refilled_above (b : Bucket) (m z k : Z) : (0 <= m <= 2 ^ 53)%Z -> bucket_at p b z -> (0 <= k <= Limit_ p)%Z ->
  (b_expires b > server)%Z -> inject_Z k <= b_tokens b + gain p (inject_Z (Z.max 0 (m - z))) ->
  inject_Z k <= refilled (fl L) (RefillPerSecond p) (fl (inject_Z m)) (live server (Some b)) <= L.
Proof.
  intros Hm Hat Hk Hexp Hge. cbn [live]. destruct (Z.leb_spec (b_expires b) server); [lia|].
  destruct (policy_ok_bounds p Hok) as [Hl _]. pose proof (fl_L p Hok) as HfL. fold L in HfL.
  destruct (refilled_bounds p Hok _ _ b m z Hm HfL (fl_int m ltac:(lia)) Hat) as (_ & Hup & _).
  split; [|done]. destruct Hat as ([Hb0 HbL] & Hz & Hts). unfold refilled. cbv zeta.
  pose proof (elapsed_exact (fl (inject_Z m)) (b_ts b) m z Hm Hz (fl_int m ltac:(lia)) Hts) as He.
  set (el := if Qlt_bool _ _ then 0 else _) in *.
  assert (Hel : 0 <= el <= inject_Z (2 ^ 53)) by (rewrite He; split; [apply inject_Z_nonneg|apply inject_Z_le]; lia).
  destruct (gain_bounds p Hok el Hel) as (Hg0 & Hg1 & _). change (fl (fl (el / 1000) * RefillPerSecond p)) with (gain p el).
  assert (Hg : gain p el == gain p (inject_Z (Z.max 0 (m - z)))).
  { destruct (refill_near p Hok) as (Hr0 & Hr1 & _). unfold gain.
    assert (Hd : el / 1000 == el * (1 # 1000)) by (unfold Qdiv; by vm_compute (/ 1000)).
    assert (Hfe : fl (el / 1000) == fl (inject_Z (Z.max 0 (m - z)) / 1000)).
    { apply fl_eq; [by rewrite He|]. apply in_range_nonneg; qlra. }
    assert (Hf0 : 0 <= fl (el / 1000)) by (apply fl_nonneg; qlra).
    assert (Hf1 : fl (el / 1000) <= inject_Z (2 ^ 53)) by (apply fl_le_int; [lia|qlra|qlra]).
    apply fl_eq; [by rewrite Hfe|]. apply in_range_nonneg; [apply Qmult_le_0_compat; lra|].
    eapply Qle_trans; [apply Qmult_le_compat_r; [exact Hf1|lra]|].
    eapply Qle_trans; [apply Qmult_mono; [done|exact Hr1]|]. vm_compute. discriminate. }
  apply math_min_ge; [rewrite HfL; apply inject_Z_le; lia|]. rewrite <- Hg in Hge.
  assert (L <= inject_Z (2 ^ 53)) by (apply inject_Z_le; lia). fold L in HbL. apply fl_ge_int; [lia|qlra|done].
Qed.

(** A bucket the behind process wrote, and a skew worth two tokens. *)
Definition rewound (s : Limits) : Prop := exists b,
  lm_buckets s !! Key p id = Some b /\ bucket_at p b now /\ (b_expires b > server)%Z.
Lemma skewed_admitted n : forall s, rewound s -> (2 <= Limit_ p)%Z -> (0 <= now <= ahead)%Z -> (ahead <= 2 ^ 53)%Z ->
  2 <= gain p (inject_Z (ahead - now)) ->
  admitted p (Key p id) (skewed_pairs id ahead now server n) s = Z.of_nat (2 * n).
Proof.
  induction n as [|n IH]; intros s (b & Hb & Hat & Hexp) HL2 Hn Ha Hgain; [done|].
  destruct (ttl_bounds p Hok) as (_ & Htt & _). cbn [skewed_pairs skewed_pair app admitted].
  assert (Hb0 : 0 <= b_tokens b) by (destruct Hat as ([? _] & _); done).
  pose proof (covered_step ahead s 2 ltac:(lia) ltac:(lia)) as H1s. rewrite Hb in H1s.
  assert (H2 : inject_Z 2 <= b_tokens b + gain p (inject_Z (Z.max 0 (ahead - now)))).
  { rewrite Z.max_r by lia. change (inject_Z 2) with 2. lra. }
  specialize (H1s (refilled_above b ahead now 2 ltac:(lia) Hat ltac:(lia) Hexp H2)). cbv zeta in H1s.
  cbn [arr_id]. destruct (Allow _ _ (arrive _ s)) as [d1 s1]. destruct H1s as (-> & b1 & Hb1 & Hat1 & Hexp1 & Htok1).
  pose proof (covered_step now s1 1 ltac:(lia) ltac:(lia)) as H2s. rewrite Hb1 in H2s.
  assert (H3 : inject_Z 1 <= b_tokens b1 + gain p (inject_Z (Z.max 0 (now - ahead)))).
  { rewrite Z.max_l by lia. destruct (gain_bounds p Hok (inject_Z 0)) as [? _]; [split; discriminate|].
    change (2 - 1)%Z with 1%Z in Htok1. lra. }
  specialize (H2s (refilled_above b1 now ahead 1 ltac:(lia) Hat1 ltac:(lia) ltac:(lia) H3)). cbv zeta in H2s.
  destruct (Allow _ _ (arrive _ s1)) as [d2 s2]. destruct H2s as (-> & b2 & Hb2 & Hat2 & Hexp2 & _).
  rewrite beq_refl. cbn [andb]. rewrite (IH s2); try done; [lia|]. exists b2. split_and!; [done..|lia].
Qed.
End skew.

(** Clocks that disagree mint budget: when one process runs ahead of another by a skew
    in which two tokens accrue, a caller whose requests alternate between the two is
    admitted every time, for ever, without any time passing. *)
Theorem clock_skew_mints `{Env} `{Float64} `{!Float64Laws} (p : Policy) (id : string) (ahead now server : Z)
    (n : nat) (s : Limits) :
  policy_ok p -> 2 <= Limit_ p -> 0 <= now <= ahead -> ahead <= 2 ^ 53 ->
  (2 <= fl (fl (inject_Z (ahead - now) / 1000) * RefillPerSecond p))%Q ->
  rewound p id now server s ->
  admitted p (Key p id) (skewed_pairs id ahead now server n) s = Z.of_nat (2 * n).
Proof. intros Hok HL Hn Ha Hg Hr. by apply skewed_admitted. Qed.

(** ** The middleware *)

(** The gate: [serve] runs the handler exactly when the limiter admits the request, or
    fails and the middleware fails open, and then the handler's status and body are the
    response; every other request is answered 429 with code RATE_LIMITED, the handler does
    not run, and a rejection by the limiter tells the client to wait a whole number of
    seconds, at least one. *)
Theorem serve_gate `{Env} `{Float64} {S} `{Limiter S} (failOpen : bool) (next : Handler S) (p : Policy)
    (id : string) (r : Request) (s : S) :
  let '(d, s1) := limiter_Allow p id s in
  let '(resp, s2) := serve failOpen next p id r s in
  if is_admitted d || (failOpen && match d with Err _ => true | Ok _ => false end) then
    Status resp = Status (next r s1).1 /\ Resp_Body resp = Resp_Body (next r s1).1 /\ s2 = (next r s1).2
  else
    Status resp = 429 /\ s2 = s1 /\
    (exists body, Resp_Body resp = ErrorResponse body /\ Body_Code body = "RATE_LIMITED") /\
    (forall x, d = Ok x -> exists n, 1 <= n /\ Headers resp !! "Retry-After" = Some (pretty n)).
Proof.
  unfold serve. destruct (limiter_Allow p id s) as [[d|e] s1]; cbn [is_admitted].
  - rewrite andb_false_r, orb_false_r. destruct (Allowed d) eqn:Ha.
    + destruct (next r s1) as [resp s2]. done.
    + split; [done|]. split; [done|]. split; [by eexists|]. intros x [= <-].
      exists (retry_seconds d). split.
      * unfold retry_seconds. cbv zeta. destruct (Z.ltb_spec (int_of_float (Seconds (RetryAfter d))) 1); lia.
      * unfold with_headers, WriteErrorResponse. cbn [Headers WriteError FromError fst snd].
        rewrite lookup_union_r by done. by rewrite lookup_insert_eq.
  - rewrite andb_true_r. cbn [orb]. destruct failOpen.
    + by destruct (next r s1).
    + split; [done|]. split; [done|]. split; [by eexists|]. done.
Qed.

(** ** A concrete policy *)
#[local] Existing Instances demo.
Definition exact_float : Float64 := Qred.
#[local] Existing Instance exact_float.
#[export] Instance exact_float_laws : @Float64Laws exact_float.
Proof.
  split; unfold fl, exact_float.
  - intros x y _ _ Hxy. by rewrite !Qred_correct.
  - intros z _. apply Qred_correct.
  - intros k _. apply Qred_correct.
  - intros x _. rewrite Qred_correct. assert (Hz : (x - x == 0)%Q) by ring. rewrite Hz.
    change (Qabs 0) with 0%Q. pose proof (Qabs_nonneg x). unfold unit_roundoff.
    apply (Qle_trans _ ((1 # 2 ^ 53) * Qabs x)).
    + apply Qmult_le_0_compat; [discriminate|done].
    + rewrite <- (Qplus_0_r ((1 # 2 ^ 53) * Qabs x)) at 1. apply Qplus_le_compat; [apply Qle_refl|]. vm_compute. discriminate.
Qed.

Definition auth_policy (period : Z) : Policy := {| Policy_Name := "auth"; Limit_ := 10; Period := period |}.
Definition fresh_limits (now : Z) : Limits :=
  {| lm_buckets := ∅; lm_now := now; lm_server := UnixMilli now; lm_fault := None |}.
Lemma auth_policy_ok period : Second <= period <= 2 ^ 61 -> policy_ok (auth_policy period).
Proof.
  intros Hp. split; [|done]. unfold Policy_validate. cbn. destruct (Z.leb_spec period 0); [unfold Second in Hp; lia|done].
Qed.
Definition noon : Z := 1700000000 * Second.

Lemma burst_exact_witness :
  admitted (auth_policy Minute) (Key (auth_policy Minute) "8.8.8.8") (repeat (burst_arrival "8.8.8.8" noon) 12)
    (fresh_limits noon) = 10.
Proof. exact (burst_exact (auth_policy Minute) "8.8.8.8" noon 12 (fresh_limits noon) (auth_policy_ok Minute ltac:(done)) ltac:(done) eq_refl). Defined.

Lemma Allow_sound_witness : forall d, (Allow (auth_policy Minute) "8.8.8.8" (fresh_limits noon)).1 = Ok d -> 0 <= Remaining d <= 10.
Proof.
  intros d Hd. destruct (Allow_sound (auth_policy Minute) "8.8.8.8" (fresh_limits noon)) as [_ Hsound].
  - apply auth_policy_ok. split; discriminate.
  - split; discriminate.
  - intros b Hb. discriminate Hb.
  - exact (proj1 (Hsound d Hd)).
Defined.

Lemma window_bound_witness :
  (inject_Z (admitted (auth_policy Minute) (Key (auth_policy Minute) "8.8.8.8")
    [burst_arrival "8.8.8.8" noon; burst_arrival "8.8.8.8" (noon + Minute)] (fresh_limits noon)) <=
   10 * (1 + inject_Z ((1700000060000 - 1700000000000) * Millisecond) / inject_Z Minute * (1 + (1 # 2 ^ 40)) + 2 * (1 # 2 ^ 49)))%Q.
Proof.
  refine (window_bound (auth_policy Minute) "8.8.8.8" _ (fresh_limits noon) 1700000000000 1700000060000
    (auth_policy_ok Minute ltac:(done)) _ ltac:(done) ltac:(done) _); [|intros b [=]].
  repeat split; discriminate.
Defined.

(** The bucket of a caller whose first request met the process whose clock is right. *)
Lemma clock_skew_mints_witness :
  let p := auth_policy Minute in
  let s := (Allow p "8.8.8.8" (fresh_limits noon)).2 in
  admitted p (Key p "8.8.8.8") (skewed_pairs "8.8.8.8" 1700000012000 1700000000000 1700000000000 1000) s = 2000.
Proof.
  intros p s. refine (clock_skew_mints p "8.8.8.8" 1700000012000 1700000000000 1700000000000 1000 s
    (auth_policy_ok Minute ltac:(done)) ltac:(done) ltac:(done) ltac:(done) _ _); [vm_compute; discriminate|].
  eexists. split; [vm_compute; reflexivity|]. split; [|done].
  split; [split; vm_compute; discriminate|]. split; [done|]. reflexivity.
Defined.

(** [Retry-After] is rounded down to whole seconds, so a client that waits exactly as
    long as it was told is rejected again: with ten requests per 19 seconds, the eleventh
    request of a burst is told to wait one second although a token takes 1.9 seconds, and
    the same request one second later is refused. *)
Theorem retry_after_short :
  let p := auth_policy (19 * Second) in
  let again t := {| arr_at := t; arr_server := UnixMilli t; arr_id := "8.8.8.8"; arr_fault := None |} in
  let s10 := fold_left (fun s a => (Allow p "8.8.8.8" (arrive a s)).2) (repeat (again noon) 10) (fresh_limits noon) in
  let '(d11, s11) := Allow p "8.8.8.8" (arrive (again noon) s10) in
  exists x, d11 = Ok x /\ Allowed x = false /\ RetryAfter x = 1900 * Millisecond /\ retry_seconds x = 1 /\
    is_admitted (Allow p "8.8.8.8" (arrive (again (noon + retry_seconds x * Second)) s11)).1 = false.
Proof.
  intros p again s10. destruct (Allow p "8.8.8.8" (arrive (again noon) s10)) as [d11 s11] eqn:E.
  vm_compute in E. injection E as <- <-. eexists. split; [reflexivity|]. vm_compute. done.
Qed.
