(* ===== verification/AuthHttp.v ===== *)
(** * Credentials of a request

    Models [internal/auth/middleware.go], the verifying half of [internal/auth/jwt.go] and
    [RequireTenant] of [internal/organizations/routes.go]: how a request is resolved to a
    principal, and which handlers run for it.  The JWT parser is a library and a parameter. *)
From S2P Require Import Prelude.
From S2P Require Import GoError.
From S2P Require Import Schema.
From S2P Require Import Store.
From S2P Require Import Logic.
From S2P Require Import GoStrings.
From S2P Require Import Permissions.
From S2P Require Import Sql.
From S2P Require Import Tenancy.
From S2P Require Import Authz.
From S2P Require Import QueriesInv.
From S2P Require Import GoNet.
From S2P Require Import Http.
From S2P Require Import Auth.
From S2P Require Import Organizations.
From S2P Require Import ApiKeys.
From S2P Require Import Strconv.
From S2P Require Import Demo.
Local Open Scope string_scope.

(** [jwt.ParseWithClaims] with the key, method, issuer and expiry options of the service, at
    an instant: the claims of a token it accepts. *)
Record AccessClaims := { Claims_Type : string; Claims_Subject : string; Claims_ID : string }.
Class JwtParser := { jwt_ParseWithClaims : string -> string -> Z -> string -> option AccessClaims }.
(** A token signed with the secret and the issuer is accepted from its [nbf] to its [exp]. *)
Class JwtLaws `{Env} `{JwtParser} : Prop := {
  jwt_accepts secret issuer sub jti iat nbf exp token now :
    jwt_SignedString secret
      [("type", JStr "access"); ("iss", JStr issuer); ("sub", JStr sub); ("exp", JNum exp); ("nbf", JNum nbf);
       ("iat", JNum iat); ("jti", JStr jti)] = Some token ->
    (nbf * Second <= now < exp * Second)%Z ->
    jwt_ParseWithClaims secret issuer now token =
      Some {| Claims_Type := "access"; Claims_Subject := sub; Claims_ID := jti |}
}.

(** [APIKeyAuthenticator]; [None] when the middleware was built without one. *)
Class APIKeyAuthenticator := { Authenticator : option (string -> M Principal) }.

Section middleware.
Context `{Env} `{AuthConfig} `{JwtParser} `{APIKeyAuthenticator}.

Definition apiKeyHeader : string := "X-API-Key".
Definition accessTokenType : string := "access".

(** [bearerToken]: the prefix is compared without regard to case. *)
Definition bearer_prefix : string := "Bearer ".
Definition lower_ascii (s : string) : string := of_bytes (map ascii_lower (bytes s)).
Definition bearerToken (r : Request) : option string :=
  let h := Header_Get r "Authorization" in
  let n := String.length bearer_prefix in
  if h =?= "" then None
  else if Z.leb (len h) (len bearer_prefix) ||
          negb (lower_ascii (String.substring 0 n h) =?= lower_ascii bearer_prefix) then None
  else let token := TrimSpace (String.substring n (String.length h - n) h) in
       if token =?= "" then None else Some token.

(** [ParseAccessToken] *)
Definition ParseAccessToken (tokenString : string) : M AccessClaims :=
  now <- timeNow ;;
  match jwt_ParseWithClaims jwt_secret jwt_issuer now tokenString with
  | None => fail (ErrorsNew "invalid token")
  | Some claims =>
      if negb (Claims_Type claims =?= accessTokenType)
      then fail (ErrorsNew "invalid token: wrong token type") else ret claims
  end.
(** [resolveBearer]: an unparseable [jti] reads as the zero identifier. *)
Definition resolveBearer (token : string) : M (option Principal) :=
  c <- attempt (ParseAccessToken token) ;;
  ret match c with
      | Err _ => None
      | Ok claims =>
          userID ← uuid_Parse (Claims_Subject claims);
          Some {| Principal_UserID := userID; Principal_TokenID := default uuid_Nil (uuid_Parse (Claims_ID claims));
                  Principal_Method := MethodBearer; Principal_APIKeyID := uuid_Nil; Principal_OrganizationID := uuid_Nil |}
      end.
(** [resolveAPIKey]: the key's organization must be the one the route names, as text. *)
Definition resolveAPIKey (r : Request) : M (option Principal) :=
  match Authenticator with
  | None => ret None
  | Some authenticate =>
      let rawKey := TrimSpace (Header_Get r apiKeyHeader) in
      if rawKey =?= "" then ret None else
      p <- attempt (authenticate rawKey) ;;
      ret match p with
          | Err _ => None
          | Ok principal =>
              let orgID := URLParam r "orgID" in
              if (orgID =?= "") || negb (orgID =?= uuid_String (Principal_OrganizationID principal)) then None
              else Some principal
          end
  end.
Definition resolve (r : Request) : M (option Principal) :=
  match bearerToken r with Some token => resolveBearer token | None => resolveAPIKey r end.

(** Whether [m] produced a principal. *)
Definition found (x : result (option Principal)) : option Principal :=
  match x with Ok p => p | Err _ => None end.
(** ** The middleware

    Over the state of the whole server: the world of the services and, beside it, the state
    of the rate limiter, which authentication does not touch. *)
Context {L : Type}.

(** [RequireAuth] and [OptionalAuth] *)
Definition RequireAuth (next : Handler (World * L)) : Handler (World * L) := fun r s =>
  match ctx_Principal r with
  | Some _ => next r s
  | None =>
      let (x, w1) := resolve r s.1 in
      match found x with
      | None => (WriteErrorResponse r (Sentinel ErrUnauthorized), (w1, s.2))
      | Some p => next (WithPrincipal p r) (w1, s.2)
      end
  end.
Definition OptionalAuth (next : Handler (World * L)) : Handler (World * L) := fun r s =>
  let (x, w1) := resolve r s.1 in
  match found x with
  | None => next r (w1, s.2)
  | Some p => next (WithPrincipal p r) (w1, s.2)
  end.

(** [RequireTenant] *)
Definition RequireTenant (next : Handler (World * L)) : Handler (World * L) := fun r s =>
  match ctx_Principal r with
  | None => (WriteErrorResponse r (Sentinel ErrUnauthorized), s)
  | Some principal =>
      match uuid_Parse (URLParam r "orgID") with
      | None => (WriteErrorResponse r (Sentinel ErrNotFound), s)
      | Some orgID =>
          match ResolveTenant (Principal_UserID principal) orgID s.1 with
          | (Err e, w1) => (WriteErrorResponse r e, (w1, s.2))
          | (Ok tenant, w1) => next (WithTenant tenant r) (w1, s.2)
          end
      end
  end.
End middleware.

(** [WithAPIKeys]: the key service as the authenticator. *)
Definition key_authenticator `{Env} : APIKeyAuthenticator := {| Authenticator := Some Authenticate |}.

(** ** Who gets in *)
Section facts.
Context `{Env} `{AuthConfig} `{JwtParser}.

(** Only a failure of the program's own making is an error: resolution always answers. *)
Lemma resolve_total `{APIKeyAuthenticator} r w : exists p, (resolve r w).1 = Ok p.
Proof.
  unfold resolve, resolveBearer, resolveAPIKey. destruct (bearerToken r) as [token|].
  - unfold bind, attempt. destruct (ParseAccessToken token w) as [c w1]. by eexists.
  - destruct Authenticator as [authenticate|]; [|by eexists]. destruct (_ =?= ""); [by eexists|].
    unfold bind, attempt. destruct (authenticate _ w) as [p w1]. by eexists.
Qed.

Lemma resolveBearer_Ok token w p w' : resolveBearer token w = (Ok (Some p), w') ->
  exists claims, jwt_ParseWithClaims jwt_secret jwt_issuer (env_now (w_tick w)) token = Some claims /\
    Claims_Type claims = "access" /\ uuid_Parse (Claims_Subject claims) = Some (Principal_UserID p) /\
    Principal_Method p = MethodBearer /\ IsAPIKey p = false /\ w_db w' = w_db w.
Proof.
  unfold resolveBearer. intros E. apply bind_Ok in E as (c & w1 & Ec%attempt_Ok & E). apply ret_Ok in E as [E ->].
  destruct c as [claims|]; [|done]. unfold ParseAccessToken in Ec. apply bind_Ok in Ec as (now & w2 & [-> ->]%timeNow_Ok & Ec).
  destruct (jwt_ParseWithClaims _ _ _ _) as [cl|] eqn:Ep; [|done].
  destruct (Claims_Type cl =?= accessTokenType) eqn:Et; [|done]. cbn [negb] in Ec. apply ret_Ok in Ec as [-> <-].
  destruct (uuid_Parse (Claims_Subject claims)) as [u|] eqn:Eu; [|done]. cbn in E. injection E as <-.
  exists claims. apply beq_eq in Et. by split_and!.
Qed.
End facts.

(** C9. Who gets in.  A request that [RequireAuth] lets through without a principal in its
    context either carries a bearer token that the JWT library accepts for this secret,
    issuer and instant, of type "access" and with a user's identifier as its subject; or it
    carries no bearer token but an API key that is on file, unrevoked and unexpired, of a
    creator who is an active user, and then the path names the key's own organization.  In
    the second case the principal is pinned to that organization. *)
Theorem resolve_Ok `{Env} `{AuthConfig} `{JwtParser} (r : Request) (w : World) (p : Principal) (w' : World) :
  @resolve _ _ _ key_authenticator r w = (Ok (Some p), w') ->
  (exists token claims, bearerToken r = Some token /\
     jwt_ParseWithClaims jwt_secret jwt_issuer (env_now (w_tick w)) token = Some claims /\
     Claims_Type claims = "access" /\ uuid_Parse (Claims_Subject claims) = Some (Principal_UserID p) /\
     Principal_Method p = MethodBearer /\ IsAPIKey p = false) \/
  (bearerToken r = None /\ exists raw k key user,
     raw = TrimSpace (Header_Get r apiKeyHeader) /\ validKeyFormat raw = true /\
     api_keys (w_db w) !! k = Some key /\ ApiKey_KeyHash key = hashKey raw /\
     ApiKey_RevokedAt key = None /\ (env_now (S (w_tick w)) <= ApiKey_ExpiresAt key)%Z /\
     users (w_db w) !! ApiKey_CreatedBy key = Some user /\ User_Status user = "active" /\
     Principal_UserID p = User_ID user /\ Principal_Method p = MethodAPIKey /\
     Principal_OrganizationID p = ApiKey_OrganizationID key /\
     URLParam r "orgID" = uuid_String (ApiKey_OrganizationID key)).
Proof.
  unfold resolve. destruct (bearerToken r) as [token|] eqn:Eb.
  - intros (claims & Hp & Ht & Hs & Hm & Hk & _)%resolveBearer_Ok. left. exists token, claims. by split_and!.
  - unfold resolveAPIKey. cbn [Authenticator key_authenticator]. destruct (_ =?= "") eqn:Er; [by intros [? _]%ret_Ok|].
    intros E. apply bind_Ok in E as (x & w1 & Ex%attempt_Ok & E). apply ret_Ok in E as [E <-].
    destruct x as [principal|]; [|done]. apply Authenticate_Ok in Ex as (k & key & user & Hv & Hk & Hh & Hr & He & Hu & Ha & ->).
    cbn [Principal_OrganizationID] in E. destruct (_ || _) eqn:Eo; [done|]. injection E as <-.
    right. split; [done|]. bool_hyps. eexists _, k, key, user. by split_and!.
Qed.

(** The middleware is idempotent, as the router relies on: authenticating at the top of a
    route group and again in a feature's own router is the same as authenticating once, for
    every request, world and handler. *)
Theorem RequireAuth_idempotent `{Env} `{AuthConfig} `{JwtParser} `{APIKeyAuthenticator} {L}
    (next : Handler (World * L)) (r : Request) (s : World * L) :
  RequireAuth (RequireAuth next) r s = RequireAuth next r s.
Proof.
  unfold RequireAuth. destruct (ctx_Principal r) eqn:E; [done|]. destruct (resolve r s.1) as [x w1]. by destruct (found x).
Qed.

(** ** What authentication changes

    The instant an API key was last used, in its row, and nothing else. *)
Definition unstamped (r : ApiKey) : ApiKey := {|
  ApiKey_ID := ApiKey_ID r; ApiKey_OrganizationID := ApiKey_OrganizationID r; ApiKey_CreatedBy := ApiKey_CreatedBy r;
  ApiKey_Name := ApiKey_Name r; ApiKey_KeyPrefix := ApiKey_KeyPrefix r; ApiKey_KeyLastFour := ApiKey_KeyLastFour r;
  ApiKey_KeyHash := ApiKey_KeyHash r; ApiKey_ExpiresAt := ApiKey_ExpiresAt r; ApiKey_RevokedAt := ApiKey_RevokedAt r;
  ApiKey_LastUsedAt := None; ApiKey_CreatedAt := ApiKey_CreatedAt r; ApiKey_UpdatedAt := 0
|}.
Definition stamped (d d' : DB) : Prop :=
  set_api_keys (unstamped <$> api_keys d) d = set_api_keys (unstamped <$> api_keys d') d'.
#[export] Instance stamped_equiv : Equivalence stamped.
Proof. split; [by intros ?|by intros ? ?|]. unfold stamped. intros ? ? ?; congruence. Qed.
(** Authorization does not depend on the stamps. *)
Lemma stamped_authorized d d' u o p t : stamped d d' -> authorized d u o p t -> authorized d' u o p t.
Proof.
  unfold stamped, authorized, member_tenant, grants. destruct d, d'. unfold set_api_keys. cbn. intros [= <- <- <- <- <- <- <- <- <- <- <- <- <- _ <-]. done.
Qed.

Section stamps.
Context `{Env} `{AuthConfig} `{JwtParser}.
Lemma TouchAPIKey_stamps id : pres stamped (TouchAPIKey id).
Proof.
  stmt_branches; [|reflexivity]. unfold stamped, set_api_keys. cbn. f_equal. rewrite fmap_insert. symmetry.
  apply insert_id. by simplify_map_eq.
Qed.
Lemma Authenticate_stamps raw : pres stamped (Authenticate raw).
Proof. unfold Authenticate, key_owner. pres_auto. apply TouchAPIKey_stamps. Qed.
#[local] Existing Instance key_authenticator.
Lemma resolve_stamps r : pres stamped (resolve r).
Proof.
  unfold resolve, resolveBearer, resolveAPIKey. destruct (bearerToken r).
  - unfold ParseAccessToken. pres_auto.
  - cbn [Authenticator key_authenticator]. destruct (_ =?= ""); [pres_auto|]. pres_step; [|pres_auto].
    apply pres_attempt, Authenticate_stamps.
Qed.
(** No credentials at all: nothing is looked up. *)
Definition anonymous (r : Request) : Prop := bearerToken r = None /\ TrimSpace (Header_Get r apiKeyHeader) = "".
Lemma resolve_anonymous r w : anonymous r -> resolve r w = (Ok None, w).
Proof.
  intros [Hb Hk]. unfold resolve, resolveAPIKey. cbn [Authenticator key_authenticator]. by rewrite Hb, Hk.
Qed.
End stamps.

(** C31. An access token comes back as the user it was issued to: what [GenerateAccessToken]
    signs, presented as a bearer token at any instant from its issue to its expiry (in whole
    seconds), resolves to exactly that user and token identifier, whatever the database
    holds by then. *)
Theorem bearer_roundtrip `{Env} `{AuthConfig} `{JwtParser} `{!JwtLaws} (userID tokenID : N) (w w1 w2 : World)
    (token : string) (expiresAt : Z) :
  GenerateAccessToken userID tokenID w = (Ok (token, expiresAt), w1) ->
  uuid_Parse (uuid_String userID) = Some userID -> uuid_Parse (uuid_String tokenID) = Some tokenID ->
  (env_now (w_tick w) / Second * Second <= env_now (w_tick w2) < expiresAt / Second * Second)%Z ->
  (resolveBearer token w2).1 = Ok (Some
    {| Principal_UserID := userID; Principal_TokenID := tokenID; Principal_Method := MethodBearer;
       Principal_APIKeyID := uuid_Nil; Principal_OrganizationID := uuid_Nil |}).
Proof.
  unfold GenerateAccessToken. intros E Hu Ht Hnow. apply bind_Ok in E as (now & w3 & [-> ->]%timeNow_Ok & E).
  destruct (jwt_SignedString _ _) as [signed|] eqn:Es; [|done]. apply ret_Ok in E as [[= -> <-] _].
  pose proof (jwt_accepts _ _ _ _ _ _ _ _ _ Es Hnow) as Hp.
  unfold resolveBearer, ParseAccessToken, bind, attempt, timeNow. cbn. rewrite Hp.
  cbn [Claims_Type]. change ("access" =?= accessTokenType) with true. cbn. by rewrite Hu, Ht.
Qed.

(** ** Witnesses

    The environment [demo_web] signs a token as the subject and the identifier, with the
    length of the first in unary. *)
Definition toy_parse (token : string) : option AccessClaims :=
  let (u, rest) := cut "." token in
  let n := String.length u in let body := default "" rest in
  Some {| Claims_Type := "access"; Claims_Subject := String.substring 0 n body;
          Claims_ID := String.substring n (String.length body - n) body |}.
#[local] Existing Instance demo_web.
Definition demo_jwt : JwtParser := {| jwt_ParseWithClaims _ _ _ := toy_parse |}.
#[local] Existing Instance demo_jwt.
Definition demo_auth : AuthConfig :=
  {| jwt_secret := "secret"; jwt_issuer := "teamflow"; accessTTL := 15 * Minute; refreshTTL := 720 * Hour |}.
#[local] Existing Instance demo_auth.

Lemma substring_prefix s t : String.substring 0 (String.length s) (s +:+ t) = s.
Proof.
  induction s as [|c s IH]; [by destruct t|].
  change (String c s +:+ t) with (String c (s +:+ t)). cbn [String.length String.substring]. by rewrite IH.
Qed.
Lemma toy_parse_token sub jti :
  toy_parse (toy_token sub jti) = Some {| Claims_Type := "access"; Claims_Subject := sub; Claims_ID := jti |}.
Proof.
  unfold toy_parse, toy_token, cut.
  assert (Hr : Forall (fun b => (b < 256)%N) (repeat 97%N (String.length sub))) by (apply Forall_forall; by intros x ->%repeat_spec).
  rewrite !bytes_append, bytes_of_bytes by done.
  change (bytes "." ++ bytes sub ++ bytes jti)%list with (46%N :: bytes sub ++ bytes jti)%list.
  change (bytes ".") with [46%N]. rewrite cut_at_first; cycle 1.
  - rewrite repeat_length. rewrite !length_append, length_of_bytes, repeat_length. cbn. lia.
  - intros Hin%list_elem_of_In%repeat_spec. done.
  - cbn [fmap option_fmap option_map default]. rewrite length_of_bytes, repeat_length, <- bytes_append, of_bytes_bytes.
    cbv [id]. rewrite substring_prefix, length_append, Nat.add_comm, Nat.add_sub. by rewrite substring_suffix.
Qed.
#[local] Instance demo_jwt_laws : JwtLaws.
Proof. split. intros secret issuer sub jti iat nbf exp token now [= <-] _. apply toy_parse_token. Qed.

Lemma bearer_roundtrip_witness :
  exists w1 token expiresAt, GenerateAccessToken 1%N 77%N (demo_world demo_DB) = (Ok (token, expiresAt), w1) /\
    (resolveBearer token w1).1 = Ok (Some
      {| Principal_UserID := 1%N; Principal_TokenID := 77%N; Principal_Method := MethodBearer;
         Principal_APIKeyID := uuid_Nil; Principal_OrganizationID := uuid_Nil |}).
Proof.
  destruct (GenerateAccessToken 1%N 77%N (demo_world demo_DB)) as [[[token expiresAt]|e] w1] eqn:E; [|discriminate (f_equal fst E)].
  exists w1, token, expiresAt. split; [done|].
  apply (bearer_roundtrip 1%N 77%N _ w1 w1 token expiresAt E); [vm_compute; reflexivity..|].
  vm_compute in E. injection E as <- <- <-. split; vm_compute; [discriminate|reflexivity].
Defined.
Definition key_request (path_org : string) : Request := {|
  Req_Method := "GET"; Req_Path := "/api/v1/organizations/1/projects"; Req_RemoteAddr := "8.8.8.8:4000";
  Header_Get k := if k =?= apiKeyHeader then demo_raw else "";
  URLParam k := if k =?= "orgID" then path_org else ""; Req_Query := []; Req_Body := ""; Req_MaxBytes := None;
  ctx_Principal := None; ctx_Tenant := None; ctx_RequestID := "req_1"; ctx_TraceID := ""
|}.
Lemma resolve_Ok_witness : exists p w',
  @resolve _ _ _ key_authenticator (key_request (uuid_String 1%N)) (demo_keyed 9000000 None) = (Ok (Some p), w') /\
  Principal_OrganizationID p = 1%N.
Proof.
  destruct (@resolve _ _ _ key_authenticator (key_request (uuid_String 1%N)) (demo_keyed 9000000 None)) as [r w'] eqn:E.
  assert (Hr : exists p, r = Ok (Some p)).
  { apply (f_equal fst) in E. vm_compute in E. subst r. eexists. reflexivity. }
  destruct Hr as [p ->]. exists p, w'. split; [reflexivity|].
  destruct (resolve_Ok _ _ p w' E) as [(token & claims & Hb & _)|(_ & raw & k & key & user & _ & _ & Hk & _ & _ & _ & _ & _ & _ & _ & Ho & _)];
    [discriminate Hb|].
  rewrite Ho. simpl in Hk. apply lookup_singleton_Some in Hk as [_ <-]. reflexivity.
Defined.
