(* ===== verification/AuditService.v ===== *)
(** * Reading the audit log

    Models [internal/audit/service.go] and the entries of [internal/audit/audit.go]: the
    permission, the tenant transaction and the paging of [Service.List], and the set of
    actions the program documents. *)
From Stdlib Require Import Sorted.
From stdpp Require Import sorting.
From S2P Require Import Prelude.
From S2P Require Import GoError.
From S2P Require Import Schema.
From S2P Require Import Store.
From S2P Require Import Logic.
From S2P Require Import GoStrings.
From S2P Require Import Sql.
From S2P Require Import QueriesAuth.
From S2P Require Import Permissions.
From S2P Require Import Pagination.
From S2P Require Import Tenancy.
From S2P Require Import AuditTrail.
From S2P Require Import Authz.
From S2P Require Import Demo.
From S2P Require Import Organizations.
Local Open Scope string_scope.

Module Audit_.

Record ListFilter := {
  LF_Action : option string; LF_Outcome : option string; LF_ActorUserID : option N; LF_Since : option Z
}.
Record Entry := {
  Entry_ID : N; Entry_Action : string; Entry_Outcome : string; Entry_ActorUserID : option N;
  Entry_TargetType : option string; Entry_TargetID : option string; Entry_IPAddress : option string;
  Entry_UserAgent : option string; Entry_RequestID : option string; Entry_TraceID : option string;
  Entry_Metadata : json; Entry_CreatedAt : Z
}.
(** [ToEntry]: an address the query returned as empty text is omitted. *)
Definition ToEntry (row : AuditLog) : Entry := {|
  Entry_ID := AuditLog_ID row; Entry_Action := AuditLog_Action row; Entry_Outcome := AuditLog_Outcome row;
  Entry_ActorUserID := AuditLog_ActorUserID row; Entry_TargetType := AuditLog_TargetType row;
  Entry_TargetID := AuditLog_TargetID row; Entry_IPAddress := optional (default "" (AuditLog_IpAddress row));
  Entry_UserAgent := AuditLog_UserAgent row; Entry_RequestID := AuditLog_RequestID row;
  Entry_TraceID := AuditLog_TraceID row; Entry_Metadata := AuditLog_Metadata row;
  Entry_CreatedAt := AuditLog_CreatedAt row
|}.

Section service.
Context `{Authorizer}.
(** The two queries, in one tenant transaction. *)
Definition list_body (orgID : N) (filter : ListFilter) (page : PageRequest) : M (Z * list AuditLog) :=
  total <- CountAuditLogs (Some orgID) (LF_Action filter) (LF_Outcome filter) (LF_ActorUserID filter) (LF_Since filter) ;;
  rows <- ListAuditLogs (Some orgID) (LF_Action filter) (LF_Outcome filter) (LF_ActorUserID filter) (LF_Since filter)
            (Limit page) (Offset page) ;;
  ret (total, rows).
Definition List_ (userID orgID : N) (filter : ListFilter) (page : PageRequest) : M (list Entry * Pagination) :=
  _ <- Authorize userID orgID AuditRead ;;
  tr <- wrapf "list audit logs" (WithTenantTx orgID (list_body orgID filter page)) ;;
  ret (map ToEntry tr.2, NewPagination page tr.1).
End service.

Definition KnownActions : list string :=
  [AuthRegistered; AuthLoginSucceeded; AuthLoginFailed; AuthTokensRefreshed;
   AuthTokenReuseDetected; AuthLoggedOut; AuthLoggedOutAll;
   OrganizationCreated; OrganizationRenamed; RoleCreated; RoleUpdated; RoleDeleted;
   MemberRoleAssigned;
   InvitationCreated; InvitationSent; InvitationResent; InvitationRevoked; InvitationAccepted;
   APIKeyCreated; APIKeyRevoked].
Definition IsKnownAction (action : string) : bool := existsb (fun known => known =?= action) KnownActions.

Lemma IsKnownAction_spec action : IsKnownAction action = true <-> action ∈ KnownActions.
Proof.
  unfold IsKnownAction. rewrite existsb_exists, list_elem_of_In. split.
  - intros (k & Hk & ->%beq_eq). done.
  - intros Hin. exists action. split; [done|apply beq_refl].
Qed.

Lemma audit_List_op `{Authorizer} u o flt pg : tenant_op u o AuditRead (List_ u o flt pg).
Proof. unfold List_, list_body. tenant_op_auto. Qed.

(** The entries a reader asked for: those of the organization that pass every filter set. *)
Definition selected (o : N) (flt : ListFilter) (a : AuditLog) : Prop :=
  AuditLog_OrganizationID a = Some o /\
  (forall x, LF_Action flt = Some x -> AuditLog_Action a = x) /\
  (forall x, LF_Outcome flt = Some x -> AuditLog_Outcome a = x) /\
  (forall x, LF_ActorUserID flt = Some x -> AuditLog_ActorUserID a = Some x) /\
  (forall t, LF_Since flt = Some t -> (t <= AuditLog_CreatedAt a)%Z).
(** The newest first; of entries of the same instant, the one with the greater identifier. *)
Definition newer (a b : AuditLog) : Prop := (AuditLog_CreatedAt b < AuditLog_CreatedAt a)%Z \/
  AuditLog_CreatedAt b = AuditLog_CreatedAt a /\ (AuditLog_ID b <= AuditLog_ID a)%N.

Lemma opt_is_spec {A} `{EqDecision A} (f : option A) x : opt_is f x = true <-> forall y, f = Some y -> x = y.
Proof.
  unfold opt_is. destruct f as [y|]; [|done]. rewrite beq_true. split; [congruence|auto].
Qed.
(** The WHERE clause in the organization's own transaction. *)
Lemma audit_matches_spec `{Env} c o flt a : s_org c = Some o ->
  audit_matches c (Some o) (LF_Action flt) (LF_Outcome flt) (LF_ActorUserID flt) (LF_Since flt) a = true <-> selected o flt a.
Proof.
  intros Hc. unfold audit_matches, selected, audit_visible. rewrite Hc, !andb_true_iff, !opt_is_spec.
  assert (Ho : match AuditLog_OrganizationID a with Some x => x =?= o | None => false end = true <-> AuditLog_OrganizationID a = Some o).
  { destruct (AuditLog_OrganizationID a) as [x|]; [rewrite beq_true; split; congruence|done]. }
  assert (Hu : match LF_ActorUserID flt with None => true | Some u => match AuditLog_ActorUserID a with Some v => v =?= u | None => false end end = true
    <-> forall x, LF_ActorUserID flt = Some x -> AuditLog_ActorUserID a = Some x).
  { destruct (LF_ActorUserID flt) as [u|]; [|done]. destruct (AuditLog_ActorUserID a) as [v|].
    - rewrite beq_true. split; [congruence|]. intros Hx. specialize (Hx u eq_refl). congruence.
    - split; [done|]. intros Hx. by specialize (Hx u eq_refl). }
  assert (Hs : match LF_Since flt with None => true | Some t => Z.leb t (AuditLog_CreatedAt a) end = true
    <-> forall t, LF_Since flt = Some t -> (t <= AuditLog_CreatedAt a)%Z).
  { destruct (LF_Since flt) as [t|]; [|done]. rewrite Z.leb_le. split; [congruence|auto]. }
  rewrite Ho, Hu, Hs. split; [tauto|]. intros (Hx & ?). rewrite Hx, beq_refl, orb_true_r. tauto.
Qed.
(** The ORDER BY clause sorts. *)
Lemma newest_first (l : list AuditLog) :
  StronglySorted newer (order_by [desc (cmp_on AuditLog_CreatedAt Z.compare); desc (cmp_on AuditLog_ID N.compare)] l).
Proof.
  assert (Hb : forall a b, before [desc (cmp_on AuditLog_CreatedAt Z.compare); desc (cmp_on AuditLog_ID N.compare)] a b <-> newer a b).
  { intros a b. unfold before, newer, lex, desc, cmp_on.
    destruct (Z.compare_spec (AuditLog_CreatedAt a) (AuditLog_CreatedAt b)); cbn; [|split; [done|lia]|split; [lia|done]].
    destruct (N.compare_spec (AuditLog_ID a) (AuditLog_ID b)); cbn; (split; [try done; lia|try done; lia]). }
  assert (Hl : StronglySorted (before [desc (cmp_on AuditLog_CreatedAt Z.compare); desc (cmp_on AuditLog_ID N.compare)]) (order_by
    [desc (cmp_on AuditLog_CreatedAt Z.compare); desc (cmp_on AuditLog_ID N.compare)] l)).
  { apply StronglySorted_merge_sort; [intros a b c; rewrite !Hb; unfold newer; lia|intros a b; rewrite !Hb; unfold newer; lia]. }
  induction Hl as [|x r _ IH Hx]; constructor; [done|]. eapply Forall_impl; [|exact Hx]. intros y. by apply Hb.
Qed.

(** C38. What a reader of the audit log gets: the caller holds [audit.read] in the
    organization, nothing changes, and the answer is the requested page of the entries asked
    for, each row of the table that is one of them once and nothing else, the newest first,
    with their exact number as the total. *)
Theorem audit_list_Ok `{Authorizer} (u o : N) (flt : ListFilter) (pg : PageRequest) (w : World)
    (es : list Entry) (pn : Pagination) (w' : World) :
  List_ u o flt pg w = (Ok (es, pn), w') ->
  (exists t, authorized (w_db w) u o AuditRead t) /\ w_db w' = w_db w /\
  exists (asked : gmap N AuditLog) (all : list AuditLog),
    (forall k a, asked !! k = Some a <-> audit_logs (w_db w) !! k = Some a /\ selected o flt a) /\
    all ≡ₚ rows asked /\ StronglySorted newer all /\
    es = map ToEntry (limit_offset (Limit pg) (Offset pg) all) /\ pn = NewPagination pg (Z.of_nat (size asked)).
Proof.
  unfold List_. intros (tn & w1 & Ha & Hd1 & E)%gate_Ok. split; [by exists tn|].
  apply bind_Ok in E as ([total rs] & w2 & E%wrapf_Ok & E'). apply ret_Ok in E' as [[= <- <-] <-].
  apply WithTenantTx_Ok in E as (wa & wb & tx & E & Hda & Htx & Ho & Hd' & _).
  unfold list_body in E. apply bind_Ok in E as (n & w3 & (-> & c & Hn & Hc)%query_Ok & E).
  apply bind_Ok in E as (rs' & w4 & (-> & c' & Hr & Hc')%query_Ok & E). apply ret_Ok in E as [[= <- <-] <-].
  injection Hn as <-. injection Hr as <-. simpl in *.
  split; [congruence|]. rewrite Hda, Hd1 in *. set (P := audit_matches c' _ _ _ _ _).
  assert (HP : forall a, P a = true <-> selected o flt a).
  { intros a. apply audit_matches_spec. rewrite Hc', Htx. done. }
  assert (Hcount : forall a, audit_matches c (Some o) (LF_Action flt) (LF_Outcome flt) (LF_ActorUserID flt) (LF_Since flt) a = P a).
  { intros a. unfold P, audit_matches, audit_visible. by rewrite Hc, Hc', Htx. }
  exists (filter (fun kr : N * AuditLog => P kr.2 = true) (audit_logs (w_db w))). eexists. split_and!; [| |apply newest_first|done|].
  - intros k a. rewrite map_lookup_filter_Some. cbn. by rewrite HP.
  - by rewrite order_by_perm, rows_filter.
  - f_equal. unfold count_rows. rewrite (List.filter_ext _ _ Hcount), rows_filter. unfold rows. by rewrite length_fmap, length_map_to_list.
Qed.

Definition demo_entry (id : N) (org : option N) (action : string) : AuditLog :=
  {| AuditLog_ID := id; AuditLog_OrganizationID := org; AuditLog_ActorUserID := Some 1%N; AuditLog_Action := action;
     AuditLog_Outcome := OutcomeSuccess; AuditLog_TargetType := None; AuditLog_TargetID := None;
     AuditLog_IpAddress := None; AuditLog_UserAgent := None; AuditLog_RequestID := None; AuditLog_TraceID := None;
     AuditLog_Metadata := JObj []; AuditLog_CreatedAt := 5 |}.
Definition demo_audited : World := demo_world
  (set_audit_logs {[7%N := demo_entry 7 (Some 1%N) RoleCreated; 8%N := demo_entry 8 (Some 2%N) RoleCreated;
                    9%N := demo_entry 9 (Some 1%N) APIKeyCreated]}
  (set_permissions {[54%N := demo_permission 54 AuditRead]} (set_role_permissions {[(10%N, 54%N)]} demo_DB))).
Definition demo_filter : ListFilter :=
  {| LF_Action := Some RoleCreated; LF_Outcome := None; LF_ActorUserID := None; LF_Since := None |}.
Lemma audit_list_Ok_witness : exists es pn w',
  @List_ demo (@organizations_Authorizer demo) 1 1 demo_filter {| Page := 1; PageSize := 20 |} demo_audited = (Ok (es, pn), w') /\
  Pg_Total pn = 1%Z /\ exists t, authorized (w_db demo_audited) 1 1 AuditRead t.
Proof.
  destruct (@List_ demo (@organizations_Authorizer demo) 1 1 demo_filter {| Page := 1; PageSize := 20 |} demo_audited) as [r w'] eqn:E.
  assert (Hr : exists es pn, r = Ok (es, pn) /\ Pg_Total pn = 1%Z).
  { apply (f_equal fst) in E. vm_compute in E. subst r. eexists _, _. split; reflexivity. }
  destruct Hr as (es & pn & -> & Ht). exists es, pn, w'. split; [reflexivity|]. split; [exact Ht|].
  exact (proj1 (@audit_list_Ok demo (@organizations_Authorizer demo) 1 1 demo_filter _ _ es pn w' E)).
Defined.
End Audit_.
