(* ===== verification/Services.v ===== *)
(** * Every service operation keeps the tables good

    The walk over [internal/teams], [projects], [tasks], [audit], [auth], [invitations] and
    [apikeys]: each exported operation, under any pattern of failures, leads from good tables
    to good tables by steps of the roster ([sound]), whoever calls it.  Most follow statement by
    statement; registration and acceptance, which write a membership, and inviting, which
    opens an offer, follow from what they checked before, and inviting is a step of the
    inviter. *)
From S2P Require Import Prelude.
From S2P Require Import GoError.
From S2P Require Import Schema.
From S2P Require Import Store.
From S2P Require Import Logic.
From S2P Require Import Sql.
From S2P Require Import QueriesOrg.
From S2P Require Import QueriesAuth.
From S2P Require Import QueriesInv.
From S2P Require Import QueriesWork.
From S2P Require Import Permissions.
From S2P Require Import Pagination.
From S2P Require Import Tenancy.
From S2P Require Import Slug.
From S2P Require Import AuditTrail.
From S2P Require Import Authz.
From S2P Require Import Organizations.
From S2P Require Import Validation.
From S2P Require Import Teams.
From S2P Require Import Projects.
From S2P Require Import Tasks.
From S2P Require Import Auth.
From S2P Require Import Jobs.
From S2P Require Import Delivery.
From S2P Require Import Invitations.
From S2P Require Import ApiKeys.
From S2P Require Import AuditService.
From S2P Require Import Integrity.
From S2P Require Import Lifecycle.
From S2P Require Import Roster.
From S2P Require Import Ownership.
Local Open Scope string_scope.

(** ** Records of the audit trail and of the activity log *)
Section records.
Context `{Env} (who : option N).
Lemma RecordTx_sound e : pres (sound who) (RecordTx e).
Proof. apply RecordTx_pres; [apply _|]. intros. pres_auto. Qed.
Lemma Record_sound e : pres (sound who) (Record_ e).
Proof.
  unfold Record_. pres_step; [|pres_auto]. apply pres_attempt, write_event_pres; [apply _|]. intros. pres_auto.
Qed.
Lemma activity_Record_sound o a ac rt ri md : pres (sound who) (activity_Record o a ac rt ri md).
Proof. unfold activity_Record. pres_auto. Qed.
End records.
#[export] Hint Resolve RecordTx_sound Record_sound activity_Record_sound : teamflow_frame.

(** ** Teams, projects, tasks, the audit log *)
Section work.
Context `{Authorizer} (who : option N) (u o : N).
Lemma team_List_sound : pres (sound who) (Teams.List_ u o).
Proof. unfold Teams.List_. pres_auto. Qed.
Lemma team_Get_sound t : pres (sound who) (Teams.Get u o t).
Proof. unfold Teams.Get, get_team. pres_auto. Qed.
Lemma team_Create_sound n ds : pres (sound who) (Teams.Create u o n ds).
Proof. unfold Teams.Create. pres_auto. Qed.
Lemma team_Update_sound t n ds : pres (sound who) (Teams.Update u o t n ds).
Proof. unfold Teams.Update. pres_auto. Qed.
Lemma team_Delete_sound t : pres (sound who) (Teams.Delete u o t).
Proof. unfold Teams.Delete, get_team. pres_auto. Qed.
Lemma team_ListMembers_sound t : pres (sound who) (Teams.ListMembers u o t).
Proof. unfold Teams.ListMembers, get_team. pres_auto. Qed.
Lemma team_AddMember_sound t m : pres (sound who) (Teams.AddMember u o t m).
Proof. unfold Teams.AddMember, add_member_body, get_team, ensure_active_member. pres_auto. Qed.
Lemma team_RemoveMember_sound t m : pres (sound who) (Teams.RemoveMember u o t m).
Proof. unfold Teams.RemoveMember, get_team. pres_auto. Qed.

#[local] Hint Resolve project_reject_pres task_reject_pres : teamflow_frame.
Lemma project_List_sound f pg : pres (sound who) (Projects.List_ u o f pg).
Proof. unfold Projects.List_. pres_auto. Qed.
Lemma project_Get_sound p : pres (sound who) (Projects.Get u o p).
Proof. unfold Projects.Get. pres_auto. Qed.
Lemma project_Create_sound i : pres (sound who) (Projects.Create u o i).
Proof. unfold Projects.Create, Projects.create_body, ensureTeam. pres_auto. Qed.
Lemma project_Update_sound p i : pres (sound who) (Projects.Update u o p i).
Proof. unfold Projects.Update, Projects.update_body, Projects.getForUpdate, ensureTeam. pres_auto. Qed.
Lemma project_Delete_sound p : pres (sound who) (Projects.Delete u o p).
Proof. unfold Projects.Delete, Projects.delete_body, Projects.getForUpdate. pres_auto. Qed.
Lemma project_ListActivity_sound p pg : pres (sound who) (Projects.ListActivity u o p pg).
Proof. unfold Projects.ListActivity. pres_auto. Qed.

Lemma task_list_sound f pg : pres (sound who) (Tasks.list_ u o f pg).
Proof. unfold Tasks.list_, Tasks.list_body, ensureProject. pres_auto. Qed.
Lemma task_ListByProject_sound p f pg : pres (sound who) (Tasks.ListByProject u o p f pg).
Proof. unfold Tasks.ListByProject, ensureProject. pres_auto. all: try apply task_list_sound. Qed.
Lemma task_Get_sound t : pres (sound who) (Tasks.Get u o t).
Proof. unfold Tasks.Get. pres_auto. Qed.
Lemma task_Create_sound p i : pres (sound who) (Tasks.Create u o p i).
Proof. unfold Tasks.Create, Tasks.create_body, ensureProject, ensureAssignee. pres_auto. Qed.
Lemma task_Update_sound t i : pres (sound who) (Tasks.Update u o t i).
Proof. unfold Tasks.Update, Tasks.update_body, Tasks.getForUpdate, ensureAssignee. pres_auto. Qed.
Lemma task_Delete_sound t : pres (sound who) (Tasks.Delete u o t).
Proof. unfold Tasks.Delete, Tasks.delete_body, Tasks.getForUpdate. pres_auto. Qed.
Lemma task_ListActivity_sound t pg : pres (sound who) (Tasks.ListActivity u o t pg).
Proof. unfold Tasks.ListActivity. pres_auto. Qed.

Lemma audit_List_sound f pg : pres (sound who) (Audit_.List_ u o f pg).
Proof. unfold Audit_.List_, Audit_.list_body. pres_auto. Qed.
End work.

(** ** Sessions *)
Ltac scoped_step :=
  match goal with
  | |- scoped _ (wrapf _ Commit) => apply scoped_map_err, scoped_Commit; typeclasses eauto
  | |- scoped _ (bind _ _) => apply scoped_bind; [typeclasses eauto| |intros ?]
  | |- scoped _ (if ?b then _ else _) => destruct b
  end.
Section sessions.
Context `{Env} `{AuthConfig} (who : option N).
Lemma createRefreshToken_sound u f m : pres (sound who) (createRefreshToken u f m).
Proof. unfold createRefreshToken, generateRefreshToken. pres_auto. Qed.
Lemma GenerateAccessToken_pres R `{!PreOrder R} u t : pres R (GenerateAccessToken u t).
Proof. unfold GenerateAccessToken. pres_auto. Qed.
Lemma token_pair_pres R `{!PreOrder R} a r e : pres R (token_pair a r e).
Proof. unfold token_pair. pres_auto. Qed.
#[local] Hint Resolve createRefreshToken_sound GenerateAccessToken_pres token_pair_pres : teamflow_frame.
Lemma issueSession_sound u f m : pres (sound who) (issueSession u f m).
Proof. unfold issueSession. pres_auto. Qed.
#[local] Hint Resolve issueSession_sound : teamflow_frame.
Lemma IssueSession_sound u m : pres (sound who) (IssueSession u m).
Proof. unfold IssueSession. pres_auto. Qed.
Lemma Login_sound inp m : pres (sound who) (Login inp m).
Proof. unfold Login. pres_auto. Qed.
Lemma refresh_tx_scoped raw m : scoped (sound who) (refresh_tx raw m).
Proof. unfold refresh_tx. repeat scoped_step; (apply pres_scoped; [apply _|pres_auto]). Qed.
Lemma Refresh_sound raw m : pres (sound who) (Refresh raw m).
Proof.
  unfold Refresh, in_plain_tx. pres_step; [apply pres_tx; [apply _|apply refresh_tx_scoped]|].
  unfold refresh_post. pres_auto.
Qed.
Lemma Logout_sound raw : pres (sound who) (Logout raw).
Proof. unfold Logout. pres_auto. Qed.
Lemma LogoutAll_sound u : pres (sound who) (LogoutAll u).
Proof. unfold LogoutAll. pres_auto. Qed.
Lemma CurrentUser_sound u : pres (sound who) (CurrentUser u).
Proof. unfold CurrentUser. pres_auto. Qed.

(** ** Registration: a user, then an organization of theirs *)
Lemma seedRolePermissions_wf r n : pres intact (seedRolePermissions r n).
Proof. unfold seedRolePermissions. pres_auto. Qed.
Lemma extra_roles_wf o l : pres intact (for_each l (fun extra =>
    extraRole <- wrapf ("create role " +:+ extra.1)
      (QueriesOrg.CreateRole o extra.1 (Some extra.2) true) ;;
    wrapf ("seed permissions for role " +:+ extra.1) (seedRolePermissions (Role_ID extraRole) extra.1))).
Proof. pose proof seedRolePermissions_wf. pres_auto. Qed.
Lemma seedRolePermissions_seeding o r n : pres (seeding o) (seedRolePermissions r n).
Proof. pose proof (AddRolePermission_seeding o). unfold seedRolePermissions. pres_auto. Qed.
Lemma extra_roles_seeding o l : pres (seeding o) (for_each l (fun extra =>
    extraRole <- wrapf ("create role " +:+ extra.1)
      (QueriesOrg.CreateRole o extra.1 (Some extra.2) true) ;;
    wrapf ("seed permissions for role " +:+ extra.1) (seedRolePermissions (Role_ID extraRole) extra.1))).
Proof. pose proof (CreateRole_seeding o). pose proof (seedRolePermissions_seeding o). pres_auto. Qed.
Lemma create_org_for_sound u name slug w org w' : create_org_for u name slug w = (Ok org, w') ->
  (wf (w_db w) -> who = Some u \/ forall k m, memberships (w_db w) !! k = Some m -> OrganizationMembership_UserID m <> u) ->
  sound who (w_db w) (w_db w').
Proof.
  intros E Hwho. pose proof (create_org_for_Ok _ _ _ _ _ _ E) as Hf. unfold create_org_for in E.
  apply bind_Ok in E as (o & w1 & Eo%map_err_Ok & E).
  apply bind_Ok in E as (role & w2 & Er%wrapf_Ok & E). apply bind_Ok in E as ([] & w3 & Es%wrapf_Ok & E).
  apply bind_Ok in E as ([] & w4 & Ex & E). apply bind_Ok in E as (now & w5 & [-> ->]%timeNow_Ok & E).
  apply bind_Ok in E as (m & w6 & Em%wrapf_Ok & E). apply ret_Ok in E as [-> <-].
  eapply founded_sound; [exact Hf| | |exact Hwho].
  - eapply (founding_wf u _ _ (Role_ID role) _ _ w1 (next_tick w4) _ m _ Eo); [| |exact Em]; cbn [next_tick w_db].
    + etrans; [eapply pres_run; [apply CreateRole_wf|exact Er]|].
      etrans; [eapply pres_run; [apply seedRolePermissions_wf|exact Es]|].
      eapply pres_run; [apply extra_roles_wf|exact Ex].
    + eapply owner_ready_gains; [by eapply extra_roles_gain|]. by eapply owner_role_ready.
  - etrans; [eapply pres_run; [apply CreateOrganization_seeding|exact Eo]|].
    etrans; [eapply pres_run; [apply CreateRole_seeding|exact Er]|].
    etrans; [eapply pres_run; [apply seedRolePermissions_seeding|exact Es]|].
    etrans; [eapply pres_run; [apply extra_roles_seeding|exact Ex]|].
    exact (pres_run _ _ _ _ _ (CreateMembership_seeding _ _ _ _ _ _) Em).
Qed.
(** The new user is a member nowhere. *)
Lemma register_tx_sound inp slug h w r w' : register_tx inp slug h w = (Ok r, w') -> sound who (w_db w) (w_db w').
Proof.
  intros E. unfold register_tx in E. apply bind_Ok in E as (u & w1 & Eu%map_err_Ok & E).
  apply bind_Ok in E as (org & w2 & Eo & E). apply bind_Ok in E as ([] & w3 & [Hd _]%wrapf_Ok%Commit_Ok & E).
  apply ret_Ok in E as [_ <-]. rewrite Hd.
  assert (Hu : wf (w_db w) -> forall k m, memberships (w_db w1) !! k = Some m -> OrganizationMembership_UserID m <> User_ID u).
  { intros W k m Hk. stmt_ok Eu. intros Hm.
    destruct (t_row _ _ _ _ (ok_memberships _ _ W) _ _ Hk) as [_ (_ & _ & [x Hx] & _)]. congruence. }
  assert (Hs : sound who (w_db w) (w_db w1)) by (eapply pres_run; [|exact Eu]; by auto with teamflow_frame).
  intros Hg. destruct (Hs Hg) as [Hg1 Hr1].
  destruct (create_org_for_sound _ _ _ _ _ _ Eo (fun _ => or_intror (Hu (proj1 Hg))) Hg1) as [Hg2 Hr2].
  split; [done|by etrans].
Qed.
Lemma Register_sound inp m : pres (sound who) (Register inp m).
Proof.
  unfold Register, HashPassword. pres_step; [pres_auto|]. pres_step; [apply auth_uniqueSlug_pres; apply _|].
  pres_step; [|pres_auto]. apply pres_plain_committed; [apply _|apply register_tx_commits|].
  intros w r w'. apply register_tx_sound.
Qed.
End sessions.
#[export] Hint Resolve IssueSession_sound : teamflow_frame.

(** ** Invitations *)
Section invitations.
Context `{Authorizer} `{!AuthConfig} `{!Sender} `{!InviteConfig} (who : option N).
#[local] Hint Resolve reject_pres generateToken_pres role_names_pres : teamflow_frame.

Lemma markNotified_sound id o : pres (sound who) (markNotified id o).
Proof. unfold markNotified. pres_auto. Qed.
Lemma enqueueEmail_sound i t : pres (sound who) (enqueueEmail i t).
Proof. unfold enqueueEmail. destruct invite_queue; [apply reads_pres; [apply _|apply Enqueue_reads]|pres_auto]. Qed.
#[local] Hint Resolve markNotified_sound enqueueEmail_sound : teamflow_frame.
Lemma dispatchEmail_sound i d o t : pres (sound who) (dispatchEmail i d o t).
Proof.
  assert (Hd : pres (sound who) (deliverInline i d o t)) by (unfold deliverInline, sendInvitationEmail; pres_auto).
  unfold dispatchEmail. destruct invite_queue; [|done]. pres_auto.
Qed.
#[local] Hint Resolve dispatchEmail_sound : teamflow_frame.
(** Inviting is an offer the inviter is entitled to make. *)
Lemma get_role_Ok r o w role w' : get_role r o w = (Ok role, w') ->
  w_db w' = w_db w /\ roles (w_db w) !! r = Some role /\ Role_OrganizationID role = o.
Proof. intros E%map_err_Ok. query_ok E. done. Qed.
Lemma CreateInvitation_sound u t o em r role h e w i w' : member_tenant (w_db w) u o t ->
  roles (w_db w) !! r = Some role -> (Role_Name role = "Owner" -> Tenant_RoleName t = "Owner") ->
  CreateInvitation o em r h u e w = (Ok i, w') -> sound (Some u) (w_db w) (w_db w').
Proof.
  intros Ht Hr Hn E. pose proof (pres_run _ _ _ _ _ (CreateInvitation_wf o em r h u e) E) as Hw.
  pose proof (evolves_lives _ _ (pres_run _ _ _ _ _ (CreateInvitation_evolves o em r h u e) E)) as Hl.
  stmt_ok E. unfold put_invitation in *. stmt_inv. bool_hyps.
  apply sound_step; [done..|intros [_ Hall]; exact Hall|]. intros Hg _. apply offered_step; [done|by apply known|].
  eapply tenant_entitled; [done..|]. intros Hown. apply Hn.
  assert (Hx : r ∈ owner_roles (w_db w)) by (by destruct Hown).
  apply elem_of_owner_roles in Hx as (x & Hx & _ & ?). congruence.
Qed.
Lemma create_invitation_body_sound t u o inp em tok e w a w' : member_tenant (w_db w) u o t ->
  Invitations.create_body t u o inp em tok e w = (Ok a, w') -> sound (Some u) (w_db w) (w_db w').
Proof.
  intros Ht E. unfold Invitations.create_body in E. apply bind_Ok in E as ([] & w1 & Ec & E).
  assert (Hc : pres eq (checkInvitee o em)) by (unfold checkInvitee; pres_auto).
  apply (pres_run _ _ _ _ _ Hc) in Ec. apply bind_Ok in E as (role & w2 & (Hd2 & Hr & _)%get_role_Ok & E).
  apply bind_Ok in E as ([] & w3 & [Hg <-]%reject_if_Ok & E). apply bind_Ok in E as (org & w4 & Eo & E).
  assert (Ho : pres eq (orgName o)) by (unfold orgName; pres_auto). apply (pres_run _ _ _ _ _ Ho) in Eo.
  apply bind_Ok in E as (i & w5 & Ei%map_err_Ok & E). apply bind_Ok in E as ([] & w6 & Er & E). apply ret_Ok in E as [_ <-].
  assert (Hd : w_db w4 = w_db w) by congruence. rewrite <- Hd in Ht |- *.
  etrans; [|exact (pres_run _ _ _ _ _ (RecordTx_sound (Some u) _) Er)].
  eapply CreateInvitation_sound; [exact Ht|by rewrite Hd, Ec| |exact Ei].
  intros Hn. unfold ownerRoleName in Hg. rewrite Hn, beq_refl in Hg. cbn [andb] in Hg. by apply negb_false_iff, beq_eq in Hg.
Qed.
Lemma invitation_Create_sound u o inp : who = Some u -> pres (sound who) (Invitations.Create u o inp).
Proof.
  intros Hwho w. unfold Invitations.Create. apply pres_at_bind; [apply _|apply Authorize_pres; apply _|].
  intros t w1 E1. pose proof (Authorize_sound _ _ _ _ _ _ E1) as [Ht _]. pose proof (pres_run _ _ _ _ _ (Authorize_reads _ _ _) E1) as Hd1.
  apply pres_at_bind; [apply _|apply reject_pres; apply _|]. intros [] w2 E2.
  pose proof (pres_run _ _ _ _ _ (reject_pres eq _) E2) as Hd2.
  apply pres_at_bind; [apply _|apply generateToken_pres; apply _|]. intros tok w3 E3.
  pose proof (pres_run _ _ _ _ _ (generateToken_pres eq) E3) as Hd3.
  apply pres_at_bind; [apply _|apply pres_timeNow; apply _|]. intros now w4 [_ ->]%timeNow_Ok.
  apply pres_at_bind; [apply _| |].
  - apply pres_at_map_err, committed_at; [apply _| |].
    + apply (pres_True o), create_body_out.
    + intros w5 a w6 Hd5 Hb. rewrite <- Hd5, Hwho. eapply create_invitation_body_sound; [|exact Hb]. rewrite Hd5. cbn [next_tick w_db]. by rewrite <- Hd3, <- Hd2, <- Hd1.
  - intros [[inv role] org] w5 _.
    match goal with |- pres_at _ ?m _ => assert (Hk : pres (sound who) m) by pres_auto; exact (Hk w5) end.
Qed.
Lemma Resend_sound u o id : pres (sound who) (Resend u o id).
Proof. unfold Resend, resend_body, get_for_update, get_role, orgName. pres_auto. Qed.
Lemma invitation_Revoke_sound u o id : pres (sound who) (Invitations.Revoke u o id).
Proof.
  apply Revoke_pres; [apply _|pres_auto|]. intros w cur v Hc Hs.
  apply sound_at; [exact (RevokeInvitation_wf id o v w)|exact (RevokeInvitation_steady id o v w)|].
  destruct (RevokeInvitation_evolves id o v w cur Hc Hs) as [Ht He]. split; [done|by apply evolves_lives].
Qed.
Lemma invitation_List_sound u o f pg : pres (sound who) (Invitations.List_ u o f pg).
Proof. unfold Invitations.List_, Invitations.list_body. pres_auto. Qed.
Lemma found_by_token_pres R `{!PreOrder R} t : pres R (found_by_token t).
Proof. unfold found_by_token. pres_auto. Qed.
#[local] Hint Resolve found_by_token_pres : teamflow_frame.
Lemma Preview_sound t : pres (sound who) (Preview t).
Proof. unfold Preview, lookup_, lookup_body, get_role. pres_auto. Qed.
Lemma resolveUser_sound i u inp h : pres (sound who) (resolveUser i u inp h).
Proof. unfold resolveUser, existing_account, new_account. pres_auto. Qed.

(** The membership acceptance writes takes its role from the invitation; the role was
    looked up in the invitation's organization just before. *)
Definition same_roles (d d' : DB) : Prop := roles d = roles d'.
#[local] Instance same_roles_pre : PreOrder same_roles.
Proof. split; [by intros ?|]. unfold same_roles. intros ? ? ?; congruence. Qed.
Lemma same_roles_run {A} (m : M A) w r w' rid o :
  m w = (r, w') -> pres same_roles m -> role_in (w_db w) rid o -> role_in (w_db w') rid o.
Proof. intros E Hm. pose proof (pres_run _ _ _ _ _ Hm E) as Hr. unfold role_in. by rewrite Hr. Qed.
Lemma resolveUser_roles i u inp h : pres same_roles (resolveUser i u inp h).
Proof. unfold resolveUser, existing_account, new_account. pres_auto. by stmt_branches. Qed.
(** Joining adds one member and nothing else. *)
Lemma joined_owned d m k : all_owned d -> memberships d !! k = None ->
  all_owned (set_memberships (<[k := m]> (memberships d)) d).
Proof.
  intros Hall Hk o Ho. destruct (Hall o Ho) as (j & x & Hj & Hx). exists j, x. simpl.
  rewrite lookup_insert_ne; [done|intros ->; congruence].
Qed.
(** The membership and the acceptance of the invitation, together, take the offer. *)
Lemma joining_sound o u j w m w1 i a b i' w2 :
  CreateMembership o u (Invitation_RoleID i) "active" j w = (Ok m, w1) -> role_in (w_db w) (Invitation_RoleID i) o ->
  AcceptInvitation (Invitation_ID i) o a b w1 = (Ok i', w2) ->
  invitations (w_db w) !! Invitation_ID i = Some i -> Invitation_Status i = "pending" -> Invitation_OrganizationID i = o ->
  sound who (w_db w) (w_db w2).
Proof.
  intros Em Hr Ea Hi Hp Ho.
  pose proof (CreateMembership_wf o u (Invitation_RoleID i) "active" j w Hr) as [_ Hw1]. rewrite Em in Hw1. cbn [snd] in Hw1.
  pose proof (pres_run _ _ _ _ _ (AcceptInvitation_wf (Invitation_ID i) o a b) Ea) as Hw2.
  pose proof (pres_run _ _ _ _ _ (AcceptInvitation_steady (Invitation_ID i) o a b) Ea) as Hs.
  assert (Hinv : same_invitations (w_db w) (w_db w1)) by (refine (pres_run _ _ _ _ _ _ Em); by stmt_branches).
  assert (Hl : lives_on (w_db w) (w_db w2)).
  { etrans; [apply same_lives, Hinv|]. unfold same_invitations in Hinv.
    destruct (AcceptInvitation_evolves (Invitation_ID i) o a b w1 i ltac:(by rewrite <- Hinv) Hp) as [_ He].
    rewrite Ea in He. by apply evolves_lives. }
  apply AcceptInvitation_Ok in Ea as (t & x & Hx & Hd). rewrite Hd in *. clear Hd. stmt_ok Em. bool_hyps. rewrite Hi in Hx. injection Hx as <-.
  match goal with Hx : memberships (w_db w) !! _ = None |- _ => rename Hx into Hfresh end.
  apply sound_step; [by etrans|done|intros [_ Hall]; eapply steady_owned; [exact Hs|by apply joined_owned]|]. intros _ _.
  eapply (taken_step who _ _ _ _ (Invitation_ID i) i); [done|done|done| | |done|done| | |done|done|done|done]; simpl.
  - by eapply narrowed_put.
  - unfold offers. simpl. intros y Hy. rewrite lookup_fmap, lookup_insert_eq in Hy. by injection Hy as <-.
  - intros k' x Hx Hxo Hxu. match goal with Hn : exists_row _ _ = false |- _ => rewrite exists_row_false in Hn; pose proof (Hn _ _ Hx) as Hf end.
    by rewrite Hxo, Hxu, !beq_refl in Hf.
  - by apply known.
Qed.
Lemma join_body_sound i u inp h now w a w' k : invitations (w_db w) !! k = Some i -> Invitation_Status i = "pending" ->
  join_body i u inp h now w = (Ok a, w') -> sound who (w_db w) (w_db w').
Proof.
  intros Hk Hp E. unfold join_body in E. apply bind_Ok in E as (role & w1 & (Hd1 & Hr & Hro)%get_role_Ok & E).
  apply bind_Ok in E as (org & w2 & Eo%wrapf_Ok & E). query_ok Eo.
  apply bind_Ok in E as (user & w3 & Eu & E).
  pose proof (pres_run _ _ _ _ _ (resolveUser_sound _ _ _ _) Eu) as Hs. pose proof (pres_run _ _ _ _ _ (resolveUser_roles _ _ _ _) Eu) as Hroles.
  pose proof (pres_run _ _ _ _ _ (resolveUser_same _ _ _ _) Eu) as Hinv. cbn [next_tick w_db] in Hs, Hroles, Hinv. rewrite Hd1 in Hs, Hroles, Hinv.
  apply bind_Ok in E as (m & w4 & Em%map_err_Ok & E). apply bind_Ok in E as (i' & w5 & Ea%wrapf_Ok & E).
  apply ret_Ok in E as [_ <-]. intros Hg. destruct (Hs Hg) as [Hg3 Hr3].
  destruct (t_row _ _ _ _ (ok_invitations _ _ (proj1 Hg)) _ _ Hk) as [Hid _].
  assert (Hj : sound who (w_db w3) (w_db w5)).
  { eapply joining_sound; [exact Em| |exact Ea| |exact Hp|done].
    - exists role. by rewrite <- Hroles.
    - rewrite <- Hinv, Hid. exact Hk. }
  destruct (Hj Hg3) as [Hg5 Hr5]. split; [done|by etrans].
Qed.
Lemma accept_body_sound token u inp h now w a w' : accept_body token u inp h now w = (Ok a, w') ->
  sound who (w_db w) (w_db w').
Proof.
  intros E. unfold accept_body in E. apply bind_Ok in E as (i & w1 & Ei & E).
  apply found_in_tx in Ei as (-> & _ & k & Hk). destruct (isUsable i now) eqn:Eu; cbn [negb] in E.
  - apply bind_Ok in E as (r & w2 & Ej & E). apply ret_Ok in E as [_ <-]. unfold isUsable in Eu. bool_hyps.
    exact (join_body_sound _ _ _ _ _ (next_tick w) _ _ _ Hk ltac:(done) Ej).
  - assert (Hm : pres (sound who) (reject_if (negb (Invitation_Status i =?= StatusPending)) (unusable i now) ;;;
      wrapf "mark invitation expired" (MarkInvitationExpired (Invitation_ID i) (Invitation_OrganizationID i)) ;;;
      ret (@None (Invitation * (Organization * Role * User))))) by pres_auto.
    exact (pres_run _ _ _ _ _ Hm E).
Qed.
Lemma Accept_sound u inp meta : pres (sound who) (Accept u inp meta).
Proof.
  unfold Accept, accept_password, HashPassword. do 5 (pres_step; [pres_auto|]). pres_step; [|pres_auto].
  apply pres_committed; [apply _| |intros *; by eapply accept_body_sound].
  eapply pres_weaken; [|apply accept_body_evolves]. done.
Qed.

(** The jobs. *)
Lemma EmailJobHandler_sound p : pres (sound who) (EmailJobHandler p).
Proof.
  unfold EmailJobHandler, deliveryTarget, target_body, orgName, sendInvitationEmail. pres_auto.
Qed.
Lemma redeliver_org_sound o : pres (sound who) (redeliver_org o).
Proof. unfold redeliver_org, undeliveredInvitations, redeliver_one, rotate_body. pres_auto. Qed.
Lemma RedeliverJobHandler_sound p : pres (sound who) (RedeliverJobHandler p).
Proof. pose proof redeliver_org_sound. unfold RedeliverJobHandler, ForEachActiveOrganization. pres_auto. Qed.
End invitations.

(** ** API keys *)
Section keys.
Context `{Authorizer} `{!ApiKeyConfig} (who : option N).
#[local] Hint Resolve apikey_reject_pres generateKey_pres : teamflow_frame.
Lemma apikey_Create_sound u o inp : pres (sound who) (ApiKeys.Create u o inp).
Proof. unfold ApiKeys.Create, ApiKeys.create_body. pres_auto. Qed.
Lemma apikey_List_sound u o f pg : pres (sound who) (ApiKeys.List_ u o f pg).
Proof. unfold ApiKeys.List_, ApiKeys.list_body. pres_auto. Qed.
Lemma apikey_Revoke_sound u o k : pres (sound who) (ApiKeys.Revoke u o k).
Proof. unfold ApiKeys.Revoke, ApiKeys.revoke_body. pres_auto. Qed.
Lemma Authenticate_sound raw : pres (sound who) (Authenticate raw).
Proof. unfold Authenticate, key_owner. pres_auto. Qed.
Lemma revokeExpired_sound o : pres (sound who) (revokeExpired o).
Proof. unfold revokeExpired, sweep_body. pres_auto. Qed.
Lemma ExpireSweepJobHandler_sound p : pres (sound who) (ExpireSweepJobHandler p).
Proof. pose proof revokeExpired_sound. unfold ExpireSweepJobHandler, ForEachActiveOrganization. pres_auto. Qed.
End keys.

(** Every operation, for what calls it. *)
#[export] Hint Resolve team_List_sound team_Get_sound team_Create_sound team_Update_sound
  team_Delete_sound team_ListMembers_sound team_AddMember_sound team_RemoveMember_sound
  project_List_sound project_Get_sound project_Create_sound project_Update_sound
  project_Delete_sound project_ListActivity_sound task_list_sound task_ListByProject_sound
  task_Get_sound task_Create_sound task_Update_sound task_Delete_sound task_ListActivity_sound
  audit_List_sound createRefreshToken_sound issueSession_sound Login_sound Refresh_sound
  Logout_sound LogoutAll_sound CurrentUser_sound Register_sound markNotified_sound
  enqueueEmail_sound dispatchEmail_sound invitation_Create_sound Resend_sound
  invitation_Revoke_sound invitation_List_sound Preview_sound resolveUser_sound Accept_sound
  EmailJobHandler_sound redeliver_org_sound RedeliverJobHandler_sound apikey_Create_sound
  apikey_List_sound apikey_Revoke_sound Authenticate_sound revokeExpired_sound
  ExpireSweepJobHandler_sound create_role_body_sound update_role_body_sound
  GetOrganization_sound ListMyOrganizations_sound UpdateOrganization_sound ListMembers_sound
  ListRoles_sound CreateRole_sound UpdateRole_sound DeleteRole_sound AssignMemberRole_sound
  CreateOrganization_sound : teamflow_frame.
