(* ===== verification/Endpoint.v ===== *)
(** * What the HTTP handlers share

    Every handler of [internal/*/handler.go] is a chain of calls, each followed by
    [if err != nil { httpx.WriteError(w, r, h.logger, err); return }], and one final
    [WriteData] or [WritePage].  [endpoint] is that shape: a computation in the monad of the
    services whose error becomes the error response.  The file also has the helpers every
    handler repeats ([caller], [pathID], [currentUserID], [parseID]) and the encoders of
    response fields, with the [omitempty] option. *)
From S2P Require Import Prelude.
From S2P Require Import GoError.
From S2P Require Import Schema.
From S2P Require Import Store.
From S2P Require Import Logic.
From S2P Require Import GoStrings.
From S2P Require Import Permissions.
From S2P Require Import Pagination.
From S2P Require Import Tenancy.
From S2P Require Import Authz.
From S2P Require Import Jobs.
From S2P Require Import Validation.
From S2P Require Import Decode.
From S2P Require Import GoNet.
From S2P Require Import Http.
Local Open Scope string_scope.

(** ** Encoders: [None] is an error of [json.Marshal] *)

(** [time.Format] and [time.Parse] for the layout of dates, and [time.Parse] for RFC 3339. *)
Class GoTime := {
  date_Format : Z -> string;
  date_Parse : string -> option Z;
  time_ParseRFC3339 : string -> option Z
}.

Section encoders.
Context `{Env} `{Platform} `{GoTime}.
Definition Encoder (A : Type) : Type := A -> option json.
Definition jstr : Encoder string := fun s => Some (JStr s).
Definition jint : Encoder Z := fun n => Some (JNum n).
Definition jbool : Encoder bool := fun b => Some (JBool b).
Definition jraw : Encoder json := Some.
Definition juuid : Encoder N := fun u => Some (JStr (uuid_String u)).
Definition jtime : Encoder Z := fun t => JStr <$> time_MarshalText t.
(** [Date.MarshalJSON] *)
Definition jdate : Encoder Z := fun t => Some (JStr (date_Format t)).
Definition jnull {A} (f : Encoder A) : Encoder (option A) := fun o =>
  match o with Some a => f a | None => Some JNull end.
Definition jlist {A} (f : Encoder A) : Encoder (list A) := fun l => JArr <$> mapM f l.

(** One field of a struct: absent, when it is empty and marked [omitempty]. *)
Definition Member : Type := option (string * option json).
Definition member {A} (name : string) (f : Encoder A) (a : A) : Member := Some (name, f a).
Definition omit_nil {A} (name : string) (f : Encoder A) (o : option A) : Member :=
  match o with Some a => Some (name, f a) | None => None end.
Definition omit_empty (name : string) (s : string) : Member := if s =?= "" then None else Some (name, jstr s).
Definition jstruct (ms : list Member) : option json :=
  JObj <$> mapM (fun kv => pair kv.1 <$> kv.2) (omap (fun m => m) ms).
(** [activity.DTO] *)
Definition activity_json : Encoder ActivityLog := fun a => jstruct
  [member "id" juuid (ActivityLog_ID a); member "actor_user_id" (jnull juuid) (ActivityLog_ActorUserID a);
   member "action" jstr (ActivityLog_Action a); member "resource_type" jstr (ActivityLog_ResourceType a);
   member "resource_id" juuid (ActivityLog_ResourceID a); member "metadata" jraw (ActivityLog_Metadata a);
   member "created_at" jtime (ActivityLog_CreatedAt a)].
(** [map[string]bool{"deleted": true}] *)
Definition deleted : option json := jstruct [member "deleted" jbool true].
End encoders.

(** ** Responses *)

(** [WriteData] and [WritePage]; a value that does not encode leaves an empty body. *)
Definition respond (status : Z) (v : option json) : Response :=
  match v with
  | Some j => WriteData status j
  | None => {| Status := status; Headers := content_type; Resp_Body := NoBody |}
  end.
Definition WritePage (v : option json) (p : Pagination) : Response :=
  {| Status := 200; Headers := content_type;
     Resp_Body := match v with Some j => Paged j p | None => NoBody end |}.

(** ** The shape of a handler *)
Section endpoint.
Context `{Env}.

Definition endpoint (f : Request -> M Response) : Handler World := fun r w =>
  match f r w with
  | (Ok resp, w1) => (resp, w1)
  | (Err e, w1) => (WriteErrorResponse r e, w1)
  end.

(** [authctx.PrincipalFromContext], an unauthenticated caller being an error. *)
Definition principal (r : Request) : M Principal :=
  match ctx_Principal r with Some p => ret p | None => fail (Sentinel ErrUnauthorized) end.
(** [currentUserID] and [userID] *)
Definition current_user (r : Request) : M N := p <- principal r ;; ret (Principal_UserID p).
(** [pathID] and [parseID] *)
Definition pathID (r : Request) (name : string) : M N :=
  match uuid_Parse (URLParam r name) with Some id => ret id | None => fail (Sentinel ErrNotFound) end.
(** [caller] *)
Definition caller (r : Request) : M (N * N) :=
  p <- principal r ;; orgID <- pathID r "orgID" ;; ret (Principal_UserID p, orgID).
(** [DecodeJSON] on the body of the request. *)
Definition decode {T} (fields : list (Field T)) (zero : T) (r : Request) : M T :=
  ret_result (DecodeJSON fields (Req_MaxBytes r) zero (Req_Body r)).
(** [if err := validate(...); err != nil { WriteError; return }] *)
Definition invalid_if (e : option error) : M unit := match e with Some e => fail e | None => ret tt end.
(** [httpx.ParsePageRequest(r.URL.Query())] *)
Definition page_request (r : Request) : M PageRequest := ret_result (ParsePageRequest (Req_Query r)).
End endpoint.

(** [r.UserAgent()] *)
Definition UserAgent (r : Request) : string := Header_Get r "User-Agent".

(** ** List filters

    The whitelists of the [parseListFilter] functions: a value, or a message for the field. *)
Definition Filter (A : Type) : Type := A * list (string * string).
Definition one_of (values : list (string * string)) (name : string) (valid : list string) (msg : string)
    : Filter (option string) :=
  let s := values_Get values name in
  if s =?= "" then (None, []) else if existsb (beq s) valid then (Some s, []) else (None, [(name, msg)]).
Definition uuid_filter `{Env} (values : list (string * string)) (name : string) : Filter (option N) :=
  let s := values_Get values name in
  if s =?= "" then (None, []) else
  match uuid_Parse s with Some id => (Some id, []) | None => (None, [(name, "must be a valid UUID")]) end.
Definition sort_filter (values : list (string * string)) (default_sort : string) (sortable : list string) (msg : string)
    : Filter string :=
  let s := values_Get values "sort" in
  if s =?= "" then (default_sort, []) else if existsb (beq s) sortable then (s, []) else (default_sort, [("sort", msg)]).
(** [true]: descending, the default. *)
Definition order_filter (values : list (string * string)) : Filter bool :=
  let s := values_Get values "order" in
  if (s =?= "") || (s =?= "desc") then (true, [])
  else if s =?= "asc" then (false, []) else (true, [("order", "must be asc or desc")]).
(** The filter, or one validation error with every message. *)
Definition filter_result {A} (filter : A) (errs : list (string * string)) : result A :=
  match errs with [] => Ok filter | _ => Err (NewValidationError errs) end.

(** ** The contract of a tenant endpoint

    What [tenant_op] promises of a service call, as a client of the API sees it: no
    credentials, 401; a malformed organization, 404; a response that is no error only for
    callers with the permission; other organizations' rows never change; an error response
    means nothing changed. *)
Definition failed (resp : Response) : Prop := exists e, Resp_Body resp = ErrorResponse e.
Record tenant_endpoint `{Env} (p : string) (h : Handler World) : Prop := {
  te_anonymous r w : ctx_Principal r = None -> h r w = (WriteErrorResponse r (Sentinel ErrUnauthorized), w);
  te_path r w pr : ctx_Principal r = Some pr -> uuid_Parse (URLParam r "orgID") = None ->
    h r w = (WriteErrorResponse r (Sentinel ErrNotFound), w);
  te_op r w pr o : ctx_Principal r = Some pr -> uuid_Parse (URLParam r "orgID") = Some o ->
    same_outside o (w_db w) (w_db (h r w).2) /\
    (~ failed (h r w).1 -> exists t, authorized (w_db w) (Principal_UserID pr) o p t) /\
    (failed (h r w).1 -> w_db (h r w).2 = w_db w);
  te_json r w : Headers (h r w).1 = content_type
}.

(** Code that only reports errors as errors: a response it returns is JSON and not an error. *)
Definition answered_ok (resp : Response) : Prop := ~ failed resp /\ Headers resp = content_type.
Definition answers `{Env} (m : M Response) : Prop := forall w resp w', m w = (Ok resp, w') -> answered_ok resp.
Lemma respond_ok s v : answered_ok (respond s v).
Proof. split; [intros [e He]|]; by destruct v. Qed.
Lemma WritePage_ok v p : answered_ok (WritePage v p).
Proof. split; [intros [e He]|]; by destruct v. Qed.
Lemma answers_bind `{Env} {A} (m : M A) (k : A -> M Response) : (forall a, answers (k a)) -> answers (bind m k).
Proof. intros Hk w resp w' (a & w1 & _ & E)%bind_Ok. by apply (Hk a w1 resp w'). Qed.
Lemma answers_respond `{Env} s v : answers (ret (respond s v)).
Proof. intros w resp w' [<- _]%ret_Ok. apply respond_ok. Qed.
Lemma answers_page `{Env} v p : answers (ret (WritePage v p)).
Proof. intros w resp w' [<- _]%ret_Ok. apply WritePage_ok. Qed.
Lemma WriteErrorResponse_failed r e : failed (WriteErrorResponse r e).
Proof. unfold WriteErrorResponse. destruct (WriteError _ _). by eexists. Qed.
Lemma WriteErrorResponse_json r e : Headers (WriteErrorResponse r e) = content_type.
Proof. unfold WriteErrorResponse. by destruct (WriteError _ _). Qed.
Lemma endpoint_json `{Env} (f : Request -> M Response) r w : (forall r, answers (f r)) ->
  Headers (endpoint f r w).1 = content_type.
Proof.
  intros Hf. unfold endpoint. destruct (f r w) as [[resp|e] w1] eqn:E; [|apply WriteErrorResponse_json].
  by destruct (Hf r w resp w1 E).
Qed.

Lemma endpoint_world `{Env} (f : Request -> M Response) r w : (endpoint f r w).2 = (f r w).2.
Proof. unfold endpoint. by destruct (f r w) as [[]]. Qed.

Section contract.
Context `{Env} (u o : N) (p : string).

(** Rejections before the service is called. *)
Lemma tenant_op_fail {A} e : tenant_op u o p (A := A) (fail e).
Proof. split; [done|apply pres_fail; apply _|by intros w e' w' [= _ <-]]. Qed.
Lemma tenant_op_pure {A B} (x : result A) (k : A -> M B) :
  (forall a, tenant_op u o p (k a)) -> tenant_op u o p (bind (ret_result x) k).
Proof. intros Hk. destruct x as [a|e]; [apply (Hk a)|apply (tenant_op_fail e)]. Qed.
Lemma tenant_op_invalid {B} x (k : unit -> M B) :
  tenant_op u o p (k tt) -> tenant_op u o p (bind (invalid_if x) k).
Proof. intros Hk. destruct x as [e|]; [apply (tenant_op_fail e)|apply Hk]. Qed.
Lemma tenant_op_path {B} r name (k : N -> M B) :
  (forall a, tenant_op u o p (k a)) -> tenant_op u o p (bind (pathID r name) k).
Proof. intros Hk. unfold pathID. destruct (uuid_Parse _) as [a|]; [apply (Hk a)|apply tenant_op_fail]. Qed.
Lemma tenant_op_reads {A B} (m : M A) (k : A -> M B) :
  reads m -> pres (same_outside o) m -> (forall a, tenant_op u o p (k a)) -> tenant_op u o p (bind m k).
Proof.
  intros Hr Hp Hk. split.
  - intros w b w' (a & w1 & E & Ek)%bind_Ok. destruct (Hr w) as [_ Hd]. rewrite E in Hd. cbn in Hd. rewrite Hd.
    by eapply op_granted.
  - apply pres_bind; [apply _|done|intros a; apply (op_isolated _ _ _ _ (Hk a))].
  - apply keeps_bind_reads; [done|intros a; apply (op_atomic _ _ _ _ (Hk a))].
Qed.
Lemma granted_bind {A B} (m : M A) (k : A -> M B) : granted u o p m -> granted u o p (bind m k).
Proof. intros Hm w b w' (a & w1 & E & _)%bind_Ok. by eapply Hm. Qed.
Lemma tenant_op_map {A B} (m : M A) (f : A -> B) : tenant_op u o p m -> tenant_op u o p (bind m (fun a => ret (f a))).
Proof.
  intros [Hm Hi Ha].
  split; [by apply granted_bind|by apply pres_bind; [apply _|done|intros; apply pres_ret; apply _]|by apply keeps_bind_ret].
Qed.
(** What follows the service call never fails. *)
Lemma tenant_op_then {A B} (m : M A) (k : A -> M B) :
  tenant_op u o p m -> (forall a, pres (same_outside o) (k a)) -> (forall a w, exists b, (k a w).1 = Ok b) ->
  tenant_op u o p (bind m k).
Proof.
  intros [Hm Hi Ha] Hp Hk. split; [by apply granted_bind|by apply pres_bind; [apply _| |]|].
  intros w e w'. unfold bind. destruct (m w) as [[a|e'] w1] eqn:E.
  - intros Ek. destruct (Hk a w1) as [b Hb]. by rewrite Ek in Hb.
  - intros [= -> <-]. by eapply Ha.
Qed.
End contract.

(** A handler that finds its caller and runs a tenant operation is a tenant endpoint. *)
Lemma tenant_endpoint_caller `{Env} p (body : Request -> N * N -> M Response) :
  (forall r u o, tenant_op u o p (body r (u, o))) ->
  (forall r uo, answers (body r uo)) ->
  tenant_endpoint p (endpoint (fun r => uo <- caller r ;; body r uo)).
Proof.
  intros Hop Hok. split.
  - intros r w Hn. unfold endpoint, caller, principal. by rewrite Hn.
  - intros r w pr Hr Hp. unfold endpoint, caller, principal, pathID. by rewrite Hr; cbv [bind ret]; rewrite Hp.
  - intros r w pr o Hr Ho.
    assert (He : endpoint (fun r => uo <- caller r ;; body r uo) r w =
      match body r (Principal_UserID pr, o) w with (Ok resp, w1) => (resp, w1) | (Err e, w1) => (WriteErrorResponse r e, w1) end).
    { unfold endpoint, caller, principal, pathID. by rewrite Hr; cbv [bind ret]; rewrite Ho. }
    rewrite He. clear He.
    destruct (Hop r (Principal_UserID pr) o) as [Hm Hi Ha]. specialize (Hm w). destruct (Hi w) as [_ Hout].
    specialize (Ha w). specialize (Hok r (Principal_UserID pr, o) w).
    destruct (body r (Principal_UserID pr, o) w) as [[resp|e] w'] eqn:E; cbn [fst snd] in *.
    + destruct (Hok resp w' eq_refl) as [Hnf _]. split_and!; [done|intros _; by eapply Hm|done].
    + split_and!; [done| |intros _; by apply (Ha e w')]. intros Hn. destruct Hn. apply WriteErrorResponse_failed.
  - intros r w. apply endpoint_json. intros r'. unfold caller. apply answers_bind. intros uo. apply Hok.
Qed.

(** The steps a handler takes around its service call. *)
Ltac answers_auto :=
  repeat match goal with |- context [let '(_, _) := ?x in _] => destruct x end;
  lazymatch goal with
  | |- answers (bind _ _) => apply answers_bind; intros ?; answers_auto
  | |- answers (ret (respond _ _)) => apply answers_respond
  | |- answers (ret (WritePage _ _)) => apply answers_page
  end.
Ltac tenant_op_steps :=
  repeat first
    [ apply tenant_op_path; intros ?
    | apply tenant_op_pure; intros ?
    | apply tenant_op_invalid
    | apply tenant_op_map ];
  try solve [auto with teamflow_ops].
Ltac tenant_endpoint_auto :=
  match goal with |- tenant_endpoint _ ?h => unfold h end;
  apply tenant_endpoint_caller; intros; cbn [fst snd]; [tenant_op_steps|answers_auto].
