(* ===== verification/TeamsHandler.v ===== *)
(** * The HTTP handlers of teams

    Models [internal/teams/handler.go] and the JSON forms of the DTOs of
    [internal/teams/service.go].  Each handler is an [endpoint] around one operation of
    [Teams.v]. *)
From S2P Require Import Prelude.
From S2P Require Import GoError.
From S2P Require Import Schema.
From S2P Require Import Store.
From S2P Require Import Permissions.
From S2P Require Import Authz.
From S2P Require Import Validation.
From S2P Require Import Decode.
From S2P Require Import Jobs.
From S2P Require Import Http.
From S2P Require Import Endpoint.
From S2P Require Import Teams.
Local Open Scope string_scope.

Definition maxTeamNameLength : Z := 100.
Definition maxTeamDescriptionLength : Z := 500.

Record teamRequest := { TR_Name : string; TR_Description : string }.
Definition team_fields : list (Field teamRequest) :=
  [mk_field "name" string_field TR_Name (fun v r => {| TR_Name := v; TR_Description := TR_Description r |});
   mk_field "description" string_field TR_Description (fun v r => {| TR_Name := TR_Name r; TR_Description := v |})].
Definition validateTeamRequest (req : teamRequest) : option error :=
  ErrOf (MaxLen "description" (TR_Description req) maxTeamDescriptionLength
        (MaxLen "name" (TR_Name req) maxTeamNameLength (Required "name" (TR_Name req) New))).
Definition descriptionPointer (value : string) : option string := if value =?= "" then None else Some value.

Section handlers.
Context `{Authorizer} `{Platform}.

Definition team_json : Encoder TeamDTO := fun t => jstruct
  [member "id" juuid (TD_ID t); member "organization_id" juuid (TD_OrganizationID t);
   member "name" jstr (TD_Name t); omit_nil "description" jstr (TD_Description t);
   member "created_by" juuid (TD_CreatedBy t); member "created_at" jtime (TD_CreatedAt t);
   member "updated_at" jtime (TD_UpdatedAt t)].
Definition team_member_json : Encoder MemberDTO := fun m => jstruct
  [member "id" juuid (TM_ID m); member "user_id" juuid (TM_UserID m); member "email" jstr (TM_Email m);
   member "first_name" jstr (TM_FirstName m); member "last_name" jstr (TM_LastName m);
   member "created_at" jtime (TM_CreatedAt m)].
(** The body of [AddMember]. *)
Definition member_fields : list (Field N) := [mk_field "user_id" uuid_field (fun u => u) (fun v _ => v)].
Definition empty_team : teamRequest := {| TR_Name := ""; TR_Description := "" |}.

Definition List_ : Handler World := endpoint (fun r =>
  uo <- caller r ;;
  teams <- Teams.List_ uo.1 uo.2 ;;
  ret (respond 200 (jlist team_json teams))).
Definition Get : Handler World := endpoint (fun r =>
  uo <- caller r ;;
  teamID <- pathID r "teamID" ;;
  team <- Teams.Get uo.1 uo.2 teamID ;;
  ret (respond 200 (team_json team))).
Definition Create : Handler World := endpoint (fun r =>
  uo <- caller r ;;
  req <- decode team_fields empty_team r ;;
  invalid_if (validateTeamRequest req) ;;;
  team <- Teams.Create uo.1 uo.2 (TR_Name req) (descriptionPointer (TR_Description req)) ;;
  ret (respond 201 (team_json team))).
Definition Update : Handler World := endpoint (fun r =>
  uo <- caller r ;;
  teamID <- pathID r "teamID" ;;
  req <- decode team_fields empty_team r ;;
  invalid_if (validateTeamRequest req) ;;;
  team <- Teams.Update uo.1 uo.2 teamID (TR_Name req) (descriptionPointer (TR_Description req)) ;;
  ret (respond 200 (team_json team))).
Definition Delete : Handler World := endpoint (fun r =>
  uo <- caller r ;;
  teamID <- pathID r "teamID" ;;
  Teams.Delete uo.1 uo.2 teamID ;;;
  ret (respond 200 deleted)).
Definition ListMembers : Handler World := endpoint (fun r =>
  uo <- caller r ;;
  teamID <- pathID r "teamID" ;;
  members <- Teams.ListMembers uo.1 uo.2 teamID ;;
  ret (respond 200 (jlist team_member_json members))).
Definition AddMember : Handler World := endpoint (fun r =>
  uo <- caller r ;;
  teamID <- pathID r "teamID" ;;
  userID <- decode member_fields uuid_Nil r ;;
  invalid_if (if userID =?= uuid_Nil then Some (NewValidationError [("user_id", "is required")]) else None) ;;;
  added <- Teams.AddMember uo.1 uo.2 teamID userID ;;
  ret (respond 201 (team_member_json added))).
Definition RemoveMember : Handler World := endpoint (fun r =>
  uo <- caller r ;;
  teamID <- pathID r "teamID" ;;
  memberID <- pathID r "teamMemberID" ;;
  Teams.RemoveMember uo.1 uo.2 teamID memberID ;;;
  ret (respond 200 deleted)).

Lemma teams_endpoints :
  tenant_endpoint TeamsRead List_ /\ tenant_endpoint TeamsRead Get /\ tenant_endpoint TeamsManage Create /\
  tenant_endpoint TeamsManage Update /\ tenant_endpoint TeamsManage Delete /\
  tenant_endpoint TeamsRead ListMembers /\ tenant_endpoint TeamsManage AddMember /\
  tenant_endpoint TeamsManage RemoveMember.
Proof. split_and!; tenant_endpoint_auto. Qed.
End handlers.
