(* ===== verification/ProjectsHandler.v ===== *)
(** * The HTTP handlers of projects

    Models [internal/projects/handler.go], the JSON forms of the inputs and of the DTO of
    [internal/projects/model.go]. *)
From S2P Require Import Prelude.
From S2P Require Import GoError.
From S2P Require Import Schema.
From S2P Require Import Store.
From S2P Require Import Permissions.
From S2P Require Import Pagination.
From S2P Require Import Authz.
From S2P Require Import Validation.
From S2P Require Import Decode.
From S2P Require Import Jobs.
From S2P Require Import Http.
From S2P Require Import Endpoint.
From S2P Require Import Projects.
Local Open Scope string_scope.

(** [parseListFilter] *)
Definition parseListFilter `{Env} (values : list (string * string)) : result ListFilter :=
  let '(status, e1) := one_of values "status" validStatuses
    "must be one of planning, active, on_hold, completed, archived" in
  let '(priority, e2) := one_of values "priority" validPriorities "must be one of low, medium, high, urgent" in
  let '(team, e3) := uuid_filter values "team_id" in
  let '(sort, e4) := sort_filter values defaultSort sortableFields
    "must be one of created_at, updated_at, name, due_date, priority" in
  let '(desc, e5) := order_filter values in
  filter_result {| LF_Status := status; LF_Priority := priority; LF_TeamID := team; LF_Sort := sort; LF_Desc := desc |}
    (e1 ++ e2 ++ e3 ++ e4 ++ e5)%list.

Section json.
Context `{Env} `{Platform} `{GoTime}.

Definition create_fields : list (Field CreateInput) :=
  let put n d t s p sd dd := {| CI_Name := n; CI_Description := d; CI_TeamID := t; CI_Status := s; CI_Priority := p;
                                CI_StartDate := sd; CI_DueDate := dd |} in
  [mk_field "name" string_field CI_Name
     (fun v i => put v (CI_Description i) (CI_TeamID i) (CI_Status i) (CI_Priority i) (CI_StartDate i) (CI_DueDate i));
   mk_field "description" (pointer_field "" string_field) CI_Description
     (fun v i => put (CI_Name i) v (CI_TeamID i) (CI_Status i) (CI_Priority i) (CI_StartDate i) (CI_DueDate i));
   mk_field "team_id" (pointer_field uuid_Nil uuid_field) CI_TeamID
     (fun v i => put (CI_Name i) (CI_Description i) v (CI_Status i) (CI_Priority i) (CI_StartDate i) (CI_DueDate i));
   mk_field "status" string_field CI_Status
     (fun v i => put (CI_Name i) (CI_Description i) (CI_TeamID i) v (CI_Priority i) (CI_StartDate i) (CI_DueDate i));
   mk_field "priority" string_field CI_Priority
     (fun v i => put (CI_Name i) (CI_Description i) (CI_TeamID i) (CI_Status i) v (CI_StartDate i) (CI_DueDate i));
   mk_field "start_date" (pointer_field 0%Z (date_field date_Parse)) CI_StartDate
     (fun v i => put (CI_Name i) (CI_Description i) (CI_TeamID i) (CI_Status i) (CI_Priority i) v (CI_DueDate i));
   mk_field "due_date" (pointer_field 0%Z (date_field date_Parse)) CI_DueDate
     (fun v i => put (CI_Name i) (CI_Description i) (CI_TeamID i) (CI_Status i) (CI_Priority i) (CI_StartDate i) v)].
Definition empty_create : CreateInput :=
  {| CI_Name := ""; CI_Description := None; CI_TeamID := None; CI_Status := ""; CI_Priority := "";
     CI_StartDate := None; CI_DueDate := None |}.

Definition update_fields : list (Field UpdateInput) :=
  let put n d t s p sd dd := {| UI_Name := n; UI_Description := d; UI_TeamID := t; UI_Status := s; UI_Priority := p;
                                UI_StartDate := sd; UI_DueDate := dd |} in
  [mk_field "name" (pointer_field "" string_field) UI_Name
     (fun v i => put v (UI_Description i) (UI_TeamID i) (UI_Status i) (UI_Priority i) (UI_StartDate i) (UI_DueDate i));
   mk_field "description" (optional_field "" string_field) UI_Description
     (fun v i => put (UI_Name i) v (UI_TeamID i) (UI_Status i) (UI_Priority i) (UI_StartDate i) (UI_DueDate i));
   mk_field "team_id" (optional_field uuid_Nil uuid_field) UI_TeamID
     (fun v i => put (UI_Name i) (UI_Description i) v (UI_Status i) (UI_Priority i) (UI_StartDate i) (UI_DueDate i));
   mk_field "status" (pointer_field "" string_field) UI_Status
     (fun v i => put (UI_Name i) (UI_Description i) (UI_TeamID i) v (UI_Priority i) (UI_StartDate i) (UI_DueDate i));
   mk_field "priority" (pointer_field "" string_field) UI_Priority
     (fun v i => put (UI_Name i) (UI_Description i) (UI_TeamID i) (UI_Status i) v (UI_StartDate i) (UI_DueDate i));
   mk_field "start_date" (optional_field 0%Z (date_field date_Parse)) UI_StartDate
     (fun v i => put (UI_Name i) (UI_Description i) (UI_TeamID i) (UI_Status i) (UI_Priority i) v (UI_DueDate i));
   mk_field "due_date" (optional_field 0%Z (date_field date_Parse)) UI_DueDate
     (fun v i => put (UI_Name i) (UI_Description i) (UI_TeamID i) (UI_Status i) (UI_Priority i) (UI_StartDate i) v)].
Definition empty_update : UpdateInput :=
  {| UI_Name := None; UI_Description := Unset; UI_TeamID := Unset; UI_Status := None; UI_Priority := None;
     UI_StartDate := Unset; UI_DueDate := Unset |}.

Definition project_json : Encoder ProjectDTO := fun p => jstruct
  [member "id" juuid (Project_ID p); member "organization_id" juuid (Project_OrganizationID p);
   member "team_id" (jnull juuid) (Project_TeamID p); member "name" jstr (Project_Name p);
   member "description" (jnull jstr) (Project_Description p); member "status" jstr (Project_Status p);
   member "priority" jstr (Project_Priority p); member "start_date" (jnull jdate) (Project_StartDate p);
   member "due_date" (jnull jdate) (Project_DueDate p); member "created_by" juuid (Project_CreatedBy p);
   member "created_at" jtime (Project_CreatedAt p); member "updated_at" jtime (Project_UpdatedAt p)].
End json.

Section handlers.
Context `{Authorizer} `{Platform} `{GoTime}.

Definition List_ : Handler World := endpoint (fun r =>
  uo <- caller r ;;
  page <- page_request r ;;
  filter <- ret_result (parseListFilter (Req_Query r)) ;;
  lp <- Projects.List_ uo.1 uo.2 filter page ;;
  ret (WritePage (jlist project_json lp.1) lp.2)).
Definition Create : Handler World := endpoint (fun r =>
  uo <- caller r ;;
  inp <- decode create_fields empty_create r ;;
  project <- Projects.Create uo.1 uo.2 inp ;;
  ret (respond 201 (project_json project))).
Definition Get : Handler World := endpoint (fun r =>
  uo <- caller r ;;
  projectID <- pathID r "projectID" ;;
  project <- Projects.Get uo.1 uo.2 projectID ;;
  ret (respond 200 (project_json project))).
Definition Update : Handler World := endpoint (fun r =>
  uo <- caller r ;;
  projectID <- pathID r "projectID" ;;
  inp <- decode update_fields empty_update r ;;
  project <- Projects.Update uo.1 uo.2 projectID inp ;;
  ret (respond 200 (project_json project))).
Definition Delete : Handler World := endpoint (fun r =>
  uo <- caller r ;;
  projectID <- pathID r "projectID" ;;
  Projects.Delete uo.1 uo.2 projectID ;;;
  ret (respond 200 deleted)).
Definition ListActivity : Handler World := endpoint (fun r =>
  uo <- caller r ;;
  projectID <- pathID r "projectID" ;;
  page <- page_request r ;;
  lp <- Projects.ListActivity uo.1 uo.2 projectID page ;;
  ret (WritePage (jlist activity_json lp.1) lp.2)).

Lemma projects_endpoints :
  tenant_endpoint ProjectsRead List_ /\ tenant_endpoint ProjectsCreate Create /\ tenant_endpoint ProjectsRead Get /\
  tenant_endpoint ProjectsUpdate Update /\ tenant_endpoint ProjectsDelete Delete /\
  tenant_endpoint ProjectsRead ListActivity.
Proof. split_and!; tenant_endpoint_auto. Qed.
End handlers.
