(* ===== verification/TasksHandler.v ===== *)
(** * The HTTP handlers of tasks

    Models [internal/tasks/handler.go] and the JSON forms of the inputs and of the DTO of
    [internal/tasks/model.go]. *)
From S2P Require Import Prelude.
From S2P Require Import GoError.
From S2P Require Import Schema.
From S2P Require Import Store.
From S2P Require Import Permissions.
From S2P Require Import Pagination.
From S2P Require Import Authz.
From S2P Require Import Validation.
From S2P Require Import Decode.
From S2P Require Import Jobs.
From S2P Require Import Http.
From S2P Require Import Endpoint.
From S2P Require Import Tasks.
Local Open Scope string_scope.

Definition statusList : string := "must be one of todo, in_progress, blocked, in_review, done, cancelled".
Definition priorityList : string := "must be one of low, medium, high, urgent".
Definition sortableList : string := "must be one of created_at, updated_at, title, due_date, priority, status".
(** [parseListFilter]: an assignee and [unassigned] together are refused, with a message
    that replaces the ones the two fields have. *)
Definition parseListFilter `{Env} (values : list (string * string)) : result ListFilter :=
  let '(project, e1) := uuid_filter values "project_id" in
  let '(status, e2) := one_of values "status" validStatuses statusList in
  let '(priority, e3) := one_of values "priority" validPriorities priorityList in
  let '(assignee, e4) := uuid_filter values "assignee_id" in
  let raw := values_Get values "unassigned" in
  let '(unassigned, e5) :=
    if raw =?= "true" then (true, [])
    else (false, if negb (raw =?= "") && negb (raw =?= "false") then [("unassigned", "must be true or false")] else []) in
  let '(e4, e5) :=
    match assignee with
    | Some _ => if unassigned then ([("assignee_id", "cannot be combined with unassigned")], []) else (e4, e5)
    | None => (e4, e5)
    end in
  let '(sort, e6) := sort_filter values defaultSort sortableFields sortableList in
  let '(desc, e7) := order_filter values in
  filter_result {| LF_ProjectID := project; LF_Status := status; LF_Priority := priority; LF_AssigneeID := assignee;
                   LF_Unassigned := unassigned; LF_Sort := sort; LF_Desc := desc |}
    (e1 ++ e2 ++ e3 ++ e4 ++ e5 ++ e6 ++ e7)%list.

Section json.
Context `{Env} `{Platform} `{GoTime}.

Definition create_fields : list (Field CreateInput) :=
  let put t d s p a dd := {| CI_Title := t; CI_Description := d; CI_Status := s; CI_Priority := p;
                             CI_AssigneeID := a; CI_DueDate := dd |} in
  [mk_field "title" string_field CI_Title
     (fun v i => put v (CI_Description i) (CI_Status i) (CI_Priority i) (CI_AssigneeID i) (CI_DueDate i));
   mk_field "description" (pointer_field "" string_field) CI_Description
     (fun v i => put (CI_Title i) v (CI_Status i) (CI_Priority i) (CI_AssigneeID i) (CI_DueDate i));
   mk_field "status" string_field CI_Status
     (fun v i => put (CI_Title i) (CI_Description i) v (CI_Priority i) (CI_AssigneeID i) (CI_DueDate i));
   mk_field "priority" string_field CI_Priority
     (fun v i => put (CI_Title i) (CI_Description i) (CI_Status i) v (CI_AssigneeID i) (CI_DueDate i));
   mk_field "assignee_id" (pointer_field uuid_Nil uuid_field) CI_AssigneeID
     (fun v i => put (CI_Title i) (CI_Description i) (CI_Status i) (CI_Priority i) v (CI_DueDate i));
   mk_field "due_date" (pointer_field 0%Z (date_field date_Parse)) CI_DueDate
     (fun v i => put (CI_Title i) (CI_Description i) (CI_Status i) (CI_Priority i) (CI_AssigneeID i) v)].
Definition empty_create : CreateInput :=
  {| CI_Title := ""; CI_Description := None; CI_Status := ""; CI_Priority := ""; CI_AssigneeID := None; CI_DueDate := None |}.

Definition update_fields : list (Field UpdateInput) :=
  let put t d s p a dd := {| UI_Title := t; UI_Description := d; UI_Status := s; UI_Priority := p;
                             UI_AssigneeID := a; UI_DueDate := dd |} in
  [mk_field "title" (pointer_field "" string_field) UI_Title
     (fun v i => put v (UI_Description i) (UI_Status i) (UI_Priority i) (UI_AssigneeID i) (UI_DueDate i));
   mk_field "description" (optional_field "" string_field) UI_Description
     (fun v i => put (UI_Title i) v (UI_Status i) (UI_Priority i) (UI_AssigneeID i) (UI_DueDate i));
   mk_field "status" (pointer_field "" string_field) UI_Status
     (fun v i => put (UI_Title i) (UI_Description i) v (UI_Priority i) (UI_AssigneeID i) (UI_DueDate i));
   mk_field "priority" (pointer_field "" string_field) UI_Priority
     (fun v i => put (UI_Title i) (UI_Description i) (UI_Status i) v (UI_AssigneeID i) (UI_DueDate i));
   mk_field "assignee_id" (optional_field uuid_Nil uuid_field) UI_AssigneeID
     (fun v i => put (UI_Title i) (UI_Description i) (UI_Status i) (UI_Priority i) v (UI_DueDate i));
   mk_field "due_date" (optional_field 0%Z (date_field date_Parse)) UI_DueDate
     (fun v i => put (UI_Title i) (UI_Description i) (UI_Status i) (UI_Priority i) (UI_AssigneeID i) v)].
Definition empty_update : UpdateInput :=
  {| UI_Title := None; UI_Description := Unset; UI_Status := None; UI_Priority := None; UI_AssigneeID := Unset;
     UI_DueDate := Unset |}.

Definition task_json : Encoder TaskDTO := fun t => jstruct
  [member "id" juuid (Task_ID t); member "organization_id" juuid (Task_OrganizationID t);
   member "project_id" juuid (Task_ProjectID t); member "title" jstr (Task_Title t);
   member "description" (jnull jstr) (Task_Description t); member "status" jstr (Task_Status t);
   member "priority" jstr (Task_Priority t); member "assignee_id" (jnull juuid) (Task_AssigneeID t);
   member "due_date" (jnull jdate) (Task_DueDate t); member "created_by" juuid (Task_CreatedBy t);
   member "created_at" jtime (Task_CreatedAt t); member "updated_at" jtime (Task_UpdatedAt t)].
End json.

Section handlers.
Context `{Authorizer} `{Platform} `{GoTime}.

Definition List_ : Handler World := endpoint (fun r =>
  uo <- caller r ;;
  page <- page_request r ;;
  filter <- ret_result (parseListFilter (Req_Query r)) ;;
  lp <- Tasks.List_ uo.1 uo.2 filter page ;;
  ret (WritePage (jlist task_json lp.1) lp.2)).
Definition ListByProject : Handler World := endpoint (fun r =>
  uo <- caller r ;;
  projectID <- pathID r "projectID" ;;
  page <- page_request r ;;
  filter <- ret_result (parseListFilter (Req_Query r)) ;;
  lp <- Tasks.ListByProject uo.1 uo.2 projectID filter page ;;
  ret (WritePage (jlist task_json lp.1) lp.2)).
Definition Create : Handler World := endpoint (fun r =>
  uo <- caller r ;;
  projectID <- pathID r "projectID" ;;
  inp <- decode create_fields empty_create r ;;
  task <- Tasks.Create uo.1 uo.2 projectID inp ;;
  ret (respond 201 (task_json task))).
Definition Get : Handler World := endpoint (fun r =>
  uo <- caller r ;;
  taskID <- pathID r "taskID" ;;
  task <- Tasks.Get uo.1 uo.2 taskID ;;
  ret (respond 200 (task_json task))).
Definition Update : Handler World := endpoint (fun r =>
  uo <- caller r ;;
  taskID <- pathID r "taskID" ;;
  inp <- decode update_fields empty_update r ;;
  task <- Tasks.Update uo.1 uo.2 taskID inp ;;
  ret (respond 200 (task_json task))).
Definition Delete : Handler World := endpoint (fun r =>
  uo <- caller r ;;
  taskID <- pathID r "taskID" ;;
  Tasks.Delete uo.1 uo.2 taskID ;;;
  ret (respond 200 deleted)).
Definition ListActivity : Handler World := endpoint (fun r =>
  uo <- caller r ;;
  taskID <- pathID r "taskID" ;;
  page <- page_request r ;;
  lp <- Tasks.ListActivity uo.1 uo.2 taskID page ;;
  ret (WritePage (jlist activity_json lp.1) lp.2)).

Lemma tasks_endpoints :
  tenant_endpoint TasksRead List_ /\ tenant_endpoint TasksRead ListByProject /\ tenant_endpoint TasksCreate Create /\
  tenant_endpoint TasksRead Get /\ tenant_endpoint TasksUpdate Update /\ tenant_endpoint TasksDelete Delete /\
  tenant_endpoint TasksRead ListActivity.
Proof. split_and!; tenant_endpoint_auto. Qed.
End handlers.
