(* ===== verification/ApiKeysHandler.v ===== *)
(** * The HTTP handlers of API keys

    Models [internal/apikeys/handler.go] and the JSON forms of the DTOs of
    [internal/apikeys/model.go]. *)
From S2P Require Import Prelude.
From S2P Require Import GoError.
From S2P Require Import Schema.
From S2P Require Import Store.
From S2P Require Import Permissions.
From S2P Require Import Pagination.
From S2P Require Import Authz.
From S2P Require Import Validation.
From S2P Require Import Decode.
From S2P Require Import Jobs.
From S2P Require Import Http.
From S2P Require Import Endpoint.
From S2P Require Import ApiKeys.
Local Open Scope string_scope.

Definition sortableList : string := "must be one of created_at, expires_at, last_used_at".
(** [parseListFilter] *)
Definition parseListFilter (values : list (string * string)) : result ListFilter :=
  let raw := values_Get values "include_revoked" in
  let '(include, e1) :=
    if (raw =?= "") || (raw =?= "false") then (false, [])
    else if raw =?= "true" then (true, []) else (false, [("include_revoked", "must be true or false")]) in
  let '(sort, e2) := sort_filter values defaultSort sortableFields sortableList in
  let '(desc, e3) := order_filter values in
  filter_result {| LF_IncludeRevoked := include; LF_Sort := sort; LF_Desc := desc |} (e1 ++ e2 ++ e3)%list.

Section json.
Context `{Env} `{Platform}.
Definition create_fields : list (Field CreateInput) :=
  [mk_field "name" string_field CI_Name (fun v i => {| CI_Name := v; CI_ExpiresInDays := CI_ExpiresInDays i |});
   mk_field "expires_in_days" int_field CI_ExpiresInDays (fun v i => {| CI_Name := CI_Name i; CI_ExpiresInDays := v |})].
Definition empty_create : CreateInput := {| CI_Name := ""; CI_ExpiresInDays := 0 |}.
Definition apikey_json : Encoder APIKeyDTO := fun k => jstruct
  [member "id" juuid (KD_ID k); member "organization_id" juuid (KD_OrganizationID k);
   member "created_by" juuid (KD_CreatedBy k); member "name" jstr (KD_Name k);
   member "key_prefix" jstr (KD_KeyPrefix k); member "key_last_four" jstr (KD_KeyLastFour k);
   member "status" jstr (KD_Status k); member "expires_at" jtime (KD_ExpiresAt k);
   omit_nil "revoked_at" jtime (KD_RevokedAt k); omit_nil "last_used_at" jtime (KD_LastUsedAt k);
   member "created_at" jtime (KD_CreatedAt k)].
Definition created_json : Encoder CreatedResult := fun c => jstruct
  [member "api_key" apikey_json (CR_APIKey c); member "key" jstr (CR_Key c); member "warning" jstr (CR_Warning c)].
Definition revoked : option json := jstruct [member "revoked" jbool true].
End json.

Section handlers.
Context `{Authorizer} `{!ApiKeyConfig} `{Platform}.

Definition List_ : Handler World := endpoint (fun r =>
  uo <- caller r ;;
  page <- page_request r ;;
  filter <- ret_result (parseListFilter (Req_Query r)) ;;
  lp <- ApiKeys.List_ uo.1 uo.2 filter page ;;
  ret (WritePage (jlist apikey_json lp.1) lp.2)).
Definition Create : Handler World := endpoint (fun r =>
  uo <- caller r ;;
  inp <- decode create_fields empty_create r ;;
  created <- ApiKeys.Create uo.1 uo.2 inp ;;
  ret (respond 201 (created_json created))).
Definition Revoke : Handler World := endpoint (fun r =>
  uo <- caller r ;;
  keyID <- pathID r "apiKeyID" ;;
  ApiKeys.Revoke uo.1 uo.2 keyID ;;;
  ret (respond 200 revoked)).

Lemma apikeys_endpoints :
  tenant_endpoint APIKeysManage List_ /\ tenant_endpoint APIKeysManage Create /\ tenant_endpoint APIKeysManage Revoke.
Proof. split_and!; tenant_endpoint_auto. Qed.
End handlers.
