(* ===== verification/AuditHandler.v ===== *)
(** * The HTTP handler of the audit log

    Models [internal/audit/handler.go] and the JSON form of [audit.Entry]. *)
From S2P Require Import Prelude.
From S2P Require Import GoError.
From S2P Require Import Schema.
From S2P Require Import Store.
From S2P Require Import Logic.
From S2P Require Import GoStrings.
From S2P Require Import Permissions.
From S2P Require Import Pagination.
From S2P Require Import Tenancy.
From S2P Require Import Authz.
From S2P Require Import AuditTrail.
From S2P Require Import AuditService.
From S2P Require Import Jobs.
From S2P Require Import Http.
From S2P Require Import Endpoint.
Import Audit_.
Local Open Scope string_scope.

Definition maxAuditWindow : Z := 90 * 24 * Hour.

(** [parseListFilter]: the clock is read only for a [since] that parses. *)
Definition since_filter `{Env} `{GoTime} (raw : string) : M (Filter (option Z)) :=
  if raw =?= "" then ret (None, []) else
  match time_ParseRFC3339 raw with
  | None => ret (None, [("since", "must be an RFC 3339 timestamp")])
  | Some parsed =>
      now <- timeNow ;;
      ret (if Z.ltb parsed (now - maxAuditWindow) then (None, [("since", "must not be more than 90 days ago")])
           else (Some parsed, []))
  end.
Definition parseListFilter `{Env} `{GoTime} (values : list (string * string)) : M ListFilter :=
  let action := values_Get values "action" in
  let '(act, e1) :=
    if action =?= "" then (None, [])
    else if Z.ltb 100 (len action) then (None, [("action", "is too long")]) else (Some action, []) in
  let '(outcome, e2) := one_of values "outcome" [OutcomeSuccess; OutcomeFailure; OutcomeDenied]
    "must be one of success, failure, denied" in
  let '(actor, e3) := uuid_filter values "actor_user_id" in
  since <- since_filter (values_Get values "since") ;;
  ret_result (filter_result
    {| LF_Action := act; LF_Outcome := outcome; LF_ActorUserID := actor; LF_Since := since.1 |}
    (e1 ++ e2 ++ e3 ++ since.2)%list).

Definition entry_json `{Env} `{Platform} : Encoder Entry := fun e => jstruct
  [member "id" juuid (Entry_ID e); member "action" jstr (Entry_Action e); member "outcome" jstr (Entry_Outcome e);
   omit_nil "actor_user_id" juuid (Entry_ActorUserID e); omit_nil "target_type" jstr (Entry_TargetType e);
   omit_nil "target_id" jstr (Entry_TargetID e); omit_nil "ip_address" jstr (Entry_IPAddress e);
   omit_nil "user_agent" jstr (Entry_UserAgent e); omit_nil "request_id" jstr (Entry_RequestID e);
   omit_nil "trace_id" jstr (Entry_TraceID e); member "metadata" jraw (Entry_Metadata e);
   member "created_at" jtime (Entry_CreatedAt e)].

Section handlers.
Context `{Authorizer} `{Platform} `{GoTime}.

Definition List_ : Handler World := endpoint (fun r =>
  uo <- caller r ;;
  page <- page_request r ;;
  filter <- parseListFilter (Req_Query r) ;;
  lp <- Audit_.List_ uo.1 uo.2 filter page ;;
  ret (WritePage (jlist entry_json lp.1) lp.2)).

Lemma parse_reads R `{!PreOrder R} values : pres R (parseListFilter values).
Proof.
  unfold parseListFilter. destruct (if _ =?= "" then _ else _) as [act e1]. destruct (one_of _ _ _ _), (uuid_filter _ _).
  pres_step; [unfold since_filter; destruct (_ =?= ""); [pres_auto|]; destruct (time_ParseRFC3339 _); pres_auto|].
  unfold filter_result. destruct (_ ++ _)%list; pres_auto.
Qed.
Lemma audit_endpoint : tenant_endpoint AuditRead List_.
Proof.
  unfold List_. apply tenant_endpoint_caller; intros; cbn [fst snd]; [|answers_auto].
  apply tenant_op_pure; intros page. apply tenant_op_reads; [apply parse_reads, _|apply parse_reads, _|].
  intros filter. apply tenant_op_map, audit_List_op.
Qed.
End handlers.
