(* ===== verification/InvitationsHandler.v ===== *)
(** * The HTTP handlers of invitations

    Models [internal/invitations/handler.go], [RequestMetaFromRequest] of
    [internal/auth/handler.go] and the JSON forms of the DTOs of
    [internal/invitations/model.go]. *)
From S2P Require Import Prelude.
From S2P Require Import GoError.
From S2P Require Import Schema.
From S2P Require Import Store.
From S2P Require Import Logic.
From S2P Require Import GoStrings.
From S2P Require Import Permissions.
From S2P Require Import Pagination.
From S2P Require Import Tenancy.
From S2P Require Import Authz.
From S2P Require Import Validation.
From S2P Require Import Decode.
From S2P Require Import Jobs.
From S2P Require Import GoNet.
From S2P Require Import Http.
From S2P Require Import Endpoint.
From S2P Require Import Auth.
From S2P Require Import Delivery.
From S2P Require Import Invitations.
Local Open Scope string_scope.

Definition maxTokenLength : Z := 512.
Definition validStatuses : list string := [StatusPending; StatusAccepted; StatusRevoked; StatusExpired].
Definition statusList : string := "must be one of pending, accepted, revoked, expired".
Definition sortableList : string := "must be one of created_at, expires_at, email".

(** [parseListFilter] *)
Definition parseListFilter `{Env} (values : list (string * string)) : result ListFilter :=
  let '(status, e1) := one_of values "status" validStatuses statusList in
  let raw := values_Get values "email" in
  let '(email, e2) :=
    if raw =?= "" then (None, []) else
    let email := normalizeEmail raw in
    match ErrOf (Email "email" email New) with
    | Some _ => (None, [("email", "must be a valid email address")])
    | None => (Some email, [])
    end in
  let '(sort, e3) := sort_filter values defaultSort sortableFields sortableList in
  let '(desc, e4) := order_filter values in
  filter_result {| LF_Status := status; LF_Email := email; LF_Sort := sort; LF_Desc := desc |} (e1 ++ e2 ++ e3 ++ e4)%list.

(** [RequestMetaFromRequest] *)
Definition RequestMetaFromRequest `{GoNet} (r : Request) : RequestMeta :=
  {| RM_UserAgent := UserAgent r; RM_IPAddress := ClientIP r |}.

Section json.
Context `{Env} `{Platform}.
(** The body of [Create]: an email and a role. *)
Definition create_fields : list (Field CreateInput) :=
  [mk_field "email" string_field CI_Email (fun v i => {| CI_Email := v; CI_RoleID := CI_RoleID i |});
   mk_field "role_id" uuid_field CI_RoleID (fun v i => {| CI_Email := CI_Email i; CI_RoleID := v |})].
Definition empty_create : CreateInput := {| CI_Email := ""; CI_RoleID := uuid_Nil |}.
(** [acceptRequest] *)
Definition accept_fields : list (Field AcceptInput) :=
  let put t p f l := {| AI_Token := t; AI_Password := p; AI_FirstName := f; AI_LastName := l |} in
  [mk_field "token" string_field AI_Token (fun v i => put v (AI_Password i) (AI_FirstName i) (AI_LastName i));
   mk_field "password" string_field AI_Password (fun v i => put (AI_Token i) v (AI_FirstName i) (AI_LastName i));
   mk_field "first_name" string_field AI_FirstName (fun v i => put (AI_Token i) (AI_Password i) v (AI_LastName i));
   mk_field "last_name" string_field AI_LastName (fun v i => put (AI_Token i) (AI_Password i) (AI_FirstName i) v)].
Definition empty_accept : AcceptInput :=
  {| AI_Token := ""; AI_Password := ""; AI_FirstName := ""; AI_LastName := "" |}.

Definition invitation_json : Encoder InvitationDTO := fun i => jstruct
  [member "id" juuid (ID_ID i); member "organization_id" juuid (ID_OrganizationID i); member "email" jstr (ID_Email i);
   member "role_id" juuid (ID_RoleID i); omit_empty "role_name" (ID_RoleName i); member "status" jstr (ID_Status i);
   member "invited_by" juuid (ID_InvitedBy i); member "expires_at" jtime (ID_ExpiresAt i);
   omit_nil "accepted_at" jtime (ID_AcceptedAt i); omit_nil "accepted_by" juuid (ID_AcceptedBy i);
   omit_nil "revoked_at" jtime (ID_RevokedAt i); member "created_at" jtime (ID_CreatedAt i);
   member "updated_at" jtime (ID_UpdatedAt i)].
Definition preview_json : Encoder PreviewDTO := fun p => jstruct
  [member "organization_id" juuid (PD_OrganizationID p); member "organization_name" jstr (PD_OrganizationName p);
   member "email" jstr (PD_Email p); member "role_name" jstr (PD_RoleName p); member "status" jstr (PD_Status p);
   member "expires_at" jtime (PD_ExpiresAt p); member "account_exists" jbool (PD_AccountExists p)].
(** [auth.UserDTO] *)
Definition user_json : Encoder UserDTO := fun u => jstruct
  [member "id" juuid (UD_ID u); member "email" jstr (UD_Email u); member "first_name" jstr (UD_FirstName u);
   member "last_name" jstr (UD_LastName u); omit_nil "avatar_url" jstr (UD_AvatarURL u);
   member "status" jstr (UD_Status u); omit_nil "email_verified_at" jtime (UD_EmailVerifiedAt u);
   omit_nil "last_login_at" jtime (UD_LastLoginAt u); member "created_at" jtime (UD_CreatedAt u)].
(** [acceptResponse] *)
Definition accept_json : Encoder AcceptResult := fun a => jstruct
  [member "access_token" jstr (TP_AccessToken (AcR_Tokens a)); member "refresh_token" jstr (TP_RefreshToken (AcR_Tokens a));
   member "token_type" jstr "Bearer"; member "expires_in" jint (TP_ExpiresIn (AcR_Tokens a));
   member "organization" (fun a => jstruct [member "id" juuid (AcR_OrganizationID a);
                                            member "name" jstr (AcR_OrganizationName a)]) a;
   member "role" jstr (AcR_RoleName a); member "user" user_json (AcR_User a)].
Definition revoked : option json := jstruct [member "revoked" jbool true].
End json.

Section handlers.
Context `{Authorizer} `{!AuthConfig} `{!Sender} `{!InviteConfig} `{Platform} `{GoNet}.

(** [tokenParam] *)
Definition tokenParam (r : Request) (name : string) : M string :=
  let token := TrimSpace (URLParam r name) in
  if (token =?= "") || Z.ltb maxTokenLength (len token) then fail (notFound None) else ret token.

Definition List_ : Handler World := endpoint (fun r =>
  uo <- caller r ;;
  page <- page_request r ;;
  filter <- ret_result (parseListFilter (Req_Query r)) ;;
  lp <- Invitations.List_ uo.1 uo.2 filter page ;;
  ret (WritePage (jlist invitation_json lp.1) lp.2)).
Definition Create : Handler World := endpoint (fun r =>
  uo <- caller r ;;
  req <- decode create_fields empty_create r ;;
  invalid_if (if CI_RoleID req =?= uuid_Nil then Some (NewValidationError [("role_id", "is required")]) else None) ;;;
  invitation <- Invitations.Create uo.1 uo.2 {| CI_Email := normalizeEmail (CI_Email req); CI_RoleID := CI_RoleID req |} ;;
  ret (respond 201 (invitation_json invitation))).
Definition Resend : Handler World := endpoint (fun r =>
  uo <- caller r ;;
  invitationID <- pathID r "invitationID" ;;
  invitation <- Invitations.Resend uo.1 uo.2 invitationID ;;
  ret (respond 200 (invitation_json invitation))).
Definition Revoke : Handler World := endpoint (fun r =>
  uo <- caller r ;;
  invitationID <- pathID r "invitationID" ;;
  Invitations.Revoke uo.1 uo.2 invitationID ;;;
  ret (respond 200 revoked)).
Definition Preview : Handler World := endpoint (fun r =>
  token <- tokenParam r "token" ;;
  preview <- Invitations.Preview token ;;
  ret (respond 200 (preview_json preview))).
(** The caller, if [OptionalAuth] found one; the zero identifier otherwise. *)
Definition optional_user (r : Request) : N :=
  match ctx_Principal r with Some p => Principal_UserID p | None => uuid_Nil end.
Definition Accept : Handler World := endpoint (fun r =>
  req <- decode accept_fields empty_accept r ;;
  result <- Invitations.Accept (optional_user r) req (RequestMetaFromRequest r) ;;
  ret (respond 201 (accept_json result))).

Lemma invitations_endpoints :
  tenant_endpoint MembersManage List_ /\ tenant_endpoint MembersManage Create /\
  tenant_endpoint MembersManage Resend /\ tenant_endpoint MembersManage Revoke.
Proof. split_and!; tenant_endpoint_auto. Qed.
End handlers.
