(* ===== verification/AuthHandler.v ===== *)
(** * The HTTP handlers of authentication

    Models [internal/auth/handler.go]. *)
From S2P Require Import Prelude.
From S2P Require Import GoError.
From S2P Require Import Schema.
From S2P Require Import Store.
From S2P Require Import Logic.
From S2P Require Import GoStrings.
From S2P Require Import Permissions.
From S2P Require Import Validation.
From S2P Require Import Decode.
From S2P Require Import Jobs.
From S2P Require Import GoNet.
From S2P Require Import Http.
From S2P Require Import Endpoint.
From S2P Require Import Auth.
From S2P Require Import InvitationsHandler.
Local Open Scope string_scope.

(** [registerRequest] has the fields of [RegisterInput], [loginRequest] those of
    [LoginInput], [refreshRequest] is one text. *)
Definition register_fields : list (Field RegisterInput) :=
  let put e p f l o := {| RI_Email := e; RI_Password := p; RI_FirstName := f; RI_LastName := l; RI_OrganizationName := o |} in
  [mk_field "email" string_field RI_Email
     (fun v i => put v (RI_Password i) (RI_FirstName i) (RI_LastName i) (RI_OrganizationName i));
   mk_field "password" string_field RI_Password
     (fun v i => put (RI_Email i) v (RI_FirstName i) (RI_LastName i) (RI_OrganizationName i));
   mk_field "first_name" string_field RI_FirstName
     (fun v i => put (RI_Email i) (RI_Password i) v (RI_LastName i) (RI_OrganizationName i));
   mk_field "last_name" string_field RI_LastName
     (fun v i => put (RI_Email i) (RI_Password i) (RI_FirstName i) v (RI_OrganizationName i));
   mk_field "organization_name" string_field RI_OrganizationName
     (fun v i => put (RI_Email i) (RI_Password i) (RI_FirstName i) (RI_LastName i) v)].
Definition empty_register : RegisterInput :=
  {| RI_Email := ""; RI_Password := ""; RI_FirstName := ""; RI_LastName := ""; RI_OrganizationName := "" |}.
Definition login_fields : list (Field LoginInput) :=
  [mk_field "email" string_field LI_Email (fun v i => {| LI_Email := v; LI_Password := LI_Password i |});
   mk_field "password" string_field LI_Password (fun v i => {| LI_Email := LI_Email i; LI_Password := v |})].
Definition empty_login : LoginInput := {| LI_Email := ""; LI_Password := "" |}.
Definition refresh_fields : list (Field string) := [mk_field "refresh_token" string_field (fun s => s) (fun v _ => v)].

Section handlers.
Context `{Env} `{!AuthConfig} `{Platform} `{GoNet}.

(** [toAuthResponse] *)
Definition auth_json : Encoder AuthResult := fun a => jstruct
  [member "access_token" jstr (TP_AccessToken (AR_Tokens a)); member "refresh_token" jstr (TP_RefreshToken (AR_Tokens a));
   member "token_type" jstr "Bearer"; member "expires_in" jint (TP_ExpiresIn (AR_Tokens a));
   member "user" user_json (AR_User a)].
Definition status_json (text : string) : option json := jstruct [member "status" jstr text].

(** The checks of [Register] and [Login]. *)
Definition validateRegister (req : RegisterInput) : option error :=
  ErrOf (MaxLen "organization_name" (RI_OrganizationName req) 150
        (Required "organization_name" (RI_OrganizationName req)
        (MaxLen "last_name" (RI_LastName req) 100 (Required "last_name" (RI_LastName req)
        (MaxLen "first_name" (RI_FirstName req) 100 (Required "first_name" (RI_FirstName req)
        (Password "password" (RI_Password req) (Email "email" (RI_Email req) (Required "email" (RI_Email req) New))))))))).
Definition validateLogin (req : LoginInput) : option error :=
  ErrOf (Required "password" (LI_Password req) (Required "email" (LI_Email req) New)).
Definition validateRefresh (token : string) : option error := ErrOf (Required "refresh_token" token New).

Definition Register : Handler World := endpoint (fun r =>
  req <- decode register_fields empty_register r ;;
  invalid_if (validateRegister req) ;;;
  result <- Auth.Register {| RI_Email := NormalizeEmail (RI_Email req); RI_Password := RI_Password req;
                             RI_FirstName := RI_FirstName req; RI_LastName := RI_LastName req;
                             RI_OrganizationName := RI_OrganizationName req |} (RequestMetaFromRequest r) ;;
  ret (respond 201 (auth_json result))).
Definition Login : Handler World := endpoint (fun r =>
  req <- decode login_fields empty_login r ;;
  invalid_if (validateLogin req) ;;;
  result <- Auth.Login {| LI_Email := NormalizeEmail (LI_Email req); LI_Password := LI_Password req |}
              (RequestMetaFromRequest r) ;;
  ret (respond 200 (auth_json result))).
Definition Refresh : Handler World := endpoint (fun r =>
  token <- decode refresh_fields "" r ;;
  invalid_if (validateRefresh token) ;;;
  result <- Auth.Refresh token (RequestMetaFromRequest r) ;;
  ret (respond 200 (auth_json result))).
Definition Logout : Handler World := endpoint (fun r =>
  token <- decode refresh_fields "" r ;;
  invalid_if (validateRefresh token) ;;;
  Auth.Logout token ;;;
  ret (respond 200 (status_json "logged_out"))).
Definition LogoutAll : Handler World := endpoint (fun r =>
  userID <- current_user r ;;
  Auth.LogoutAll userID ;;;
  ret (respond 200 (status_json "logged_out_all"))).
Definition Me : Handler World := endpoint (fun r =>
  userID <- current_user r ;;
  user <- Auth.CurrentUser userID ;;
  ret (respond 200 (user_json user))).
End handlers.
