(* ===== verification/OrganizationsHandler.v ===== *)
(** * The HTTP handlers of organizations

    Models [internal/organizations/handler.go] and the JSON forms of the DTOs of
    [internal/organizations/service.go].  Access-changing handlers record an audit event
    after the change, outside its transaction; a failure to record is only logged. *)
From S2P Require Import Prelude.
From S2P Require Import GoError.
From S2P Require Import Schema.
From S2P Require Import Store.
From S2P Require Import Logic.
From S2P Require Import GoStrings.
From S2P Require Import Permissions.
From S2P Require Import Tenancy.
From S2P Require Import AuditTrail.
From S2P Require Import Authz.
From S2P Require Import Validation.
From S2P Require Import Decode.
From S2P Require Import Jobs.
From S2P Require Import GoNet.
From S2P Require Import Http.
From S2P Require Import Endpoint.
From S2P Require Import Organizations.
Local Open Scope string_scope.

Record roleRequest := { RR_Name : string; RR_Description : string; RR_Permissions : option (list string) }.
Definition role_fields : list (Field roleRequest) :=
  let put n d p := {| RR_Name := n; RR_Description := d; RR_Permissions := p |} in
  [mk_field "name" string_field RR_Name (fun v r => put v (RR_Description r) (RR_Permissions r));
   mk_field "description" string_field RR_Description (fun v r => put (RR_Name r) v (RR_Permissions r));
   mk_field "permissions" strings_field RR_Permissions (fun v r => put (RR_Name r) (RR_Description r) v)].
Definition empty_role : roleRequest := {| RR_Name := ""; RR_Description := ""; RR_Permissions := None |}.
(** The body of [Create] and [Update]. *)
Definition name_fields : list (Field string) := [mk_field "name" string_field (fun s => s) (fun v _ => v)].
Definition validateName (name : string) : option error := ErrOf (MaxLen "name" name 150 (Required "name" name New)).
Definition permissions_of (req : roleRequest) : list string := default [] (RR_Permissions req).
Definition validateRoleRequest (req : roleRequest) : option error :=
  match ErrOf (MaxLen "description" (RR_Description req) 500
              (MaxLen "name" (RR_Name req) 100 (Required "name" (RR_Name req) New))) with
  | Some e => Some e
  | None =>
      if Z.ltb 20 (Z.of_nat (length (permissions_of req)))
      then Some (NewValidationError [("permissions", "must contain at most 20 permissions")]) else None
  end.
Definition description_of (req : roleRequest) : option string :=
  if negb (RR_Description req =?= "") then Some (RR_Description req) else None.

Section json.
Context `{Env} `{Platform}.
Definition organization_json : Encoder OrganizationDTO := fun o => jstruct
  [member "id" juuid (OD_ID o); member "name" jstr (OD_Name o); member "slug" jstr (OD_Slug o);
   member "status" jstr (OD_Status o); omit_empty "role" (OD_Role o); member "created_at" jtime (OD_CreatedAt o);
   member "updated_at" jtime (OD_UpdatedAt o)].
Definition member_json : Encoder MemberDTO := fun m => jstruct
  [member "membership_id" juuid (MD_MembershipID m); member "user_id" juuid (MD_UserID m); member "email" jstr (MD_Email m);
   member "first_name" jstr (MD_FirstName m); member "last_name" jstr (MD_LastName m); member "role" jstr (MD_Role m);
   member "status" jstr (MD_Status m); member "joined_at" (jnull jtime) (MD_JoinedAt m)].
(** [permissions] is the slice the DTO carries: nil when the request named none. *)
Definition role_json (permissions : option (list string)) : Encoder RoleDTO := fun r => jstruct
  [member "id" juuid (RD_ID r); member "organization_id" juuid (RD_OrganizationID r); member "name" jstr (RD_Name r);
   omit_nil "description" jstr (RD_Description r); member "is_system" jbool (RD_IsSystem r);
   member "permissions" (jnull (jlist jstr)) permissions; member "created_at" jtime (RD_CreatedAt r);
   member "updated_at" jtime (RD_UpdatedAt r)].
End json.

Section handlers.
Context `{Env} `{Platform} `{GoNet}.

(** [record] *)
Definition record (r : Request) (event : Event) : M unit :=
  Record_ (WithRequest (ClientIP r) (UserAgent r) (ctx_RequestID r) (ctx_TraceID r) event).
(** The event of a change to [orgID] by [userID]. *)
Definition org_event (action : string) (userID orgID : N) (target_type target_id : string) : Event :=
  new_event action "" target_type target_id (Some orgID) (Some userID).

Definition ListMine : Handler World := endpoint (fun r =>
  userID <- current_user r ;;
  orgs <- ListMyOrganizations userID ;;
  ret (respond 200 (jlist organization_json orgs))).
Definition Create : Handler World := endpoint (fun r =>
  userID <- current_user r ;;
  name <- decode name_fields "" r ;;
  invalid_if (validateName name) ;;;
  org <- CreateOrganization userID name ;;
  record r (WithMetadata [("name", JStr (OD_Name org))]
    (new_event OrganizationCreated "" TargetOrganization (uuid_String (OD_ID org)) None (Some userID))) ;;;
  ret (respond 201 (organization_json org))).
Definition Get : Handler World := endpoint (fun r =>
  uo <- caller r ;;
  org <- GetOrganization uo.1 uo.2 ;;
  ret (respond 200 (organization_json org))).
Definition Update : Handler World := endpoint (fun r =>
  uo <- caller r ;;
  name <- decode name_fields "" r ;;
  invalid_if (validateName name) ;;;
  org <- UpdateOrganization uo.1 uo.2 name ;;
  record r (WithMetadata [("name", JStr (OD_Name org))]
    (org_event OrganizationRenamed uo.1 uo.2 TargetOrganization (uuid_String uo.2))) ;;;
  ret (respond 200 (organization_json org))).
Definition ListMembers : Handler World := endpoint (fun r =>
  uo <- caller r ;;
  members <- Organizations.ListMembers uo.1 uo.2 ;;
  ret (respond 200 (jlist member_json members))).
Definition ListRoles : Handler World := endpoint (fun r =>
  uo <- caller r ;;
  roles <- Organizations.ListRoles uo.1 uo.2 ;;
  ret (respond 200 (jlist (fun role => role_json (Some (RD_Permissions role)) role) roles))).
Definition CreateRole : Handler World := endpoint (fun r =>
  uo <- caller r ;;
  req <- decode role_fields empty_role r ;;
  invalid_if (validateRoleRequest req) ;;;
  role <- Organizations.CreateRole uo.1 uo.2 (RR_Name req) (description_of req) (permissions_of req) ;;
  record r (WithMetadata [("name", JStr (RD_Name role)); ("permissions", JNum (Z.of_nat (length (permissions_of req))))]
    (org_event RoleCreated uo.1 uo.2 TargetRole (uuid_String (RD_ID role)))) ;;;
  ret (respond 201 (role_json (RR_Permissions req) role))).
Definition UpdateRole : Handler World := endpoint (fun r =>
  uo <- caller r ;;
  roleID <- pathID r "roleID" ;;
  req <- decode role_fields empty_role r ;;
  invalid_if (validateRoleRequest req) ;;;
  role <- Organizations.UpdateRole uo.1 uo.2 roleID (RR_Name req) (description_of req) (permissions_of req) ;;
  record r (WithMetadata [("name", JStr (RD_Name role));
      ("permissions", match RR_Permissions req with Some ps => JArr (map JStr ps) | None => JNull end)]
    (org_event RoleUpdated uo.1 uo.2 TargetRole (uuid_String (RD_ID role)))) ;;;
  ret (respond 200 (role_json (RR_Permissions req) role))).
Definition DeleteRole : Handler World := endpoint (fun r =>
  uo <- caller r ;;
  roleID <- pathID r "roleID" ;;
  Organizations.DeleteRole uo.1 uo.2 roleID ;;;
  record r (org_event RoleDeleted uo.1 uo.2 TargetRole (uuid_String roleID)) ;;;
  ret (respond 200 deleted)).
Definition AssignMemberRole : Handler World := endpoint (fun r =>
  uo <- caller r ;;
  membershipID <- pathID r "membershipID" ;;
  roleID <- decode [mk_field "role_id" uuid_field (fun u => u) (fun v _ => v)] uuid_Nil r ;;
  invalid_if (if roleID =?= uuid_Nil then Some (NewValidationError [("role_id", "is required")]) else None) ;;;
  assigned <- Organizations.AssignMemberRole uo.1 uo.2 membershipID roleID ;;
  record r (WithMetadata [("member_user_id", JStr (uuid_String (MD_UserID assigned))); ("role", JStr (MD_Role assigned))]
    (org_event MemberRoleAssigned uo.1 uo.2 TargetMembership (uuid_String membershipID))) ;;;
  ret (respond 200 (member_json assigned))).

(** Recording stays inside the organization of the event and never fails. *)
Lemma record_out o r e : Event_OrganizationID e = Some o -> pres (same_outside o) (record r e).
Proof.
  intros Ho. unfold record, Record_. pres_step; [|apply pres_ret, _]. apply pres_attempt, write_event_pres; [apply _|].
  intros. set (ev := WithRequest _ _ _ _ _).
  assert (He : Event_OrganizationID (normalize ev) = Some o).
  { unfold normalize, ev. by repeat case_match. }
  rewrite He. apply CreateAuditLog_out.
Qed.
Lemma record_ok r e w : exists w', record r e w = (Ok tt, w').
Proof. unfold record, Record_, bind, attempt. destruct (write_event _ w) as [x w']. by exists w'. Qed.
Lemma tenant_op_record {A B} u o p (m : M A) r ev (v : A -> B) : tenant_op u o p m ->
  (forall a, Event_OrganizationID (ev a) = Some o) -> tenant_op u o p (a <- m ;; record r (ev a) ;;; ret (v a)).
Proof.
  intros Hm He. apply tenant_op_then; [done|intros a; pres_step; [by apply record_out|apply pres_ret, _]|].
  intros a w. destruct (record_ok r (ev a) w) as [w' Hw]. unfold bind. rewrite Hw. by eexists.
Qed.

Lemma organizations_endpoints :
  tenant_endpoint OrganizationsRead Get /\ tenant_endpoint OrganizationsUpdate Update /\
  tenant_endpoint MembersRead ListMembers /\ tenant_endpoint RolesRead ListRoles /\
  tenant_endpoint RolesManage CreateRole /\ tenant_endpoint RolesManage UpdateRole /\
  tenant_endpoint RolesManage DeleteRole /\ tenant_endpoint MembersManage AssignMemberRole.
Proof.
  split_and!; match goal with |- tenant_endpoint _ ?h => unfold h end; apply tenant_endpoint_caller; intros; cbn [fst snd];
    try answers_auto; repeat first [apply tenant_op_path; intros ? | apply tenant_op_pure; intros ? | apply tenant_op_invalid];
    first [apply tenant_op_map; solve [auto with teamflow_ops] | apply tenant_op_record; [solve [auto with teamflow_ops]|done]].
Qed.
End handlers.
