(* ===== verification/Middleware.v ===== *)
(** * The middleware chain

    Models [internal/middleware/middleware.go], [internal/observability/trace.go] and
    [internal/health/health.go].  The access log is in [Observers.v]; [Recovery] has nothing
    to do, since no handler of the model panics. *)
From S2P Require Import Prelude.
From S2P Require Import GoError.
From S2P Require Import Schema.
From S2P Require Import Store.
From S2P Require Import GoStrings.
From S2P Require Import Jobs.
From S2P Require Import Http.
From S2P Require Import Endpoint.
Local Open Scope string_scope.

(** ** Request and trace identifiers *)

Definition requestIDHeader : string := "X-Request-ID".
Definition header (name value : string) : gmap string string := {[name := value]}.

Section ids.
Context `{Env}.

(** [RequestID]: the client's identifier, or a new one. *)
Definition RequestID {L} (next : Handler (World * L)) : Handler (World * L) := fun r s =>
  let given := Header_Get r requestIDHeader in
  let (id, w1) :=
    if given =?= "" then ("req_" +:+ uuid_String (env_uuid (w_tick s.1)), next_tick s.1) else (given, s.1) in
  let (resp, s2) := next (WithRequestID id r) (w1, s.2) in
  (with_headers (header requestIDHeader id) resp, s2).

Definition TraceparentHeader : string := "traceparent".
Definition TraceIDHeader : string := "X-Trace-Id".
Definition traceIDBytes : nat := 16.
Definition zeroTraceID : string := "00000000000000000000000000000000".
(** [isHex] ranges over runes; a byte of a longer rune is not a digit either. *)
Definition hex_byte (b : N) : bool := between 48 57 b || between 97 102 b || between 65 70 b.
Definition isHex (value : string) : bool := forallb hex_byte (bytes value).
(** [strings.Split(s, "-")], on bytes. *)
Fixpoint split_on (sep : N) (cur l : list N) : list (list N) :=
  match l with
  | [] => [rev cur]
  | b :: r => if (b =? sep)%N then rev cur :: split_on sep [] r else split_on sep (b :: cur) r
  end.
Definition Split (sep : N) (s : string) : list string := map of_bytes (split_on sep [] (bytes s)).
Definition newTraceID (w : World) : string * World :=
  (match env_rand (w_tick w) traceIDBytes with Some buf => hex_EncodeToString buf | None => zeroTraceID end, next_tick w).
Definition traceIDFromHeader (h : string) (w : World) : string * World :=
  match Split 45 (TrimSpace h) with
  | [version; id; _; _] =>
      if (version =?= "00") && Nat.eqb (String.length id) (traceIDBytes * 2) && isHex id && negb (id =?= zeroTraceID)
      then (ToLower id, w) else newTraceID w
  | _ => newTraceID w
  end.
(** [ContextWithTraceID] *)
Definition WithTraceID (id : string) (r : Request) : Request := {|
  Req_Method := Req_Method r; Req_Path := Req_Path r; Req_RemoteAddr := Req_RemoteAddr r;
  Header_Get := Header_Get r; URLParam := URLParam r; Req_Query := Req_Query r; Req_Body := Req_Body r;
  Req_MaxBytes := Req_MaxBytes r; ctx_Principal := ctx_Principal r; ctx_Tenant := ctx_Tenant r;
  ctx_RequestID := ctx_RequestID r; ctx_TraceID := id
|}.
Definition TraceMiddleware {L} (next : Handler (World * L)) : Handler (World * L) := fun r s =>
  let (traceID, w1) := traceIDFromHeader (Header_Get r TraceparentHeader) s.1 in
  let (resp, s2) := next (WithTraceID traceID r) (w1, s.2) in
  (with_headers (header TraceIDHeader traceID) resp, s2).
End ids.

(** ** Response headers and body limits *)
Definition security_headers : gmap string string :=
  <["X-Content-Type-Options" := "nosniff"]> (<["X-Frame-Options" := "DENY"]> (
  <["Referrer-Policy" := "no-referrer"]> (
  <["Content-Security-Policy" := "default-src 'none'; frame-ancestors 'none'"]> ∅))).
Definition SecurityHeaders {S} (next : Handler S) : Handler S := fun r s =>
  let (resp, s1) := next r s in (with_headers security_headers resp, s1).
Definition with_limit (limit : Z) (r : Request) : Request := {|
  Req_Method := Req_Method r; Req_Path := Req_Path r; Req_RemoteAddr := Req_RemoteAddr r;
  Header_Get := Header_Get r; URLParam := URLParam r; Req_Query := Req_Query r; Req_Body := Req_Body r;
  Req_MaxBytes := Some limit; ctx_Principal := ctx_Principal r; ctx_Tenant := ctx_Tenant r;
  ctx_RequestID := ctx_RequestID r; ctx_TraceID := ctx_TraceID r
|}.
Definition MaxBodyBytes {S} (limit : Z) (next : Handler S) : Handler S := fun r s => next (with_limit limit r) s.

(** ** Health

    A [Checker] is whether its dependency answers; [Ready] names every one of them. *)
Section health.
Context `{Env}.
Definition Live : Handler World := fun _ w => (respond 200 (jstruct [member "status" jstr "ok"]), w).
(** The map of results; [json.Marshal] writes the keys of a map in order. *)
Definition check_results (checks : list (string * bool)) : list Member :=
  map (fun c : string * bool => member c.1 jstr (if c.2 then "ok" else "unavailable")) checks.
Definition Ready (checks : list (string * bool)) : Handler World := fun _ w =>
  let ok := forallb snd checks in
  (respond (if ok then 200 else 503)
     (jstruct [member "dependencies" jstruct (check_results checks);
               member "status" jstr (if ok then "ok" else "unavailable")]), w).
End health.

(** ** Trace identifiers are 32 hexadecimal digits *)
Section facts.
Context `{Env}.

Lemma hex_digit_hex n : (n < 16)%N -> hex_byte (hex_digit n) = true /\ (hex_digit n < 256)%N.
Proof.
  intros Hn. unfold hex_byte, between, hex_digit. rewrite !orb_true_iff, !andb_true_iff, !N.leb_le.
  destruct (N.ltb_spec n 10); lia.
Qed.
Lemma hex_EncodeToString_hex b : Forall (fun x => (x < 256)%N) b ->
  isHex (hex_EncodeToString b) = true /\ String.length (hex_EncodeToString b) = (2 * length b)%nat.
Proof.
  intros Hb. unfold isHex, hex_EncodeToString. rewrite length_of_bytes.
  assert (Hd : Forall (fun x => hex_byte x = true /\ (x < 256)%N)
    (concat (map (fun b => [hex_digit (b / 16); hex_digit (b mod 16)]%N) b))).
  { induction Hb as [|x b Hx Hb IH]; [constructor|]. cbn [map concat app].
    constructor; [apply hex_digit_hex, N.Div0.div_lt_upper_bound; lia|].
    constructor; [apply hex_digit_hex, N.mod_lt; lia|done]. }
  split.
  - rewrite bytes_of_bytes by (eapply Forall_impl; [|exact Hd]; by intros ? []).
    apply forallb_forall. intros x Hx. by apply (proj1 (List.Forall_forall _ _) Hd).
  - clear Hd. induction Hb as [|x b Hx Hb IH]; [done|]. cbn [map concat app length] in *. lia.
Qed.
(** Lower-casing keeps the digits and the length of a hexadecimal string. *)
Lemma ascii_lower_hex b : hex_byte b = true -> (b < 128)%N /\ hex_byte (ascii_lower b) = true /\ (ascii_lower b < 256)%N.
Proof.
  unfold hex_byte, between, ascii_lower, between. rewrite !orb_true_iff, !andb_true_iff, !N.leb_le. intros Hb.
  destruct ((65 <=? b) && (b <=? 90))%N eqn:E; [apply andb_true_iff in E as [?%N.leb_le ?%N.leb_le]|]; split_and!; try lia.
Qed.
Lemma ToLower_hex s : isHex s = true -> isHex (ToLower s) = true /\ String.length (ToLower s) = String.length s.
Proof.
  unfold isHex. intros Hs. assert (Hf : Forall (fun b => hex_byte b = true) (bytes s)).
  { apply List.Forall_forall. intros x Hx. by apply (proj1 (forallb_forall _ _) Hs). }
  unfold ToLower. replace (is_ascii s) with true.
  - rewrite length_of_bytes, length_map, length_bytes. split; [|done]. rewrite bytes_of_bytes.
    + apply forallb_forall. intros x (y & <- & Hy)%in_map_iff. by apply ascii_lower_hex, (proj1 (forallb_forall _ _) Hs).
    + apply Forall_map. eapply Forall_impl; [|exact Hf]. intros x Hx. by apply ascii_lower_hex.
  - symmetry. apply forallb_forall. intros x Hx. apply N.ltb_lt. by apply ascii_lower_hex, (proj1 (forallb_forall _ _) Hs).
Qed.
Definition trace_id (id : string) : Prop := isHex id = true /\ String.length id = 32%nat.
Lemma traceIDFromHeader_ok h w : rand_ok -> trace_id (traceIDFromHeader h w).1.
Proof.
  intros Hr. assert (Hn : trace_id (newTraceID w).1).
  { unfold newTraceID. cbn [fst]. destruct (env_rand _ _) as [buf|] eqn:E; [|by vm_compute].
    destruct (Hr _ _ _ E) as [Hl Hb]. destruct (hex_EncodeToString_hex buf Hb) as [? Hlen]. split; [done|]. rewrite Hlen, Hl. done. }
  unfold traceIDFromHeader. destruct (Split 45 (TrimSpace h)) as [|v [|id [|a [|c [|]]]]]; try done.
  destruct (_ && _) eqn:E; [|done]. bool_hyps. destruct (ToLower_hex id) as [? Hlen]; [done|].
  split; [done|]. cbn [fst]. rewrite Hlen. by apply Nat.eqb_eq.
Qed.
Lemma traceIDFromHeader_db h w : w_db (traceIDFromHeader h w).2 = w_db w.
Proof. unfold traceIDFromHeader. destruct (Split 45 (TrimSpace h)) as [|v [|id [|a [|c [|]]]]]; try done. by destruct (_ && _). Qed.
End facts.
