(* ===== verification/Observers.v ===== *)
(** * Access log and metrics

    Models the [Logging] middleware of [internal/middleware/middleware.go] and
    [internal/metrics/metrics.go]: what a process records about the requests it serves.  The
    registry is a set of counters, gauges and series of observations, keyed by label values
    as in the Prometheus client; it lives in the part of a handler's state that is not the
    database ([Observed]).  Neither middleware changes a request or a response.  The number
    of bytes written and the buckets of the histograms are not modelled. *)
From S2P Require Import Prelude.
From S2P Require Import Schema.
From S2P Require Import Store.
From S2P Require Import GoStrings.
From S2P Require Import Demo.
From S2P Require Import GoNet.
From S2P Require Import Http.
From S2P Require Import Endpoint.
From stdpp Require Import pretty.
Local Open Scope string_scope.

(** ** The registry *)
Record Metrics := {
  mt_requests : gmap (string * string * string) N;
  mt_duration : gmap (string * string) (list Z);
  mt_inFlight : Z;
  mt_auditEvents : gmap (string * string) N;
  mt_jobs : gmap (string * string) N;
  mt_jobDuration : gmap string (list Z);
  mt_queueDepth : gmap string Z
}.
Definition New : Metrics := {|
  mt_requests := ∅; mt_duration := ∅; mt_inFlight := 0; mt_auditEvents := ∅; mt_jobs := ∅; mt_jobDuration := ∅;
  mt_queueDepth := ∅
|}.
(** [WithLabelValues(...).Inc()] and [.Observe(x)]: a series that is not there yet starts
    empty. *)
Definition Inc {K} `{Countable K} (k : K) (m : gmap K N) : gmap K N := <[k := (default 0 (m !! k) + 1)%N]> m.
Definition Observe {K} `{Countable K} (k : K) (x : Z) (m : gmap K (list Z)) : gmap K (list Z) :=
  <[k := x :: default [] (m !! k)]> m.

Definition CountAudit (action outcome : string) (m : Metrics) : Metrics := {|
  mt_requests := mt_requests m; mt_duration := mt_duration m; mt_inFlight := mt_inFlight m;
  mt_auditEvents := Inc (action, outcome) (mt_auditEvents m); mt_jobs := mt_jobs m;
  mt_jobDuration := mt_jobDuration m; mt_queueDepth := mt_queueDepth m
|}.
Definition CountJob (jobType result : string) (m : Metrics) : Metrics := {|
  mt_requests := mt_requests m; mt_duration := mt_duration m; mt_inFlight := mt_inFlight m;
  mt_auditEvents := mt_auditEvents m; mt_jobs := Inc (jobType, result) (mt_jobs m);
  mt_jobDuration := mt_jobDuration m; mt_queueDepth := mt_queueDepth m
|}.
Definition ObserveJob (jobType : string) (d : Z) (m : Metrics) : Metrics := {|
  mt_requests := mt_requests m; mt_duration := mt_duration m; mt_inFlight := mt_inFlight m;
  mt_auditEvents := mt_auditEvents m; mt_jobs := mt_jobs m;
  mt_jobDuration := Observe jobType d (mt_jobDuration m); mt_queueDepth := mt_queueDepth m
|}.
Definition SetQueueDepth (queue : string) (depth : Z) (m : Metrics) : Metrics := {|
  mt_requests := mt_requests m; mt_duration := mt_duration m; mt_inFlight := mt_inFlight m;
  mt_auditEvents := mt_auditEvents m; mt_jobs := mt_jobs m;
  mt_jobDuration := mt_jobDuration m; mt_queueDepth := <[queue := depth]> (mt_queueDepth m)
|}.
Definition add_inFlight (d : Z) (m : Metrics) : Metrics := {|
  mt_requests := mt_requests m; mt_duration := mt_duration m; mt_inFlight := (mt_inFlight m + d)%Z;
  mt_auditEvents := mt_auditEvents m; mt_jobs := mt_jobs m;
  mt_jobDuration := mt_jobDuration m; mt_queueDepth := mt_queueDepth m
|}.
Definition count_request (method route status : string) (d : Z) (m : Metrics) : Metrics := {|
  mt_requests := Inc (method, route, status) (mt_requests m); mt_duration := Observe (method, route) d (mt_duration m);
  mt_inFlight := mt_inFlight m; mt_auditEvents := mt_auditEvents m; mt_jobs := mt_jobs m;
  mt_jobDuration := mt_jobDuration m; mt_queueDepth := mt_queueDepth m
|}.

(** ** The middleware *)
Record AccessLine := {
  al_method : string; al_path : string; al_status : Z; al_duration : Z; al_remote : string;
  al_requestID : string; al_traceID : string
}.
Record Observations := { ob_metrics : Metrics; ob_log : list AccessLine }.
Class Observed (L : Type) := { observed : L -> Observations; observe : Observations -> L -> L }.
Class ObservedLaws {L} `{Observed L} : Prop := { observed_observe o l : observed (observe o l) = o }.

(** What the router's context says once a request was routed: the whole pattern that
    matched, or nothing. *)
Class RouteContext := { RoutePattern : Request -> string }.

Section middleware.
Context `{Env} `{GoNet} `{RouteContext} {L : Type} `{Observed L}.
#[local] Abbreviation State := (World * L)%type.

Definition on_metrics (f : Metrics -> Metrics) (l : L) : L :=
  observe {| ob_metrics := f (ob_metrics (observed l)); ob_log := ob_log (observed l) |} l.
Definition on_log (line : AccessLine) (l : L) : L :=
  observe {| ob_metrics := ob_metrics (observed l); ob_log := line :: ob_log (observed l) |} l.

(** [Logging]: one line per request, after it was answered. *)
Definition Logging (next : Handler State) : Handler State := fun r s =>
  let start := env_now (w_tick s.1) in
  let (resp, s1) := next r (next_tick s.1, s.2) in
  let line := {| al_method := Req_Method r; al_path := Req_Path r; al_status := Status resp;
                 al_duration := (env_now (w_tick s1.1) - start)%Z; al_remote := ClientIP r;
                 al_requestID := ctx_RequestID r; al_traceID := ctx_TraceID r |} in
  (resp, (next_tick s1.1, on_log line s1.2)).

Definition routePattern (r : Request) : string :=
  if negb (RoutePattern r =?= "") then RoutePattern r else "unmatched".
Definition status_label (status : Z) : string :=
  let s := pretty status in
  if Nat.ltb 1 (String.length s) then String.substring 0 1 s +:+ "xx" else s.
Definition MetricsMiddleware (next : Handler State) : Handler State := fun r s =>
  let l := on_metrics (add_inFlight 1) s.2 in
  let start := env_now (w_tick s.1) in
  let (resp, s1) := next r (next_tick s.1, l) in
  let duration := (env_now (w_tick s1.1) - start)%Z in
  (resp, (next_tick s1.1,
    on_metrics (add_inFlight (-1))
      (on_metrics (count_request (Req_Method r) (routePattern r) (status_label (Status resp)) duration) s1.2))).

(** Neither changes a request, a response or the tables. *)
Lemma Logging_passes next r s : exists l,
  (Logging next r s).1 = (next r (next_tick s.1, s.2)).1 /\
  w_db (Logging next r s).2.1 = w_db (next r (next_tick s.1, s.2)).2.1 /\
  (Logging next r s).2.2 = on_log l (next r (next_tick s.1, s.2)).2.2.
Proof. unfold Logging. destruct (next _ _) as [resp s1]. by eexists. Qed.
Lemma MetricsMiddleware_passes next r s :
  let inner := next r (next_tick s.1, on_metrics (add_inFlight 1) s.2) in
  (MetricsMiddleware next r s).1 = inner.1 /\ w_db (MetricsMiddleware next r s).2.1 = w_db inner.2.1.
Proof. unfold MetricsMiddleware. cbv zeta. by destruct (next _ _). Qed.

(** ** What is counted

    A handler that records nothing itself. *)
Context `{!ObservedLaws}.
Definition silent (next : Handler State) : Prop := forall r s, observed (next r s).2.2 = observed s.2.
Lemma counted next r s : silent next ->
  let m := ob_metrics (observed s.2) in let m' := ob_metrics (observed (MetricsMiddleware next r s).2.2) in
  mt_requests m' = Inc (Req_Method r, routePattern r, status_label (Status (MetricsMiddleware next r s).1)) (mt_requests m) /\
  mt_inFlight m' = mt_inFlight m.
Proof.
  intros Hs. cbv zeta. unfold MetricsMiddleware. specialize (Hs r (next_tick s.1, on_metrics (add_inFlight 1) s.2)).
  destruct (next _ _) as [resp s1]. cbn [fst snd] in *. unfold on_metrics in *.
  rewrite !observed_observe. cbn. rewrite Hs, observed_observe. cbn. split; [done|lia].
Qed.

(** Serving requests one after the other. *)
Fixpoint serve_all (h : Handler State) (rs : list Request) (s : State) : State :=
  match rs with [] => s | r :: rest => serve_all h rest (h r s).2 end.
Definition series (s : State) : gmap (string * string * string) N := mt_requests (ob_metrics (observed s.2)).
Lemma Inc_dom {K} `{Countable K} (k : K) m : dom (Inc k m) = {[k]} ∪ dom m.
Proof. unfold Inc. by rewrite dom_insert_L. Qed.

(** The route and status labels are bounded: whatever requests are served, a series is
    labelled with a pattern of the router or with "unmatched", never with a path. *)
Lemma labels_bounded (pats : list string) next rs s : silent next ->
  (forall r, RoutePattern r = "" \/ RoutePattern r ∈ pats) ->
  (forall k, k ∈ dom (series s) -> k.1.2 ∈ "unmatched" :: pats) ->
  forall k, k ∈ dom (series (serve_all (MetricsMiddleware next) rs s)) -> k.1.2 ∈ "unmatched" :: pats.
Proof.
  intros Hs Hp. revert s. induction rs as [|r rs IH]; intros s Hk0; [done|]. apply IH.
  intros k. unfold series. destruct (counted next r s Hs) as [-> _]. rewrite Inc_dom.
  intros [->%elem_of_singleton|Hk]%elem_of_union; [|by apply Hk0]. cbn. unfold routePattern.
  destruct (RoutePattern r =?= "") eqn:E; cbn; [by left|]. apply elem_of_cons. right.
  destruct (Hp r) as [Hr|Hr]; [|done]. by apply beq_false in E.
Qed.

(** The method label is not bounded: it is the request's own method, so requests with
    pairwise different methods create one series each. *)
Lemma methods_unbounded next rs s : silent next -> NoDup (map Req_Method rs) ->
  (forall r k, r ∈ rs -> k ∈ dom (series s) -> k.1.1 <> Req_Method r) ->
  size (dom (series (serve_all (MetricsMiddleware next) rs s))) = (length rs + size (dom (series s)))%nat.
Proof.
  intros Hs. revert s. induction rs as [|r rs IH]; intros s Hn Hf; [done|].
  apply NoDup_cons in Hn as [Hr Hn]. cbn [serve_all length]. pose proof (counted next r s Hs) as [Hc _]. cbv zeta in Hc.
  change (series (MetricsMiddleware next r s).2 = Inc (Req_Method r, routePattern r,
    status_label (Status (MetricsMiddleware next r s).1)) (series s)) in Hc.
  rewrite IH; [|done|].
  - rewrite Hc, Inc_dom, size_union, size_singleton; [lia|].
    intros k ->%elem_of_singleton Hk. by destruct (Hf r _ (list_elem_of_here _ _) Hk).
  - intros r' k Hr'. rewrite Hc, Inc_dom. intros [->%elem_of_singleton|Hk]%elem_of_union.
    + cbn. intros Heq. apply Hr. rewrite Heq. by apply list_elem_of_fmap_2.
    + apply Hf; [by right|done].
Qed.
End middleware.

(** Observations kept beside a limiter's or any other state. *)
#[export] Instance observed_beside {L} : Observed (Observations * L) := {|
  observed s := s.1; observe o s := (o, s.2)
|}.
#[export] Instance observed_beside_laws {L} : @ObservedLaws (Observations * L) observed_beside.
Proof. by split. Qed.
Definition no_observations : Observations := {| ob_metrics := New; ob_log := [] |}.

(** A request with a method of its own is served like any other and adds a series. *)
Example odd_method :
  let h := @MetricsMiddleware demo {| RoutePattern _ := "" |} (Observations * unit) _
    (fun _ s => (respond 405 None, s)) in
  map_to_list (series (h {| Req_Method := "M1"; Req_Path := "/"; Req_RemoteAddr := "8.8.8.8:1"; Header_Get _ := "";
    URLParam _ := ""; Req_Query := []; Req_Body := ""; Req_MaxBytes := None; ctx_Principal := None; ctx_Tenant := None;
    ctx_RequestID := ""; ctx_TraceID := "" |} (demo_world demo_DB, (no_observations, tt))).2) =
  [("M1", "unmatched", "4xx", 1%N)].
Proof. vm_compute. reflexivity. Qed.
