(* ===== verification/QueueDepth.v ===== *)
(** * Reports about the queue

    Models [Stats] and [PendingFor] of [internal/jobs/jobs.go], [publishQueueDepth] of
    [cmd/worker/main.go], and the labels under which [internal/jobs/worker.go] counts the
    outcome of a job.  These operations only read the queue; their results end up in the
    registry of [Observers.v]. *)
From S2P Require Import Prelude.
From S2P Require Import GoError.
From S2P Require Import Schema.
From S2P Require Import Store.
From S2P Require Import Logic.
From S2P Require Import GoStrings.
From S2P Require Import Utf8.
From S2P Require Import JsonDecode.
From S2P Require Import Demo.
From S2P Require Import Jobs.
From S2P Require Import QueueFacts.
From S2P Require Import QueueDemo.
From S2P Require Import Worker.
From S2P Require Import WorkerLife.
From S2P Require Import WorkerMain.
From S2P Require Import Observers.
Local Open Scope string_scope.

(** ** Depth *)
Record Stats := { StreamLength : Z; Pending : Z; RetryDue : Z; DeadLength : Z }.

(** XPENDING needs the consumer group. *)
Definition XPENDING (r : Redis) : reply Z :=
  if rd_group r then Reply (Z.of_nat (length (rd_pending r)))
  else ErrorReply "NOGROUP No such key 'teamflow:jobs:stream' or consumer group 'teamflow-workers'".
Definition ZCOUNT (max : Z) (r : Redis) : Z := Z.of_nat (length (filter (fun e => (e.2 <= max)%Z) (rd_retry r))).

Section reports.
Context `{Env} `{AEAD} `{Platform} `{RedisServer}.
(** Four commands in one pipeline; [pipe.Exec] reports the first error reply. *)
Definition Stats_ (c : Ctx) : M Stats :=
  now <- timeNow ;;
  wrapf "jobs: queue stats" (
    ctx_check c ;;;
    streamLen <- transmit (shows (fun r => Z.of_nat (length (rd_stream r)))) ;;
    pending <- transmit (fun r => (XPENDING r, r)) ;;
    due <- transmit (shows (ZCOUNT (UnixMilli now))) ;;
    deadLen <- transmit (shows (fun r => Z.of_nat (length (rd_dead r)))) ;;
    received ;;;
    streamLen <- value streamLen ;; pending <- value pending ;; due <- value due ;; deadLen <- value deadLen ;;
    ret {| StreamLength := streamLen; Pending := pending; RetryDue := due; DeadLength := deadLen |}).
Definition publishQueueDepth (c : Ctx) (s : World * Metrics) : result unit * (World * Metrics) :=
  match Stats_ c s.1 with
  | (Err e, w) => (Err e, (w, s.2))
  | (Ok stats, w) => (Ok tt, (w,
      SetQueueDepth "dead" (DeadLength stats) (SetQueueDepth "retry" (RetryDue stats)
        (SetQueueDepth "ready" (StreamLength stats) s.2))))
  end.

(** [PendingFor]: the first entry of the stream that opens to a job with this identifier. *)
Definition holds_job (q : Queue) (jobID : string) (entry : N * option string) : bool :=
  match entry.2 with
  | None => false
  | Some sealed => match open q sealed with Ok job => Job_ID job =?= jobID | Err _ => false end
  end.
Definition PendingFor (q : Queue) (c : Ctx) (jobID : string) : M (option N) :=
  entries <- wrapf "jobs: scan stream" (run_command c (shows rd_stream)) ;;
  ret (fst <$> List.find (holds_job q jobID) entries).

(** The label of the counter that [handle] increments, by the outcome of the handler; a
    completed job is counted only once it is acknowledged. *)
Definition outcome_label (wk : Worker) (job : Job) (outcome : result unit) : string :=
  if Job_Type job =?= "" then "dead_lettered" else
  match handler_for wk (Job_Type job) with
  | None => "unhandled"
  | Some _ =>
      match outcome with
      | Ok _ => "completed"
      | Err e => if IsPermanent e || Z.leb (Job_MaxAttempts job) (wrap64 (Job_Attempts job + 1)) then "dead_lettered" else "failed"
      end
  end.
(** [observe] *)
Definition observe_job (jobType label : string) (duration : Z) (m : Metrics) : Metrics :=
  ObserveJob jobType duration (CountJob jobType label m).
End reports.

(** ** Facts *)
Section facts.
Context `{Env} `{AEADLaws} `{PlatformLaws} `{RedisLaws}.

Lemma ctx_check_up c w : up c -> ctx_check c w = (Ok tt, w).
Proof. intros (Hc & _). unfold ctx_check. by rewrite Hc. Qed.
Lemma transmit_read c {A} (f : Redis -> reply A) w : up c ->
  exists w', transmit (fun r => (f r, r)) w = (Ok (f (w_redis w)), w') /\ w_redis w' = w_redis w /\ w_db w' = w_db w.
Proof. intros (_ & Hf & Hn & _). unfold transmit. rewrite Hf, Hn. by eexists. Qed.

(** While Redis answers and the consumer group exists, the depths that are published are
    those of the stream, of the retry set up to now and of the dead-letter stream; reading
    them changes nothing. *)
Lemma publishQueueDepth_exact c w m : up c -> rd_group (w_redis w) = true ->
  exists w' m', publishQueueDepth c (w, m) = (Ok tt, (w', m')) /\
    mt_queueDepth m' !! "ready" = Some (Z.of_nat (length (rd_stream (w_redis w)))) /\
    mt_queueDepth m' !! "retry" = Some (ZCOUNT (UnixMilli (env_now (w_tick w))) (w_redis w)) /\
    mt_queueDepth m' !! "dead" = Some (Z.of_nat (length (rd_dead (w_redis w)))) /\
    mt_requests m' = mt_requests m /\ w_redis w' = w_redis w /\ w_db w' = w_db w.
Proof.
  intros Hup Hg. unfold publishQueueDepth, Stats_. cbn [fst snd].
  set (w0 := next_tick w). assert (Hw0 : w_redis w0 = w_redis w /\ w_db w0 = w_db w) by done. destruct Hw0 as [Hr0 Hd0].
  unfold bind at 1. unfold timeNow. fold w0. unfold wrapf, map_err.
  unfold bind at 1. rewrite ctx_check_up by done.
  destruct (transmit_read c (fun r => Reply (Z.of_nat (length (rd_stream r)))) w0 Hup) as (w1 & E1 & Hr1 & Hd1). unfold bind at 1, shows at 1. rewrite E1.
  destruct (transmit_read c XPENDING w1 Hup) as (w2 & E2 & Hr2 & Hd2). unfold bind at 1. rewrite E2.
  destruct (transmit_read c (fun r => Reply (ZCOUNT (UnixMilli (env_now (w_tick w))) r)) w2 Hup) as (w3 & E3 & Hr3 & Hd3). unfold bind at 1, shows at 1. rewrite E3.
  destruct (transmit_read c (fun r => Reply (Z.of_nat (length (rd_dead r)))) w3 Hup) as (w4 & E4 & Hr4 & Hd4). unfold bind at 1, shows at 1. rewrite E4.
  unfold bind, received. destruct Hup as (_ & Hf & _). rewrite Hf. rewrite Hr1, Hr0. unfold XPENDING. rewrite Hg.
  eexists _, _. split; [reflexivity|]. cbn. rewrite !lookup_insert. cbn.
  split_and!; try done; try congruence; rewrite ?Hr3, ?Hr2, ?Hr1, ?Hr0; reflexivity.
Qed.

(** A job that was enqueued without delay is found in the stream by its identifier. *)
Lemma enqueued_is_pending q c t p w j w' : up c -> rand_ok -> queue_ok q -> (forall n, utf8_valid (uuid_String n)) ->
  Enqueue q c t p w = (Ok j, w') -> exists id, (PendingFor q c (Job_ID j) w').1 = Ok (Some id) /\
    exists entry, entry ∈ rd_stream (w_redis w') /\ entry.1 = id /\ holds_job q (Job_ID j) entry = true.
Proof.
  intros Hup Hr [Hq _] Hu E. unfold Enqueue, enqueue in E.
  apply bind_Ok in E as ([] & w1 & [_ <-]%reject_if_Ok & E). apply bind_Ok in E as (jid & w2 & _ & E).
  apply bind_Ok in E as (now & w3 & _ & E). cbv zeta in E. apply bind_Ok in E as (sealed & w4 & Es & E).
  change (Z.ltb 0 0) with false in E. cbv iota in E.
  apply bind_Ok in E as ([] & w5 & [_ Hx]%wrapf_Ok%run_command_Ok & E). apply ret_Ok in E as [<- <-].
  apply open_seal in Es; [|done|split; unfold int64_range; cbn; lia].
  destruct (XADD_entry sealed (w_redis w4)) as (eid & _ & Hst & _). cbn [wrote snd] in Hx.
  assert (Hh : holds_job q (uuid_String jid) (eid, Some sealed) = true).
  { unfold holds_job. cbn [snd]. rewrite Es. apply beq_true. cbn. apply Hu. }
  assert (Hin : (eid, Some sealed) ∈ rd_stream (w_redis w5)).
  { rewrite Hx, Hst. apply elem_of_app. right. by left. }
  cbn [Job_ID]. unfold PendingFor, wrapf, map_err, run_command, command. unfold bind at 1. unfold bind at 1. unfold bind at 1. rewrite ctx_check_up by done.
  destruct (transmit_read c (fun r => Reply (rd_stream r)) w5 Hup) as (w6 & E6 & _). unfold bind at 1, shows. rewrite E6. unfold bind, received, ret.
  destruct Hup as (_ & Hf & _). rewrite Hf. cbn [value ret].
  destruct (List.find (holds_job q (uuid_String jid)) (rd_stream (w_redis w5))) as [e|] eqn:Ef.
  - exists e.1. split; [done|]. apply List.find_some in Ef as [He Hhe]. exists e. split_and!; [by apply list_elem_of_In|done|done].
  - exfalso. pose proof (List.find_none _ _ Ef (eid, Some sealed) (proj1 (list_elem_of_In _ _) Hin)). congruence.
Qed.

(** The label tells the truth about the queue: a failure that is counted as dead-lettered is
    exactly one whose attempts are exhausted, and that is what [Fail_] decides by. *)
Lemma outcome_label_exhausted wk job h e : (0 <= Job_Attempts job < 2 ^ 63 - 1)%Z ->
  Job_Type job <> "" -> handler_for wk (Job_Type job) = Some h ->
  (outcome_label wk job (Err e) = "dead_lettered" <-> exhausted (failed_job job e) e = true).
Proof.
  intros Ha Ht Hh. unfold outcome_label, exhausted. rewrite Hh, (proj2 (beq_false _ _) Ht). cbn.
  rewrite wrap64_id by lia. destruct (IsPermanent e); cbn; [done|].
  destruct (Z.leb_spec (Job_MaxAttempts job) (Job_Attempts job + 1)).
  - by rewrite orb_true_r.
  - destruct (Z.leb_spec (Job_MaxAttempts job) 0); [lia|]. done.
Qed.
End facts.
