(* ===== verification/Routing.v ===== *)
(** * Routing

    A router as the code builds it with [chi]: entries registered in order, each with the
    inline middleware of its group, and nested routers with a stack of their own.  Matching
    a request against the patterns of one router, and running the result, are the library's:
    parameters, with the documented contract as [ChiLaws].  [dispatch] is what the
    development uses of it: every request is either refused on the way or reaches the
    handler of the entry that [route] computes from its method and path alone. *)
From S2P Require Import Prelude.
From S2P Require Import GoError.
From S2P Require Import Schema.
From S2P Require Import Store.
From S2P Require Import Logic.
From S2P Require Import GoStrings.
From S2P Require Import Http.
From S2P Require Import RateLimit.
From S2P Require Import Auth.
From S2P Require Import AuthHttp.
From S2P Require Import Permissions.
From S2P Require Import GoNet.
From S2P Require Import Endpoint.
From S2P Require Import ApiKeys.
From S2P Require Import Organizations.
Local Open Scope string_scope.

(** ** Registered routes *)
Inductive Routes (S : Type) : Type :=
| NoRoutes
| Method (method pattern : string) (inline : list (Middleware S)) (h : Handler S) (next : Routes S)
| Mount (pattern : string) (inline stack : list (Middleware S)) (sub : Routes S) (next : Routes S).
Arguments NoRoutes {S}.
Arguments Method {S}.
Arguments Mount {S}.

Section routes.
Context {S : Type}.
(** [r.Get], [r.Post], [r.Patch], [r.Delete]; [r.Route] with the [Use]s of its function. *)
Definition Get (pattern : string) (h : Handler S) : Routes S -> Routes S := Method "GET" pattern [] h.
Definition Post (pattern : string) (h : Handler S) : Routes S -> Routes S := Method "POST" pattern [] h.
Definition Patch (pattern : string) (h : Handler S) : Routes S -> Routes S := Method "PATCH" pattern [] h.
Definition Delete (pattern : string) (h : Handler S) : Routes S -> Routes S := Method "DELETE" pattern [] h.
Definition Route (pattern : string) (stack : list (Middleware S)) (sub : Routes S) : Routes S -> Routes S :=
  Mount pattern [] stack sub.
(** [r.Group]: its middleware runs in front of every entry it registers. *)
Fixpoint Group (mws : list (Middleware S)) (rs next : Routes S) : Routes S :=
  match rs with
  | NoRoutes => next
  | Method m p inline h rest => Method m p (mws ++ inline) h (Group mws rest next)
  | Mount p inline stack sub rest => Mount p (mws ++ inline) stack sub (Group mws rest next)
  end.
(** Registered only when the dependency is there. *)
Definition when (b : bool) (f : Routes S -> Routes S) (next : Routes S) : Routes S := if b then f next else next.

Fixpoint patterns (rs : Routes S) : list (option string * string) :=
  match rs with
  | NoRoutes => []
  | Method m p _ _ rest => (Some m, p) :: patterns rest
  | Mount p _ _ _ rest => (None, p) :: patterns rest
  end.
End routes.

(** ** The library *)

(** What a router finds for a method and a path: the entry and the values of the
    parameters of its pattern, no entry, or entries for other methods only. *)
Inductive Lookup := Found (entry : nat) (params : list (string * string)) | NotFound | MethodNotAllowed.
Definition add_params (params : list (string * string)) (f : string -> string) : string -> string := fun k =>
  default (f k) (snd <$> List.find (fun kv => fst kv =?= k) params).
Definition set_params (params : list (string * string)) (r : Request) : Request := {|
  Req_Method := Req_Method r; Req_Path := Req_Path r; Req_RemoteAddr := Req_RemoteAddr r;
  Header_Get := Header_Get r; URLParam := add_params params (URLParam r); Req_Query := Req_Query r;
  Req_Body := Req_Body r; Req_MaxBytes := Req_MaxBytes r; ctx_Principal := ctx_Principal r;
  ctx_Tenant := ctx_Tenant r; ctx_RequestID := ctx_RequestID r; ctx_TraceID := ctx_TraceID r
|}.
(** Matching sees the method, the path and the parameters so far (the rest of the path
    that a nested router matches is the wildcard parameter of its mount point).  Running a
    router needs its handlers for unknown routes and for other methods. *)
Class Chi (S : Type) := {
  chi_find : list (option string * string) -> string -> string -> (string -> string) -> Lookup;
  chi_ServeHTTP : Handler S -> Handler S -> list (Middleware S) -> Routes S -> Handler S
}.
(** [k] is the wildcard or occurs in the pattern as a placeholder. *)
Definition names (pattern k : string) : Prop := k = "*" \/ exists a b, pattern = a +:+ "{" +:+ k +:+ "}" +:+ b.

Lemma contains_app p a b : contains p (a ++ p ++ b) = true.
Proof.
  assert (Hp : strip_prefix p (p ++ b) = Some b).
  { induction p as [|x p IH]; cbn; [done|]. by rewrite N.eqb_refl. }
  induction a as [|x a IH]; cbn [app].
  - destruct (p ++ b)%list; cbn [contains]; by rewrite Hp.
  - cbn [contains]. by rewrite IH, orb_true_r.
Qed.
Lemma strip_prefix_Some p l r : strip_prefix p l = Some r -> l = (p ++ r)%list.
Proof.
  revert l. induction p as [|x p IH]; intros l; cbn; [congruence|]. destruct l as [|y l]; [done|].
  destruct (N.eqb_spec x y) as [->|]; [|done]. intros Hr%IH. by rewrite Hr.
Qed.
Lemma not_names p k : (k =?= "*") = false -> Contains p ("{" +:+ k +:+ "}") = false -> ~ names p k.
Proof.
  intros Hk Hc [->|(a & b & ->)]; [done|]. unfold Contains in Hc. revert Hc.
  rewrite !bytes_append. pose proof (contains_app (bytes "{" ++ bytes k ++ bytes "}")%list (bytes a) (bytes b)) as Ha.
  rewrite <- !app_assoc in Ha. by rewrite Ha.
Qed.

Section dispatch.
Context {S : Type} `{Chi S} (notFound notAllowed : Handler S).
(** The entry at an index: its inline middleware, then its handler or nested router. *)
Fixpoint select (rs : Routes S) (i : nat) : option (Handler S) :=
  match rs, i with
  | NoRoutes, _ => None
  | Method _ _ inline h _, O => Some (chain inline h)
  | Mount _ inline stack sub _, O => Some (chain inline (chi_ServeHTTP notFound notAllowed stack sub))
  | Method _ _ _ _ rest, Datatypes.S i | Mount _ _ _ _ rest, Datatypes.S i => select rest i
  end.
Definition dispatch_found (rs : Routes S) : Handler S := fun r s =>
  match chi_find (patterns rs) (Req_Method r) (Req_Path r) (URLParam r) with
  | Found i params => match select rs i with Some h => h (set_params params r) s | None => notFound r s end
  | NotFound => notFound r s
  | MethodNotAllowed => notAllowed r s
  end.
End dispatch.
Class ChiLaws {S} `{Chi S} : Prop := {
  (** The stack of a router runs before a route is searched; nested routers share the
      handlers for unknown routes and other methods. *)
  chi_serves nf na stack rs r s :
    chi_ServeHTTP nf na stack rs r s = chain stack (dispatch_found nf na rs) r s;
  (** Parameters are those of the pattern that matched. *)
  chi_names ps method path params i found kv :
    chi_find ps method path params = Found i found -> kv ∈ found -> exists e, ps !! i = Some e /\ names (snd e) (fst kv)
}.

(** ** Where a request goes *)
Record Target (S : Type) := { T_Method : string; T_Pattern : string; T_Params : string -> string; T_Handler : Handler S }.
Arguments T_Method {S}.
Arguments T_Pattern {S}.
Arguments T_Params {S}.
Arguments T_Handler {S}.

Section target.
Context {S : Type} `{Chi S}.
(** The handler that answers, with the whole pattern ([chi]'s route pattern) and all
    parameters. *)
Fixpoint target (rs : Routes S) (i : nat) (prefix method path : string) (params : string -> string) : option (Target S) :=
  match rs, i with
  | NoRoutes, _ => None
  | Method m p _ h _, O => Some {| T_Method := m; T_Pattern := prefix +:+ p; T_Params := params; T_Handler := h |}
  | Mount p _ _ sub _, O =>
      match chi_find (patterns sub) method path params with
      | Found j found => target sub j (prefix +:+ p) method path (add_params found params)
      | _ => None
      end
  | Method _ _ _ _ rest, Datatypes.S i | Mount _ _ _ _ rest, Datatypes.S i => target rest i prefix method path params
  end.
Definition route (rs : Routes S) (prefix method path : string) (params : string -> string) : option (Target S) :=
  match chi_find (patterns rs) method path params with
  | Found i found => target rs i prefix method path (add_params found params)
  | _ => None
  end.

(** A property of every entry, by method and whole pattern. *)
Fixpoint each (Q : string -> string -> Handler S -> Prop) (prefix : string) (rs : Routes S) : Prop :=
  match rs with
  | NoRoutes => True
  | Method m p _ h rest => Q m (prefix +:+ p) h /\ each Q prefix rest
  | Mount p _ _ sub rest => each Q (prefix +:+ p) sub /\ each Q prefix rest
  end.
Lemma target_each Q rs i prefix method path params t :
  each Q prefix rs -> target rs i prefix method path params = Some t -> Q (T_Method t) (T_Pattern t) (T_Handler t).
Proof.
  revert i prefix params. induction rs as [|m p inline h rest IH|p inline stack sub IHs rest IH]; intros i prefix params Hq Ht; [done| |].
  - destruct Hq as [Hq Hr]. destruct i; [by simplify_eq/=|]. by eapply IH.
  - destruct Hq as [Hq Hr]. destruct i; [|by eapply IH]. cbn [target] in Ht.
    destruct (chi_find _ _ _ _); [|done..]. by eapply IHs.
Qed.
Lemma route_each Q rs prefix method path params t :
  each Q prefix rs -> route rs prefix method path params = Some t -> Q (T_Method t) (T_Pattern t) (T_Handler t).
Proof. unfold route. destruct (chi_find _ _ _ _); [apply target_each|done..]. Qed.
Lemma each_group Q prefix mws rs next : each Q prefix rs -> each Q prefix next -> each Q prefix (Group mws rs next).
Proof. intros Hr Hn. induction rs; cbn in *; intuition. Qed.
Lemma each_when Q prefix b f next : (b = true -> each Q prefix (f next)) -> each Q prefix next -> each Q prefix (when b f next).
Proof. destruct b; intros; [by auto|done]. Qed.
Lemma each_when_map Q prefix b f next : (forall next, each Q prefix next -> each Q prefix (f next)) ->
  each Q prefix next -> each Q prefix (when b f next).
Proof. destruct b; intros; [by auto|done]. Qed.
End target.

(** ** A request on its way

    [carries x y]: request and state [x], some middleware and some matching later, have
    become [y].  The headers are the client's; the tables are as before, up to the last use
    of an API key; the principal is as before or comes from the request's own credentials,
    resolved on the way; the organization of the path never changes once it is set. *)
Definition orgID : string := "orgID".
(** Headers that only the outermost middleware sets. *)
Definition reserved : list string :=
  ["X-Content-Type-Options"; "X-Frame-Options"; "Referrer-Policy"; "Content-Security-Policy"; "X-Request-ID"; "X-Trace-Id"].
Definition quiet (hs : gmap string string) : Prop := forall k, k ∈ reserved -> hs !! k = None.
Lemma quiet_union a b : quiet a -> quiet b -> quiet (a ∪ b).
Proof. intros Ha Hb k Hk. apply lookup_union_None. auto. Qed.

Section walk.
Context `{Env} `{AuthConfig} `{JwtParser} {L : Type}.
#[local] Existing Instance key_authenticator.
Abbreviation State := (World * L)%type.

Definition same_key (x y : Request) : Prop := URLParam x orgID = "" \/ URLParam y orgID = URLParam x orgID.
Record carries (x y : Request * State) : Prop := {
  c_method : Req_Method y.1 = Req_Method x.1;
  c_path : Req_Path y.1 = Req_Path x.1;
  c_headers : Header_Get y.1 = Header_Get x.1;
  c_key : same_key x.1 y.1;
  c_stamped : stamped (w_db x.2.1) (w_db y.2.1);
  c_anonymous : anonymous x.1 -> w_db y.2.1 = w_db x.2.1 /\ ctx_Principal y.1 = ctx_Principal x.1;
  c_principal : ctx_Principal y.1 = ctx_Principal x.1 \/
    exists p z, ctx_Principal y.1 = Some p /\ Header_Get z.1 = Header_Get x.1 /\ same_key x.1 z.1 /\ same_key z.1 y.1 /\
      stamped (w_db x.2.1) (w_db z.2) /\ (resolve z.1 z.2).1 = Ok (Some p)
}.
Lemma same_key_trans x y z : same_key x y -> same_key y z -> same_key x z.
Proof. unfold same_key. intros [?|Hy] Hz; [by left|]. rewrite Hy in Hz. destruct Hz; [by left|by right; congruence]. Qed.
Lemma anonymous_headers r r' : Header_Get r' = Header_Get r -> anonymous r -> anonymous r'.
Proof. unfold anonymous, bearerToken. by intros ->. Qed.
#[export] Instance carries_pre : PreOrder carries.
Proof.
  split.
  - intros x. split; try done; [by right|by left].
  - intros x y z [Hm Hp Hh Hk Hs Ha Hc] [Hm' Hp' Hh' Hk' Hs' Ha' Hc'].
    assert (Hkey : same_key x.1 z.1) by (by eapply same_key_trans). split; [congruence..|done|by etrans| |].
    + intros An. destruct (Ha An) as [<- <-]. apply Ha', (anonymous_headers x.1); done.
    + destruct Hc' as [Hc'|(p & v & Hv & Hvh & Hv1 & Hv2 & Hvs & Hr)].
      * destruct Hc as [Hc|(p & v & Hv & Hvh & Hv1 & Hv2 & Hvs & Hr)]; [left; congruence|].
        right. exists p, v. split_and!; try done; [congruence|exact (same_key_trans _ _ _ Hv2 Hk')].
      * right. exists p, v. split_and!; try done; [congruence|exact (same_key_trans _ _ _ Hk Hv1)|by etrans].
Qed.

(** An answer: refused on the way with an error, or what [Q] says of the request and state
    that were reached, with more headers. *)
Definition refused (x : Request * State) (out : Response * State) : Prop :=
  failed out.1 /\ quiet (Headers out.1) /\ exists r, carries x (r, out.2).
Definition ends (x : Request * State) (out : Response * State) (Q : Request -> State -> Response * State -> Prop) : Prop :=
  refused x out \/ exists r s hs out', carries x (r, s) /\ quiet hs /\ Q r s out' /\ out = (with_headers hs out'.1, out'.2).
Lemma with_headers_with a b r : with_headers a (with_headers b r) = with_headers (b ∪ a) r.
Proof. unfold with_headers. cbn. by rewrite map_union_assoc. Qed.
Lemma with_headers_empty r : with_headers ∅ r = r.
Proof. destruct r. unfold with_headers. cbn. by rewrite map_union_empty. Qed.
Lemma ends_here r s out Q : Q r s out -> ends (r, s) out Q.
Proof. intros HQ. right. exists r, s, ∅, out. split_and!; [done|by intros ? _|done|]. rewrite with_headers_empty. by destruct out. Qed.
Lemma ends_after x y out Q : carries x y -> ends y out Q -> ends x out Q.
Proof.
  intros Hc [(Hf & Hq & r & Hr)|(r & s & hs & o & Hr & Hq & HQ & ->)].
  - left. split_and!; [done..|]. exists r. by etrans.
  - right. exists r, s, hs, o. split_and!; try done. by etrans.
Qed.
Lemma ends_bind x out Q Q' : ends x out Q -> (forall r s o, carries x (r, s) -> Q r s o -> ends (r, s) o Q') -> ends x out Q'.
Proof.
  intros [Hr|(r & s & hs & o & Hc & Hq & HQ & ->)] Hn; [by left|].
  destruct (Hn r s o Hc HQ) as [(Hf & Hqo & r' & Hr')|(r' & s' & hs' & o' & Hc' & Hq' & HQ' & ->)].
  - left. split_and!; [destruct Hf as [e He]; by exists e|by apply quiet_union|]. exists r'. by etrans.
  - right. exists r', s', (hs' ∪ hs), o'. split_and!; [by etrans|by apply quiet_union|done|].
    cbn. by rewrite with_headers_with.
Qed.
(** Middleware that refuses or passes the request on, its parameters as they were. *)
Definition passes (mw : Middleware State) : Prop := forall next r s,
  ends (r, s) (mw next r s) (fun r' s' out => out = next r' s' /\ URLParam r' = URLParam r).
Lemma chain_ends mws h r s : Forall passes mws ->
  ends (r, s) (chain mws h r s) (fun r' s' out => out = h r' s' /\ URLParam r' = URLParam r).
Proof.
  intros Hm. revert r s. induction Hm as [|mw mws Hmw _ IH]; intros r s; cbn; [by apply ends_here|].
  eapply ends_bind; [apply Hmw|]. intros r1 s1 o Hc [-> Hp].
  eapply ends_bind; [apply IH|]. intros r2 s2 o2 Hc2 [-> Hp2]. apply ends_here. split; [done|congruence].
Qed.

(** No pattern below one that names the organization names it again. *)
Fixpoint scoped (seen : bool) (rs : Routes State) : Prop :=
  match rs with
  | NoRoutes => True
  | Method _ p inline _ rest => Forall passes inline /\ (seen = true -> ~ names p orgID) /\ scoped seen rest
  | Mount p inline stack sub rest =>
      Forall passes inline /\ Forall passes stack /\
      ((~ names p orgID /\ scoped seen sub) \/ (seen = false /\ scoped true sub)) /\ scoped seen rest
  end.
Definition unset (seen : bool) (r : Request) : Prop := seen = true \/ URLParam r orgID = "".

Lemma add_params_other ps f k : (forall kv, kv ∈ ps -> kv.1 <> k) -> add_params ps f k = f k.
Proof.
  intros Hn. unfold add_params. destruct (List.find _ ps) as [kv|] eqn:E; [|done].
  apply List.find_some in E as [Hin Hk%beq_eq]. by destruct (Hn kv); [apply list_elem_of_In|].
Qed.
Lemma set_params_carries ps r s : (URLParam r orgID = "" \/ forall kv, kv ∈ ps -> kv.1 <> orgID) ->
  carries (r, s) (set_params ps r, s).
Proof.
  intros Hk. split; try done; [|by left]. destruct Hk as [Hk|Hk]; [by left|right]. by apply add_params_other.
Qed.

Lemma scoped_group seen mws rs next : Forall passes mws -> scoped seen rs -> scoped seen next -> scoped seen (Group mws rs next).
Proof.
  intros Hm Hr Hn. induction rs as [|m p inline h rest IH|p inline stack sub _ rest IH]; cbn in *; [done| |];
    (split; [apply Forall_app; by split; [|apply Hr]|]); intuition.
Qed.
Lemma scoped_when seen b f next : (forall next, scoped seen next -> scoped seen (f next)) -> scoped seen next ->
  scoped seen (when b f next).
Proof. destruct b; cbn; auto. Qed.

Section served.
Context `{Chi State} `{!ChiLaws} (nf na : Handler State).
(** The handlers for unknown routes and other methods only refuse. *)
Hypothesis nf_refuses : forall r s, refused (r, s) (nf r s).
Hypothesis na_refuses : forall r s, refused (r, s) (na r s).

(** The answer is that of the handler of [t], on the request that reached it. *)
Definition answered (t : option (Target State)) (r : Request) (s : State) (out : Response * State) : Prop :=
  exists t', t = Some t' /\ out = T_Handler t' r s /\ URLParam r = T_Params t'.
Lemma select_pattern rs i h : select nf na rs i = Some h -> exists e, patterns rs !! i = Some e.
Proof. revert i. induction rs as [| |]; intros [|i]; cbn; [done..|eauto|eauto|eauto|eauto]. Qed.
Lemma scoped_entry rs i e : scoped true rs -> patterns rs !! i = Some e -> ~ names e.2 orgID.
Proof.
  revert i. induction rs as [|m p inline h rest IH|p inline stack sub _ rest IH]; intros i Hs He; [done| |]; destruct i; cbn in He, Hs.
  - simplify_eq/=. destruct Hs as (_ & Hn & _). by apply Hn.
  - apply (IH i); [apply Hs|done].
  - simplify_eq/=. by destruct Hs as (_ & _ & [[? _]|[? _]] & _).
  - apply (IH i); [apply Hs|done].
Qed.

(** Entering the entry that matched. *)
Lemma enter seen rs i found e r s : scoped seen rs -> unset seen r ->
  patterns rs !! i = Some e -> (forall kv, kv ∈ found -> names e.2 kv.1) ->
  carries (r, s) (set_params found r, s) /\ (~ names e.2 orgID -> unset seen (set_params found r)).
Proof.
  intros Hs Hu He Hn.
  assert (Hother : ~ names e.2 orgID -> add_params found (URLParam r) orgID = URLParam r orgID).
  { intros Hne. apply add_params_other. intros kv Hin Hk. apply Hne. rewrite <- Hk. auto. }
  split.
  - apply set_params_carries. destruct Hu as [->|Hu]; [|by left]. right.
    intros kv Hin Hk. apply (scoped_entry rs i e Hs He). rewrite <- Hk. auto.
  - intros Hne. destruct Hu as [|Hu]; [by left|right]. cbn. by rewrite Hother.
Qed.

Definition select_ends (rs : Routes State) : Prop := forall seen i e h r s prefix,
  scoped seen rs -> select nf na rs i = Some h -> patterns rs !! i = Some e -> (~ names e.2 orgID -> unset seen r) ->
  ends (r, s) (h r s) (answered (target rs i prefix (Req_Method r) (Req_Path r) (URLParam r))).
Lemma dispatch_ends rs seen r s prefix : select_ends rs -> scoped seen rs -> unset seen r ->
  ends (r, s) (dispatch_found nf na rs r s) (answered (route rs prefix (Req_Method r) (Req_Path r) (URLParam r))).
Proof.
  intros Hsel Hs Hu. unfold dispatch_found, route. destruct (chi_find _ _ _ _) as [i found| |] eqn:Ef;
    [|left; apply nf_refuses|left; apply na_refuses].
  destruct (select nf na rs i) as [h|] eqn:Eh; [|left; apply nf_refuses].
  destruct (select_pattern rs i h Eh) as [e He].
  assert (Hn : forall kv, kv ∈ found -> names e.2 kv.1).
  { intros kv Hin. destruct (chi_names _ _ _ _ _ _ _ Ef Hin) as (e' & He' & Hk). by simplify_eq. }
  destruct (enter seen rs i found e r s Hs Hu He Hn) as [Hc Hset].
  apply (ends_after _ _ _ _ Hc). by apply (Hsel seen i e h (set_params found r) s prefix).
Qed.
Lemma serve_ends rs stack seen r s prefix : select_ends rs -> Forall passes stack -> scoped seen rs -> unset seen r ->
  ends (r, s) (chi_ServeHTTP nf na stack rs r s) (answered (route rs prefix (Req_Method r) (Req_Path r) (URLParam r))).
Proof.
  intros Hsel Hst Hs Hu. rewrite chi_serves. eapply ends_bind; [by apply chain_ends|].
  intros r1 s1 o Hc [-> Hp]. pose proof (c_method _ _ Hc) as Hm. pose proof (c_path _ _ Hc) as Hpath. cbn in Hm, Hpath.
  rewrite <- Hp, <- Hm, <- Hpath. apply (dispatch_ends rs seen); [done..|]. unfold unset. by rewrite Hp.
Qed.
Lemma all_select_ends rs : select_ends rs.
Proof.
  induction rs as [|m p inline h0 rest IH|p inline stack sub IHs rest IH]; intros seen i e h r s prefix Hs Eh He Hu; [done| |].
  - destruct i; cbn in Eh, He; [|by apply (IH seen i e); [apply Hs|..]]. simplify_eq. destruct Hs as [Hi _].
    eapply ends_bind; [by apply chain_ends|]. intros r1 s1 o _ [-> Hp]. apply ends_here. by eexists.
  - destruct i; cbn in Eh, He; [|by apply (IH seen i e); [apply Hs|..]]. simplify_eq. destruct Hs as (Hi & Hst & Hsub & _).
    eapply ends_bind; [by apply chain_ends|]. intros r1 s1 o Hc [-> Hp].
    pose proof (c_method _ _ Hc) as Hm. pose proof (c_path _ _ Hc) as Hpath. cbn in Hm, Hpath. cbn [target].
    rewrite <- Hp, <- Hm, <- Hpath. fold (route sub (prefix +:+ p) (Req_Method r1) (Req_Path r1) (URLParam r1)).
    destruct Hsub as [[Hne Hsub]|[-> Hsub]].
    + apply (serve_ends sub stack seen); [done..|]. unfold unset. rewrite Hp. by apply Hu.
    + apply (serve_ends sub stack true); [done..|by left].
Qed.
(** Every request is refused on the way, or answered by the handler of its route. *)
Lemma dispatch rs r s prefix : scoped false rs -> URLParam r orgID = "" ->
  ends (r, s) (dispatch_found nf na rs r s) (answered (route rs prefix (Req_Method r) (Req_Path r) (URLParam r))).
Proof. intros Hs Hu. apply (dispatch_ends rs false); [apply all_select_ends|done|by right]. Qed.
End served.

(** ** The middleware passes requests on *)
Lemma quiet_insert k v hs : k ∉ reserved -> quiet hs -> quiet (<[k := v]> hs).
Proof. intros Hk Hq k' Hk'. rewrite lookup_insert_ne; [by apply Hq|]. by intros ->. Qed.
Lemma quiet_content : quiet content_type.
Proof. intros k Hk. apply lookup_singleton_None. intros <-. revert Hk. apply (bool_decide_unpack _). vm_compute. exact I. Qed.
Lemma refuses x r s e : carries x (r, s) -> refused x (WriteErrorResponse r e, s).
Proof.
  intros Hc. split_and!; [apply WriteErrorResponse_failed| |by exists r]. unfold WriteErrorResponse.
  destruct (WriteError _ _). apply quiet_content.
Qed.
Lemma ends_next next r s r' s' Q : carries (r, s) (r', s') -> Q r' s' (next r' s') -> ends (r, s) (next r' s') Q.
Proof. intros Hc HQ. apply (ends_after _ _ _ _ Hc), ends_here, HQ. Qed.
Lemma resolve_carries r w l x w1 : resolve r w = (x, w1) ->
  carries (r, (w, l)) (r, (w1, l)) /\ (forall p, found x = Some p -> carries (r, (w, l)) (WithPrincipal p r, (w1, l))).
Proof.
  intros E. destruct (resolve_stamps r w) as [_ Hs]. rewrite E in Hs. cbn in Hs.
  assert (Ha : anonymous r -> w1 = w /\ found x = None).
  { intros An. rewrite (resolve_anonymous r w An) in E. by simplify_eq. }
  split.
  - split; try done; [by right| |by left]. intros An. cbn. by destruct (Ha An) as [-> _].
  - intros p Hp. split; try done; [by right| |].
    + intros An. destruct (Ha An) as [_ Hn]. congruence.
    + right. exists p, (r, w). split_and!; try done; [by right..|]. cbn. rewrite E. destruct x; cbn in Hp; [by rewrite Hp|done].
Qed.
Lemma passes_RequireAuth : passes RequireAuth.
Proof.
  intros next r [w l]. unfold RequireAuth. destruct (ctx_Principal r); [by apply ends_here|]. cbn [fst snd].
  destruct (resolve r w) as [x w1] eqn:E. destruct (resolve_carries r w l x w1 E) as [Hc Hp].
  destruct (found x) as [p|]; [|left; by apply (refuses _ r)]. by apply ends_next; [apply Hp|].
Qed.
Lemma passes_OptionalAuth : passes OptionalAuth.
Proof.
  intros next r [w l]. unfold OptionalAuth. cbn [fst snd].
  destruct (resolve r w) as [x w1] eqn:E. destruct (resolve_carries r w l x w1 E) as [Hc Hp].
  destruct (found x) as [p|]; [|by apply ends_next]. by apply ends_next; [apply Hp|].
Qed.
(** Steps that leave the request's credentials and the tables alone. *)
Lemma carries_same r r' (w w' : World) (l l' : L) : Req_Method r' = Req_Method r -> Req_Path r' = Req_Path r ->
  Header_Get r' = Header_Get r -> URLParam r' = URLParam r -> ctx_Principal r' = ctx_Principal r -> w_db w' = w_db w ->
  carries (r, (w, l)) (r', (w', l')).
Proof. intros Hm Hp Hh Hu Hc Hd. split; cbn; try done; [right; congruence|by rewrite Hd|by left]. Qed.
Lemma passes_RequireTenant : passes RequireTenant.
Proof.
  intros next r [w l]. unfold RequireTenant. destruct (ctx_Principal r) as [p|]; [|left; by apply (refuses _ r)].
  destruct (uuid_Parse _) as [o|]; [|left; by apply (refuses _ r)]. cbn [fst snd].
  destruct (ResolveTenant_pres eq (Principal_UserID p) o w) as [_ Hd].
  destruct (ResolveTenant (Principal_UserID p) o w) as [[t|e] w1]; cbn in Hd.
  - apply ends_next; [|done]. by apply carries_same.
  - left. apply (refuses _ r). by apply carries_same.
Qed.

(** Any rate limiter that leaves the world alone. *)
Context `{Float64} `{GoNet} `{!Limiter State} (failOpen : bool).
Hypothesis limiter_world : forall p i s, (limiter_Allow p i s).2.1 = s.1.
Lemma limit_headers_quiet now d : quiet (limit_headers now d).
Proof.
  unfold limit_headers. repeat (apply quiet_insert; [apply (bool_decide_unpack _); vm_compute; exact I|]). intros k _. apply lookup_empty.
Qed.
Lemma serve_ends_next next p i r s :
  ends (r, s) (serve failOpen next p i r s) (fun r' s' out => out = next r' s' /\ URLParam r' = URLParam r).
Proof.
  unfold serve. specialize (limiter_world p i s). destruct (limiter_Allow p i s) as [d s1]. cbn in limiter_world.
  assert (Hc : carries (r, s) (r, s1)).
  { destruct s as [w l], s1 as [w1 l1]. cbn in limiter_world. subst w1. by apply carries_same. }
  destruct d as [d|e]; [|destruct failOpen; [by apply ends_next|left; by apply (refuses _ r)]].
  destruct (Allowed d).
  - destruct (next r s1) as [resp s2] eqn:En. right. exists r, s1, (limit_headers (limiter_now s1) d), (resp, s2).
    split_and!; try done. apply limit_headers_quiet.
  - left. destruct (refuses (r, s) r s1 (Sentinel ErrRateLimited) Hc) as (Hf & Hq & Hr).
    split_and!; [by destruct Hf as [e He]; exists e| |done]. apply quiet_union; [done|].
    apply quiet_insert; [apply (bool_decide_unpack _); vm_compute; exact I|apply limit_headers_quiet].
Qed.
Lemma passes_Limit p : passes (Limit failOpen p).
Proof. intros next r s. unfold Limit. destruct (_ =?= ""); [by apply ends_here|apply serve_ends_next]. Qed.
Lemma passes_LimitAuthenticated p p' : passes (LimitAuthenticated failOpen p p').
Proof.
  intros next r s. unfold LimitAuthenticated. destruct (ctx_Principal r) as [pr|]; [|by apply ends_here].
  destruct (IsAPIKey pr); apply serve_ends_next.
Qed.
End walk.
