(* ===== verification/Router.v ===== *)
(** * The HTTP application

    Models [internal/api/router.go] and the [RegisterRoutes] functions of [internal/*/routes.go]:
    every route of the API with the middleware in front of it, as the code registers them,
    and what a request to the whole application can do.  [Recovery] is left out of the
    stack: no handler of the model panics. *)
From S2P Require Import Prelude.
From S2P Require Import GoError.
From S2P Require Import Schema.
From S2P Require Import Store.
From S2P Require Import Logic.
From S2P Require Import GoStrings.
From S2P Require Import Permissions.
From S2P Require Import Tenancy.
From S2P Require Import Authz.
From S2P Require Import Jobs.
From S2P Require Import GoNet.
From S2P Require Import Auth.
From S2P Require Import Delivery.
From S2P Require Import Invitations.
From S2P Require Import ApiKeys.
From S2P Require Import Organizations.
From S2P Require Import Http.
From S2P Require Import RateLimit.
From S2P Require Import AuthHttp.
From S2P Require Import Endpoint.
From S2P Require Import Middleware.
From S2P Require Import Observers.
From S2P Require Import TeamsHandler.
From S2P Require Import ProjectsHandler.
From S2P Require Import TasksHandler.
From S2P Require Import ApiKeysHandler.
From S2P Require Import AuditHandler.
From S2P Require Import InvitationsHandler.
From S2P Require Import AuthHandler.
From S2P Require Import OrganizationsHandler.
From S2P Require Import Routing.
Local Open Scope string_scope.
Notation "e ;> rs" := (e rs) (at level 60, right associativity, only parsing).

(** [Dependencies]: a feature is registered when its handler is there.  The readiness checks
    are what the probes find; no rate limiter ([None]) is [NopMiddleware]. *)
Record Dependencies (S : Type) := {
  MaxBodyBytes_ : Z;
  Health : list (string * bool);
  AuthHandler_ : bool; AuthMW : bool; OrgHandler : bool; OrgMW : bool; TeamsHandler_ : bool; Projects_ : bool;
  Tasks_ : bool; Invitations_ : bool; APIKeys_ : bool; AuditHandler_ : bool;
  RateLimit_ : option bool; RateLimits : Policies;
  Metrics_ : option (Handler S)
}.
Arguments MaxBodyBytes_ {S}.
Arguments Health {S}.
Arguments AuthHandler_ {S}.
Arguments AuthMW {S}.
Arguments OrgHandler {S}.
Arguments OrgMW {S}.
Arguments TeamsHandler_ {S}.
Arguments Projects_ {S}.
Arguments Tasks_ {S}.
Arguments Invitations_ {S}.
Arguments APIKeys_ {S}.
Arguments AuditHandler_ {S}.
Arguments RateLimit_ {S}.
Arguments RateLimits {S}.
Arguments Metrics_ {S}.

Section router.
Context `{Env} `{!AuthConfig} `{!JwtParser} `{!Sender} `{!InviteConfig} `{!ApiKeyConfig} `{Platform} `{GoTime} `{GoNet}
  `{Float64} `{RouteContext} {L : Type} `{Limiter L} `{Observed L}.
#[local] Existing Instance key_authenticator.
#[local] Existing Instance organizations_Authorizer.
#[local] Abbreviation State := (World * L)%type.

(** ** [RegisterRoutes] of each feature *)
Definition AuthRoutes : Routes State -> Routes State :=
  Route "/auth" [] (
    Post "/register" (on_fst AuthHandler.Register) ;>
    Post "/login" (on_fst AuthHandler.Login) ;>
    Post "/refresh" (on_fst AuthHandler.Refresh) ;>
    Post "/logout" (on_fst AuthHandler.Logout) ;>
    Group [RequireAuth] (
      Post "/logout-all" (on_fst AuthHandler.LogoutAll) ;>
      Routing.Get "/me" (on_fst AuthHandler.Me) ;> NoRoutes) ;> NoRoutes).
Definition OrganizationRoutes : Routes State -> Routes State :=
  Route "/organizations" [RequireAuth] (
    Routing.Get "/" (on_fst OrganizationsHandler.ListMine) ;>
    Post "/" (on_fst OrganizationsHandler.Create) ;>
    Route "/{orgID}" [] (
      Routing.Get "/" (on_fst OrganizationsHandler.Get) ;>
      Patch "/" (on_fst OrganizationsHandler.Update) ;>
      Routing.Get "/roles" (on_fst OrganizationsHandler.ListRoles) ;>
      Post "/roles" (on_fst OrganizationsHandler.CreateRole) ;>
      Patch "/roles/{roleID}" (on_fst OrganizationsHandler.UpdateRole) ;>
      Routing.Delete "/roles/{roleID}" (on_fst OrganizationsHandler.DeleteRole) ;>
      Patch "/members/{membershipID}/role" (on_fst OrganizationsHandler.AssignMemberRole) ;>
      Group [RequireTenant] (
        Routing.Get "/members" (on_fst OrganizationsHandler.ListMembers) ;> NoRoutes) ;> NoRoutes) ;> NoRoutes).
Definition TeamRoutes : Routes State -> Routes State :=
  Route "/organizations/{orgID}/teams" [RequireAuth] (
    Routing.Get "/" (on_fst TeamsHandler.List_) ;>
    Post "/" (on_fst TeamsHandler.Create) ;>
    Route "/{teamID}" [] (
      Routing.Get "/" (on_fst TeamsHandler.Get) ;>
      Patch "/" (on_fst TeamsHandler.Update) ;>
      Routing.Delete "/" (on_fst TeamsHandler.Delete) ;>
      Routing.Get "/members" (on_fst TeamsHandler.ListMembers) ;>
      Post "/members" (on_fst TeamsHandler.AddMember) ;>
      Routing.Delete "/members/{teamMemberID}" (on_fst TeamsHandler.RemoveMember) ;> NoRoutes) ;> NoRoutes).
Definition ProjectRoutes : Routes State -> Routes State :=
  Route "/organizations/{orgID}/projects" [RequireAuth] (
    Routing.Get "/" (on_fst ProjectsHandler.List_) ;>
    Post "/" (on_fst ProjectsHandler.Create) ;>
    Route "/{projectID}" [] (
      Routing.Get "/" (on_fst ProjectsHandler.Get) ;>
      Patch "/" (on_fst ProjectsHandler.Update) ;>
      Routing.Delete "/" (on_fst ProjectsHandler.Delete) ;>
      Routing.Get "/activity" (on_fst ProjectsHandler.ListActivity) ;> NoRoutes) ;> NoRoutes).
Definition TaskRoutes (next : Routes State) : Routes State :=
  Route "/organizations/{orgID}/tasks" [RequireAuth] (
    Routing.Get "/" (on_fst TasksHandler.List_) ;>
    Route "/{taskID}" [] (
      Routing.Get "/" (on_fst TasksHandler.Get) ;>
      Patch "/" (on_fst TasksHandler.Update) ;>
      Routing.Delete "/" (on_fst TasksHandler.Delete) ;>
      Routing.Get "/activity" (on_fst TasksHandler.ListActivity) ;> NoRoutes) ;> NoRoutes) ;>
  Route "/organizations/{orgID}/projects/{projectID}/tasks" [RequireAuth] (
    Routing.Get "/" (on_fst TasksHandler.ListByProject) ;>
    Post "/" (on_fst TasksHandler.Create) ;> NoRoutes) ;> next.
Definition InvitationRoutes : Routes State -> Routes State :=
  Route "/organizations/{orgID}/invitations" [RequireAuth] (
    Routing.Get "/" (on_fst InvitationsHandler.List_) ;>
    Post "/" (on_fst InvitationsHandler.Create) ;>
    Post "/{invitationID}/resend" (on_fst InvitationsHandler.Resend) ;>
    Post "/{invitationID}/revoke" (on_fst InvitationsHandler.Revoke) ;> NoRoutes).
Definition PublicInvitationRoutes : Routes State -> Routes State :=
  Route "/invitations" [] (
    Group [OptionalAuth] (Post "/accept" (on_fst InvitationsHandler.Accept) ;> NoRoutes) ;>
    Routing.Get "/{token}" (on_fst InvitationsHandler.Preview) ;> NoRoutes).
Definition APIKeyRoutes : Routes State -> Routes State :=
  Route "/organizations/{orgID}/api-keys" [RequireAuth] (
    Routing.Get "/" (on_fst ApiKeysHandler.List_) ;>
    Post "/" (on_fst ApiKeysHandler.Create) ;>
    Routing.Delete "/{apiKeyID}" (on_fst ApiKeysHandler.Revoke) ;> NoRoutes).

Section new_router.
Variable deps : Dependencies State.
Definition mountTenantRoutes (next : Routes State) : Routes State :=
  when (OrgHandler deps && OrgMW deps) OrganizationRoutes ;>
  when (TeamsHandler_ deps) TeamRoutes ;>
  when (Projects_ deps) ProjectRoutes ;>
  when (Tasks_ deps) TaskRoutes ;>
  when (Invitations_ deps) InvitationRoutes ;>
  when (APIKeys_ deps) APIKeyRoutes ;>
  when (AuditHandler_ deps) (Route "/organizations/{orgID}/audit-logs" []
    (Routing.Get "/" (on_fst AuditHandler.List_) ;> NoRoutes)) ;> next.

(** [limits.Limit] and [limits.LimitAuthenticated]: the limiter given, or [NopMiddleware]. *)
Definition nopLimiter : Limiter State := noopLimiter State (fun s => env_now (w_tick s.1)).
Definition limit (p : Policy) : Middleware State :=
  match RateLimit_ deps with Some failOpen => Limit failOpen p | None => @Limit _ _ _ nopLimiter true p end.
Definition limit_authenticated (user apiKey : Policy) : Middleware State :=
  match RateLimit_ deps with
  | Some failOpen => LimitAuthenticated failOpen user apiKey
  | None => @LimitAuthenticated _ _ _ nopLimiter true user apiKey
  end.

(** The router of the API, its stack and its handlers for what it does not know. *)
Definition APIRoutes : Routes State :=
  when (AuthHandler_ deps) (Group [limit (Policies_Auth (RateLimits deps))] (AuthRoutes ;> NoRoutes)) ;>
  when (Invitations_ deps && AuthMW deps)
    (Group [limit (Policies_Auth (RateLimits deps))] (PublicInvitationRoutes ;> NoRoutes)) ;>
  when (AuthMW deps)
    (Group [RequireAuth; limit_authenticated (Policies_User (RateLimits deps)) (Policies_APIKey (RateLimits deps))]
      (mountTenantRoutes ;> NoRoutes)) ;> NoRoutes.
Definition metrics_route (next : Routes State) : Routes State :=
  match Metrics_ deps with Some h => Routing.Get "/metrics" h next | None => next end.
Definition NewRouter : Routes State :=
  Routing.Get "/health" (on_fst Live) ;>
  Routing.Get "/ready" (on_fst (Ready (Health deps))) ;>
  metrics_route ;>
  Route "/api/v1" [] APIRoutes ;> NoRoutes.
Definition NewRouter_stack : list (Middleware State) :=
  [RequestID; TraceMiddleware; Logging; SecurityHeaders; MaxBodyBytes (MaxBodyBytes_ deps)] ++
  match Metrics_ deps with Some _ => [MetricsMiddleware] | None => [] end.
Definition NotFoundHandler : Handler State := fun r s => (WriteErrorResponse r (Sentinel ErrNotFound), s).
Definition MethodNotAllowedHandler : Handler State := fun r s =>
  (WriteErrorResponse r (NewAPIError 405 "METHOD_NOT_ALLOWED" "Method not allowed" None), s).
(** [http.Server.Handler] *)
Definition ServeHTTP `{Chi State} : Handler State :=
  chi_ServeHTTP NotFoundHandler MethodNotAllowedHandler NewRouter_stack NewRouter.
End new_router.

(** ** What each route requires

    The permission of every tenant route, by method and whole pattern; the routes that
    change tables for a caller without any credentials. *)
Definition team_path := "/api/v1/organizations/{orgID}/teams".
Definition project_path := "/api/v1/organizations/{orgID}/projects".
Definition task_path := "/api/v1/organizations/{orgID}/tasks".
Definition invitation_path := "/api/v1/organizations/{orgID}/invitations".
Definition key_path := "/api/v1/organizations/{orgID}/api-keys".
Definition org_path := "/api/v1/organizations/{orgID}".
Definition permission_table : list (string * string * string) := [
  ("GET", org_path +:+ "/", OrganizationsRead); ("PATCH", org_path +:+ "/", OrganizationsUpdate);
  ("GET", org_path +:+ "/roles", RolesRead); ("POST", org_path +:+ "/roles", RolesManage);
  ("PATCH", org_path +:+ "/roles/{roleID}", RolesManage); ("DELETE", org_path +:+ "/roles/{roleID}", RolesManage);
  ("PATCH", org_path +:+ "/members/{membershipID}/role", MembersManage); ("GET", org_path +:+ "/members", MembersRead);
  ("GET", team_path +:+ "/", TeamsRead); ("POST", team_path +:+ "/", TeamsManage);
  ("GET", team_path +:+ "/{teamID}/", TeamsRead); ("PATCH", team_path +:+ "/{teamID}/", TeamsManage);
  ("DELETE", team_path +:+ "/{teamID}/", TeamsManage); ("GET", team_path +:+ "/{teamID}/members", TeamsRead);
  ("POST", team_path +:+ "/{teamID}/members", TeamsManage);
  ("DELETE", team_path +:+ "/{teamID}/members/{teamMemberID}", TeamsManage);
  ("GET", project_path +:+ "/", ProjectsRead); ("POST", project_path +:+ "/", ProjectsCreate);
  ("GET", project_path +:+ "/{projectID}/", ProjectsRead); ("PATCH", project_path +:+ "/{projectID}/", ProjectsUpdate);
  ("DELETE", project_path +:+ "/{projectID}/", ProjectsDelete);
  ("GET", project_path +:+ "/{projectID}/activity", ProjectsRead);
  ("GET", task_path +:+ "/", TasksRead); ("GET", task_path +:+ "/{taskID}/", TasksRead);
  ("PATCH", task_path +:+ "/{taskID}/", TasksUpdate); ("DELETE", task_path +:+ "/{taskID}/", TasksDelete);
  ("GET", task_path +:+ "/{taskID}/activity", TasksRead);
  ("GET", project_path +:+ "/{projectID}/tasks/", TasksRead); ("POST", project_path +:+ "/{projectID}/tasks/", TasksCreate);
  ("GET", invitation_path +:+ "/", MembersManage); ("POST", invitation_path +:+ "/", MembersManage);
  ("POST", invitation_path +:+ "/{invitationID}/resend", MembersManage);
  ("POST", invitation_path +:+ "/{invitationID}/revoke", MembersManage);
  ("GET", key_path +:+ "/", APIKeysManage); ("POST", key_path +:+ "/", APIKeysManage);
  ("DELETE", key_path +:+ "/{apiKeyID}", APIKeysManage);
  ("GET", org_path +:+ "/audit-logs/", AuditRead)].
Definition required (method pattern : string) : option string :=
  snd <$> List.find (fun e => (e.1.1 =?= method) && (e.1.2 =?= pattern)) permission_table.
Definition public_changes : list (string * string) := [
  ("POST", "/api/v1/auth/register"); ("POST", "/api/v1/auth/login"); ("POST", "/api/v1/auth/refresh");
  ("POST", "/api/v1/auth/logout"); ("POST", "/api/v1/invitations/accept")].
Definition public (method pattern : string) : bool :=
  existsb (fun e => (e.1 =?= method) && (e.2 =?= pattern)) public_changes.

(** What the router relies on for one route. *)
Record route_ok (method pattern : string) (h : Handler State) : Prop := {
  ro_headers r s : quiet (Headers (h r s).1);
  ro_anonymous r s : public method pattern = false -> ctx_Principal r = None -> w_db (h r s).2.1 = w_db s.1;
  ro_permission p : required method pattern = Some p -> exists h', h = on_fst h' /\ tenant_endpoint p h'
}.
Lemma tenant_route m pat p h : required m pat = Some p -> tenant_endpoint p h -> route_ok m pat (on_fst h).
Proof.
  intros Hp Ht. split.
  - intros r s. pose proof (te_json _ _ Ht r s.1) as Hj. unfold on_fst. destruct (h r s.1). cbn in *. rewrite Hj. apply quiet_content.
  - intros r s _ Hn. unfold on_fst. by rewrite (te_anonymous _ _ Ht r s.1 Hn).
  - intros p' Hp'. exists h. split; [done|]. congruence.
Qed.
Lemma other_route m pat h : required m pat = None -> (forall r w, Headers (h r w).1 = content_type) ->
  (public m pat = false -> forall r w, ctx_Principal r = None -> w_db (h r w).2 = w_db w) -> route_ok m pat (on_fst h).
Proof.
  intros Hp Hj Ha. split.
  - intros r s. specialize (Hj r s.1). unfold on_fst. destruct (h r s.1). cbn in *. rewrite Hj. apply quiet_content.
  - intros r s Hpub Hn. specialize (Ha Hpub r s.1 Hn). unfold on_fst. by destruct (h r s.1).
  - intros p. by rewrite Hp.
Qed.

(** Every handler the API mounts is one of these. *)
Lemma principal_json (f : Request -> M Response) : (forall r, answers (f r)) -> forall r w, Headers (endpoint f r w).1 = content_type.
Proof. intros Hf r w. by apply endpoint_json. Qed.
Ltac headers_auto := intros; apply endpoint_json; intros; answers_auto.
Ltac each_split := repeat match goal with
  | |- each _ _ (when _ _ _) => apply each_when; [intros _|]
  | |- each _ _ _ => first [assumption|exact I|split]
  end.

Lemma user_route m pat (f : N -> Request -> M Response) : required m pat = None -> (forall u r, answers (f u r)) ->
  route_ok m pat (on_fst (endpoint (fun r => u <- current_user r ;; f u r))).
Proof.
  intros Hp Hf. apply other_route; [done| |].
  - apply principal_json. intros r. by apply answers_bind.
  - intros _ r w Hn. unfold endpoint, current_user, principal. by rewrite Hn.
Qed.
Lemma public_route m pat f : required m pat = None -> public m pat = true -> (forall r, answers (f r)) ->
  route_ok m pat (on_fst (endpoint f)).
Proof. intros Hp Hpub Hf. apply other_route; [done|by apply principal_json|congruence]. Qed.

Lemma auth_routes_ok next : each route_ok "/api/v1" next -> each route_ok "/api/v1" (AuthRoutes next).
Proof.
  intros Hn. each_split.
  1-4: apply public_route; [reflexivity..|intros; answers_auto].
  - apply user_route; [reflexivity|intros; answers_auto].
  - apply user_route; [reflexivity|intros; answers_auto].
Qed.
Lemma Preview_reads r w : w_db (InvitationsHandler.Preview r w).2 = w_db w.
Proof.
  unfold InvitationsHandler.Preview. rewrite endpoint_world.
  assert (Hp : pres eq (token <- tokenParam r "token" ;; preview <- Invitations.Preview token ;;
    ret (respond 200 (preview_json preview)))).
  { unfold tokenParam, Invitations.Preview, lookup_, found_by_token, lookup_body, get_role. pres_auto. }
  by destruct (Hp w) as [_ Hd].
Qed.
Lemma public_invitation_routes_ok next : each route_ok "/api/v1" next -> each route_ok "/api/v1" (PublicInvitationRoutes next).
Proof.
  intros Hn. each_split.
  - apply public_route; [reflexivity..|intros; answers_auto].
  - apply other_route; [reflexivity| |intros; apply Preview_reads]. apply principal_json. intros. answers_auto.
Qed.
Lemma organization_routes_ok next : each route_ok "/api/v1" next -> each route_ok "/api/v1" (OrganizationRoutes next).
Proof.
  intros Hn. destruct organizations_endpoints as (? & ? & ? & ? & ? & ? & ? & ?).
  each_split; try (eapply tenant_route; [reflexivity|assumption]).
  all: apply user_route; [reflexivity|intros; answers_auto].
Qed.
Ltac tenant_routes_ok eps :=
  let Hn := fresh "Hn" in
  intros Hn; pose proof eps as Heps; each_split; (eapply tenant_route; [reflexivity|apply Heps]).
Lemma team_routes_ok next : each route_ok "/api/v1" next -> each route_ok "/api/v1" (TeamRoutes next).
Proof. tenant_routes_ok teams_endpoints. Qed.
Lemma project_routes_ok next : each route_ok "/api/v1" next -> each route_ok "/api/v1" (ProjectRoutes next).
Proof. tenant_routes_ok projects_endpoints. Qed.
Lemma task_routes_ok next : each route_ok "/api/v1" next -> each route_ok "/api/v1" (TaskRoutes next).
Proof. tenant_routes_ok tasks_endpoints. Qed.
Lemma invitation_routes_ok next : each route_ok "/api/v1" next -> each route_ok "/api/v1" (InvitationRoutes next).
Proof. tenant_routes_ok invitations_endpoints. Qed.
Lemma apikey_routes_ok next : each route_ok "/api/v1" next -> each route_ok "/api/v1" (APIKeyRoutes next).
Proof. tenant_routes_ok apikeys_endpoints. Qed.
Lemma tenant_mount_ok deps next : each route_ok "/api/v1" next -> each route_ok "/api/v1" (mountTenantRoutes deps next).
Proof.
  intros Hn. unfold mountTenantRoutes.
  apply each_when_map; [apply organization_routes_ok|]. apply each_when_map; [apply team_routes_ok|].
  apply each_when_map; [apply project_routes_ok|]. apply each_when_map; [apply task_routes_ok|].
  apply each_when_map; [apply invitation_routes_ok|]. apply each_when_map; [apply apikey_routes_ok|].
  each_split. eapply tenant_route; [reflexivity|apply audit_endpoint].
Qed.

(** What the metrics handler of the library is relied on for: it reports. *)
Definition metrics_ok (deps : Dependencies State) : Prop := forall h, Metrics_ deps = Some h ->
  forall r s, quiet (Headers (h r s).1) /\ w_db (h r s).2.1 = w_db s.1.
Lemma router_ok deps : metrics_ok deps -> each route_ok "" (NewRouter deps).
Proof.
  intros Hm. unfold NewRouter. each_split.
  - by apply other_route.
  - apply other_route; [done|intros; apply respond_ok|done].
  - unfold metrics_route. assert (Ha : each route_ok "/api/v1" (APIRoutes deps)).
    { unfold APIRoutes.
      apply each_when_map; [intros; apply each_group; [apply auth_routes_ok; exact I|done]|].
      apply each_when_map; [intros; apply each_group; [apply public_invitation_routes_ok; exact I|done]|].
      apply each_when_map; [intros; apply each_group; [apply tenant_mount_ok; exact I|done]|exact I]. }
    destruct (Metrics_ deps) as [h|] eqn:E; [|by split]. split; [|by split].
    split; [intros; by apply (Hm h E)|intros; by apply (Hm h E)|done].
Qed.

(** The middleware of the router passes requests on, and no route names the organization
    twice. *)
Lemma passes_limit deps p : passes (limit deps p).
Proof.
  unfold limit. destruct (RateLimit_ deps); apply passes_Limit; [apply limiter_beside_fst|done].
Qed.
Lemma passes_limit_authenticated deps p p' : passes (limit_authenticated deps p p').
Proof.
  unfold limit_authenticated. destruct (RateLimit_ deps); apply passes_LimitAuthenticated; [apply limiter_beside_fst|done].
Qed.
Create HintDb routes.
Hint Resolve passes_limit passes_limit_authenticated passes_RequireAuth passes_OptionalAuth passes_RequireTenant
  Forall_nil_2 Forall_cons_2 : routes.
Ltac scoped_auto :=
  repeat match goal with
  | |- scoped _ (when _ _ _) => apply scoped_when; [intros|]
  | |- scoped _ (Group _ _ _) => apply scoped_group; [solve [auto with routes]|..]
  | |- scoped _ _ => first [assumption|exact I|split]
  | |- _ /\ _ => split
  | |- Forall _ _ => solve [auto with routes]
  | |- _ -> ~ _ => intros _; apply not_names; reflexivity
  | |- _ \/ _ => first [left; split; [apply not_names; reflexivity|]|right; split; [reflexivity|]]
  end.
Lemma router_scoped deps : scoped false (NewRouter deps).
Proof.
  unfold NewRouter, metrics_route, APIRoutes, mountTenantRoutes. destruct (Metrics_ deps); scoped_auto.
Qed.

(** A route below an organization requires a permission of the catalogue. *)
Definition guarded (m pat : string) (h : Handler State) : Prop :=
  HasPrefix pat org_path = true -> exists p, required m pat = Some p /\ p ∈ All.
Lemma guarded_entry m pat h :
  (negb (HasPrefix pat org_path) || match required m pat with Some p => existsb (beq p) All | None => false end) = true ->
  guarded m pat h.
Proof.
  intros Hb Hp. rewrite Hp in Hb. destruct (required m pat) as [p|]; [|done]. exists p. split; [done|].
  apply existsb_exists in Hb as (x & Hx & ->%beq_eq). by apply list_elem_of_In.
Qed.
Ltac guarded_auto :=
  repeat match goal with
  | |- each _ _ (when _ _ _) => apply each_when; [intros _|]
  | |- each _ _ (Group _ _ _) => apply each_group
  | |- each _ _ _ => first [assumption|exact I|split]
  | |- guarded _ _ _ => apply guarded_entry; reflexivity
  end.
Lemma router_guarded deps : each guarded "" (NewRouter deps).
Proof. unfold NewRouter, metrics_route, APIRoutes, mountTenantRoutes. destruct (Metrics_ deps); guarded_auto. Qed.

(** ** The whole application *)
Section application.
Context `{!Chi State} `{!ChiLaws} (deps : Dependencies State).

Definition outer_headers (id traceID : string) (resp : Response) : Response :=
  with_headers (header requestIDHeader id) (with_headers (header TraceIDHeader traceID) (with_headers security_headers resp)).
(** The innermost middleware, when there are metrics. *)
Lemma metrics_stack (h : Handler State) r s : exists s1,
  w_db s1.1 = w_db s.1 /\
  let out := chain (match Metrics_ deps with Some _ => [MetricsMiddleware] | None => [] end) h r s in
  out.1 = (h r s1).1 /\ w_db out.2.1 = w_db (h r s1).2.1.
Proof.
  destruct (Metrics_ deps); cbn [chain foldr]; [|by exists s].
  eexists. split; [|apply MetricsMiddleware_passes]. done.
Qed.
(** The stack decorates what the routes answer. *)
Lemma ServeHTTP_stack r s : exists r1 s1,
  carries (r, s) (r1, s1) /\ URLParam r1 = URLParam r /\ ctx_Principal r1 = ctx_Principal r /\
  (Header_Get r requestIDHeader <> "" -> ctx_RequestID r1 = Header_Get r requestIDHeader) /\
  (rand_ok -> trace_id (ctx_TraceID r1)) /\
  let inner := dispatch_found NotFoundHandler MethodNotAllowedHandler (NewRouter deps) r1 s1 in
  (ServeHTTP deps r s).1 = outer_headers (ctx_RequestID r1) (ctx_TraceID r1) inner.1 /\
  w_db (ServeHTTP deps r s).2.1 = w_db inner.2.1.
Proof.
  destruct s as [w l]. unfold ServeHTTP. rewrite chi_serves. unfold NewRouter_stack, chain. rewrite foldr_app. cbn [foldr].
  set (id := if Header_Get r requestIDHeader =?= ""
             then ("req_" +:+ uuid_String (env_uuid (w_tick w)), next_tick w) else (Header_Get r requestIDHeader, w)).
  assert (Hid : w_db id.2 = w_db w /\ (Header_Get r requestIDHeader <> "" -> id.1 = Header_Get r requestIDHeader)).
  { unfold id. destruct (_ =?= "") eqn:E; [|done]. split; [done|]. intros Hne. by apply beq_eq in E. }
  set (tid := traceIDFromHeader (Header_Get r TraceparentHeader) id.2).
  set (r1 := with_limit (MaxBodyBytes_ deps) (WithTraceID tid.1 (WithRequestID id.1 r))).
  set (inner := foldr _ _ _).
  assert (Hout : let out := RequestID (TraceMiddleware (Logging (SecurityHeaders (MaxBodyBytes (MaxBodyBytes_ deps) inner)))) r (w, l) in
    out.1 = outer_headers (ctx_RequestID r1) (ctx_TraceID r1) (inner r1 (next_tick tid.2, l)).1 /\
    w_db out.2.1 = w_db (inner r1 (next_tick tid.2, l)).2.1).
  { cbv zeta. unfold RequestID, TraceMiddleware. cbn [fst snd]. fold id. subst r1 tid.
    clearbody inner id. unfold SecurityHeaders, MaxBodyBytes, Logging. destruct id as [i w2]. cbn [fst snd].
    destruct (traceIDFromHeader _ w2) as [t w3]. cbn. by destruct (inner _ _). }
  destruct (metrics_stack (dispatch_found NotFoundHandler MethodNotAllowedHandler (NewRouter deps)) r1 (next_tick tid.2, l))
    as ([w1 l1] & Hs1 & Ho & Hd).
  change (let inner_out := inner r1 (next_tick tid.2, l) in
    inner_out.1 = (dispatch_found NotFoundHandler MethodNotAllowedHandler (NewRouter deps) r1 (w1, l1)).1) in Ho.
  change (w_db (inner r1 (next_tick tid.2, l)).2.1 =
    w_db (dispatch_found NotFoundHandler MethodNotAllowedHandler (NewRouter deps) r1 (w1, l1)).2.1) in Hd. cbv zeta in Ho.
  exists r1, (w1, l1). destruct Hid as [Hid Hgiven]. split_and!; try done.
  - apply carries_same; try done. cbn in Hs1 |- *. rewrite Hs1. unfold tid. by rewrite traceIDFromHeader_db.
  - intros Hr. by apply traceIDFromHeader_ok.
  - etrans; [apply Hout|]. by rewrite Ho.
  - etrans; [apply Hout|exact Hd].
Qed.
(** The route of a request, and how it is answered: refused on the way or by the handler
    of that route, behind headers that say who answered. *)
Definition route_of (r : Request) : option (Target State) :=
  route (NewRouter deps) "" (Req_Method r) (Req_Path r) (URLParam r).
Lemma not_found_refuses r s : refused (r, s) (NotFoundHandler r s).
Proof. by apply (refuses _ r). Qed.
Lemma not_allowed_refuses r s : refused (r, s) (MethodNotAllowedHandler r s).
Proof. by apply (refuses _ r). Qed.
Lemma ServeHTTP_ends r s : URLParam r orgID = "" -> exists id tid out,
  ends (r, s) out (answered (route_of r)) /\
  (Header_Get r requestIDHeader <> "" -> id = Header_Get r requestIDHeader) /\ (rand_ok -> trace_id tid) /\
  (ServeHTTP deps r s).1 = outer_headers id tid out.1 /\ w_db (ServeHTTP deps r s).2.1 = w_db out.2.1.
Proof.
  intros Hu. destruct (ServeHTTP_stack r s) as (r1 & s1 & Hc & Hp & Hpr & Hid & Ht & Ho & Hd).
  exists (ctx_RequestID r1), (ctx_TraceID r1), (dispatch_found NotFoundHandler MethodNotAllowedHandler (NewRouter deps) r1 s1).
  split_and!; [|done..].
  apply (ends_after _ (r1, s1)); [done|]. unfold route_of. pose proof (c_method _ _ Hc) as Hm. pose proof (c_path _ _ Hc) as Hpath.
  cbn in Hm, Hpath. rewrite <- Hp, <- Hm, <- Hpath.
  apply (dispatch _ _ not_found_refuses not_allowed_refuses); [apply router_scoped|congruence].
Qed.

(** C23. Every response carries the security headers, whatever the route, the credentials or the
    outcome; it names the trace it belongs to by 32 hexadecimal digits, and echoes the
    identifier the client gave the request, if it gave one. *)
Theorem every_response r s : metrics_ok deps -> rand_ok -> URLParam r orgID = "" ->
  (forall k v, security_headers !! k = Some v -> Headers (ServeHTTP deps r s).1 !! k = Some v) /\
  (exists tid, Headers (ServeHTTP deps r s).1 !! TraceIDHeader = Some tid /\ trace_id tid) /\
  (Header_Get r requestIDHeader <> "" -> Headers (ServeHTTP deps r s).1 !! requestIDHeader = Some (Header_Get r requestIDHeader)).
Proof.
  intros Hm Hr Hu. destruct (ServeHTTP_ends r s Hu) as (id & tid & out & He & Hid & Ht & -> & _).
  assert (Hq : quiet (Headers out.1)).
  { destruct He as [(_ & Hq & _)|(r1 & s1 & hs & o & _ & Hhs & (t & Ht' & -> & _) & ->)]; [done|].
    apply quiet_union; [|done]. apply (ro_headers _ _ _ (route_each _ _ _ _ _ _ _ (router_ok deps Hm) Ht')). }
  unfold outer_headers, with_headers. cbn [Headers].
  assert (Hsec : forall k v, security_headers !! k = Some v -> k ∈ reserved).
  { intros k v Hk. unfold security_headers in Hk. repeat (apply lookup_insert_Some in Hk as [[<- _]|[_ Hk]]; [apply (bool_decide_unpack _); vm_compute; exact I|]).
    by rewrite lookup_empty in Hk. }
  split_and!.
  - intros k v Hk. apply lookup_union_Some_l, lookup_union_Some_l. rewrite lookup_union_r; [done|]. by eapply Hq, Hsec.
  - exists tid. split; [|by apply Ht]. apply lookup_union_Some_l. rewrite lookup_union_r; [by apply lookup_singleton_eq|].
    apply lookup_union_None. split; [|done]. apply Hq, (bool_decide_unpack _). vm_compute. exact I.
  - intros Hg. rewrite Hid by done. rewrite lookup_union_r; [by apply lookup_singleton_eq|].
    apply lookup_union_None. split; [|done]. apply lookup_union_None. split; [|done].
    apply Hq, (bool_decide_unpack _). vm_compute. exact I.
Qed.

(** The credentials a request carries, as they resolve at some moment while it is served: a
    key only for the organization that the path names. *)
Definition presents (r : Request) (d : DB) (org : string) (p : Principal) : Prop :=
  exists r' w, Header_Get r' = Header_Get r /\ stamped d (w_db w) /\ (resolve r' w).1 = Ok (Some p) /\
    (IsAPIKey p = true -> org = uuid_String (Principal_OrganizationID p)).
Lemma resolved_key r w p : (resolve r w).1 = Ok (Some p) -> IsAPIKey p = true ->
  URLParam r orgID <> "" /\ URLParam r orgID = uuid_String (Principal_OrganizationID p).
Proof.
  intros E Hk. destruct (resolve r w) as [x w1] eqn:Er. cbn in E. subst x. unfold resolve in Er.
  destruct (bearerToken r) as [token|].
  - apply resolveBearer_Ok in Er as (_ & _ & _ & _ & _ & Hn & _). congruence.
  - unfold resolveAPIKey in Er. cbn [Authenticator key_authenticator] in Er. destruct (_ =?= "") eqn:Ek; [by apply ret_Ok in Er as [? _]|].
    apply bind_Ok in Er as (a & w2 & _ & [Er _]%ret_Ok). destruct a as [pr|]; [|done].
    destruct (_ || _) eqn:Eo; [done|]. injection Er as ->. bool_hyps. by split.
Qed.
Lemma carried_presents r (s : State) r1 (s1 : State) p : ctx_Principal r = None -> carries (r, s) (r1, s1) -> ctx_Principal r1 = Some p ->
  presents r (w_db s.1) (URLParam r1 orgID) p.
Proof.
  intros Hn Hc Hp. destruct (c_principal _ _ Hc) as [Hsame|(p' & z & Hz & Hh & _ & Hk & Hs & Hr)]; cbn in *; [congruence|].
  exists z.1, z.2. split_and!; [done..|congruence|]. intros Hkey. assert (p' = p) as -> by congruence.
  destruct (resolved_key _ _ _ Hr Hkey) as [Hne Heq]. destruct Hk as [?|Hk]; [done|congruence].
Qed.

Definition failed_b (resp : Response) : bool := match Resp_Body resp with ErrorResponse _ => true | _ => false end.
Lemma failed_spec resp : failed resp <-> failed_b resp = true.
Proof. unfold failed, failed_b. destruct (Resp_Body resp); split; intros Hf; try done; [by destruct Hf..|by eexists]. Qed.

(** One route that requires a permission. *)
Lemma route_authorized r s t p : metrics_ok deps -> ctx_Principal r = None -> URLParam r orgID = "" ->
  route_of r = Some t -> required (T_Method t) (T_Pattern t) = Some p ->
  let (resp, s') := ServeHTTP deps r s in
  (failed resp /\ stamped (w_db s.1) (w_db s'.1)) \/
  (exists o pr tenant d, uuid_Parse (T_Params t orgID) = Some o /\ presents r (w_db s.1) (T_Params t orgID) pr /\
     authorized (w_db s.1) (Principal_UserID pr) o p tenant /\
     stamped (w_db s.1) d /\ same_outside o d (w_db s'.1)).
Proof.
  intros Hm Hn Hu Ht Hp. destruct (ServeHTTP_ends r s Hu) as (id & tid & out & He & _ & _ & Ho & Hd).
  destruct (ServeHTTP deps r s) as [resp0 s0]. cbn [fst snd] in Ho, Hd. rewrite Ho, Hd. clear Ho Hd resp0 s0.
  destruct He as [((e & Hf) & _ & (r1 & Hc))|(r1 & s1 & hs & o & Hc & _ & (t' & Ht' & -> & Hpar) & ->)].
  - left. split; [by exists e|]. apply (c_stamped _ _ Hc).
  - assert (t' = t) as -> by congruence. pose proof (c_stamped _ _ Hc) as Hs. cbn in Hs.
    destruct (ro_permission _ _ _ (route_each _ _ _ _ _ _ _ (router_ok deps Hm) Ht') p Hp) as (h & Hh & Hend). rewrite Hh, <- Hpar.
    assert (Hfail : forall resp w, failed resp -> w_db w = w_db s1.1 ->
      failed (outer_headers id tid (with_headers hs resp)) /\ stamped (w_db s.1) (w_db w)).
    { intros resp w [e Hf] ->. split; [by exists e|done]. }
    unfold on_fst. cbn [fst snd]. destruct (h r1 s1.1) as [resp w] eqn:Eh. cbn [fst snd].
    destruct (ctx_Principal r1) as [pr|] eqn:Epr; cycle 1.
    { left. rewrite (te_anonymous _ _ Hend r1 s1.1 Epr) in Eh. injection Eh as <- <-.
      apply Hfail; [apply WriteErrorResponse_failed|done]. }
    destruct (uuid_Parse (URLParam r1 orgID)) as [org|] eqn:Eo; cycle 1.
    { left. pose proof (te_path _ _ Hend r1 s1.1 pr Epr Eo) as Hpath. rewrite Hpath in Eh. injection Eh as <- <-.
      apply Hfail; [apply WriteErrorResponse_failed|done]. }
    destruct (te_op _ _ Hend r1 s1.1 pr org Epr Eo) as (Hout & Hok & Hko). rewrite Eh in Hout, Hok, Hko. cbn in Hout, Hok, Hko.
    destruct (failed_b resp) eqn:Ef; [left; apply Hfail; [by apply failed_spec|by apply Hko, failed_spec]|right].
    destruct Hok as [tenant Hten]; [intros Hf%failed_spec; congruence|].
    exists org, pr, tenant, (w_db s1.1). split_and!; try done; [by eapply carried_presents|].
    eapply stamped_authorized; [symmetry; exact Hs|done].
Qed.

(** C1. The authorization of the whole API.  A request whose route requires permission [p], sent
    from outside (no principal yet), has one of two outcomes.  Either the response is an
    error and the tables are unchanged, up to the last use of an API key.  Or the
    organization in the path is a valid identifier, the request's own credentials resolve to
    a principal (an API key only if it belongs to that very organization), the principal is
    an active member of the organization with a role that grants [p], and every row of every
    other organization is as it was. *)
Theorem api_authorized r s t p : metrics_ok deps -> ctx_Principal r = None -> URLParam r orgID = "" ->
  route_of r = Some t -> required (T_Method t) (T_Pattern t) = Some p ->
  let (resp, s') := ServeHTTP deps r s in
  (failed resp /\ stamped (w_db s.1) (w_db s'.1)) \/
  (exists o pr tenant d, uuid_Parse (T_Params t orgID) = Some o /\ presents r (w_db s.1) (T_Params t orgID) pr /\
     authorized (w_db s.1) (Principal_UserID pr) o p tenant /\
     stamped (w_db s.1) d /\ same_outside o d (w_db s'.1)).
Proof. apply route_authorized. Qed.

(** C22. No route below an organization is left open.  A request routed, whatever features are
    mounted, to a pattern below the path of an organization either gets an error response and
    leaves the tables unchanged, up to the last use of an API key, or its own credentials
    resolve to an active member of exactly that organization whose role grants some
    permission of the catalogue, and no row of another organization changes. *)
Theorem tenant_routes_closed r s t : metrics_ok deps -> ctx_Principal r = None -> URLParam r orgID = "" ->
  route_of r = Some t -> HasPrefix (T_Pattern t) "/api/v1/organizations/{orgID}" = true ->
  let (resp, s') := ServeHTTP deps r s in
  (failed resp /\ stamped (w_db s.1) (w_db s'.1)) \/
  (exists o pr p tenant d, uuid_Parse (T_Params t orgID) = Some o /\ presents r (w_db s.1) (T_Params t orgID) pr /\
     p ∈ All /\ authorized (w_db s.1) (Principal_UserID pr) o p tenant /\
     stamped (w_db s.1) d /\ same_outside o d (w_db s'.1)).
Proof.
  intros Hm Hn Hu Ht Hpre. destruct (route_each _ _ _ _ _ _ _ (router_guarded deps) Ht Hpre) as (p & Hp & Hin).
  pose proof (route_authorized r s t p Hm Hn Hu Ht Hp) as Hr. destruct (ServeHTTP deps r s) as [resp s'].
  destruct Hr as [Hf|(o & pr & tenant & d & Ho & Hpr & Ha & Hs & Hd)]; [by left|right]. exists o, pr, p, tenant, d. by split_and!.
Qed.

(** C13. Nothing changes for a caller without credentials, anywhere but on the five public
    routes: register, log in, refresh, log out and accept an invitation. *)
Theorem api_anonymous r s : metrics_ok deps -> ctx_Principal r = None -> URLParam r orgID = "" -> anonymous r ->
  (forall t, route_of r = Some t -> public (T_Method t) (T_Pattern t) = false) ->
  w_db (ServeHTTP deps r s).2.1 = w_db s.1.
Proof.
  intros Hm Hn Hu Ha Hpub. destruct (ServeHTTP_ends r s Hu) as (id & tid & out & He & _ & _ & _ & ->).
  destruct He as [(_ & _ & (r1 & Hc))|(r1 & s1 & hs & o & Hc & _ & (t & Ht & -> & _) & ->)];
    destruct (c_anonymous _ _ Hc Ha) as [Hd Hpr]; cbn in Hd, Hpr; [done|]. cbn [snd]. rewrite <- Hd.
  apply (ro_anonymous _ _ _ (route_each _ _ _ _ _ _ _ (router_ok deps Hm) Ht)); [by apply Hpub|congruence].
Qed.
End application.
End router.
