(* ===== verification/RouterDemo.v ===== *)
(** * The application on concrete requests

    A matcher by path segments as the routing library, a small deployment, and the theorems
    of [Router.v] applied to requests it serves. *)
From S2P Require Import Prelude.
From S2P Require Import GoError.
From S2P Require Import Schema.
From S2P Require Import Store.
From S2P Require Import GoStrings.
From S2P Require Import Demo.
From S2P Require Import Jobs.
From S2P Require Import QueueDemo.
From S2P Require Import Permissions.
From S2P Require Import Authz.
From S2P Require Import GoNet.
From S2P Require Import Delivery.
From S2P Require Import Invitations.
From S2P Require Import ApiKeys.
From S2P Require Import Organizations.
From S2P Require Import Http.
From S2P Require Import RateLimit.
From S2P Require Import RateProps.
From S2P Require Import Auth.
From S2P Require Import AuthHttp.
From S2P Require Import Endpoint.
From S2P Require Import Middleware.
From S2P Require Import Observers.
From S2P Require Import Routing.
From S2P Require Import Router.
From Stdlib Require Import FunctionalExtensionality.
Local Open Scope string_scope.

(** ** Routing by segments *)
Definition segments (path : string) : list string := List.filter (fun s => negb (s =?= "")) (Split 47 path).
(** [{name}] binds a segment. *)
Definition placeholder (seg : string) : option string :=
  match bytes seg with
  | 123%N :: rest => match rev rest with 125%N :: name => Some (of_bytes (rev name)) | _ => None end
  | _ => None
  end.
Fixpoint join (l : list string) : string := match l with [] => "" | s :: r => "/" +:+ s +:+ join r end.
Fixpoint match_segments (mount : bool) (pat path : list string) : option (list (string * string)) :=
  match pat, path with
  | [], [] => Some (if mount then [("*", "/")] else [])
  | [], rest => if mount then Some [("*", join rest)] else None
  | p :: pat, s :: rest =>
      match placeholder p with
      | Some name => cons (name, s) <$> match_segments mount pat rest
      | None => if p =?= s then match_segments mount pat rest else None
      end
  | _ :: _, [] => None
  end.
Definition well_named (pattern : string) (params : list (string * string)) : bool :=
  forallb (fun kv => (kv.1 =?= "*") || Contains pattern ("{" +:+ kv.1 +:+ "}")) params.
Definition toy_match (method path : string) (e : option string * string) : option (nat * list (string * string)) :=
  let pat := segments e.2 in
  let found := match e.1 with
               | Some m => if m =?= method then match_segments false pat (segments path) else None
               | None => match_segments true pat (segments path)
               end in
  match found with Some ps => if well_named e.2 ps then Some (length pat, ps) else None | None => None end.
(** The entry that matches with the longest pattern. *)
Fixpoint toy_best (method path : string) (i : nat) (es : list (option string * string))
    : option (nat * (nat * list (string * string))) :=
  match es with
  | [] => None
  | e :: rest =>
      match toy_match method path e, toy_best method path (S i) rest with
      | Some (n, ps), Some (j, (m, qs)) => if Nat.leb m n then Some (i, (n, ps)) else Some (j, (m, qs))
      | Some (n, ps), None => Some (i, (n, ps))
      | None, best => best
      end
  end.
Definition toy_find (es : list (option string * string)) (method path : string) (params : string -> string) : Lookup :=
  let rest := if params "*" =?= "" then path else params "*" in
  match toy_best method rest 0 es with Some (i, (_, ps)) => Found i ps | None => NotFound end.

Section toy.
Context {S : Type} (notFound : Handler S).
Definition toy_dispatch (rs : Routes S) (sel : nat -> option (Handler S)) : Handler S := fun r s =>
  match toy_find (patterns rs) (Req_Method r) (Req_Path r) (URLParam r) with
  | Found i params => match sel i with Some h => h (set_params params r) s | None => notFound r s end
  | _ => notFound r s
  end.
Fixpoint toy_select (rs : Routes S) (i : nat) : option (Handler S) :=
  match rs, i with
  | NoRoutes, _ => None
  | Method _ _ inline h _, O => Some (chain inline h)
  | Mount _ inline stack sub _, O => Some (chain inline (chain stack (toy_dispatch sub (toy_select sub))))
  | Method _ _ _ _ rest, Datatypes.S i | Mount _ _ _ _ rest, Datatypes.S i => toy_select rest i
  end.
End toy.
#[export] Instance toy_chi S : Chi S := {|
  chi_find := toy_find;
  chi_ServeHTTP nf _ stack rs := chain stack (toy_dispatch nf rs (toy_select nf rs))
|}.
Lemma toy_best_found method path es i j n ps : toy_best method path i es = Some (j, (n, ps)) ->
  exists e, es !! (j - i)%nat = Some e /\ (i <= j)%nat /\ toy_match method path e = Some (n, ps).
Proof.
  revert i j n ps. induction es as [|e es IH]; intros i j n ps; [done|]. cbn [toy_best].
  destruct (toy_match method path e) as [[n1 ps1]|] eqn:E1;
    destruct (toy_best method path (S i) es) as [[j2 [n2 ps2]]|] eqn:E2; [destruct (Nat.leb n2 n1)|..]; intros; simplify_eq.
  all: try (exists e; rewrite Nat.sub_diag; by split_and!).
  all: destruct (IH (S i) j n ps E2) as (e' & He & Hi & Hm); exists e'; split_and!; [|lia|done];
    replace (j - i)%nat with (S (j - S i)) by lia; done.
Qed.
Lemma append_assoc a b c : (a +:+ b) +:+ c = a +:+ b +:+ c.
Proof. induction a as [|x a IH]; [done|]. exact (f_equal (String x) IH). Qed.
Lemma contains_split p l : contains p l = true -> exists a b, l = (a ++ p ++ b)%list.
Proof.
  assert (Hhere : forall l, negb (is_nil (strip_prefix p l)) = true -> exists a b, l = (a ++ p ++ b)%list).
  { intros l' Hp. destruct (strip_prefix p l') as [r|] eqn:E; [|discriminate Hp]. exists [], r. exact (strip_prefix_Some _ _ _ E). }
  induction l as [|x l IH]; cbn [contains]; intros [Hp|Hp]%orb_true_iff; [by apply Hhere|done|by apply Hhere|].
  destruct (IH Hp) as (a & b & ->). by exists (x :: a), b.
Qed.
Lemma Contains_names p k : Contains p ("{" +:+ k +:+ "}") = true -> exists a b, p = a +:+ "{" +:+ k +:+ "}" +:+ b.
Proof.
  unfold Contains. intros (a & b & Hp)%contains_split. exists (of_bytes a), (of_bytes b).
  apply (f_equal of_bytes) in Hp. rewrite !bytes_append, !of_bytes_app, !of_bytes_bytes in Hp. rewrite Hp. clear.
  by rewrite !append_assoc.
Qed.
#[export] Instance toy_chi_laws S : @ChiLaws S (toy_chi S).
Proof.
  split.
  - intros nf na stack rs r s. cbn [chi_ServeHTTP toy_chi].
    assert (Hsel : forall rs, toy_select nf rs = select nf na rs).
    { clear. intros rs. apply functional_extensionality. induction rs as [|m p inline h rest IH|p inline stack sub _ rest IH];
        intros [|i]; cbn; auto. }
    assert (Hd : toy_dispatch nf rs (toy_select nf rs) = dispatch_found nf na rs); [|by rewrite Hd].
    rewrite Hsel. apply functional_extensionality. intros r'. apply functional_extensionality. intros s'.
    unfold toy_dispatch, dispatch_found. cbn [chi_find toy_chi]. destruct (toy_find _ _ _ _) eqn:E; try done.
    unfold toy_find in E. by repeat case_match.
  - intros es method path params i found kv. cbn [chi_find toy_chi]. unfold toy_find.
    destruct (toy_best _ _ _ _) as [[j [n ps]]|] eqn:E; [|done]. intros [= -> ->] Hin.
    apply toy_best_found in E as (e & He & _ & Hm). exists e. rewrite Nat.sub_0_r in He. split; [done|].
    unfold toy_match in Hm. destruct (match e.1 with Some _ => _ | None => _ end) as [qs|]; [|done].
    destruct (well_named e.2 qs) eqn:Ew; [|done]. injection Hm as _ ->. unfold well_named in Ew.
    rewrite forallb_forall in Ew. specialize (Ew kv (proj1 (list_elem_of_In _ _) Hin)).
    apply orb_true_iff in Ew as [Ew%beq_eq|Ew]; [by left|right]. by apply Contains_names.
Qed.

(** ** A deployment *)
#[local] Existing Instance demo_web.
#[local] Existing Instance demo_auth.
#[local] Existing Instance demo_jwt.
#[local] Existing Instance demo_net.
#[local] Existing Instance demo_platform.
#[local] Existing Instance exact_float.
#[local] Instance demo_sender : Sender := LogSender.
#[local] Instance web_invite : InviteConfig := {|
  invite_ttl := 72 * Hour; invite_baseURL := "https://x.io/"; invite_queue := None;
  format_RFC3339 _ := "t"; unmarshal_email _ := None; unmarshal_redeliver _ := None
|}.
#[local] Instance web_keys : ApiKeyConfig :=
  {| defaultTTL := 90 * 24 * Hour; maxTTL := 365 * 24 * Hour; format_days _ := "365"; unmarshal_sweep _ := None |}.
#[local] Instance web_time : GoTime :=
  {| date_Format _ := "2026-01-02"; date_Parse _ := None; time_ParseRFC3339 _ := None |}.
#[local] Instance web_limiter : Limiter unit := noopLimiter unit (fun _ => 0%Z).
#[local] Instance web_context : RouteContext := {| RoutePattern r := Req_Path r |}.
Definition web_policy (name : string) : Policy := {| Policy_Name := name; Limit_ := 10; Period := Minute |}.
Definition web_deps : Dependencies (World * (Observations * unit)) := {|
  MaxBodyBytes_ := 1048576; Health := [("database", true)];
  AuthHandler_ := true; AuthMW := true; OrgHandler := true; OrgMW := true; TeamsHandler_ := true; Projects_ := true;
  Tasks_ := true; Invitations_ := true; APIKeys_ := true; AuditHandler_ := true;
  RateLimit_ := Some true;
  RateLimits := {| Policies_Auth := web_policy "auth"; Policies_User := web_policy "user"; Policies_APIKey := web_policy "key" |};
  Metrics_ := None
|}.
Definition web_request (method path key : string) : Request := {|
  Req_Method := method; Req_Path := path; Req_RemoteAddr := "8.8.8.8:4000";
  Header_Get k := if k =?= apiKeyHeader then key else if k =?= "X-Request-ID" then "abc" else "";
  URLParam _ := ""; Req_Query := []; Req_Body := ""; Req_MaxBytes := None;
  ctx_Principal := None; ctx_Tenant := None; ctx_RequestID := ""; ctx_TraceID := ""
|}.
Definition keys_of_1 : string := "/api/v1/organizations/" +:+ uuid_String 1%N +:+ "/api-keys".
Definition web_state : World * (Observations * unit) := (demo_keyed 9000000 None, (no_observations, tt)).
Example served : Status (ServeHTTP web_deps (web_request "GET" keys_of_1 demo_raw) web_state).1 = 200%Z.
Proof. vm_compute. reflexivity. Qed.
Example not_served : Status (ServeHTTP web_deps (web_request "GET" keys_of_1 "") web_state).1 = 401%Z.
Proof. vm_compute. reflexivity. Qed.
Example other_organization :
  Status (ServeHTTP web_deps (web_request "GET" ("/api/v1/organizations/" +:+ uuid_String 2%N +:+ "/api-keys") demo_raw) web_state).1 = 401%Z.
Proof. vm_compute. reflexivity. Qed.
Example unknown_route : Status (ServeHTTP web_deps (web_request "GET" "/nothing" "") web_state).1 = 404%Z.
Proof. vm_compute. reflexivity. Qed.
Lemma web_metrics : metrics_ok web_deps.
Proof. intros h Hh. discriminate Hh. Qed.
Lemma every_response_witness : exists tid,
  Headers (ServeHTTP web_deps (web_request "GET" "/nothing" "") web_state).1 !! TraceIDHeader = Some tid /\ trace_id tid.
Proof.
  refine (proj1 (proj2 (every_response web_deps (web_request "GET" "/nothing" "") web_state web_metrics _ eq_refl))).
  intros t n b E. injection E as <-. split; [apply repeat_length|].
  apply List.Forall_forall. intros x Hx%repeat_spec. subst x. by apply N.mod_lt.
Defined.
Abbreviation key_call := (web_request "GET" keys_of_1 demo_raw).
Lemma api_authorized_witness : exists pr tenant,
  presents key_call (w_db web_state.1) (uuid_String 1%N) pr /\
  authorized (w_db web_state.1) (Principal_UserID pr) 1 APIKeysManage tenant.
Proof.
  destruct (route_of web_deps key_call) as [t|] eqn:E; cycle 1.
  { apply (f_equal (fun x => match x with Some _ => true | None => false end)) in E. vm_compute in E. discriminate E. }
  assert (Hp : required (T_Method t) (T_Pattern t) = Some APIKeysManage).
  { apply (f_equal (fun x => match x with Some t => required (T_Method t) (T_Pattern t) | None => None end)) in E.
    rewrite <- E. vm_compute. reflexivity. }
  assert (Ho : T_Params t orgID = uuid_String 1%N).
  { apply (f_equal (fun x => match x with Some t => T_Params t orgID | None => "" end)) in E. rewrite <- E. vm_compute. reflexivity. }
  pose proof (api_authorized web_deps key_call web_state t APIKeysManage web_metrics eq_refl eq_refl E Hp) as Ht.
  assert (Hs : failed_b (ServeHTTP web_deps key_call web_state).1 = false) by (vm_compute; reflexivity).
  destruct (ServeHTTP web_deps key_call web_state) as [resp s'].
  destruct Ht as [[Hf _]|(o & pr & tenant & d & Hpar & Hpres & Ha & _)].
  { apply failed_spec in Hf. cbn in Hs. congruence. }
  exists pr, tenant. rewrite Ho in Hpar, Hpres. split; [exact Hpres|].
  assert (Heq : uuid_Parse (uuid_String 1%N) = Some 1%N) by (vm_compute; reflexivity).
  rewrite Heq in Hpar. injection Hpar as <-. exact Ha.
Defined.
Lemma api_anonymous_witness :
  w_db (ServeHTTP web_deps (web_request "DELETE" (keys_of_1 +:+ "/" +:+ uuid_String 90%N) "") web_state).2.1 = w_db web_state.1.
Proof.
  apply (api_anonymous web_deps (web_request "DELETE" (keys_of_1 +:+ "/" +:+ uuid_String 90%N) "") web_state web_metrics eq_refl eq_refl).
  - split; vm_compute; reflexivity.
  - intros t E. apply (f_equal (fun x => match x with Some t => public (T_Method t) (T_Pattern t) | None => false end)) in E.
    rewrite <- E. vm_compute. reflexivity.
Defined.
(** A request without credentials for a route below an organization. *)
Abbreviation bare_call := (web_request "GET" keys_of_1 "").
Lemma tenant_routes_closed_witness : failed (ServeHTTP web_deps bare_call web_state).1 \/
  exists pr p tenant, p ∈ All /\ authorized (w_db web_state.1) (Principal_UserID pr) 1 p tenant.
Proof.
  destruct (route_of web_deps bare_call) as [t|] eqn:E; cycle 1.
  { apply (f_equal (fun x => match x with Some _ => true | None => false end)) in E. vm_compute in E. discriminate E. }
  assert (Hp : HasPrefix (T_Pattern t) "/api/v1/organizations/{orgID}" = true).
  { apply (f_equal (fun x => match x with Some t => HasPrefix (T_Pattern t) "/api/v1/organizations/{orgID}" | None => false end)) in E.
    rewrite <- E. vm_compute. reflexivity. }
  assert (Ho : T_Params t orgID = uuid_String 1%N).
  { apply (f_equal (fun x => match x with Some t => T_Params t orgID | None => "" end)) in E. rewrite <- E. vm_compute. reflexivity. }
  pose proof (tenant_routes_closed web_deps bare_call web_state t web_metrics eq_refl eq_refl E Hp) as Ht.
  destruct (ServeHTTP web_deps bare_call web_state) as [resp s'].
  destruct Ht as [[Hf _]|(o & pr & p & tenant & d & Hpar & _ & Hin & Ha & _)]; [left; exact Hf|right].
  exists pr, p, tenant. rewrite Ho in Hpar. assert (Heq : uuid_Parse (uuid_String 1%N) = Some 1%N) by (vm_compute; reflexivity).
  rewrite Heq in Hpar. injection Hpar as <-. split; [exact Hin|exact Ha].
Defined.
