(* ===== verification/ApiMain.v ===== *)
(** * The API process

    Models the startup of [cmd/api/main.go] and the role check of
    [internal/database/database.go]: configuration, the check of the database role in
    production, the queue, the services' settings, the rate limiter and the router they are
    handed to.  Connecting, listening and shutting down are the libraries'. *)
From S2P Require Import Prelude.
From S2P Require Import GoError.
From S2P Require Import Schema.
From S2P Require Import Store.
From S2P Require Import Logic.
From S2P Require Import GoStrings.
From S2P Require Import GoNet.
From S2P Require Import Demo.
From S2P Require Import QueueDemo.
From S2P Require Import Jobs.
From S2P Require Import Config.
From S2P Require Import Delivery.
From S2P Require Import Invitations.
From S2P Require Import ApiKeys.
From S2P Require Import WorkerMain.
From S2P Require Import Http.
From S2P Require Import RateLimit.
From S2P Require Import RateProps.
From S2P Require Import Auth.
From S2P Require Import AuthHttp.
From S2P Require Import Endpoint.
From S2P Require Import Observers.
From S2P Require Import Routing.
From S2P Require Import Router.
From S2P Require Import RouterDemo.
Local Open Scope string_scope.

(** ** The database role *)

(** What [pg_roles] says of the role the process connects as.  A role that is neither a
    superuser nor exempt is subject to row-level security. *)
Class PgRole := { rolsuper : bool; rolbypassrls : bool }.
Class PgRoleLaws `{Env} `{PgRole} : Prop := {
  rls_applies : rolsuper = false -> rolbypassrls = false -> bypass_rls = false
}.
Definition validateRLSRole (superuser bypassRLS : bool) : option error :=
  if superuser || bypassRLS
  then Some (ErrorsNew "application database role must not be superuser or have BYPASSRLS") else None.
Definition CheckRLSRole `{Env} `{PgRole} : M unit :=
  r <- wrapf "inspect application database role" (query (fun _ _ => Ok (rolsuper, rolbypassrls))) ;;
  invalid_if (validateRLSRole r.1 r.2).

(** ** Wiring *)
Section main.
Context `{Env} `{AEAD} `{Platform} `{RedisServer} `{GoNet} `{GoTime} `{JwtParser} `{Float64} `{RouteContext} `{PgRole}.
#[local] Abbreviation State := (World * (Observations * Limits))%type.
Context `{!Chi State}.
Variable cfg : Config.
Variables (rfc3339 days : Z -> string) (appMetrics : Handler State) (dependencies_up : list (string * bool)).

(** [rateLimitPolicy] and [jobEncryptionKey] *)
Definition rateLimitPolicy (name : string) (c : RateLimitPolicyConfig) : Policy :=
  {| Policy_Name := name; Limit_ := RL_Limit c; Period := RL_Period c |}.
Definition jobEncryptionKey : string :=
  if negb (Jobs_EncryptionKey (Jobs_ cfg) =?= "") then Jobs_EncryptionKey (Jobs_ cfg) else "jwt/" +:+ JWT_Secret (JWT cfg).
Definition job_options : Options := {|
  Opt_EncryptionKey := jobEncryptionKey; Opt_MaxAttempts := Jobs_MaxAttempts (Jobs_ cfg);
  Opt_RetryBaseDelay := Jobs_RetryBaseDelay (Jobs_ cfg); Opt_RetryMaxDelay := Jobs_RetryMaxDelay (Jobs_ cfg)
|}.
(** The settings of the services. *)
Definition auth_config : AuthConfig := {|
  jwt_secret := JWT_Secret (JWT cfg); jwt_issuer := JWT_Issuer (JWT cfg);
  accessTTL := JWT_AccessTTL (JWT cfg); refreshTTL := JWT_RefreshTTL (JWT cfg)
|}.
Definition mailSender : Sender := if Mail_Transport cfg =?= MailTransportNone then DiscardSender else LogSender.
Definition invite_config (jobQueue : Queue) : InviteConfig := {|
  invite_ttl := Invite_TTL (Invite cfg); invite_baseURL := Invite_BaseURL (Invite cfg);
  invite_queue := Some (Queue_Enqueuer jobQueue); format_RFC3339 := rfc3339;
  unmarshal_email := decode_email; unmarshal_redeliver := decode_organization
|}.
Definition apikey_config : ApiKeyConfig := {|
  defaultTTL := APIKey_DefaultTTL (APIKey cfg); maxTTL := APIKey_MaxTTL (APIKey cfg);
  format_days := days; unmarshal_sweep := decode_organization
|}.
Definition rate_limits : Policies := {|
  Policies_Auth := rateLimitPolicy "auth" (RateLimit_Auth (RateLimit cfg));
  Policies_User := rateLimitPolicy "user" (RateLimit_User (RateLimit cfg));
  Policies_APIKey := rateLimitPolicy "api_key" (RateLimit_APIKey (RateLimit cfg))
|}.
Definition dependencies : Dependencies State := {|
  MaxBodyBytes_ := HTTP_MaxBodyBytes (HTTP cfg); Health := dependencies_up;
  AuthHandler_ := true; AuthMW := true; OrgHandler := true; OrgMW := true; TeamsHandler_ := true; Projects_ := true;
  Tasks_ := true; Invitations_ := true; APIKeys_ := true; AuditHandler_ := true;
  RateLimit_ := if RateLimit_Enabled (RateLimit cfg) then Some (RateLimit_FailOpen (RateLimit cfg)) else None;
  RateLimits := rate_limits; Metrics_ := Some appMetrics
|}.
Definition api_handler (jobQueue : Queue) : Handler State :=
  @ServeHTTP _ auth_config _ mailSender (invite_config jobQueue) apikey_config _ _ _ _ _ _ _ _ dependencies _.
End main.

Section run.
Context `{Env} `{AEAD} `{Platform} `{RedisServer} `{GoNet} `{GoTime} `{JwtParser} `{Float64} `{RouteContext} `{PgRole}.
Context `{!Chi (World * (Observations * Limits))}.
(** [run], up to the listener. *)
Definition run_start (env : Environ) (rfc3339 days : Z -> string) (appMetrics : Handler (World * (Observations * Limits)))
    (dependencies_up : list (string * bool)) : M (Config * Handler (World * (Observations * Limits))) :=
  cfg <- ret_result (Load env) ;;
  (if IsProduction cfg then wrapf "verify production database role" CheckRLSRole else ret tt) ;;;
  jobQueue <- wrapf "build job queue" (ret_result (NewQueue true (job_options cfg))) ;;
  ret (cfg, api_handler cfg rfc3339 days appMetrics dependencies_up jobQueue).
End run.

(** ** What a started process has checked *)
Section started.
Context `{Env} `{AEAD} `{Platform} `{RedisServer} `{GoNet} `{GoTime} `{JwtParser} `{Float64} `{RouteContext} `{PgRole} `{!PgRoleLaws}.
Context `{!Chi (World * (Observations * Limits))}.

Lemma policy_valid name c : name <> "" -> (1 <= RL_Limit c)%Z -> (0 < RL_Period c)%Z ->
  Policy_validate (rateLimitPolicy name c) = None.
Proof.
  intros Hn Hl Hp. unfold Policy_validate. cbn. apply (beq_false name "") in Hn as ->.
  destruct (Z.ltb_spec (RL_Limit c) 1); [lia|]. destruct (Z.leb_spec (RL_Period c) 0); [lia|done].
Qed.
Lemma loaded_policies env cfg : Load env = Ok cfg ->
  Policy_validate (Policies_Auth (rate_limits cfg)) = None /\ Policy_validate (Policies_User (rate_limits cfg)) = None /\
  Policy_validate (Policies_APIKey (rate_limits cfg)) = None.
Proof.
  intros (_ & _ & Hp)%Load_Ok_inv. apply problems_nil in Hp as (_ & _ & _ & _ & _ & _ & _ & _ & _ & Hr & _).
  unfold rate_problems, policy_problems in Hr. config_rules. split_and!; apply policy_valid; done || lia.
Qed.
Lemma CheckRLSRole_Ok w w' : CheckRLSRole w = (Ok tt, w') -> bypass_rls = false /\ w_db w' = w_db w.
Proof.
  unfold CheckRLSRole. intros E. apply bind_Ok in E as (r & w1 & Eq%wrapf_Ok & E).
  apply query_Ok in Eq as (-> & c & [= <-] & _). cbn [fst snd] in E. unfold validateRLSRole in E.
  destruct (rolsuper || rolbypassrls) eqn:Er; [done|]. apply orb_false_iff in Er as [Hs Hb]. apply ret_Ok in E as [_ <-].
  split; [by apply rls_applies|done].
Qed.

(** C28. A process that starts has a configuration that loads and serves with it; its three rate
    limits are policies the limiter accepts; it queues jobs exactly as the worker with the
    same configuration reads them; and in production row-level security applies to its
    database role.  Starting changes nothing in the database. *)
Theorem api_started env rfc3339 days appMetrics ups w cfg h w' :
  run_start env rfc3339 days appMetrics ups w = (Ok (cfg, h), w') ->
  Load env = Ok cfg /\ w_db w' = w_db w /\
  (exists jobQueue, NewQueue true (queue_options cfg) = Ok jobQueue /\
     h = api_handler cfg rfc3339 days appMetrics ups jobQueue) /\
  Policy_validate (Policies_Auth (rate_limits cfg)) = None /\ Policy_validate (Policies_User (rate_limits cfg)) = None /\
  Policy_validate (Policies_APIKey (rate_limits cfg)) = None /\
  (App_Env cfg = EnvProduction -> bypass_rls = false).
Proof.
  unfold run_start. intros E. apply bind_Ok in E as (c & w1 & [Hl <-]%ret_result_Ok & E).
  apply bind_Ok in E as ([] & w2 & Er & E). apply bind_Ok in E as (q & w3 & [Eq <-]%wrapf_Ok%ret_result_Ok & E).
  apply ret_Ok in E as [[= -> <-] <-].
  assert (Hc : w_db w2 = w_db w /\ (App_Env cfg = EnvProduction -> bypass_rls = false)).
  { unfold IsProduction in Er. destruct (App_Env cfg =?= EnvProduction) eqn:Ep.
    - apply wrapf_Ok, CheckRLSRole_Ok in Er as [Hb Hd]. by split.
    - apply ret_Ok in Er as [_ <-]. split; [done|]. intros Hp. by apply beq_false in Ep. }
  destruct Hc as [Hd Hb]. destruct (loaded_policies env cfg Hl) as (Ha & Hu & Hk). split_and!; try done. by exists q.
Qed.

End started.

(** ** The example configuration starts *)
#[local] Existing Instances demo demo_aead demo_platform demo_redis demo_net exact_float.
#[local] Instance app_role : PgRole := {| rolsuper := false; rolbypassrls := false |}.
#[local] Instance app_role_laws : PgRoleLaws.
Proof. split. reflexivity. Qed.
#[local] Instance app_time : GoTime :=
  {| date_Format _ := "2026-01-02"; date_Parse _ := None; time_ParseRFC3339 _ := None |}.
#[local] Existing Instance demo_jwt.
#[local] Instance app_context : RouteContext := {| RoutePattern r := Req_Path r |}.
Definition no_metrics : Handler (World * (Observations * Limits)) := fun r s => (respond 200 None, s).
Lemma api_started_witness : bypass_rls = false /\
  Policy_validate (Policies_Auth (rate_limits (read_config example_env))) = None.
Proof.
  destruct (run_start example_env no_text no_text no_metrics [] (demo_world demo_DB)) as [[[cfg h]|e] w'] eqn:E.
  - destruct (api_started example_env no_text no_text no_metrics [] _ cfg h w' E) as (Hl & _ & _ & Hp & _ & _ & Hb).
    assert (Hc : Load example_env = Ok (read_config example_env)) by (vm_compute; reflexivity).
    rewrite Hc in Hl. injection Hl as <-. split; [|exact Hp]. apply Hb. vm_compute. reflexivity.
  - apply (f_equal (fun x => match x.1 with Ok _ => true | Err _ => false end)) in E. vm_compute in E. discriminate E.
Defined.
