(* ===== verification/System.v ===== *)
(** * The whole system

    The API process and the worker process share one database.  A state is the world both
    see and the state of the API's rate limiter and metrics; a step is one HTTP request to
    the router, with any method, path, headers and body, the start of a worker, one round of a
    consumer, one tick of the worker's maintenance, or time passing and Redis changing by
    itself.  Requests and jobs run one after the other here: row locks and isolation are not
    modelled, so nothing is said about two of them that overlap (the last-owner check of
    [AssignMemberRole], for one, reads without a lock).  A process that dies halfway through an
    operation is one whose later statements all fail, so every theorem covers it.

    Whatever sequence of steps led to a state, its tables are well formed and every
    organization has an owner; every step moves the roster as its abstract machine may
    ([Roster]), and for a user only when the request's credentials resolve to that user; and an
    invitation stays what it was until its role is deleted ([Lifecycle]).  What
    follows for a client is at the end: an active member of an active organization is never
    refused for a missing row, and an organization can always be administered. *)
From S2P Require Import Prelude.
From S2P Require Import GoError.
From S2P Require Import Schema.
From S2P Require Import Store.
From S2P Require Import Logic.
From S2P Require Import Sql.
From S2P Require Import QueriesOrg.
From S2P Require Import Permissions.
From S2P Require Import Pagination.
From S2P Require Import Tenancy.
From S2P Require Import AuditTrail.
From S2P Require Import Authz.
From S2P Require Import Jobs.
From S2P Require Import Worker.
From S2P Require Import Json.
From S2P Require Import GoNet.
From S2P Require Import Auth.
From S2P Require Import Delivery.
From S2P Require Import Invitations.
From S2P Require Import ApiKeys.
From S2P Require Import Organizations.
From S2P Require Import Integrity.
From S2P Require Import Roster.
From S2P Require Import Lifecycle.
From S2P Require Import Ownership.
From S2P Require Import Services.
From S2P Require Import Decode.
From S2P Require Import Config.
From S2P Require Import WorkerMain.
From S2P Require Import Http.
From S2P Require Import RateLimit.
From S2P Require Import AuthHttp.
From S2P Require Import AuditService.
From S2P Require Import Endpoint.
From S2P Require Import TeamsHandler.
From S2P Require Import ProjectsHandler.
From S2P Require Import TasksHandler.
From S2P Require Import ApiKeysHandler.
From S2P Require Import AuditHandler.
From S2P Require Import InvitationsHandler.
From S2P Require Import AuthHandler.
From S2P Require Import OrganizationsHandler.
From S2P Require Import Middleware.
From S2P Require Import Observers.
From S2P Require Import Routing.
From S2P Require Import Router.
From S2P Require Import ApiMain.
From S2P Require Import Demo.
From S2P Require Import QueueDemo.
From S2P Require Import RateProps.
From S2P Require Import RouterDemo.
Local Open Scope string_scope.

(** ** A migrated database

    The migrations leave every table empty but the catalogue of permissions. *)
Definition permissions_000011 : list (string * string) :=
  [(OrganizationsRead, "Read organization details"); (OrganizationsUpdate, "Rename the organization");
   (MembersRead, "Read organization members"); (MembersManage, "Assign and manage member roles");
   (RolesRead, "Read organization roles and permissions");
   (RolesManage, "Create, update, and delete custom roles")].
Definition permissions_000012 : list (string * string) :=
  [(TeamsRead, "Read organization teams and team members");
   (TeamsManage, "Create, update, delete, and manage team members")].
Definition permissions_000013 : list (string * string) :=
  [(ProjectsRead, "Read organization projects and project activity"); (ProjectsCreate, "Create projects");
   (ProjectsUpdate, "Update projects"); (ProjectsDelete, "Delete projects")].
Definition permissions_000014 : list (string * string) :=
  [(TasksRead, "Read organization tasks and task activity"); (TasksCreate, "Create tasks in projects");
   (TasksUpdate, "Update tasks, including assignment"); (TasksDelete, "Delete tasks")].
Definition permissions_000016 : list (string * string) :=
  [(APIKeysManage, "Create, list, and revoke organization API keys")].
Definition permissions_000018 : list (string * string) := [(AuditRead, "Read the organization audit log")].
Definition catalogue : list (string * string) :=
  permissions_000011 ++ permissions_000012 ++ permissions_000013 ++ permissions_000014 ++
  permissions_000016 ++ permissions_000018.
Definition catalogue_entry (now : Z) (id : N) (kd : string * string) : N * Permission :=
  (id, {| Permission_ID := id; Permission_Key := kd.1; Permission_Description := kd.2; Permission_CreatedAt := now |}).
Definition migrated (d : DB) : Prop := exists now ids, NoDup ids /\ length ids = length catalogue /\
  d = set_permissions (list_to_map (zip_with (catalogue_entry now) ids catalogue)) empty_DB.

Lemma catalogue_keys : map fst catalogue = All.
Proof. reflexivity. Qed.
Lemma catalogue_row now (ids : list N) k p :
  (list_to_map (zip_with (catalogue_entry now) ids catalogue) : gmap N Permission) !! k = Some p ->
  exists i kd, ids !! i = Some k /\ catalogue !! i = Some kd /\ (k, p) = catalogue_entry now k kd.
Proof.
  intros (i & x & y & He & Hx & Hy)%elem_of_list_to_map_2%elem_of_lookup_zip_with.
  exists i, y. injection He as -> ->. done.
Qed.
Lemma table_empty {R} (key : R -> N) ok same : table_ok key ok same ∅.
Proof. by split. Qed.
Lemma migrated_roster d : migrated d -> roster d = no_roster.
Proof. intros (now & ids & _ & _ & ->). reflexivity. Qed.
Lemma migrated_good `{Env} d : migrated d -> good d.
Proof.
  intros (now & ids & Hd & Hl & ->). split; [|by intros o [x Hx]].
  split; try apply table_empty; [|by intros rp Hrp%not_elem_of_empty]. simpl. split.
  - intros k p (i & kd & _ & Hkd & [= ->])%catalogue_row. split; [done|].
    assert (Ha : Forall (fun kd => (btrim_nonempty kd.1 && btrim_nonempty kd.2)%bool = true) catalogue)
      by (apply List.Forall_forall, forallb_forall; vm_compute; reflexivity).
    by apply andb_true_iff, (Forall_lookup_1 _ _ _ _ Ha Hkd).
  - intros k k' p p' (i & kd & Hi & Hkd & [= ->])%catalogue_row (j & kd' & Hj & Hkd' & [= ->])%catalogue_row Hs.
    unfold agree in Hs. cbn in Hs. assert (Hn : NoDup (map fst catalogue)) by (apply (bool_decide_unpack _); vm_compute; exact I).
    assert (i = j) as -> by (eapply (NoDup_lookup _ _ _ _ Hn); rewrite list_lookup_fmap; [by rewrite Hkd|by rewrite Hkd', Hs]).
    congruence.
Qed.

(** ** The middleware: the last use of an API key is all it writes *)
Lemma unstamped_row `{Env} v k : api_key_row v (unstamped k) <-> api_key_row v k.
Proof. done. Qed.
Lemma unstamped_table `{Env} v t : table_ok ApiKey_ID (api_key_row v) (agree ApiKey_KeyHash) (unstamped <$> t) <->
  table_ok ApiKey_ID (api_key_row v) (agree ApiKey_KeyHash) t.
Proof.
  split; [|by apply table_fmap].
  intros [Hrow Hu]. split.
  - intros k r Hk. apply (Hrow k (unstamped r)). by rewrite lookup_fmap, Hk.
  - intros k k' r r' Hk Hk' Hs. eapply (Hu k k' (unstamped r) (unstamped r')); [by rewrite lookup_fmap, Hk|by rewrite lookup_fmap, Hk'|done].
Qed.
Lemma unstamped_good `{Env} d : good (set_api_keys (unstamped <$> api_keys d) d) <-> good d.
Proof.
  split; intros [W Hall]; (split; [destruct W; split; try assumption; by apply unstamped_table|exact Hall]).
Qed.
Lemma stamped_sound `{Env} who d d' : stamped d d' -> sound who d d'.
Proof.
  unfold stamped. intros Hs Hg. split; [apply unstamped_good; rewrite <- Hs; by apply unstamped_good|].
  split.
  - change (roster d) with (roster (set_api_keys (unstamped <$> api_keys d) d)). rewrite Hs. apply rtc_refl.
  - apply rtc_once. left. intros k i Hk. exists i. split; [|done].
    change (invitations d') with (invitations (set_api_keys (unstamped <$> api_keys d') d')). by rewrite <- Hs.
Qed.

(** ** Handlers and routes *)
Section routes.
Context `{Env} `{!AuthConfig} `{!JwtParser} `{!Sender} `{!InviteConfig} `{!ApiKeyConfig} `{Platform} `{GoTime} `{GoNet}
  `{Float64} `{RouteContext} {L : Type} `{Limiter L} `{Observed L}.
#[local] Existing Instance key_authenticator.
#[local] Existing Instance organizations_Authorizer.
#[local] Abbreviation State := (World * L)%type.

(** On whose behalf a request is served. *)
Definition actor (r : Request) : option N := Principal_UserID <$> ctx_Principal r.
Definition sound_route (method pattern : string) (h : Handler State) : Prop :=
  forall r s, sound (actor r) (w_db s.1) (w_db (h r s).2.1).
Lemma endpoint_route m p f : (forall r, pres (sound (actor r)) (f r)) -> sound_route m p (on_fst (endpoint f)).
Proof.
  intros Hf r s. unfold on_fst. destruct (Hf r s.1) as [_ Hd]. pose proof (endpoint_world f r s.1) as Hw.
  destruct (endpoint f r s.1). cbn in *. by rewrite Hw.
Qed.

(** The steps of a handler around its service call. *)
Lemma principal_pres R `{!PreOrder R} r : pres R (principal r).
Proof. unfold principal. pres_auto. Qed.
Lemma pathID_pres R `{!PreOrder R} r n : pres R (pathID r n).
Proof. unfold pathID. pres_auto. Qed.
Lemma current_user_pres R `{!PreOrder R} r : pres R (current_user r).
Proof. unfold current_user, principal. pres_auto. Qed.
Lemma caller_pres R `{!PreOrder R} r : pres R (caller r).
Proof. unfold caller, principal, pathID. pres_auto. Qed.
(** What runs after the caller is known runs for that caller. *)
Lemma caller_bind R `{!PreOrder R} {A} r (k : N * N -> M A) :
  (forall uo, actor r = Some uo.1 -> pres R (k uo)) -> pres R (uo <- caller r ;; k uo).
Proof.
  intros Hk. apply pres_bind_Ok; [apply _|by apply caller_pres|]. intros w uo w1 E. refine (Hk uo _ w1).
  unfold caller, principal in E. apply bind_Ok in E as (p & w2 & Ep & E). apply bind_Ok in E as (o & w3 & _ & E).
  apply ret_Ok in E as [<- _]. unfold actor. destruct (ctx_Principal r) as [x|]; [|done]. by apply ret_Ok in Ep as [<- _].
Qed.
Lemma current_user_bind R `{!PreOrder R} {A} r (k : N -> M A) :
  (forall u, actor r = Some u -> pres R (k u)) -> pres R (u <- current_user r ;; k u).
Proof.
  intros Hk. apply pres_bind_Ok; [apply _|by apply current_user_pres|]. intros w u w1 E. refine (Hk u _ w1).
  unfold current_user, principal in E. apply bind_Ok in E as (p & w2 & Ep & [<- _]%ret_Ok).
  unfold actor. destruct (ctx_Principal r) as [x|]; [|done]. by apply ret_Ok in Ep as [<- _].
Qed.
Lemma decode_pres R `{!PreOrder R} {T} (fs : list (Field T)) z r : pres R (decode fs z r).
Proof. unfold decode. pres_auto. Qed.
Lemma invalid_if_pres R `{!PreOrder R} e : pres R (invalid_if e).
Proof. unfold invalid_if. pres_auto. Qed.
Lemma page_request_pres R `{!PreOrder R} r : pres R (page_request r).
Proof. unfold page_request. pres_auto. Qed.
Lemma record_sound who r e : pres (sound who) (OrganizationsHandler.record r e).
Proof. unfold OrganizationsHandler.record. pres_auto. Qed.
Lemma tokenParam_pres R `{!PreOrder R} r n : pres R (InvitationsHandler.tokenParam r n).
Proof. unfold InvitationsHandler.tokenParam. pres_auto. Qed.
#[local] Hint Resolve principal_pres pathID_pres current_user_pres caller_pres decode_pres invalid_if_pres
  page_request_pres record_sound tokenParam_pres AuditHandler.parse_reads : teamflow_frame.

Ltac routes_auto :=
  intros; repeat match goal with
  | |- each _ _ (when _ _ _) => apply each_when; [intros _|]
  | |- each _ _ _ => first [assumption|exact I|split]
  | |- sound_route _ _ (on_fst _) => apply endpoint_route; intros r; cbv beta;
      try first [apply caller_bind; [apply _|intros ? ?]|apply current_user_bind; [apply _|intros ? ?]]; pres_auto
  end.
Lemma auth_routes_sound next : each sound_route "/api/v1" next -> each sound_route "/api/v1" (AuthRoutes next).
Proof. routes_auto. Qed.
Lemma organization_routes_sound next : each sound_route "/api/v1" next -> each sound_route "/api/v1" (OrganizationRoutes next).
Proof. routes_auto. Qed.
Lemma team_routes_sound next : each sound_route "/api/v1" next -> each sound_route "/api/v1" (TeamRoutes next).
Proof. routes_auto. Qed.
Lemma project_routes_sound next : each sound_route "/api/v1" next -> each sound_route "/api/v1" (ProjectRoutes next).
Proof. routes_auto. Qed.
Lemma task_routes_sound next : each sound_route "/api/v1" next -> each sound_route "/api/v1" (TaskRoutes next).
Proof. routes_auto. Qed.
Lemma invitation_routes_sound next : each sound_route "/api/v1" next -> each sound_route "/api/v1" (InvitationRoutes next).
Proof. routes_auto. Qed.
Lemma public_invitation_routes_sound next : each sound_route "/api/v1" next -> each sound_route "/api/v1" (PublicInvitationRoutes next).
Proof. routes_auto. Qed.
Lemma apikey_routes_sound next : each sound_route "/api/v1" next -> each sound_route "/api/v1" (APIKeyRoutes next).
Proof. routes_auto. Qed.
Lemma tenant_mount_sound deps next : each sound_route "/api/v1" next -> each sound_route "/api/v1" (mountTenantRoutes deps next).
Proof.
  intros Hn. unfold mountTenantRoutes.
  apply each_when_map; [apply organization_routes_sound|]. apply each_when_map; [apply team_routes_sound|].
  apply each_when_map; [apply project_routes_sound|]. apply each_when_map; [apply task_routes_sound|].
  apply each_when_map; [apply invitation_routes_sound|]. apply each_when_map; [apply apikey_routes_sound|].
  routes_auto.
Qed.
Lemma router_sound deps : metrics_ok deps -> each sound_route "" (NewRouter deps).
Proof.
  intros Hm. unfold NewRouter, metrics_route.
  assert (Ha : each sound_route "/api/v1" (APIRoutes deps)).
  { unfold APIRoutes.
    apply each_when_map; [intros; apply each_group; [apply auth_routes_sound; exact I|done]|].
    apply each_when_map; [intros; apply each_group; [apply public_invitation_routes_sound; exact I|done]|].
    apply each_when_map; [intros; apply each_group; [apply tenant_mount_sound; exact I|done]|exact I]. }
  split; [by intros r s Hg|]. split; [by intros r s Hg|].
  destruct (Metrics_ deps) as [h|] eqn:E; [|by split]. split; [|by split].
  intros r s. destruct (Hm h E r s) as [_ ->]. reflexivity.
Qed.

(** ** One request *)
Section application.
Context `{!Chi State} `{!ChiLaws} (deps : Dependencies State).
(** A request acts for nobody, or for a user its own credentials resolve to. *)
Definition credentials (r : Request) (d : DB) (who : option N) : Prop := forall u, who = Some u ->
  exists org p, presents r d org p /\ Principal_UserID p = u.
Lemma ServeHTTP_sound r s : metrics_ok deps -> ctx_Principal r = None -> URLParam r orgID = "" ->
  exists who, credentials r (w_db s.1) who /\ sound who (w_db s.1) (w_db (ServeHTTP deps r s).2.1).
Proof.
  intros Hm Hn Hu. destruct (ServeHTTP_ends deps r s Hu) as (id & tid & out & He & _ & _ & _ & ->).
  destruct He as [(_ & _ & (r1 & Hc))|(r1 & s1 & hs & o & Hc & _ & (t & Ht & -> & _) & ->)].
  - exists None. split; [done|]. exact (stamped_sound None _ _ (c_stamped _ _ Hc)).
  - exists (actor r1). split.
    + intros u Ha. unfold actor in Ha. destruct (ctx_Principal r1) as [p|] eqn:Hp; [|done]. injection Ha as <-.
      exists (URLParam r1 orgID), p. split; [by eapply carried_presents|done].
    + cbn [snd]. etrans; [exact (stamped_sound _ _ _ (c_stamped _ _ Hc))|].
      apply (route_each _ _ _ _ _ _ _ (router_sound deps Hm) Ht).
Qed.
End application.
End routes.

(** ** The worker *)
Section queue_reads.
Context `{Env} `{AEAD} `{Platform} `{RedisServer}.

(** The queue's own commands read the database at most. *)
Lemma pipeline_reads c fs : pres eq (pipeline c fs).
Proof.
  unfold pipeline. pres_step; [apply ctx_check_reads|]. induction fs as [|f fs IH]; [apply received_reads|]. cbn [exec].
  pres_step; [apply transmit_reads|]. pres_step; [by apply pres_attempt|]. pres_step; [apply value_reads|pres_auto].
Qed.
Lemma seal_reads q j : pres eq (seal q j).
Proof. unfold seal. pres_auto. Qed.
Lemma backoff_reads q n : pres eq (backoff q n).
Proof.
  unfold backoff. cbv zeta. destruct (Z.leb _ 0); [pres_auto|]. intros w. by destruct (rand_Int _ _).
Qed.
#[local] Hint Resolve ctx_check_reads command_reads run_command_reads value_reads pipeline_reads seal_reads backoff_reads : teamflow_frame.
Lemma Ack_reads c d : pres eq (Ack c d).
Proof. unfold Ack. pres_auto. Qed.
Lemma Fail_reads q c d e : pres eq (Fail_ q c d e).
Proof. unfold Fail_. pres_auto. Qed.
Lemma claimed_reads q r : pres eq (claimed q r).
Proof. unfold claimed. pres_auto. Qed.
#[local] Hint Resolve claimed_reads : teamflow_frame.
Lemma Read_reads q c n k : pres eq (Read q c n k).
Proof. unfold Read. pres_auto; apply command_reads. Qed.
Lemma RecoverStale_reads q c n i k : pres eq (RecoverStale q c n i k).
Proof. unfold RecoverStale. pres_auto; apply command_reads. Qed.
Lemma PromoteDue_reads q c n : pres eq (PromoteDue q c n).
Proof. unfold PromoteDue. pres_auto; apply run_command_reads. Qed.
End queue_reads.

Section worker.
Context `{Env} `{AEAD} `{Platform} `{RedisServer}.
Context (R : relation DB) `{!PreOrder R}.

(** What every handler keeps, every round of the worker keeps. *)
Definition handlers_keep (wk : Worker) : Prop := forall t h, handler_for wk t = Some h ->
  forall c job, pres R (h c job).

Ltac queue_step :=
  first [ pres_step | apply pres_ret; typeclasses eauto | apply pres_fail; typeclasses eauto
        | apply reads_pres; [typeclasses eauto|];
          first [apply Ack_reads | apply Fail_reads | apply Read_reads | apply RecoverStale_reads | apply PromoteDue_reads
                |apply ctx_check_reads | apply enqueue_reads] ].
Lemma handle_keeps wk c d : handlers_keep wk -> pres R (handle wk c d).
Proof.
  intros Hwk. unfold handle. destruct (Job_Type (Delivery_Job d) =?= ""); [repeat queue_step|].
  destruct (handler_for wk _) as [h|] eqn:E; [|repeat queue_step].
  pres_step; [apply pres_attempt; by eapply Hwk|]. repeat queue_step.
Qed.
Lemma handle_all_keeps wk c ds : handlers_keep wk -> pres R (handle_all wk c ds).
Proof. intros Hwk. unfold handle_all. pres_step. by apply handle_keeps. Qed.
Lemma consume_keeps wk c c' n : handlers_keep wk -> pres R (Worker.consume wk c c' n).
Proof. intros Hwk. unfold Worker.consume. repeat queue_step. by apply handle_all_keeps. Qed.
Lemma maintain_keeps wk c c' : handlers_keep wk -> pres R (maintain wk c c').
Proof. intros Hwk. unfold maintain. repeat queue_step. by apply handle_all_keeps. Qed.
End worker.

(** The handlers the binary registers. *)
Section registered.
Context `{Env} `{AEAD} `{Platform} `{RedisServer} `{GoNet} (who : option N) (cfg : Config) (rfc3339 days : Z -> string).
Lemma reschedule_sound q i (h : string -> M unit) c j : (forall p, pres (sound who) (h p)) -> pres (sound who) (reschedule q i h c j).
Proof.
  intros Hh. unfold reschedule. pres_step; [apply Hh|]. pres_step; [|pres_auto].
  apply reads_pres; [typeclasses eauto|]. apply enqueue_reads.
Qed.
Lemma registered_sound q wk : wk_handlers wk = ∅ -> handlers_keep (sound who) (register_all cfg rfc3339 days q wk).
Proof.
  intros Hwh t h Ht c j. unfold handler_for, register_all, Worker.Register in Ht. cbn [wk_handlers wk_queue] in Ht. rewrite Hwh in Ht.
  apply lookup_insert_Some in Ht as [[_ <-]|[_ Ht]]; [apply reschedule_sound; intros; pres_auto|].
  apply lookup_insert_Some in Ht as [[_ <-]|[_ Ht]]; [apply reschedule_sound; intros; pres_auto|].
  apply lookup_insert_Some in Ht as [[_ <-]|[_ Ht]]; [pres_auto|done].
Qed.
End registered.

(** ** The steps of the system *)
Section system.
Context `{Env} `{AEAD} `{Platform} `{RedisServer} `{GoNet} `{GoTime} `{JwtParser} `{Float64} `{RouteContext} `{PgRole}.
#[local] Abbreviation State := (World * (Observations * Limits))%type.
Context `{!Chi State} `{!ChiLaws}.
Variables (cfg : Config) (rfc3339 days : Z -> string) (appMetrics : Http.Handler State) (ups : list (string * bool)).
Variables (q : Queue) (host : string).

(** An operation takes a connection of its own from the pool: no transaction is open on it. *)
Definition idle (w : World) : World := set_tx None w.
(** The worker process of this configuration. *)
Definition the_worker : Worker :=
  register_all cfg rfc3339 days q (NewWorker q (worker_options cfg) host).

(** A request from outside (no principal and no path parameters yet), or the worker and the
    surroundings. *)
Inductive Event := Served (r : Request) | Background.
Inductive system_step : Event -> State -> State -> Prop :=
  | step_request r s : ctx_Principal r = None -> URLParam r orgID = "" ->
      system_step (Served r) s (api_handler cfg rfc3339 days appMetrics ups q r (idle s.1, s.2)).2
  | step_worker_start c s :
      system_step Background s ((WorkerMain.run_start c cfg rfc3339 days host (idle s.1)).2, s.2)
  | step_consume loopCtx jobCtx consumer s :
      system_step Background s ((Worker.consume the_worker loopCtx jobCtx consumer (idle s.1)).2, s.2)
  | step_maintain loopCtx jobCtx s :
      system_step Background s ((maintain the_worker loopCtx jobCtx (idle s.1)).2, s.2)
  | step_around s w o : w_db w = w_db s.1 -> system_step Background s (w, o).
Definition reaches : State -> State -> Prop := rtc (fun s s' => exists e, system_step e s s').

(** Who an event acts for: a user its credentials resolve to ([presents]), if anybody. *)
Definition acts_for (e : Event) (s : State) (who : option N) : Prop := forall u, who = Some u ->
  exists r org p, e = Served r /\ @presents _ (auth_config cfg) _ r (w_db s.1) org p /\ Principal_UserID p = u.

Lemma run_start_reads c : pres eq (WorkerMain.run_start c cfg rfc3339 days host).
Proof.
  assert (Hs : forall t i qu, pres eq (seed c qu t i)).
  { intros. unfold seed. pres_step; [apply pres_attempt; apply enqueue_reads|]. pres_auto. }
  unfold WorkerMain.run_start, registerHandlers. pres_step; [pres_auto|]. pres_step.
  { pres_step; [apply Hs|]. pres_step; [apply Hs|]. pres_auto. }
  pres_step; [unfold EnsureGroup; pres_auto; apply run_command_reads|]. pres_step; [|pres_auto].
  apply pres_attempt, PromoteDue_reads.
Qed.

(** Every step leads from good tables to good tables, by steps of the roster that its caller
    takes. *)
Lemma system_step_sound e s s' : metrics_ok (dependencies cfg appMetrics ups) -> system_step e s s' ->
  exists who, acts_for e s who /\ sound who (w_db s.1) (w_db s'.1).
Proof.
  intros Hm Hst.
  assert (Hrun : forall A (m : M A), pres (sound None) m -> acts_for Background s None /\ sound None (w_db s.1) (w_db (m (idle s.1)).2))
    by (intros A m Hp; split; [done|apply (Hp (idle s.1))]).
  pose proof (registered_sound None cfg rfc3339 days q (NewWorker q (worker_options cfg) host) eq_refl) as Hwk.
  destruct Hst as [r s Hn Hu|c s|c c' n s|c c' s|s w o Hd]; cbn [fst].
  - assert (Hx : exists who, @credentials _ (auth_config cfg) _ r (w_db s.1) who /\
      sound who (w_db s.1) (w_db (api_handler cfg rfc3339 days appMetrics ups q r (idle s.1, s.2)).2.1))
      by (unfold api_handler; exact (ServeHTTP_sound _ r (idle s.1, s.2) Hm Hn Hu)).
    destruct Hx as (who & Hwho & Hs). exists who. split; [|exact Hs]. intros u Hu'. destruct (Hwho u Hu') as (org & p & Hp & Hpu). by exists r, org, p.
  - exists None. apply Hrun, reads_pres; [apply _|apply run_start_reads].
  - exists None. apply Hrun. eapply consume_keeps; [apply _|exact Hwk].
  - exists None. apply Hrun. eapply maintain_keeps; [apply _|exact Hwk].
  - exists None. split; [done|]. by rewrite Hd.
Qed.
Lemma reachable_good s0 s : metrics_ok (dependencies cfg appMetrics ups) -> migrated (w_db s0.1) ->
  reaches s0 s -> good (w_db s.1).
Proof.
  intros Hm Hmig Hr. pose proof (migrated_good _ Hmig) as Hg. clear Hmig.
  induction Hr as [s|s s1 s2 [e Hst] _ IH]; [done|]. apply IH.
  destruct (system_step_sound e s s1 Hm Hst) as (who & _ & Hs). by apply Hs.
Qed.
End system.

(** ** What holds of every reachable state *)
Section reachable.
Context `{Env} `{AEAD} `{Platform} `{RedisServer} `{GoNet} `{GoTime} `{JwtParser} `{Float64} `{RouteContext} `{PgRole}.
#[local] Abbreviation State := (World * (Observations * Limits))%type.
Context `{!Chi State} `{!ChiLaws}.
Variables (cfg : Config) (rfc3339 days : Z -> string) (appMetrics : Http.Handler State) (ups : list (string * bool)).
Variables (q : Queue) (host : string) (s0 s : State).
Hypotheses (Hmetrics : metrics_ok (dependencies cfg appMetrics ups)) (Hmigrated : migrated (w_db s0.1))
  (Hreach : reaches cfg rfc3339 days appMetrics ups q host s0 s).

(** C3. The tables stay well formed.  From a freshly migrated database, whatever requests are
    sent and whatever jobs run, in whatever order, with whatever statement, commit or Redis
    command failing: every reference resolves, in the same organization where the schema
    means that, every CHECK holds, every key is unique, and the role of a membership is a
    role of its own organization, which no constraint of the schema enforces. *)
Theorem system_well_formed : wf (w_db s.1).
Proof. by apply (reachable_good cfg rfc3339 days appMetrics ups q host s0 s Hmetrics Hmigrated Hreach). Qed.

(** C4. No organization loses its last owner.  In every reachable state every organization has
    an active member whose role is its Owner system role with every permission of the
    catalogue. *)
Theorem system_owned : all_owned (w_db s.1).
Proof. by apply (reachable_good cfg rfc3339 days appMetrics ups q host s0 s Hmetrics Hmigrated Hreach). Qed.

(** C5. So an active organization can always be administered: in every reachable state some
    user passes, as its Owner, every permission check of the catalogue, as soon as the
    statements of the check itself do not fail. *)
Theorem system_administrable o org :
  organizations (w_db s.1) !! o = Some org -> Organization_Status org = "active" ->
  exists u t, has_user (w_db s.1) u /\ Tenant_RoleName t = "Owner" /\
    forall E : Env, (forall n, @env_fault E n = false) ->
    forall p, p ∈ All -> (@Authorize_ E u o p (idle s.1)).1 = Ok t.
Proof.
  intros Horg Hs. destruct (reachable_good cfg rfc3339 days appMetrics ups q host s0 s Hmetrics Hmigrated Hreach) as [W Hall].
  destruct (owned_authorized _ o org W (Hall o (mk_is_Some _ _ Horg)) Horg Hs) as (u & t & Hu & Hn & Ha).
  exists u, t. split_and!; [done..|]. intros E Hnf p Hp.
  destruct (Authorize_run Hnf u o p (idle s.1) eq_refl) as (w' & -> & _). by apply Ha.
Qed.

(** C6. An active member of an active organization is told the truth: the check answers with
    the member's tenant when the role of the membership grants the permission and with
    "forbidden" otherwise, never with "organization not found" because some row of the
    chain from membership to role is missing or belongs elsewhere. *)
Theorem system_member_resolves k m org :
  memberships (w_db s.1) !! k = Some m -> OrganizationMembership_Status m = "active" ->
  organizations (w_db s.1) !! OrganizationMembership_OrganizationID m = Some org -> Organization_Status org = "active" ->
  exists t, Tenant_MembershipID t = k /\ Tenant_RoleID t = OrganizationMembership_RoleID m /\
    forall E : Env, (forall n, @env_fault E n = false) -> forall p,
    (@Authorize_ E (OrganizationMembership_UserID m) (OrganizationMembership_OrganizationID m) p (idle s.1)).1 =
    if granted (w_db s.1) (OrganizationMembership_RoleID m) p then Ok t else Err (Sentinel ErrForbidden).
Proof.
  intros Hk Ha Horg Hs. destruct (reachable_good cfg rfc3339 days appMetrics ups q host s0 s Hmetrics Hmigrated Hreach) as [W _].
  destruct (tenant_of_member _ k m org W Hk Ha Horg Hs) as (r & _ & Ht).
  eexists. split_and!; [..|]; cycle 2.
  - intros E Hnf p. match goal with |- (Authorize_ ?u ?o _ _).1 = _ =>
      destruct (Authorize_run Hnf u o p (idle s.1) eq_refl) as (w' & -> & _) end.
    cbn [fst]. unfold authorize_spec. cbn [idle set_tx w_db]. rewrite Ht. reflexivity.
  - done.
  - done.
Qed.

(** C2. The two processes implement the roster.  Its tables start with the empty roster; from
    there every request and every job moves it only by steps of the abstract machine, taken
    by nobody or by a user the request's own credentials resolve to.  So an Owner is made and unmade by
    Owners only, an invitation is taken once and for its own role, an organization never
    loses its last Owner, and nobody is ever removed, deactivated or moved elsewhere. *)
Theorem system_implements_roster e s' : system_step cfg rfc3339 days appMetrics ups q host e s s' ->
  roster (w_db s0.1) = no_roster /\ roster_owned (roster (w_db s.1)) /\
  exists who, acts_for cfg e s who /\ rtc (roster_step who) (roster (w_db s.1)) (roster (w_db s'.1)) /\
    roster_grows (roster (w_db s.1)) (roster (w_db s'.1)).
Proof.
  intros Hst. pose proof (reachable_good cfg rfc3339 days appMetrics ups q host s0 s Hmetrics Hmigrated Hreach) as Hg.
  destruct (system_step_sound cfg rfc3339 days appMetrics ups q host e s s' Hmetrics Hst) as (who & Hwho & Hs).
  destruct (Hs Hg) as [_ [Hr _]]. split; [by apply migrated_roster|]. split; [by apply owned_roster|].
  exists who. split; [done|]. split; [done|by eapply roster_run_grows].
Qed.

End reachable.

(** ** A run: someone registers *)
#[local] Existing Instances demo_web demo_aead demo_platform demo_redis demo_net exact_float.
#[local] Existing Instances app_role app_time demo_jwt app_context toy_chi toy_chi_laws.
Definition the_config : Config := read_config example_env.
Definition the_queue : Queue := demo_queue.
Definition fresh_DB : DB := set_permissions (list_to_map (zip_with (catalogue_entry 0) (N.of_nat <$> seq 1 18) catalogue)) empty_DB.
Definition no_limits : Limits := {| lm_buckets := ∅; lm_now := 0; lm_server := 0; lm_fault := None |}.
Definition fresh_state : World * (Observations * Limits) := (demo_world fresh_DB, (no_observations, no_limits)).
Definition register_body : string := Marshal (JObj
  [("email", JStr "ada@example.com"); ("password", JStr "correct-horse-1"); ("first_name", JStr "Ada");
   ("last_name", JStr "L"); ("organization_name", JStr "Analytical Engines")]).
Definition call (method path token body : string) : Request := {|
  Req_Method := method; Req_Path := path; Req_RemoteAddr := "8.8.8.8:4000";
  Header_Get k := if k =?= "Authorization" then token else "";
  URLParam _ := ""; Req_Query := []; Req_Body := body; Req_MaxBytes := None;
  ctx_Principal := None; ctx_Tenant := None; ctx_RequestID := ""; ctx_TraceID := ""
|}.
Definition serve_demo (r : Request) (s : World * (Observations * Limits)) : Response * (World * (Observations * Limits)) :=
  api_handler the_config no_text no_text no_metrics [] the_queue r (idle s.1, s.2).
(** She registers, and then tries to make herself a Viewer. *)
Definition register_call : Request := call "POST" "/api/v1/auth/register" "" register_body.
Definition registered_state := (serve_demo register_call fresh_state).2.
Definition her_token : string := "Bearer " +:+ toy_token (uuid_String 1006%N) (uuid_String 1137%N).
Definition demote_call : Request :=
  call "PATCH" ("/api/v1/organizations/" +:+ uuid_String 1007%N +:+ "/members/" +:+ uuid_String 1130%N +:+ "/role") her_token
    (Marshal (JObj [("role_id", JStr (uuid_String 1116%N))])).
Definition demoted_state := (serve_demo demote_call registered_state).2.
Example demote_refused : let resp := (serve_demo demote_call registered_state).1 in
  (Status resp, match Resp_Body resp with ErrorResponse e => Body_Code e | _ => "" end) = (409%Z, "LAST_OWNER").
Proof. vm_compute. reflexivity. Qed.

Abbreviation demo_step_of_system := (system_step the_config no_text no_text no_metrics [] the_queue "worker").
Lemma metrics_quiet : metrics_ok (dependencies the_config no_metrics []).
Proof. intros h [= <-] r s. split; [apply quiet_content|done]. Qed.
Lemma fresh_migrated : migrated (w_db fresh_state.1).
Proof. exists 0%Z, (N.of_nat <$> seq 1 18). split; [apply (bool_decide_unpack _); vm_compute; exact I|]. by split. Qed.
Lemma registered_step : demo_step_of_system (Served register_call) fresh_state registered_state.
Proof. exact (step_request _ _ _ _ _ _ _ register_call fresh_state eq_refl eq_refl). Qed.
Lemma demoted_step : demo_step_of_system (Served demote_call) registered_state demoted_state.
Proof. exact (step_request _ _ _ _ _ _ _ demote_call registered_state eq_refl eq_refl). Qed.
Abbreviation demo_reaches := (reaches the_config no_text no_text no_metrics [] the_queue "worker").
Lemma demoted_reached : demo_reaches fresh_state demoted_state.
Proof.
  eapply rtc_l; [exists (Served register_call); exact registered_step|].
  eapply rtc_l; [exists (Served demote_call); exact demoted_step|]. apply rtc_refl.
Qed.
Definition row_of {R} (o : option R) (ok : R -> bool) : bool := match o with Some r => ok r | None => false end.
Lemma row_of_true {R} (o : option R) ok : row_of o ok = true -> exists r, o = Some r /\ ok r = true.
Proof. destruct o as [r|]; [|done]. by exists r. Qed.
Lemma her_organization : exists org, organizations (w_db demoted_state.1) !! 1007%N = Some org /\ Organization_Status org = "active".
Proof.
  destruct (row_of_true (organizations (w_db demoted_state.1) !! 1007%N) (fun o => Organization_Status o =?= "active")) as (org & Ho & Hs).
  { vm_compute. reflexivity. }
  exists org. split; [done|by apply beq_eq].
Qed.

Lemma system_well_formed_witness : wf (w_db demoted_state.1).
Proof. exact (system_well_formed the_config no_text no_text no_metrics [] the_queue "worker" _ _ metrics_quiet fresh_migrated demoted_reached). Defined.
Lemma system_owned_witness : owned (w_db demoted_state.1) 1007.
Proof.
  destruct her_organization as (org & Ho & _).
  exact (system_owned the_config no_text no_text no_metrics [] the_queue "worker" _ _ metrics_quiet fresh_migrated demoted_reached
    1007%N (mk_is_Some _ _ Ho)).
Defined.
(** Registering founds an organization with one member. *)
Lemma system_implements_roster_witness : exists who k s,
  rtc (roster_step who) no_roster (roster (w_db registered_state.1)) /\
  r_members (roster (w_db registered_state.1)) !! k = Some s /\ st_org s = 1007%N /\ st_user s = 1006%N.
Proof.
  destruct (system_implements_roster the_config no_text no_text no_metrics [] the_queue "worker" _ _ metrics_quiet fresh_migrated
    (rtc_refl _ fresh_state) _ registered_state registered_step) as (He & _ & who & _ & Hr & _).
  destruct (row_of_true (r_members (roster (w_db registered_state.1)) !! 1130%N) (fun s => (st_org s =?= 1007%N) && (st_user s =?= 1006%N))%bool)
    as (s & Hs & [Ho%beq_eq Hu%beq_eq]%andb_true_iff).
  { vm_compute. reflexivity. }
  rewrite He in Hr. exists who, 1130%N, s. split; [exact Hr|]. split; [exact Hs|]. split; [exact Ho|exact Hu].
Defined.
Lemma system_administrable_witness : exists u t, Tenant_RoleName t = "Owner" /\
  (Authorize_ u 1007 MembersManage (idle demoted_state.1)).1 = Ok t.
Proof.
  destruct her_organization as (org & Ho & Hs).
  destruct (system_administrable the_config no_text no_text no_metrics [] the_queue "worker" _ _ metrics_quiet fresh_migrated demoted_reached
    1007%N org Ho Hs) as (u & t & _ & Hn & Ha).
  exists u, t. split; [exact Hn|]. apply Ha; [reflexivity|]. apply (bool_decide_unpack _). vm_compute. exact I.
Defined.
Lemma system_member_resolves_witness : exists t, Tenant_MembershipID t = 1130%N /\
  (Authorize_ 1006 1007 AuditRead (idle demoted_state.1)).1 = Ok t.
Proof.
  destruct her_organization as (org & Ho & Hs).
  destruct (row_of_true (memberships (w_db demoted_state.1) !! 1130%N) (fun m =>
    (OrganizationMembership_Status m =?= "active") && (OrganizationMembership_OrganizationID m =?= 1007%N) &&
    (OrganizationMembership_UserID m =?= 1006%N) && granted (w_db demoted_state.1) (OrganizationMembership_RoleID m) AuditRead)%bool)
    as (m & Hm & Hok).
  { vm_compute. reflexivity. }
  apply andb_true_iff in Hok as [[[Ha%beq_eq Hmo%beq_eq]%andb_true_iff Hu%beq_eq]%andb_true_iff Hg].
  rewrite <- Hmo in Ho.
  destruct (system_member_resolves the_config no_text no_text no_metrics [] the_queue "worker" _ _ metrics_quiet fresh_migrated demoted_reached
    1130%N m org Hm Ha Ho Hs) as (t & Ht & _ & Hr).
  exists t. split; [exact Ht|]. specialize (Hr demo_web (fun _ => eq_refl) AuditRead). rewrite Hg, Hmo, Hu in Hr. exact Hr.
Defined.

(** She invites someone, revokes that, and then wants to send it again. *)
Definition organization_path : string := "/api/v1/organizations/" +:+ uuid_String 1007%N.
Definition invite_call : Request := call "POST" (organization_path +:+ "/invitations") her_token
  (Marshal (JObj [("email", JStr "bob@example.com"); ("role_id", JStr (uuid_String 1116%N))])).
Definition invited_state := (serve_demo invite_call registered_state).2.
Definition revoke_call : Request := call "POST" (organization_path +:+ "/invitations/" +:+ uuid_String 1164%N +:+ "/revoke") her_token "".
Definition revoked_state := (serve_demo revoke_call invited_state).2.
Definition resend_call : Request := call "POST" (organization_path +:+ "/invitations/" +:+ uuid_String 1164%N +:+ "/resend") her_token "".
Definition resent_state := (serve_demo resend_call revoked_state).2.
Lemma revoked_reached : demo_reaches fresh_state revoked_state.
Proof.
  eapply rtc_l; [exists (Served register_call); exact registered_step|].
  eapply rtc_l; [exists (Served invite_call); exact (step_request _ _ _ _ _ _ _ invite_call registered_state eq_refl eq_refl)|].
  eapply rtc_l; [exists (Served revoke_call); exact (step_request _ _ _ _ _ _ _ revoke_call invited_state eq_refl eq_refl)|].
  apply rtc_refl.
Qed.
Lemma resent_reached : demo_reaches revoked_state resent_state.
Proof.
  eapply rtc_l; [exists (Served resend_call); exact (step_request _ _ _ _ _ _ _ resend_call revoked_state eq_refl eq_refl)|].
  apply rtc_refl.
Qed.
